(* ===== verification/_CoqProject ===== *)
-Q . S2P
Prelude.v
GoStrings.v
Hash.v
Json.v
JsonFacts.v
Options.v
Net.v
Files.v
GoSet.v
Tools.v
Transport.v
KeyRace.v
HttpClient.v
LimitedList.v
Monitor.v
Chaosblade.v
Concurrent.v
Conn.v
Metric.v
Web.v
Agent.v
Collector.v
Watch.v
Resources.v
Ingress.v
VirtualNode.v
Reports.v
RoundSteps.v
ReportJson.v
Reference.v
Registry.v
Litmus.v
ChartClient.v
Startup.v
