(* ===== verification/Prelude.v ===== *)
(** * The chaosblade-box agent

    The agent runs on a host or in a Kubernetes cluster and carries out chaos
    experiments for a server.  At start it registers with the server and gets
    its keys (conn/connect), then sends heartbeats (conn/heartbeat) that a
    monitor can judge (monitor, which nothing starts), reports metrics and, in
    a cluster, the state of the resources (collector/kubernetes), and serves
    signed requests over HTTP (web): running the blade tool (web/handler/chaosblade.go), creating
    experiments of LitmusChaos (web/handler/litmuschaos) and managing itself.

    ** Files

    - [Prelude], [GoStrings], [Hash], [Json], [JsonFacts]: what the code uses
      of Go.  Outcomes ([Returns], [Panics], [Blocks]) and [(T, error)] results
      as monads; package strings and strconv on byte strings, with UTF-8
      decoding where Go decodes; MD5 and SHA-256 as functions on bytes;
      encoding/json as a tree, a printer and a parser with Go's escapes, number
      grammar and nesting limit, and the proof that parsing undoes printing.
    - [Options]: pkg/options.  [Net]: the addresses it accepts and finds
      (net.ParseIP and the interfaces).  [Files]: paths, archives, downloads
      and directories of pkg/tools over a file system.  [GoSet]: its set.
      [Tools]: keys, signatures, records on disk, signals, and pkg/bash.
      [LimitedList]: the bounded list of snapshots.
    - [Transport]: transport/*.go, requests, responses, the interceptors and
      [Invoke] over a channel (class [TransportChannel]).  [KeyRace]: the keys
      while a registration changes them under requests.  [HttpClient]:
      pkg/http, the channel the agent uses, an instance of that class.
    - [Monitor]: monitor/*.go and the tick of conn/heartbeat.  [Conn]: conn.go,
      connect, callback, close.  [Metric]: metricreport and conn/metric.
    - [Chaosblade]: web/handler/chaosblade.go with its polling loops and
      goroutines, and conn/asyncreport.  [Concurrent]: the same file with
      requests and goroutines interleaved around the mutex, as a transition
      system.  [Web]: web/api, web/server, the small handlers (class
      [ApiHandler] for what the server needs of a handler) and the pid file of
      cmd.  [Agent]: server, handler, goroutines and registration together,
      with the race of [KeyRace] before the handler.
    - [Collector]: the incremental report protocol that the collectors of
      collector/kubernetes share, over classes of resources and of links that
      are added late, and what its messages have said.  [Watch]: the
      list-watchers and the composite watch, its goroutines as a transition
      system.  [Resources], [Ingress], [VirtualNode]: what the collectors take
      from an object of the cluster.  [Reports]: the [Report] function of every
      collector.  [RoundSteps]: rounds interleaved at the grain of their locks,
      with calls that fail.
      [ReportJson]: the messages as JSON (class [Typed]).
    - [Reference], [Registry], [Litmus], [ChartClient]: pkg/helm3/registry
      (chart names; the chart cache and its client over the class [OCIStore]),
      pkg/helm3, web/handler/litmuschaos over the class [KubeApi] of the API
      server; building the client (class [AuthClient]) and the chart table.
    - [Startup]: [main] of cmd with the options, pkg/log and pkg/kubernetes,
      which puts the parts together.

    State is passed explicitly: options, the file system [OS], keys and time
    ([Env]), a handler's own record.  A goroutine is a value that a definition
    runs later ([Chaosblade.task], [Litmus.watch]) or a program counter of a
    transition system ([Watch.forward], [Concurrent.pc]); the order in which timers
    fire is a list given to the polling loops, and a choice of each step in the
    transition systems, which have no clock.  The order of a walk over a Go
    map is a parameter.  Everything outside the repository (blade, the shell,
    the network, the API server, oras, Helm, YAML) is a parameter; where a
    theorem relies on it, its promises are the fields of a class
    ([Registry.StoreLaws], [Litmus.KubeLaws]) or named hypotheses, and an
    instance in memory shows that they can hold.

    ** What the theorems show

    - Authentication: which requests pass ([Handle_decides]), that nothing else
      reaches a handler ([unauthenticated_is_inert]), that a peer's request
      does ([signed_request_is_served]), that changing signed parameters needs
      a collision ([tampering_needs_collision]), and where the protection ends
      ([sd_leaves_params_unsigned]).  Over the life of an agent: blade runs what
      signed requests ask for, and queries about it ([commands_need_a_signature]),
      but before a registration anyone can sign ([unregistered_agent_obeys]), and
      during one the two keys need not belong together ([keys_race]).
    - Calls to the server: the body that is posted and the answer that comes
      back ([Invoke_over_http]); no call without keys
      ([keyless_client_is_silent]).
    - Heartbeats: the monitor's decision as a function of the last snapshots
      ([check_decides], [runs_decide]), stop and start events alternate
      ([events_alternate]), the list keeps the newest ([keeps_newest]).
    - Experiments of blade: a request changes the record of what runs by its
      command alone ([exec_tracks]), which records only what was started
      ([running_started]); the handler and its loops end
      ([exec_returns], [waitForK8sStatus_ends], [timingCheckStatus_ends]) or
      panic in the cases named ([exec_panics]); each goroutine reports once
      ([runTask_reports]).
    - The same experiments with everything interleaved: a request that is not
      disturbed does what the sequential definition says ([solo_is_exec]); the
      mutex lets one in ([one_in_section]), nobody is stuck and every goroutine
      gets on ([goroutines_progress]);
      the record is a replay of the bookings ([record_replays]) and every run
      and booking has its request ([runs_are_requested]).  Defects: the
      callback of a java agent races ([record_races]), that race and a status
      that is not a string end the process, and nothing else in the handler does
      ([process_ends]), a create that is destroyed during its wait stays on record ([destroyed_stays_on_record]).
    - Cluster data.  The server is not part of the repository: the theorems are
      about what the messages that got through have said.  A report that is
      answered leaves that and the cache in agreement, one that is not empties
      the cache ([report_syncs]); after a round what was said is the cluster
      again ([report_mirrors], for pods with their links [pod_report_mirrors]),
      the round of the virtual nodes being two rounds
      ([virtual_round_is_two_rounds]); rounds that do not overlap keep the
      agreement whatever fails ([rounds_apart_agree]), rounds that overlap, as
      the ticker lets them, announce everything as gone ([overlap_erases]); the
      messages are JSON that decodes to exactly the increments and deletions of
      the round ([round_is_json]); the sweep finds exactly what is gone
      ([sweep_finds_gone]).  The composite watch delivers in order
      ([events_in_order]), does not panic unless stops overlap
      ([orderly_stops_safe], [concurrent_stops_panic]) and drains
      ([stopped_watch_drains]).  Losses: [failed_deletion_is_lost],
      [gone_pods_forgotten], [late_service_unlinked], [failed_watch_leaks].
    - LitmusChaos: the role of an experiment replaces the old one, of the kind
      its file names ([prepareLitmusRbac_installs]), the engine does not depend on map order
      ([engine_any_order]), the version follows the installations
      ([install_sets_version]), an experiment whose file could be cached can be
      created only once ([experiment_runs_once]).
    - Charts: references survive printing and parsing
      ([ParseReference_roundtrip]), ports are recognised exactly
      ([isValidPort_exact]), what was saved is what loads, and removed charts are gone
      ([saved_chart_loads], [removed_chart_is_gone]), the table lists the cache
      in order ([chart_table_lists]); there is a Helm exactly under the
      conditions of [GetHelmInstance_exact], and without one the operator's
      requests panic ([without_helm_requests_panic]).
    - Files and addresses: archives and downloads ([DeCompressTgz_unpacks],
      [Download_outcome]), directories ([metric_directory_recreated]), the
      addresses accepted and chosen ([isValidIP_exact], [GetPrivateIp_valid]).
    - Records, start and stop: a started agent is complete ([main_boots]), the
      client of the cluster is built once ([GetInstance_once]), uninstalling
      runs the script ([uninstall_runs_script]), [application_record_roundtrip],
      [registration_installs_keys], [Start_starts_enabled] and others; several
      theorems state defects of the code, such as [Stop_deadlocks],
      [failed_start_is_silent] and [InitApplicationInfo_drops_record].

    ** Fuel

    Loops that are not structural take fuel that is computed from the input
    and proved to be enough: [Split] cuts at most once per byte, the JSON
    parser gets twice the length of its text plus one ([jfuel_encode]),
    decimal printing one step per binary digit ([udigits_fuel]), sizes at most
    six units ([scale_fuel]).  The polling loops run over the list of timer
    events and their theorems say after which event they return.

    ** What is not modelled

    Parsing of flags (the parsed options are an argument), what is logged, the
    compressed stream and the tar headers of an archive (the entries are), and
    the objects that libraries build (client sets, Helm's configuration, oras'
    resolver), of which only the errors and results appear.  The informers of
    client-go: a round reads what they hold.  [CompressByGzip],
    [DecompressByGzip], [Helm.List] and the types of litmusdefault.go have no
    caller or only hand over to a library; version holds build-time variables,
    server/chaosblade is empty.  Outside [Watch], [Concurrent], [Agent],
    [KeyRace] and [RoundSteps] an operation of a component is atomic; in these
    a step of a goroutine is, so that a data race shows as two steps that are
    enabled together, and in [Concurrent] also as the fatal error the runtime
    makes of two accesses to a map. *)

From stdpp Require Export base gmap strings list sets option sorting.
From Stdlib Require Export ZArith Lia Ascii.

(** ** Outcomes of a piece of Go code *)

(** A call either comes back with a value, panics, or blocks for ever (a
    lock that is never released, a channel nobody serves). *)
Inductive outcome (A : Type) : Type :=
| Returns (a : A)
| Panics (why : string)
| Blocks.
Arguments Returns {A} a.
Arguments Panics {A} why.
Arguments Blocks {A}.

(** A Go [(T, error)] pair whose value is only used when the error is nil. *)
Inductive result (A : Type) : Type :=
| Ok (a : A)
| Err (e : string).
Arguments Ok {A} a.
Arguments Err {A} e.

#[global] Instance outcome_ret : MRet outcome := fun A => Returns.
#[global] Instance outcome_bind : MBind outcome := fun A B f m =>
  match m with
  | Returns a => f a
  | Panics w => Panics w
  | Blocks => Blocks
  end.
#[global] Instance result_ret : MRet result := fun A => Ok.
#[global] Instance result_bind : MBind result := fun A B f m =>
  match m with Ok a => f a | Err e => Err e end.

Lemma outcome_bind_returns {A B} (m : outcome A) (f : A -> outcome B) b :
  (m ≫= f) = Returns b -> exists a, m = Returns a /\ f a = Returns b.
Proof. destruct m; simpl; intros H; naive_solver. Qed.

Lemma result_bind_ok {A B} (m : result A) (f : A -> result B) b :
  (m ≫= f) = Ok b -> exists a, m = Ok a /\ f a = Ok b.
Proof. destruct m; simpl; intros H; naive_solver. Qed.

Definition is_ok {A} (r : result A) : bool :=
  match r with Ok _ => true | Err _ => false end.

(** ** Automation *)

Create HintDb go discriminated.

(** Split every [match] and [if] of the goal and drop impossible cases. *)
Ltac go_cases :=
  repeat (case_match; simplify_eq/=; try done).

(** Same for a hypothesis. *)
Ltac go_cases_in H :=
  repeat (simplify_eq/=; case_match; simplify_eq/=; try done).

(** Existentials and conjunctions in the context. *)
Ltac deex :=
  repeat match goal with
  | H : exists x, _ |- _ => let y := fresh x in destruct H as [y H]
  | H : _ /\ _ |- _ => destruct H
  end.

(** ** Lists *)

(** The last [n] elements of a list. *)
Definition lastn {A} (n : nat) (l : list A) : list A := drop (length l - n) l.

Section lists.
Context {A : Type}.
Implicit Types l : list A.

Lemma lastn_length n l : length (lastn n l) = Nat.min n (length l).
Proof. unfold lastn. rewrite length_drop. lia. Qed.

Lemma lastn_short n l : length l <= n -> lastn n l = l.
Proof. intros H. unfold lastn. replace (length l - n) with 0 by lia. done. Qed.

Lemma lastn_snoc n l x :
  lastn (S n) (l ++ [x]) = lastn n l ++ [x].
Proof.
  unfold lastn. rewrite length_app. simpl.
  replace (length l + 1 - S n) with (length l - n) by lia.
  rewrite drop_app_le by lia. done.
Qed.

Lemma lastn_cons n l x : length l = n -> lastn n (x :: l) = l.
Proof.
  intros <-. unfold lastn. change (length (x :: l)) with (S (length l)).
  replace (S (length l) - length l) with 1 by lia. done.
Qed.

Lemma lastn_lastn n m l : m <= n -> lastn m (lastn n l) = lastn m l.
Proof.
  intros H. unfold lastn. rewrite length_drop, drop_drop. f_equal. lia.
Qed.

Lemma prefix_snoc l l' x : l' `prefix_of` l ++ [x] -> l' `prefix_of` l \/ l' = l ++ [x].
Proof.
  intros [k E]. destruct k as [|y k _] using rev_ind.
  - right. by rewrite app_nil_r in E.
  - left. rewrite app_assoc in E. apply app_inj_2 in E as [-> _]; [by exists k|done].
Qed.
End lists.

(** ** Strings: a Go string is a sequence of bytes, here of [ascii] *)

Declare Scope go_scope.
Delimit Scope go_scope with go.
Infix "==s" := String.eqb (at level 70, no associativity) : go_scope.
Open Scope go_scope.

Lemma eqb_spec_s (s t : string) : reflect (s = t) (s ==s t).
Proof. apply String.eqb_spec. Qed.

Lemma eqb_refl_s s : (s ==s s) = true.
Proof. apply String.eqb_refl. Qed.

Lemma eqb_true_s s t : (s ==s t) = true <-> s = t.
Proof. apply String.eqb_eq. Qed.

Lemma eqb_false_s s t : (s ==s t) = false <-> s <> t.
Proof. apply String.eqb_neq. Qed.

(** Turn string tests of the context into (dis)equalities. *)
Ltac str_prop :=
  repeat match goal with
  | H : (_ ==s _) = true |- _ => apply eqb_true_s in H
  | H : (_ ==s _) = false |- _ => apply eqb_false_s in H
  end.

Lemma app_nil_r_s s : s +:+ "" = s.
Proof. induction s as [|c s IH]; [done|]. change (String c (s +:+ "") = String c s). by rewrite IH. Qed.

Lemma app_assoc_s s t u : (s +:+ t) +:+ u = s +:+ (t +:+ u).
Proof.
  induction s as [|c s IH]; [done|].
  change (String c ((s +:+ t) +:+ u) = String c (s +:+ (t +:+ u))). by rewrite IH.
Qed.

Lemma app_cons_s c s t : String c s +:+ t = String c (s +:+ t).
Proof. done. Qed.

Lemma app_nil_l_s s : "" +:+ s = s.
Proof. done. Qed.

Lemma length_app_s s t : String.length (s +:+ t) = String.length s + String.length t.
Proof.
  induction s as [|c s IH]; [done|]. rewrite app_cons_s. simpl. by rewrite IH.
Qed.

Lemma app_inv_s s t u : s +:+ t = s +:+ u -> t = u.
Proof. induction s as [|c s IH]; [done|]. rewrite !app_cons_s. naive_solver. Qed.

(** Membership of a byte. *)
Fixpoint In_s (c : Ascii.ascii) (s : string) : Prop :=
  match s with "" => False | String d s' => d = c \/ In_s c s' end.

Lemma In_app_s c s t : In_s c (s +:+ t) <-> In_s c s \/ In_s c t.
Proof.
  induction s as [|d s IH]; [rewrite app_nil_l_s; naive_solver|].
  rewrite app_cons_s. simpl. rewrite IH. naive_solver.
Qed.

Create Rewrite HintDb str.
#[export] Hint Rewrite app_nil_r_s app_assoc_s app_cons_s app_nil_l_s length_app_s : str.
