(* ===== verification/GoStrings.v ===== *)
(** * The parts of Go's [strings], [strconv] and [unicode] the agent uses

    A Go string is a byte sequence.  Functions that are defined on runes
    ([Fields], [TrimSpace], [EqualFold], [ToLower]) go through [runes], the
    UTF-8 decoding of [range s]: each element is a rune with the bytes it
    came from, an invalid byte being the rune U+FFFD with that one byte. *)

From S2P Require Import Prelude.
Local Open Scope Z_scope.

Definition ord (c : Ascii.ascii) : Z := Z.of_N (Ascii.N_of_ascii c).
Definition chr (z : Z) : Ascii.ascii := Ascii.ascii_of_N (Z.to_N z).
Definition between (lo x hi : Z) : bool := (lo <=? x) && (x <=? hi).

(** ** UTF-8 decoding *)

Definition RuneError : Z := 65533.

(** Admissible second bytes after the lead byte [b0] of a 3-byte sequence. *)
Definition second3 (b0 b1 : Z) : bool :=
  if b0 =? 224 then between 160 b1 191
  else if b0 =? 237 then between 128 b1 159
  else between 225 b0 239 && between 128 b1 191.

Definition second4 (b0 b1 : Z) : bool :=
  if b0 =? 240 then between 144 b1 191
  else if b0 =? 244 then between 128 b1 143
  else between 241 b0 243 && between 128 b1 191.

Definition cont (b : Z) : bool := between 128 b 191.

Fixpoint runes (s : string) : list (Z * string) :=
  match s with
  | "" => []
  | String a s1 =>
      let b0 := ord a in
      if b0 <? 128 then (b0, String a "") :: runes s1
      else
        match s1 with
        | "" => (RuneError, String a "") :: runes s1
        | String b s2 =>
            let b1 := ord b in
            if between 194 b0 223 && cont b1
            then ((b0 - 192) * 64 + (b1 - 128), String a (String b "")) :: runes s2
            else
              match s2 with
              | "" => (RuneError, String a "") :: runes s1
              | String c s3 =>
                  let b2 := ord c in
                  if second3 b0 b1 && cont b2
                  then ((b0 - 224) * 4096 + (b1 - 128) * 64 + (b2 - 128),
                        String a (String b (String c ""))) :: runes s3
                  else
                    match s3 with
                    | "" => (RuneError, String a "") :: runes s1
                    | String d s4 =>
                        let b3 := ord d in
                        if second4 b0 b1 && cont b2 && cont b3
                        then ((b0 - 240) * 262144 + (b1 - 128) * 4096
                              + (b2 - 128) * 64 + (b3 - 128),
                              String a (String b (String c (String d "")))) :: runes s4
                        else (RuneError, String a "") :: runes s1
                    end
              end
        end
  end.

(** The bytes of a list of runes. *)
Fixpoint bytes_of (l : list (Z * string)) : string :=
  match l with [] => "" | (_, b) :: l' => b +:+ bytes_of l' end.

(** [unicode.IsSpace]. *)
Definition IsSpace (r : Z) : bool :=
  between 9 r 13 || (r =? 32) || (r =? 133) || (r =? 160) || (r =? 5760)
  || between 8192 r 8202 || (r =? 8232) || (r =? 8233) || (r =? 8239)
  || (r =? 8287) || (r =? 12288).

(** ** package strings *)

Fixpoint strip_left (l : list (Z * string)) : list (Z * string) :=
  match l with
  | [] => []
  | (r, b) :: l' => if IsSpace r then strip_left l' else l
  end.

Definition TrimSpace (s : string) : string :=
  bytes_of (reverse (strip_left (reverse (strip_left (runes s))))).

Fixpoint fields_go (cur : string) (l : list (Z * string)) : list string :=
  match l with
  | [] => if cur ==s "" then [] else [cur]
  | (r, b) :: l' =>
      if IsSpace r
      then if cur ==s "" then fields_go "" l' else cur :: fields_go "" l'
      else fields_go (cur +:+ b) l'
  end.
Definition Fields (s : string) : list string := fields_go "" (runes s).

Fixpoint drop_s (n : nat) (s : string) : string :=
  match n, s with
  | O, _ => s
  | S n', String _ s' => drop_s n' s'
  | S _, "" => ""
  end.
Fixpoint take_s (n : nat) (s : string) : string :=
  match n, s with
  | O, _ => ""
  | S n', String c s' => String c (take_s n' s')
  | S _, "" => ""
  end.

Definition HasPrefix (s prefix : string) : bool := String.prefix prefix s.
Definition TrimPrefix (s prefix : string) : string :=
  if HasPrefix s prefix then drop_s (String.length prefix) s else s.

(** What precedes and follows the first occurrence of [sep]. *)
Fixpoint cut (sep s : string) : option (string * string) :=
  if HasPrefix s sep then Some ("", drop_s (String.length sep) s)
  else match s with
       | "" => None
       | String c s' =>
           match cut sep s' with
           | Some (a, b) => Some (String c a, b)
           | None => None
           end
       end.

Definition Contains (s sub : string) : bool :=
  match cut sub s with Some _ => true | None => false end.

(** [Index]: -1 when absent. *)
Definition Index (s sub : string) : Z :=
  match cut sub s with Some (a, _) => Z.of_nat (String.length a) | None => -1 end.

(** At most [n] cuts. *)
Fixpoint split_go (n : nat) (sep s : string) : list string :=
  match n with
  | O => [s]
  | S n' => match cut sep s with
            | None => [s]
            | Some (a, b) => a :: split_go n' sep b
            end
  end.

(** [SplitN s sep n] for [n > 0] and [Split] for a non-empty separator: a cut
    shortens the string, so [length s] cuts are enough. *)
Definition SplitN (s sep : string) (n : nat) : list string := split_go (n - 1) sep s.
Definition Split (s sep : string) : list string := split_go (String.length s) sep s.

Fixpoint Join (l : list string) (sep : string) : string :=
  match l with
  | [] => ""
  | [x] => x
  | x :: l' => x +:+ sep +:+ Join l' sep
  end.

(** [EqualFold s t] for an ASCII [t], the only way the agent calls it:
    besides the case of ASCII letters, the simple folding of Unicode relates
    U+017F to s and U+212A to k. *)
Definition foldRune (r : Z) : Z :=
  if between 65 r 90 then r + 32
  else if r =? 383 then 115
  else if r =? 8490 then 107
  else r.
Definition EqualFold (s t : string) : bool :=
  bool_decide (map (fun p => foldRune p.1) (runes s) = map (fun p => foldRune p.1) (runes t)).

(** [ToLower], exact on the ASCII part of the result: U+0130 and U+212A are
    the only other runes whose lower case is ASCII. *)
Definition lowerRune (p : Z * string) : string :=
  let r := p.1 in
  if between 65 r 90 then String (chr (r + 32)) ""
  else if r =? 304 then "i" else if r =? 8490 then "k"
  else p.2.
Fixpoint lower_go (l : list (Z * string)) : string :=
  match l with [] => "" | p :: l' => lowerRune p +:+ lower_go l' end.
Definition ToLower (s : string) : string := lower_go (runes s).

(** ** package strconv *)

Definition digit (d : Z) : Ascii.ascii := chr (48 + d).
Definition is_digit (c : Ascii.ascii) : bool := between 48 (ord c) 57.

Fixpoint udigits (fuel : nat) (n : Z) (acc : string) : string :=
  match fuel with
  | O => acc
  | S f =>
      let acc' := String (digit (n mod 10)) acc in
      if n <? 10 then acc' else udigits f (n / 10) acc'
  end.

(** [FormatInt i 10] and [Itoa]; a number below [2 ^ (k+1)] has at most
    [k + 1] decimal digits. *)
Definition FormatInt (i : Z) : string :=
  let u := udigits (S (Z.to_nat (Z.log2 (Z.abs i)))) (Z.abs i) "" in
  if i <? 0 then String "-"%char u else u.

Fixpoint parse_digits (s : string) (acc : Z) : option Z :=
  match s with
  | "" => Some acc
  | String c s' => if is_digit c then parse_digits s' (acc * 10 + (ord c - 48)) else None
  end.

Definition int64_min : Z := - 2 ^ 63.
Definition int64_max : Z := 2 ^ 63 - 1.

(** [ParseInt s 10 64], and [Atoi] on the 64-bit platforms the agent is
    built for: [None] for a syntax or range error. *)
Definition ParseInt (s : string) : option Z :=
  let '(neg, ds) :=
    match s with
    | String "-"%char r => (true, r)
    | String "+"%char r => (false, r)
    | _ => (false, s)
    end in
  match ds with
  | "" => None
  | _ =>
      match parse_digits ds 0 with
      | None => None
      | Some u =>
          let v := if neg : bool then - u else u in
          if (int64_min <=? v) && (v <=? int64_max) then Some v else None
      end
  end.

(** ** Sanity checks *)

Example fields_ex : Fields "  create  k8s	pod " = ["create"; "k8s"; "pod"].
Proof. reflexivity. Qed.
Example trim_ex : TrimSpace "  a b
 " = "a b".
Proof. reflexivity. Qed.
Example split_ex : Split "a:b::c" ":" = ["a"; "b"; ""; "c"].
Proof. reflexivity. Qed.
Example splitn_ex : SplitN "k=v=w" "=" 2 = ["k"; "v=w"].
Proof. reflexivity. Qed.
Example fold_ex : (EqualFold "eRRor" "Error", EqualFold "K8S" "k8s") = (true, true).
Proof. reflexivity. Qed.
Example format_ex : (FormatInt (-1205), FormatInt 0) = ("-1205", "0").
Proof. reflexivity. Qed.
Example parse_ex : (ParseInt "-17", ParseInt "1x", ParseInt "9223372036854775808") = (Some (-17), None, None).
Proof. reflexivity. Qed.

(** ** Bytes *)

Lemma ord_range c : 0 <= ord c < 256.
Proof.
  unfold ord. pose proof (Ascii.N_ascii_bounded c). lia.
Qed.

Lemma chr_ord c : chr (ord c) = c.
Proof. unfold chr, ord. rewrite N2Z.id. apply Ascii.ascii_N_embedding. Qed.

Lemma ord_chr z : 0 <= z < 256 -> ord (chr z) = z.
Proof.
  intros H. unfold chr, ord. rewrite Ascii.N_ascii_embedding by lia. lia.
Qed.

Lemma ord_inj c d : ord c = ord d -> c = d.
Proof. intros H. by rewrite <-(chr_ord c), <-(chr_ord d), H. Qed.

(** ** Induction on the length of a string *)

Lemma string_len_ind (P : string -> Prop) :
  (forall s, (forall t, (String.length t < String.length s)%nat -> P t) -> P s) ->
  forall s, P s.
Proof.
  intros H s. remember (String.length s) as n eqn:E. revert s E.
  induction n as [n IH] using lt_wf_ind. intros s ->. apply H.
  intros t Ht. by apply (IH _ Ht).
Qed.

(** ** Runes *)

(** The first rune, its bytes and the rest. *)
Definition rune1 (s : string) : option (Z * string * string) :=
  match s with
  | "" => None
  | String a s1 =>
      let b0 := ord a in
      let bad := Some (RuneError, String a "", s1) in
      if b0 <? 128 then Some (b0, String a "", s1)
      else
        match s1 with
        | "" => bad
        | String b s2 =>
            let b1 := ord b in
            if between 194 b0 223 && cont b1
            then Some ((b0 - 192) * 64 + (b1 - 128), String a (String b ""), s2)
            else
              match s2 with
              | "" => bad
              | String c s3 =>
                  let b2 := ord c in
                  if second3 b0 b1 && cont b2
                  then Some ((b0 - 224) * 4096 + (b1 - 128) * 64 + (b2 - 128),
                        String a (String b (String c "")), s3)
                  else
                    match s3 with
                    | "" => bad
                    | String d s4 =>
                        let b3 := ord d in
                        if second4 b0 b1 && cont b2 && cont b3
                        then Some ((b0 - 240) * 262144 + (b1 - 128) * 4096
                              + (b2 - 128) * 64 + (b3 - 128),
                              String a (String b (String c (String d ""))), s4)
                        else bad
                    end
              end
        end
  end.

Lemma runes_step s :
  runes s = match rune1 s with None => [] | Some (r, b, t) => (r, b) :: runes t end.
Proof.
  destruct s as [|a [|b [|c [|d s]]]]; [done|..]; cbn [rune1];
    repeat (case_match; simplify_eq; try done); cbn [runes];
    repeat match goal with H : _ = (_ : bool) |- _ => rewrite H; clear H end; done.
Qed.

Lemma rune1_app_bytes s r b t :
  rune1 s = Some (r, b, t) -> s = b +:+ t /\ (String.length t < String.length s)%nat.
Proof.
  intros H. destruct s as [|a [|b' [|c [|d s]]]]; cbn [rune1] in H; [done|..];
    repeat (case_match; simplify_eq; try done); cbn; (split; [done|lia]).
Qed.

Lemma rune1_None s : rune1 s = None -> s = "".
Proof.
  intros H. destruct s as [|a [|b' [|c [|d s]]]]; cbn [rune1] in H; [done|..];
    repeat (case_match; simplify_eq; try done).
Qed.

Lemma bytes_of_app l1 l2 : bytes_of (l1 ++ l2) = bytes_of l1 +:+ bytes_of l2.
Proof. induction l1 as [|[r b] l1 IH]; simpl; [done|]. by rewrite IH, app_assoc_s. Qed.

Lemma bytes_runes s : bytes_of (runes s) = s.
Proof.
  induction s as [s IH] using string_len_ind. rewrite runes_step.
  destruct (rune1 s) as [[[r b] t]|] eqn:E; simpl.
  - apply rune1_app_bytes in E as [-> Hl]. by rewrite IH.
  - by apply rune1_None in E as ->.
Qed.

Lemma ascii_tests b0 c : ord c < 128 ->
  cont (ord c) = false /\ second3 b0 (ord c) = false /\ second4 b0 (ord c) = false.
Proof.
  intros H. unfold cont, second3, second4, between.
  repeat case_match; lia.
Qed.

Lemma rune1_ascii c s : ord c < 128 -> rune1 (String c s) = Some (ord c, String c "", s).
Proof. intros H. cbn [rune1]. replace (ord c <? 128) with true by lia. done. Qed.

(** An ASCII byte ends whatever sequence precedes it. *)
Lemma rune1_app s c t r b u : ord c < 128 ->
  rune1 s = Some (r, b, u) ->
  rune1 (s +:+ String c t) = Some (r, b, u +:+ String c t).
Proof.
  intros Hc H.
  destruct s as [|x0 [|x1 [|x2 [|x3 s]]]]; [done|..]; rewrite ?app_cons_s, ?app_nil_l_s;
    cbn [rune1] in *;
    destruct (ascii_tests (ord x0) c Hc) as (T1 & T2 & T3);
    rewrite ?T1, ?T2, ?T3, ?andb_false_r;
    repeat (case_match; simplify_eq; try done).
Qed.

Lemma runes_app s c t : ord c < 128 ->
  runes (s +:+ String c t) = runes s ++ runes (String c t).
Proof.
  intros Hc. induction s as [s IH] using string_len_ind.
  destruct (rune1 s) as [[[r b] u]|] eqn:E.
  - rewrite (runes_step (s +:+ _)), (rune1_app _ _ _ _ _ _ Hc E), (runes_step s), E.
    simpl. f_equal. apply IH. by apply rune1_app_bytes in E as [_ ?].
  - by apply rune1_None in E as ->.
Qed.

Lemma runes_ascii c s : ord c < 128 -> runes (String c s) = (ord c, String c "") :: runes s.
Proof. intros H. by rewrite runes_step, rune1_ascii. Qed.

(** ** Cutting and joining *)

Lemma prefix_app p s : HasPrefix s p = true <-> exists t, s = p +:+ t.
Proof.
  unfold HasPrefix. revert s. induction p as [|c p IH]; intros s; simpl.
  - split; [by exists s|by destruct s].
  - destruct s as [|d s]; [split; [done|intros [t Ht]; done]|]. simpl.
    destruct (Ascii.ascii_dec c d) as [->|Hne].
    + rewrite IH. split; intros [t Ht]; exists t; rewrite app_cons_s in *; congruence.
    + split; [done|]. intros [t Ht]. rewrite app_cons_s in Ht. congruence.
Qed.

Lemma drop_app_s p t : drop_s (String.length p) (p +:+ t) = t.
Proof. induction p as [|c p IH]; [done|]. by rewrite app_cons_s. Qed.

Lemma drop_nil_s n : drop_s n "" = "".
Proof. by destruct n. Qed.

Lemma prefix_drop p s : HasPrefix s p = true -> s = p +:+ drop_s (String.length p) s.
Proof. intros [t Ht]%prefix_app. subst s. by rewrite drop_app_s. Qed.

Lemma cut_some sep s a b : cut sep s = Some (a, b) -> s = a +:+ sep +:+ b.
Proof.
  revert a. induction s as [|c s IH]; intros a; cbn [cut];
    match goal with |- context [HasPrefix ?t sep] => destruct (HasPrefix t sep) eqn:E end.
  - intros [= <- <-]. by apply prefix_drop.
  - done.
  - intros [= <- <-]. by apply prefix_drop.
  - destruct (cut sep s) as [[a' b']|] eqn:Ec; [|done].
    intros [= <- <-]. rewrite app_cons_s. f_equal. by apply IH.
Qed.

Lemma HasPrefix_nil s : HasPrefix s "" = true.
Proof. by destruct s. Qed.

Lemma cut_cons c d s :
  cut (String c "") (String d s) =
  if Ascii.ascii_dec c d then Some ("", s)
  else match cut (String c "") s with Some (a, b) => Some (String d a, b) | None => None end.
Proof.
  cbn [cut]. unfold HasPrefix. simpl.
  destruct (Ascii.ascii_dec c d); [|done]. by destruct s.
Qed.

(** Cutting at a one-byte separator that does not occur before it. *)
Lemma cut_char c a b : ~ In_s c a -> cut (String c "") (a +:+ String c b) = Some (a, b).
Proof.
  induction a as [|d a IH]; intros Hn; rewrite ?app_nil_l_s, ?app_cons_s, cut_cons;
    destruct (Ascii.ascii_dec _ _) as [Heq|Hne]; simpl in *; try naive_solver.
  by rewrite IH by naive_solver.
Qed.

Lemma cut_char_None c s : ~ In_s c s -> cut (String c "") s = None.
Proof.
  induction s as [|d s IH]; intros Hn; [done|]. rewrite cut_cons.
  destruct (Ascii.ascii_dec _ _) as [->|Hne]; simpl in *; [naive_solver|].
  by rewrite IH by naive_solver.
Qed.

Lemma cut_char_first c s a b : cut (String c "") s = Some (a, b) -> ~ In_s c a.
Proof.
  revert a. induction s as [|d s IH]; intros a; [done|]. rewrite cut_cons.
  destruct (Ascii.ascii_dec c d) as [->|Hne]; [intros [= <- <-]; by intros []|].
  destruct (cut (String c "") s) as [[a' b']|]; [|done].
  intros [= <- <-]. simpl. intros [?|?]; [congruence|]. by apply (IH a').
Qed.

Lemma cut_None_char c s : cut (String c "") s = None -> ~ In_s c s.
Proof.
  induction s as [|d s IH]; [by intros _ []|]. rewrite cut_cons.
  destruct (Ascii.ascii_dec c d) as [->|Hne]; [done|].
  destruct (cut (String c "") s) as [[a' b']|]; [done|]. simpl. naive_solver.
Qed.

Lemma split_go_nonempty n sep s : split_go n sep s <> [].
Proof. destruct n; simpl; [done|]. destruct (cut sep s) as [[??]|]; done. Qed.

Lemma join_cons x l sep : l <> [] -> Join (x :: l) sep = x +:+ sep +:+ Join l sep.
Proof. by destruct l. Qed.

Lemma join_split_go n sep s : Join (split_go n sep s) sep = s.
Proof.
  revert s. induction n as [|n IH]; intros s; [done|]. cbn [split_go].
  destruct (cut sep s) as [[a b]|] eqn:E; [|done].
  rewrite join_cons by apply split_go_nonempty. rewrite IH.
  by apply cut_some in E.
Qed.

(** Joining with the separator undoes a split. *)
Lemma join_split s sep : Join (Split s sep) sep = s.
Proof. apply join_split_go. Qed.

(** With a one-byte separator, [length s] cuts leave no separator behind. *)
Lemma split_char_free c s n : (String.length s <= n)%nat ->
  Forall (fun p => ~ In_s c p) (split_go n (String c "") s).
Proof.
  revert s. induction n as [|n IH]; intros s Hn; cbn [split_go].
  - destruct s; simpl in Hn; [|lia]. constructor; [by intros []|constructor].
  - destruct (cut (String c "") s) as [[a b]|] eqn:E.
    + constructor; [by eapply cut_char_first|]. apply IH.
      apply cut_some in E. subst s. rewrite !length_app_s in Hn. simpl in Hn. lia.
    + constructor; [by apply cut_None_char|constructor].
Qed.

Lemma Split_char_free c s : Forall (fun p => ~ In_s c p) (Split s (String c "")).
Proof. by apply split_char_free. Qed.

Lemma split_go_enough n m c s :
  (String.length s <= n)%nat -> (String.length s <= m)%nat ->
  split_go n (String c "") s = split_go m (String c "") s.
Proof.
  revert m s. induction n as [|n IH]; intros [|m] s Hn Hm; try done;
    try (destruct s; simpl in *; [done|lia]).
  cbn [split_go]. destruct (cut (String c "") s) as [[a b]|] eqn:E; [|done].
  f_equal. apply cut_some in E. subst s. rewrite !length_app_s in *. simpl in *.
  apply IH; lia.
Qed.

Lemma Split_char_cons c a b : ~ In_s c a ->
  Split (a +:+ String c b) (String c "") = a :: Split b (String c "").
Proof.
  intros Hn. unfold Split. rewrite length_app_s. simpl. rewrite Nat.add_succ_r.
  cbn [split_go]. rewrite cut_char by done. f_equal. apply split_go_enough; lia.
Qed.

Lemma Split_char_single c a : ~ In_s c a -> Split a (String c "") = [a].
Proof.
  intros Hn. unfold Split. destruct (String.length a); [done|].
  cbn [split_go]. by rewrite cut_char_None.
Qed.

(** Splitting undoes joining parts without the separator. *)
Lemma split_join c l : l <> [] -> Forall (fun p => ~ In_s c p) l ->
  Split (Join l (String c "")) (String c "") = l.
Proof.
  induction l as [|x [|y l] IH]; intros Hne Hf; [done|..].
  - apply Split_char_single. by inversion Hf.
  - rewrite join_cons by done. inversion Hf; subst.
    rewrite (app_cons_s c "" _), app_nil_l_s, Split_char_cons by done. by rewrite IH.
Qed.

Lemma SplitN2_char c a b : ~ In_s c a ->
  SplitN (a +:+ String c b) (String c "") 2 = [a; b].
Proof. intros Hn. unfold SplitN. cbn [Nat.sub split_go]. by rewrite cut_char. Qed.

(** ** Decimal numbers *)

Lemma digit_is d : 0 <= d < 10 -> is_digit (digit d) = true /\ ord (digit d) - 48 = d.
Proof.
  intros H. unfold is_digit, digit, between. rewrite ord_chr by lia. split; lia.
Qed.

Lemma digit_not_sign d : 0 <= d < 10 -> digit d <> "-"%char /\ digit d <> "+"%char.
Proof.
  intros H. split; intros E; apply (f_equal ord) in E; unfold digit in E;
    rewrite ord_chr in E by lia; vm_compute ord in E; lia.
Qed.

(** Printing in front of [acc] then reading gives back the number. *)
Lemma parse_udigits fuel n acc a :
  0 <= n < 2 ^ Z.of_nat fuel ->
  exists p, (0 < p)%Z /\ parse_digits (udigits fuel n acc) a = parse_digits acc (a * p + n).
Proof.
  revert n acc a. induction fuel as [|fuel IH]; intros n acc a Hn.
  - exists 1. simpl in *. split; [lia|]. f_equal. lia.
  - cbn [udigits]. destruct (Z.ltb_spec n 10) as [Hlt|Hge].
    + exists 10. split; [lia|]. cbn [parse_digits].
      destruct (digit_is (n mod 10)) as [-> ->]; [apply Z.mod_pos_bound; lia|].
      f_equal. rewrite Z.mod_small by lia. lia.
    + assert (Hq : 0 <= n / 10 < 2 ^ Z.of_nat fuel).
      { split; [apply Z.div_pos; lia|]. apply Z.div_lt_upper_bound; [lia|].
        rewrite Nat2Z.inj_succ, Z.pow_succ_r in Hn by lia. lia. }
      destruct (IH (n / 10) (String (digit (n mod 10)) acc) a Hq) as (p & Hp & ->).
      exists (p * 10). split; [lia|]. cbn [parse_digits].
      destruct (digit_is (n mod 10)) as [-> ->]; [apply Z.mod_pos_bound; lia|].
      f_equal. rewrite (Z.div_mod n 10) at 3 by lia. lia.
Qed.

(** The first byte printed is a digit. *)
Lemma udigits_head fuel n acc : 0 <= n -> (0 < fuel)%nat ->
  exists d s, 0 <= d < 10 /\ udigits fuel n acc = String (digit d) s.
Proof.
  revert n acc. induction fuel as [|fuel IH]; intros n acc Hn Hf; [lia|]. cbn [udigits].
  assert (0 <= n mod 10 < 10) by (apply Z.mod_pos_bound; lia).
  destruct (n <? 10); [eauto|]. destruct fuel; [eauto|].
  apply IH; [apply Z.div_pos; lia|lia].
Qed.

(** Reading back a printed 64-bit integer. *)
Lemma ParseInt_FormatInt i :
  int64_min <= i <= int64_max -> ParseInt (FormatInt i) = Some i.
Proof.
  intros Hr. unfold FormatInt.
  set (fuel := S (Z.to_nat (Z.log2 (Z.abs i)))).
  assert (Hb : 0 <= Z.abs i < 2 ^ Z.of_nat fuel).
  { split; [lia|]. unfold fuel. rewrite Nat2Z.inj_succ, Z2Nat.id by apply Z.log2_nonneg.
    destruct (Z.eq_dec (Z.abs i) 0) as [->|Hnz]; [done|]. apply Z.log2_spec. lia. }
  destruct (udigits_head fuel (Z.abs i) "") as (d & s & Hd & Hu); [lia|lia|].
  destruct (parse_udigits fuel (Z.abs i) "" 0 Hb) as (p & _ & Hp).
  cbn [parse_digits] in Hp. rewrite Z.mul_0_l, Z.add_0_l in Hp.
  destruct (digit_not_sign d Hd) as [H1 H2].
  destruct (Z.ltb_spec i 0) as [Hneg|Hpos]; rewrite Hu in *; unfold ParseInt.
  - rewrite Hp. replace (- Z.abs i) with i by lia.
    replace ((int64_min <=? i) && (i <=? int64_max)) with true by lia. done.
  - set (c := digit d) in *. clearbody c.
    replace (match String c s with
             | String "-"%char r => (true, r) | String "+"%char r => (false, r)
             | _ => (false, String c s) end) with (false, String c s)
      by (destruct c as [[] [] [] [] [] [] [] []]; done).
    rewrite Hp. replace (Z.abs i) with i by lia.
    replace ((int64_min <=? i) && (i <=? int64_max)) with true by lia. done.
Qed.

(** The digits of a number, most significant first. *)
Definition digits_of (ds : list Z) : string := foldr (fun d s => String (digit d) s) "" ds.
Definition number (ds : list Z) : Z := foldl (fun a d => 10 * a + d) 0 ds.

Lemma digits_of_app ds es : digits_of (ds ++ es) = digits_of ds +:+ digits_of es.
Proof. induction ds as [|d ds IH]; [done|]. simpl. by rewrite IH. Qed.

Lemma number_snoc ds d : number (ds ++ [d]) = 10 * number ds + d.
Proof. unfold number. by rewrite foldl_app. Qed.

Lemma udigits_acc f n acc : udigits f n acc = udigits f n "" +:+ acc.
Proof.
  revert n acc. induction f as [|f IH]; intros n acc; [done|]. simpl.
  destruct (n <? 10); [done|]. rewrite IH, (IH _ (String _ "")). by rewrite app_assoc_s.
Qed.

Lemma udigits_fuel f g n acc : (0 < f)%nat -> (0 < g)%nat ->
  0 <= n < 2 ^ Z.of_nat f -> 0 <= n < 2 ^ Z.of_nat g -> udigits f n acc = udigits g n acc.
Proof.
  revert g n acc. induction f as [|f IH]; intros [|g] n acc Hf Hg Hn Hm; try lia. simpl.
  destruct (Z.ltb_spec n 10) as [|Hge]; [done|].
  rewrite Nat2Z.inj_succ, Z.pow_succ_r in Hn, Hm by lia.
  destruct f as [|f]; [simpl in Hn; lia|]. destruct g as [|g]; [simpl in Hm; lia|].
  apply IH; try lia; split; try apply Z.div_pos; try apply Z.div_lt_upper_bound; lia.
Qed.

Lemma FormatInt_digit d : 0 <= d < 10 -> FormatInt d = String (digit d) "".
Proof.
  intros H. unfold FormatInt. rewrite Z.abs_eq by lia. simpl.
  rewrite (proj2 (Z.ltb_lt d 10)), (proj2 (Z.ltb_ge d 0)), Z.mod_small by lia. done.
Qed.

Lemma FormatInt_snoc n d : 1 <= n -> 0 <= d < 10 ->
  FormatInt (10 * n + d) = FormatInt n +:+ String (digit d) "".
Proof.
  intros Hn Hd. unfold FormatInt. rewrite !Z.abs_eq by lia.
  rewrite !(proj2 (Z.ltb_ge _ 0)) by lia. cbn [udigits].
  rewrite (proj2 (Z.ltb_ge (10 * n + d) 10)) by lia.
  replace ((10 * n + d) mod 10) with d by (Z.div_mod_to_equations; lia).
  replace ((10 * n + d) / 10) with n by (Z.div_mod_to_equations; lia).
  rewrite udigits_acc. f_equal.
  pose proof (Z.log2_spec (10 * n + d) ltac:(lia)) as [_ Hu].
  pose proof (Z.log2_spec n ltac:(lia)) as [_ Hv].
  assert (1 <= Z.log2 (10 * n + d)) by (apply (Z.log2_le_mono 2); lia).
  pose proof (Z.log2_nonneg n) as ?.
  change (udigits (Z.to_nat (Z.log2 (10 * n + d))) n "" = udigits (S (Z.to_nat (Z.log2 n))) n "").
  rewrite Z.pow_succ_r in Hu by lia.
  apply udigits_fuel; rewrite ?Nat2Z.inj_succ, ?Z2Nat.id by lia; lia.
Qed.

(** Digits without a leading zero are what a number is printed as. *)
Lemma FormatInt_digits d ds : 1 <= d <= 9 -> Forall (fun d => 0 <= d < 10) ds ->
  FormatInt (number (d :: ds)) = digits_of (d :: ds) /\ 1 <= number (d :: ds).
Proof.
  intros Hd. induction ds as [|e ds IH] using rev_ind; intros Hf.
  - unfold number. cbn [foldl]. rewrite FormatInt_digit by lia. split; [done|lia].
  - apply Forall_app in Hf as [Hf He]. inversion He; subst.
    destruct (IH Hf) as [E ?]. change (d :: ds ++ [e]) with ((d :: ds) ++ [e]).
    rewrite number_snoc, digits_of_app, FormatInt_snoc, E by lia. split; [done|lia].
Qed.
