(* ===== verification/Hash.v ===== *)
(** * [crypto/sha256], [crypto/md5], [encoding/base64] and the [%x] verb

    Executable versions of the standard-library functions behind
    [tools.Sign] and [tools.Md5sumData], on byte strings.  32-bit words are
    integers in [0, 2^32) with the wrap-around written out. *)

From S2P Require Import Prelude GoStrings.
Local Open Scope Z_scope.

Definition w32 (z : Z) : Z := Z.land z 4294967295.
Definition add32 (a b : Z) : Z := w32 (a + b).
Definition not32 (a : Z) : Z := Z.lxor a 4294967295.
Definition rotr32 (n x : Z) : Z := Z.lor (Z.shiftr x n) (w32 (Z.shiftl x (32 - n))).
Definition rotl32 (n x : Z) : Z := rotr32 (32 - n) x.

Fixpoint str_bytes (s : string) : list Z :=
  match s with "" => [] | String c s' => ord c :: str_bytes s' end.
Fixpoint bytes_str (l : list Z) : string :=
  match l with [] => "" | b :: l' => String (chr b) (bytes_str l') end.

(** [n] bytes of [z], most or least significant first. *)
Fixpoint be_bytes (n : nat) (z : Z) : list Z :=
  match n with O => [] | S n' => be_bytes n' (Z.shiftr z 8) ++ [Z.land z 255] end.
Fixpoint le_bytes (n : nat) (z : Z) : list Z :=
  match n with O => [] | S n' => Z.land z 255 :: le_bytes n' (Z.shiftr z 8) end.

(** Padding: 0x80, zeros, the bit length on 8 bytes. *)
Definition pad (len8 : Z -> list Z) (m : list Z) : list Z :=
  let n := Z.of_nat (length m) in
  let z := (55 - n) mod 64 in
  m ++ 128 :: repeat 0 (Z.to_nat z) ++ len8 (n * 8).

Fixpoint chunk (fuel n : nat) (l : list Z) : list (list Z) :=
  match fuel, l with
  | _, [] => []
  | O, _ => []
  | S f, _ => take n l :: chunk f n (drop n l)
  end.

Definition be_word (l : list Z) : Z := fold_left (fun a b => a * 256 + b) l 0.
Definition le_word (l : list Z) : Z := be_word (reverse l).

(** ** SHA-256 *)

(** The constants are the first 32 bits of the fractional parts of the cube
    roots, and of the square roots, of the first primes. *)
Definition is_prime (n : nat) : bool :=
  forallb (fun d => negb (Nat.modulo n d =? 0)%nat) (seq 2 (n - 2)).
Definition primes (k : nat) : list Z :=
  map Z.of_nat (take k (List.filter is_prime (seq 2 (k * 8)))).

(** The largest [r] with [r ^ 3 <= n], bit by bit from [2 ^ (bits - 1)]. *)
Fixpoint cbrt (bits : nat) (r n : Z) : Z :=
  match bits with
  | O => r
  | S b => let r' := r + 2 ^ Z.of_nat b in cbrt b (if r' ^ 3 <=? n then r' else r) n
  end.

Definition sha_k : list Z :=
  Eval vm_compute in map (fun p => w32 (cbrt 40 0 (p * 2 ^ 96))) (primes 64).
Definition sha_init : list Z :=
  Eval vm_compute in map (fun p => w32 (Z.sqrt (p * 2 ^ 64))) (primes 8).

(** The message schedule, kept with the latest word first. *)
Fixpoint sha_schedule (n : nat) (w : list Z) : list Z :=
  match n with
  | O => w
  | S n' =>
      let w16 := nth 15 w 0 in let w15 := nth 14 w 0 in
      let w7 := nth 6 w 0 in let w2 := nth 1 w 0 in
      let s0 := Z.lxor (Z.lxor (rotr32 7 w15) (rotr32 18 w15)) (Z.shiftr w15 3) in
      let s1 := Z.lxor (Z.lxor (rotr32 17 w2) (rotr32 19 w2)) (Z.shiftr w2 10) in
      sha_schedule n' (w32 (w16 + s0 + w7 + s1) :: w)
  end.

Definition sha_round (h : list Z) (kw : Z * Z) : list Z :=
  match h with
  | [a; b; c; d; e; f; g; hh] =>
      let s1 := Z.lxor (Z.lxor (rotr32 6 e) (rotr32 11 e)) (rotr32 25 e) in
      let ch := Z.lxor (Z.land e f) (Z.land (not32 e) g) in
      let t1 := hh + s1 + ch + kw.1 + kw.2 in
      let s0 := Z.lxor (Z.lxor (rotr32 2 a) (rotr32 13 a)) (rotr32 22 a) in
      let maj := Z.lxor (Z.lxor (Z.land a b) (Z.land a c)) (Z.land b c) in
      [w32 (t1 + s0 + maj); a; b; c; add32 d t1; e; f; g]
  | _ => h
  end.

Fixpoint groups4 (word : list Z -> Z) (l : list Z) : list Z :=
  match l with
  | a :: b :: c :: d :: l' => word [a; b; c; d] :: groups4 word l'
  | _ => []
  end.

Definition sha_block (h : list Z) (blk : list Z) : list Z :=
  let w := reverse (sha_schedule 48 (reverse (groups4 be_word blk))) in
  zip_with add32 h (fold_left sha_round (zip sha_k w) h).

(** [sha256.Sum256]: 32 bytes. *)
Definition Sum256 (m : string) : string :=
  let p := pad (be_bytes 8) (str_bytes m) in
  bytes_str (concat (map (be_bytes 4)
    (fold_left sha_block (chunk (length p) 64 p) sha_init))).

(** ** MD5 *)

Definition md5_k : list Z :=
 [0xd76aa478;0xe8c7b756;0x242070db;0xc1bdceee;0xf57c0faf;0x4787c62a;0xa8304613;0xfd469501;
  0x698098d8;0x8b44f7af;0xffff5bb1;0x895cd7be;0x6b901122;0xfd987193;0xa679438e;0x49b40821;
  0xf61e2562;0xc040b340;0x265e5a51;0xe9b6c7aa;0xd62f105d;0x02441453;0xd8a1e681;0xe7d3fbc8;
  0x21e1cde6;0xc33707d6;0xf4d50d87;0x455a14ed;0xa9e3e905;0xfcefa3f8;0x676f02d9;0x8d2a4c8a;
  0xfffa3942;0x8771f681;0x6d9d6122;0xfde5380c;0xa4beea44;0x4bdecfa9;0xf6bb4b60;0xbebfbc70;
  0x289b7ec6;0xeaa127fa;0xd4ef3085;0x04881d05;0xd9d4d039;0xe6db99e5;0x1fa27cf8;0xc4ac5665;
  0xf4292244;0x432aff97;0xab9423a7;0xfc93a039;0x655b59c3;0x8f0ccc92;0xffeff47d;0x85845dd1;
  0x6fa87e4f;0xfe2ce6e0;0xa3014314;0x4e0811a1;0xf7537e82;0xbd3af235;0x2ad7d2bb;0xeb86d391].

Definition md5_s (i : Z) : Z :=
  nth (Z.to_nat (4 * (i / 16) + i mod 4)) [7;12;17;22;5;9;14;20;4;11;16;23;6;10;15;21] 0.

Definition md5_round (blk : list Z) (st : list Z) (ik : Z * Z) : list Z :=
  let i := ik.1 in
  match st with
  | [a; b; c; d] =>
      let '(f, g) :=
        if i <? 16 then (Z.lor (Z.land b c) (Z.land (not32 b) d), i)
        else if i <? 32 then (Z.lor (Z.land d b) (Z.land (not32 d) c), (5 * i + 1) mod 16)
        else if i <? 48 then (Z.lxor (Z.lxor b c) d, (3 * i + 5) mod 16)
        else (Z.lxor c (Z.lor b (not32 d)), (7 * i) mod 16) in
      let f' := w32 (f + a + ik.2 + nth (Z.to_nat g) blk 0) in
      [d; add32 b (rotl32 (md5_s i) f'); b; c]
  | _ => st
  end.

Definition md5_block (st : list Z) (blk : list Z) : list Z :=
  let words := groups4 le_word blk in
  zip_with add32 st
    (fold_left (md5_round words) (zip (map Z.of_nat (seq 0 64)) md5_k) st).

(** [md5.Sum]: 16 bytes. *)
Definition Md5Sum (m : string) : string :=
  let p := pad (le_bytes 8) (str_bytes m) in
  bytes_str (concat (map (le_bytes 4)
    (fold_left md5_block (chunk (length p) 64 p)
       [0x67452301; 0xefcdab89; 0x98badcfe; 0x10325476]))).

(** ** The [%x] verb and standard base64 *)

Definition hexdigit (d : Z) : ascii := if d <? 10 then chr (48 + d) else chr (87 + d).
Fixpoint hex (s : string) : string :=
  match s with
  | "" => ""
  | String c s' => String (hexdigit (ord c / 16)) (String (hexdigit (ord c mod 16)) (hex s'))
  end.

Definition b64digit (d : Z) : ascii :=
  if d <? 26 then chr (65 + d)
  else if d <? 52 then chr (71 + d)
  else if d <? 62 then chr (d - 4)
  else if d =? 62 then "+"%char else "/"%char.

(** [base64.StdEncoding.EncodeToString]. *)
Fixpoint b64_encode (s : string) : string :=
  match s with
  | "" => ""
  | String a "" =>
      String (b64digit (ord a / 4)) (String (b64digit (ord a mod 4 * 16)) "==")
  | String a (String b "") =>
      String (b64digit (ord a / 4))
        (String (b64digit (ord a mod 4 * 16 + ord b / 16))
           (String (b64digit (ord b mod 16 * 4)) "="))
  | String a (String b (String c s')) =>
      String (b64digit (ord a / 4))
        (String (b64digit (ord a mod 4 * 16 + ord b / 16))
           (String (b64digit (ord b mod 16 * 4 + ord c / 64))
              (String (b64digit (ord c mod 64)) (b64_encode s'))))
  end.

(** ** Published test vectors *)

Example sha256_abc :
  hex (Sum256 "abc") = "ba7816bf8f01cfea414140de5dae2223b00361a396177a9cb410ff61f20015ad".
Proof. vm_compute. reflexivity. Qed.
Example sha256_two_blocks :
  hex (Sum256 "abcdbcdecdefdefgefghfghighijhijkijkljklmklmnlmnomnopnopq")
  = "248d6a61d20638b8e5c026930c3e6039a33ce45964ff2167f6ecedd419db06c1".
Proof. vm_compute. reflexivity. Qed.
Example md5_empty : hex (Md5Sum "") = "d41d8cd98f00b204e9800998ecf8427e".
Proof. vm_compute. reflexivity. Qed.
Example md5_alphabet :
  hex (Md5Sum "abcdefghijklmnopqrstuvwxyz") = "c3fcd3d76192e4007dfb496cca67e13b".
Proof. vm_compute. reflexivity. Qed.
Example b64_foobar : b64_encode "fooba" = "Zm9vYmE=".
Proof. vm_compute. reflexivity. Qed.

(** ** Lengths *)

Lemma length_hex s : String.length (hex s) = (2 * String.length s)%nat.
Proof. induction s as [|c s IH]; simpl; [done|]. rewrite IH. lia. Qed.

Lemma length_bytes_str l : String.length (bytes_str l) = length l.
Proof. induction l as [|b l IH]; simpl; [done|]. by rewrite IH. Qed.

Lemma length_be_bytes n z : length (be_bytes n z) = n.
Proof.
  revert z. induction n as [|n IH]; intros z; simpl; [done|].
  rewrite length_app, IH. simpl. lia.
Qed.

Lemma length_concat_map {A} (f : A -> list Z) n l :
  (forall x, length (f x) = n) -> length (concat (map f l)) = (length l * n)%nat.
Proof.
  intros Hf. induction l as [|x l IH]; simpl; [done|]. by rewrite length_app, Hf, IH.
Qed.

Lemma sha_round_length h kw : length h = 8%nat -> length (sha_round h kw) = 8%nat.
Proof.
  intros H. destruct h as [|? [|? [|? [|? [|? [|? [|? [|? [|? ?]]]]]]]]]; done.
Qed.

Lemma sha_rounds_length l h : length h = 8%nat -> length (fold_left sha_round l h) = 8%nat.
Proof.
  revert h. induction l as [|kw l IH]; intros h H; simpl; [done|].
  apply IH. by apply sha_round_length.
Qed.

Lemma sha_blocks_length l h : length h = 8%nat -> length (fold_left sha_block l h) = 8%nat.
Proof.
  revert h. induction l as [|b l IH]; intros h H; cbn [fold_left]; [done|].
  apply IH. unfold sha_block. by rewrite length_zip_with, sha_rounds_length, H.
Qed.

Lemma length_Sum256 m : String.length (Sum256 m) = 32%nat.
Proof.
  unfold Sum256. rewrite length_bytes_str.
  rewrite (length_concat_map _ 4) by apply length_be_bytes.
  by rewrite sha_blocks_length.
Qed.

(** ** Injectivity of the two encodings *)

Lemma hexdigit_inj d e : 0 <= d < 16 -> 0 <= e < 16 -> hexdigit d = hexdigit e -> d = e.
Proof.
  intros Hd He H. apply (f_equal ord) in H. unfold hexdigit in H.
  repeat case_match; rewrite !ord_chr in H by lia; lia.
Qed.

Lemma hex_inj s t : hex s = hex t -> s = t.
Proof.
  revert t. induction s as [|c s IH]; intros [|d t]; simpl; try done.
  intros [= H1 H2 H3]. pose proof (ord_range c). pose proof (ord_range d).
  apply hexdigit_inj in H1, H2;
    try (Z.div_mod_to_equations; lia).
  rewrite (IH t H3). f_equal. apply ord_inj. Z.div_mod_to_equations; lia.
Qed.

Lemma ord_b64digit d : 0 <= d < 64 ->
  ord (b64digit d) =
  if d <? 26 then 65 + d else if d <? 52 then 71 + d else if d <? 62 then d - 4
  else if d =? 62 then 43 else 47.
Proof.
  intros H. unfold b64digit. repeat case_match; try (apply ord_chr; lia); reflexivity.
Qed.

Lemma b64digit_inj d e : 0 <= d < 64 -> 0 <= e < 64 -> b64digit d = b64digit e -> d = e.
Proof.
  intros Hd He H. apply (f_equal ord) in H. rewrite !ord_b64digit in H by lia.
  repeat case_match; lia.
Qed.

Ltac b64_step :=
  repeat match goal with
  | c : ascii |- _ =>
      lazymatch goal with
      | H : 0 <= ord c < 256 |- _ => fail
      | _ => pose proof (ord_range c)
      end
  | H : b64digit _ = b64digit _ |- _ =>
      apply b64digit_inj in H; [|Z.div_mod_to_equations; lia..]
  end.

Lemma b64_inj s t : String.length s = String.length t -> b64_encode s = b64_encode t -> s = t.
Proof.
  revert t. induction s as [s IH] using string_len_ind. intros t Hl H.
  destruct s as [|a [|b [|c s]]], t as [|a' [|b' [|c' t]]]; simplify_eq/=; [done|..];
    b64_step; repeat f_equal; try (apply ord_inj; Z.div_mod_to_equations; lia).
  apply IH; [lia|done|done].
Qed.

Lemma length_b64 s : String.length (b64_encode s) = (4 * ((String.length s + 2) / 3))%nat.
Proof.
  induction s as [s IH] using string_len_ind.
  destruct s as [|a [|b [|c s]]]; [done..|]. cbn [b64_encode String.length].
  rewrite IH by (simpl; lia).
  replace (S (S (S (String.length s))) + 2)%nat with (String.length s + 2 + 1 * 3)%nat by lia.
  rewrite Nat.div_add by lia. lia.
Qed.
