(* ===== verification/Json.v ===== *)
(** * [encoding/json] as the agent uses it

    [json] is the tree of a JSON text and also the dynamic value Go decodes
    it to in an [interface{}]: null is nil, an object is a
    [map[string]interface{}] whose last binding of a key counts.  A number
    keeps its literal.  [parse] is the scanner and decoder together: [None]
    is a syntax error.  [encode] is [Marshal] with HTML escaping, the
    default.  Numbers of a decoded value are printed back as they were
    written; Go prints the shortest literal of the same float64. *)

From S2P Require Import Prelude GoStrings Hash.
Local Open Scope Z_scope.

Inductive json : Type :=
| JNull
| JBool (b : bool)
| JNum (lit : string)
| JStr (s : string)
| JArr (l : list json)
| JObj (l : list (string * json)).

(** ** Strings *)

Definition replacement : string := String (chr 239) (String (chr 191) (String (chr 189) "")).
Definition quote_char : ascii := chr 34.
Definition backslash : ascii := chr 92.
Definition c1 (c : ascii) : string := String c "".

Definition u4 (r : Z) : string :=
  String backslash (String "u"%char
    (String (hexdigit (r / 4096)) (String (hexdigit (r / 256 mod 16))
       (String (hexdigit (r / 16 mod 16)) (String (hexdigit (r mod 16)) ""))))).

(** One rune as [Marshal] writes it inside a string. *)
Definition quote_rune (p : Z * string) : string :=
  let '(r, b) := p in
  if (r =? 34) || (r =? 92) then String backslash b
  else if r =? 8 then String backslash "b"
  else if r =? 12 then String backslash "f"
  else if r =? 10 then String backslash "n"
  else if r =? 13 then String backslash "r"
  else if r =? 9 then String backslash "t"
  else if (r <? 32) || (r =? 60) || (r =? 62) || (r =? 38) then u4 r
  else if (r =? RuneError) && (String.length b =? 1)%nat then u4 RuneError
  else if (r =? 8232) || (r =? 8233) then u4 r
  else b.

Fixpoint quote_runes (l : list (Z * string)) : string :=
  match l with [] => "" | p :: l' => quote_rune p +:+ quote_runes l' end.
Definition quote (s : string) : string :=
  String quote_char (quote_runes (runes s) +:+ c1 quote_char).

Definition hexval (c : ascii) : option Z :=
  let b := ord c in
  if between 48 b 57 then Some (b - 48)
  else if between 97 b 102 then Some (b - 87)
  else if between 65 b 70 then Some (b - 55)
  else None.

Definition hex4 (s : string) : option (Z * string) :=
  match s with
  | String a (String b (String c (String d t))) =>
      match hexval a, hexval b, hexval c, hexval d with
      | Some x, Some y, Some z, Some w => Some (((x * 16 + y) * 16 + z) * 16 + w, t)
      | _, _, _, _ => None
      end
  | _ => None
  end.

(** [utf8.EncodeRune]. *)
Definition encode_rune (r : Z) : string :=
  if r <? 128 then c1 (chr r)
  else if r <? 2048 then
    String (chr (192 + r / 64)) (c1 (chr (128 + r mod 64)))
  else if between 55296 r 57343 then replacement
  else if r <? 65536 then
    String (chr (224 + r / 4096)) (String (chr (128 + r / 64 mod 64)) (c1 (chr (128 + r mod 64))))
  else
    String (chr (240 + r / 262144)) (String (chr (128 + r / 4096 mod 64))
      (String (chr (128 + r / 64 mod 64)) (c1 (chr (128 + r mod 64))))).

Definition esc_char (e : ascii) : option ascii :=
  let b := ord e in
  if (b =? 34) || (b =? 92) || (b =? 47) then Some e
  else if b =? 98 then Some (chr 8)
  else if b =? 102 then Some (chr 12)
  else if b =? 110 then Some (chr 10)
  else if b =? 114 then Some (chr 13)
  else if b =? 116 then Some (chr 9)
  else None.

Definition prepend (a : string) (r : option (string * string)) : option (string * string) :=
  match r with Some (s, t) => Some (a +:+ s, t) | None => None end.

(** The body of a string after its opening quote: the value and the rest
    after the closing quote.  Fuel: every step consumes a byte. *)
Fixpoint parse_str (fuel : nat) (s : string) : option (string * string) :=
  match fuel with
  | O => None
  | S f =>
      match s with
      | "" => None
      | String c s1 =>
          let b := ord c in
          if b =? 34 then Some ("", s1)
          else if b =? 92 then
            match s1 with
            | "" => None
            | String e s2 =>
                match esc_char e with
                | Some ch => prepend (c1 ch) (parse_str f s2)
                | None =>
                    if ord e =? 117 then
                      match hex4 s2 with
                      | None => None
                      | Some (r, s3) =>
                          if between 55296 r 57343 then
                            match s3 with
                            | String b1 (String b2 s4) =>
                                match (if (ord b1 =? 92) && (ord b2 =? 117) then hex4 s4 else None) with
                                | Some (r2, s5) =>
                                    if between 55296 r 56319 && between 56320 r2 57343
                                    then prepend (encode_rune ((r - 55296) * 1024 + (r2 - 56320) + 65536))
                                           (parse_str f s5)
                                    else prepend replacement (parse_str f s3)
                                | None => prepend replacement (parse_str f s3)
                                end
                            | _ => prepend replacement (parse_str f s3)
                            end
                          else prepend (encode_rune r) (parse_str f s3)
                      end
                    else None
                end
            end
          else if b <? 32 then None
          else
            match rune1 s with
            | Some (r, bs, t) =>
                prepend (if (r =? RuneError) && (String.length bs =? 1)%nat
                         then replacement else bs) (parse_str f t)
            | None => None
            end
      end
  end.

(** ** Numbers *)

Fixpoint span_digits (s : string) : string * string :=
  match s with
  | String c s' =>
      if is_digit c then let '(a, b) := span_digits s' in (String c a, b) else ("", s)
  | "" => ("", "")
  end.

Definition scan_frac (s : string) : option (string * string) :=
  match s with
  | String c s' =>
      if ord c =? 46 then
        match span_digits s' with ("", _) => None | (d, t) => Some (String c d, t) end
      else Some ("", s)
  | "" => Some ("", s)
  end.

Definition scan_exp (s : string) : option (string * string) :=
  match s with
  | String c s' =>
      if (ord c =? 101) || (ord c =? 69) then
        let '(sg, t) := match s' with
                        | String x u => if (ord x =? 43) || (ord x =? 45) then (c1 x, u) else ("", s')
                        | "" => ("", s') end in
        match span_digits t with ("", _) => None | (d, u) => Some (String c (sg +:+ d), u) end
      else Some ("", s)
  | "" => Some ("", s)
  end.

Definition scan_int (s : string) : option (string * string) :=
  match s with
  | String c s' =>
      if ord c =? 48 then Some (c1 c, s')
      else if is_digit c then let '(d, t) := span_digits s' in Some (String c d, t)
      else None
  | "" => None
  end.

Definition scan_number (s : string) : option (string * string) :=
  let '(sg, s0) := match s with
                   | String c s' => if ord c =? 45 then (c1 c, s') else ("", s)
                   | "" => ("", s) end in
  '(i, s1) ← scan_int s0;
  '(fr, s2) ← scan_frac s1;
  '(ex, s3) ← scan_exp s2;
  Some (sg +:+ i +:+ fr +:+ ex, s3).

(** ** Values *)

Fixpoint skip_ws (s : string) : string :=
  match s with
  | String c s' =>
      if (ord c =? 32) || (ord c =? 9) || (ord c =? 13) || (ord c =? 10) then skip_ws s' else s
  | "" => ""
  end.

(** Fuel: a call of [parse_value] directly inside [parse_elems] consumes
    nothing, every other call consumes a byte.  [depth] is what is left of
    the nesting limit of the scanner (10000). *)
Fixpoint parse_value (fuel : nat) (depth : Z) (s : string) : option (json * string) :=
  match fuel with
  | O => None
  | S f =>
      match skip_ws s with
      | "" => None
      | String c s1 =>
          let b := ord c in
          if b =? 123 then
            if depth <=? 0 then None
            else match skip_ws s1 with
                 | String d s2 =>
                     if ord d =? 125 then Some (JObj [], s2)
                     else match parse_members f (depth - 1) (String d s2) with
                          | Some (l, t) => Some (JObj l, t) | None => None end
                 | "" => None
                 end
          else if b =? 91 then
            if depth <=? 0 then None
            else match skip_ws s1 with
                 | String d s2 =>
                     if ord d =? 93 then Some (JArr [], s2)
                     else match parse_elems f (depth - 1) (String d s2) with
                          | Some (l, t) => Some (JArr l, t) | None => None end
                 | "" => None
                 end
          else if b =? 34 then
            match parse_str (S (String.length s1)) s1 with
            | Some (v, t) => Some (JStr v, t) | None => None end
          else if HasPrefix (String c s1) "null" then Some (JNull, drop_s 4 (String c s1))
          else if HasPrefix (String c s1) "true" then Some (JBool true, drop_s 4 (String c s1))
          else if HasPrefix (String c s1) "false" then Some (JBool false, drop_s 5 (String c s1))
          else match scan_number (String c s1) with
               | Some (lit, t) => Some (JNum lit, t) | None => None end
      end
  end
with parse_elems (fuel : nat) (depth : Z) (s : string) : option (list json * string) :=
  match fuel with
  | O => None
  | S f =>
      match parse_value f depth s with
      | None => None
      | Some (v, t) =>
          match skip_ws t with
          | String c t1 =>
              if ord c =? 44 then
                match parse_elems f depth t1 with
                | Some (l, u) => Some (v :: l, u) | None => None end
              else if ord c =? 93 then Some ([v], t1)
              else None
          | "" => None
          end
      end
  end
with parse_members (fuel : nat) (depth : Z) (s : string) : option (list (string * json) * string) :=
  match fuel with
  | O => None
  | S f =>
      match skip_ws s with
      | "" => None
      | String q s1 =>
          if ord q =? 34 then
            match parse_str (S (String.length s1)) s1 with
            | None => None
            | Some (k, s2) =>
                match skip_ws s2 with
                | "" => None
                | String col s3 =>
                    if ord col =? 58 then
                      match parse_value f depth s3 with
                      | None => None
                      | Some (v, t) =>
                          match skip_ws t with
                          | String c t1 =>
                              if ord c =? 44 then
                                match parse_members f depth t1 with
                                | Some (l, u) => Some ((k, v) :: l, u) | None => None end
                              else if ord c =? 125 then Some ([(k, v)], t1)
                              else None
                          | "" => None
                          end
                      end
                    else None
                end
            end
          else None
      end
  end.

Definition maxNestingDepth : Z := 10000.

Definition parse (s : string) : option json :=
  match parse_value (S (2 * String.length s)) maxNestingDepth s with
  | Some (j, t) => if skip_ws t ==s "" then Some j else None
  | None => None
  end.

(** ** Marshal *)

Fixpoint encode (j : json) : string :=
  match j with
  | JNull => "null"
  | JBool true => "true"
  | JBool false => "false"
  | JNum lit => lit
  | JStr s => quote s
  | JArr l => "[" +:+ Join (map encode l) "," +:+ "]"
  | JObj l => "{" +:+ Join (map (fun kv => quote kv.1 +:+ ":" +:+ encode kv.2) l) "," +:+ "}"
  end.

(** Map keys are written in increasing byte order. *)
Definition key_le {A} (p q : string * A) : Prop := String.le p.1 q.1.
#[global] Instance key_le_dec {A} : RelDecision (@key_le A).
Proof. intros p q. unfold key_le. apply _. Defined.
Definition sorted_entries {A} (m : gmap string A) : list (string * A) :=
  merge_sort key_le (map_to_list m).

(** A [map[string]string]. *)
Definition of_smap (m : gmap string string) : json :=
  JObj (map (fun p => (p.1, JStr p.2)) (sorted_entries m)).

(** ** Unmarshal targets *)

(** The value bound to a key in a decoded [map[string]interface{}]. *)
Definition jget (k : string) (l : list (string * json)) : json :=
  match list_find (fun p => p.1 = k) (reverse l) with
  | Some (_, p) => p.2
  | None => JNull
  end.
Definition jhas (k : string) (l : list (string * json)) : bool :=
  bool_decide (k ∈ l.*1).

(** Numbers stored in an [interface{}] become float64: out of range is an
    error.  [num_parts lit = (m, e)] is the value m * 10^e, with an exponent
    beyond 100000 cut there: such a value is 0 or out of range anyway. *)
Fixpoint dec_digits (s : string) (m e : Z) (frac : bool) : Z * Z * string :=
  match s with
  | "" => (m, e, "")
  | String c s' =>
      if is_digit c then dec_digits s' (m * 10 + (ord c - 48)) (if frac then e - 1 else e) frac
      else if ord c =? 46 then dec_digits s' m e true
      else if ord c =? 45 then dec_digits s' m e frac
      else (m, e, s')
  end.
Definition num_parts (lit : string) : Z * Z :=
  let '(m, e, ex) := dec_digits lit 0 0 false in
  match ParseInt ex with
  | Some x => (m, e + Z.max (-100000) (Z.min x 100000))
  | None => if ex ==s "" then (m, e)
            else if HasPrefix ex "-" then (m, e - 100000) else (m, e + 100000)
  end.
Definition float_overflow (lit : string) : bool :=
  let '(m, e) := num_parts lit in
  if m =? 0 then false
  else let mag := Z.log2 m / 4 + e in
       if 400 <? mag then true
       else if Z.log2 m + e <? 250 then false
       else (2 ^ 1024 - 2 ^ 970) * 10 ^ Z.max 0 (- e) <=? m * 10 ^ Z.max 0 e.

Fixpoint ifc_ok (j : json) : bool :=
  match j with
  | JNum lit => negb (float_overflow lit)
  | JArr l => forallb ifc_ok l
  | JObj l => forallb (fun kv => ifc_ok kv.2) l
  | _ => true
  end.

(** [var m map[string]interface{}; Unmarshal(data, &m)]: the entries, or
    [None] for an error; null leaves the map nil. *)
Definition unmarshal_map (data : string) : option (list (string * json)) :=
  match parse data with
  | Some (JObj l) => if ifc_ok (JObj l) then Some l else None
  | Some JNull => Some []
  | _ => None
  end.

(** Into a [map[string]string] that already holds [m]. *)
Fixpoint decode_smap (l : list (string * json)) (m : gmap string string)
    : option (gmap string string) :=
  match l with
  | [] => Some m
  | (k, JStr v) :: l' => decode_smap l' (<[k := v]> m)
  | (k, JNull) :: l' => decode_smap l' (<[k := ""]> m)
  | _ => None
  end.

Definition unmarshal_smap (data : string) : option (gmap string string) :=
  match parse data with
  | Some (JObj l) => decode_smap l ∅
  | Some JNull => Some ∅
  | _ => None
  end.

(** Type assertions on an [interface{}]. *)
Definition as_string (j : json) : option string := match j with JStr s => Some s | _ => None end.
Definition as_map (j : json) : option (list (string * json)) :=
  match j with JObj l => Some l | _ => None end.
Definition as_array (j : json) : option (list json) := match j with JArr l => Some l | _ => None end.
Definition as_bool (j : json) : option bool := match j with JBool b => Some b | _ => None end.

(** ** Sanity checks *)

(** JSON text written with apostrophes for its quotation marks. *)
Fixpoint dq (s : string) : string :=
  match s with
  | "" => ""
  | String c s' => String (if ord c =? 39 then quote_char else c) (dq s')
  end.

Example parse_ex1 :
  parse (dq "{'code' : 200, 'success':true,'result':['x\u0041\n',null,-1.5e3]}") =
  Some (JObj [("code", JNum "200"); ("success", JBool true);
              ("result", JArr [JStr ("xA" +:+ c1 (chr 10)); JNull; JNum "-1.5e3"])]).
Proof. vm_compute. reflexivity. Qed.
Example parse_ex2 : (parse (dq "{'a':1,}"), parse "01", parse "[1] x") = (None, None, None).
Proof. vm_compute. reflexivity. Qed.
Example encode_ex :
  encode (of_smap (<["b" := "<x>"]> (<["a" := "q"]> ∅))) = dq "{'a':'q','b':'\u003cx\u003e'}".
Proof. vm_compute. reflexivity. Qed.
