(* ===== verification/JsonFacts.v ===== *)
(** * Decoding what [Marshal] wrote

    Strings survive the round trip when they are valid UTF-8 (Go replaces
    anything else by U+FFFD), and so do trees built from them. *)

From S2P Require Import Prelude GoStrings Hash Json.
Local Open Scope Z_scope.

Definition good_rune (p : Z * string) : bool :=
  negb ((p.1 =? RuneError) && (String.length p.2 =? 1)%nat).

(** [utf8.ValidString]. *)
Definition valid_utf8 (s : string) : bool := forallb good_rune (runes s).

(** ** Runes read back *)

Ltac bools :=
  repeat match goal with
  | H : _ && _ = true |- _ => apply andb_prop in H as [? ?]
  | H : negb _ = true |- _ => apply negb_true_iff in H
  end.

(** Decoding only looks at the bytes of the rune. *)
Lemma rune1_local s r b t : rune1 s = Some (r, b, t) -> good_rune (r, b) = true ->
  forall u, rune1 (b +:+ u) = Some (r, b, u).
Proof.
  intros H Hg u. unfold good_rune in Hg.
  destruct s as [|x0 [|x1 [|x2 [|x3 s]]]]; cbn [rune1] in H; [done|..];
    repeat (case_match; simplify_eq; try (vm_compute in Hg; done));
    rewrite ?app_cons_s, ?app_nil_l_s; cbn [rune1];
    repeat match goal with H : _ = (_ : bool) |- _ => rewrite H; clear H end; try done;
    destruct u as [|? [|? ?]]; done.
Qed.

Lemma chr_eq z c : z = ord c -> chr z = c.
Proof. intros ->. apply chr_ord. Qed.

Ltac encode_solve :=
  repeat match goal with c : ascii |- _ =>
    lazymatch goal with H : 0 <= ord c < 256 |- _ => fail | _ => pose proof (ord_range c) end
  end;
  unfold encode_rune, second3, second4, cont, between, c1 in *;
  repeat (case_match; bools; try lia);
  repeat f_equal; apply chr_eq; Z.div_mod_to_equations; lia.

Lemma encode_rune_1 a : ord a < 128 -> encode_rune (ord a) = c1 a.
Proof. intros H. encode_solve. Qed.

Lemma encode_rune_2 a b : between 194 (ord a) 223 = true -> cont (ord b) = true ->
  encode_rune ((ord a - 192) * 64 + (ord b - 128)) = String a (c1 b).
Proof. intros H1 H2. encode_solve. Qed.

Lemma encode_rune_3 a b c : second3 (ord a) (ord b) = true -> cont (ord c) = true ->
  encode_rune ((ord a - 224) * 4096 + (ord b - 128) * 64 + (ord c - 128))
  = String a (String b (c1 c)).
Proof. intros H1 H2. encode_solve. Qed.

Lemma encode_rune_4 a b c d :
  second4 (ord a) (ord b) = true -> cont (ord c) = true -> cont (ord d) = true ->
  encode_rune ((ord a - 240) * 262144 + (ord b - 128) * 4096 + (ord c - 128) * 64 + (ord d - 128))
  = String a (String b (String c (c1 d))).
Proof. intros H1 H2 H3. encode_solve. Qed.

(** Encoding a decoded rune gives its bytes. *)
Lemma encode_rune1 s r b t : rune1 s = Some (r, b, t) -> good_rune (r, b) = true ->
  encode_rune r = b.
Proof.
  intros H Hg. unfold good_rune in Hg.
  destruct s as [|x0 [|x1 [|x2 [|x3 s]]]]; cbn [rune1] in H; [done|..];
    repeat (case_match; simplify_eq; try (vm_compute in Hg; done)); bools;
    first [apply encode_rune_1; lia | by apply encode_rune_2
          | by apply encode_rune_3 | by apply encode_rune_4].
Qed.

(** A rune is one ASCII byte, or starts with a byte above. *)
Lemma rune1_head s r b t : rune1 s = Some (r, b, t) ->
  (exists c, ord c < 128 /\ r = ord c /\ b = c1 c) \/
  (128 <= r /\ exists c b', b = String c b' /\ 128 <= ord c).
Proof.
  intros H.
  destruct s as [|x0 [|x1 [|x2 [|x3 s]]]]; cbn [rune1] in H; [done|..];
    repeat (case_match; simplify_eq);
    repeat match goal with c : ascii |- _ =>
      lazymatch goal with H : 0 <= ord c < 256 |- _ => fail | _ => pose proof (ord_range c) end
    end;
    first [left; exists x0; split; [lia|done]
          | right; split; [unfold RuneError, second3, second4, cont, between in *;
                           bools; repeat case_match; bools; lia
                          | do 2 eexists; split; [done|lia]]].
Qed.

(** ** Strings read back *)

Lemma prepend_prepend a b r : prepend a (prepend b r) = prepend (a +:+ b) r.
Proof. destruct r as [[s t]|]; simpl; [|done]. by rewrite app_assoc_s. Qed.

Lemma parse_quote_ascii c f u : ord c < 128 ->
  parse_str (S f) (quote_rune (ord c, c1 c) +:+ u) = prepend (c1 c) (parse_str f u).
Proof.
  destruct c as [[] [] [] [] [] [] [] []]; intros H; vm_compute in H; try done; reflexivity.
Qed.

Lemma parse_quote_rune s r b t f u : rune1 s = Some (r, b, t) -> good_rune (r, b) = true ->
  parse_str (S f) (quote_rune (r, b) +:+ u) = prepend b (parse_str f u).
Proof.
  intros H Hg. destruct (rune1_head _ _ _ _ H) as [(c & Hc & -> & ->)|(Hr & c & b' & Hb & Hc)].
  - by apply parse_quote_ascii.
  - pose proof (encode_rune1 _ _ _ _ H Hg) as He.
    pose proof (rune1_local _ _ _ _ H Hg u) as Hl.
    unfold good_rune in Hg. simpl in Hg. apply negb_true_iff in Hg.
    unfold quote_rune. rewrite Hg.
    destruct (Z.eqb_spec r 8232) as [->|H1]; [clear Hb; subst b; reflexivity|].
    destruct (Z.eqb_spec r 8233) as [->|H2]; [clear Hb; subst b; reflexivity|].
    repeat match goal with |- context [if ?x then _ else _] =>
      replace x with false by lia end.
    subst b. rewrite app_cons_s in *. cbn [parse_str].
    replace (ord c =? 34) with false by lia. replace (ord c =? 92) with false by lia.
    replace (ord c <? 32) with false by lia. rewrite Hl. by rewrite Hg.
Qed.

(** A quoted string is read up to its closing quote. *)
Lemma parse_quote s f u : valid_utf8 s = true -> (length (runes s) < f)%nat ->
  parse_str f (quote_runes (runes s) +:+ String quote_char u) = Some (s, u).
Proof.
  revert f. induction s as [s IH] using string_len_ind. intros f Hv Hf.
  unfold valid_utf8 in *. rewrite runes_step in *.
  destruct (rune1 s) as [[[r b] t]|] eqn:E.
  - cbn [quote_runes length forallb] in *. apply andb_prop in Hv as [Hg Hv].
    destruct f as [|f]; [lia|]. rewrite app_assoc_s.
    rewrite (parse_quote_rune _ _ _ _ _ _ E Hg).
    apply rune1_app_bytes in E as [-> Hl].
    rewrite IH by (done || lia). done.
  - apply rune1_None in E as ->. destruct f as [|f]; [simpl in Hf; lia|]. reflexivity.
Qed.

Lemma quote_rune_nonempty s r b t : rune1 s = Some (r, b, t) ->
  (1 <= String.length (quote_rune (r, b)))%nat.
Proof.
  intros H. unfold quote_rune.
  destruct (rune1_head _ _ _ _ H) as [(c & Hc & -> & ->)|(Hr & c & b' & -> & Hc)];
    repeat case_match; simpl; lia.
Qed.

Lemma quote_runes_length s : (length (runes s) <= String.length (quote_runes (runes s)))%nat.
Proof.
  induction s as [s IH] using string_len_ind. rewrite runes_step.
  destruct (rune1 s) as [[[r b] t]|] eqn:E; [|simpl; lia].
  cbn [quote_runes length]. rewrite length_app_s.
  pose proof (quote_rune_nonempty _ _ _ _ E).
  apply rune1_app_bytes in E as [_ Hl]. specialize (IH t Hl). lia.
Qed.

Lemma parse_quoted s u : valid_utf8 s = true ->
  let body := quote_runes (runes s) +:+ c1 quote_char +:+ u in
  parse_str (S (String.length body)) body = Some (s, u).
Proof.
  intros Hv body. unfold body, c1. rewrite app_cons_s, app_nil_l_s.
  apply parse_quote; [done|]. rewrite length_app_s.
  pose proof (quote_runes_length s). simpl. lia.
Qed.

Lemma quote_app s u : quote s +:+ u = String quote_char (quote_runes (runes s) +:+ c1 quote_char +:+ u).
Proof. unfold quote. by rewrite app_cons_s, app_assoc_s. Qed.

(** ** Trees read back *)

Section json_ind.
Context (P : json -> Prop).
Hypothesis Hnull : P JNull.
Hypothesis Hbool : forall b, P (JBool b).
Hypothesis Hnum : forall s, P (JNum s).
Hypothesis Hstr : forall s, P (JStr s).
Hypothesis Harr : forall l, Forall P l -> P (JArr l).
Hypothesis Hobj : forall l, Forall (fun kv => P kv.2) l -> P (JObj l).

Fixpoint json_tree_ind (j : json) : P j :=
  match j with
  | JNull => Hnull
  | JBool b => Hbool b
  | JNum s => Hnum s
  | JStr s => Hstr s
  | JArr l => Harr l ((fix go l := match l return Forall P l with
      | [] => List.Forall_nil _ | x :: l' => List.Forall_cons _ _ _ (json_tree_ind x) (go l') end) l)
  | JObj l => Hobj l ((fix go l := match l return Forall (fun kv => P kv.2) l with
      | [] => List.Forall_nil _
      | x :: l' => List.Forall_cons _ _ _ (json_tree_ind x.2) (go l') end) l)
  end.
End json_ind.

(** What may follow a value. *)
Definition delim (u : string) : Prop :=
  match u with "" => True | String c _ => ord c = 44 \/ ord c = 93 \/ ord c = 125 end.

(** A number literal that ends at a delimiter. *)
Definition num_ok (lit : string) : Prop :=
  (exists c t, lit = String c t /\ (is_digit c = true \/ ord c = 45)) /\
  forall u, delim u -> scan_number (lit +:+ u) = Some (lit, u).

Fixpoint wf_json (j : json) : Prop :=
  match j with
  | JNum lit => num_ok lit
  | JStr s => valid_utf8 s = true
  | JArr l => foldr (fun x acc => wf_json x /\ acc) True l
  | JObj l => foldr (fun kv acc => (valid_utf8 kv.1 = true /\ wf_json kv.2) /\ acc) True l
  | _ => True
  end.

(** Fuel and nesting a tree needs. *)
Fixpoint jfuel (j : json) : nat :=
  match j with
  | JArr l => S (foldr (fun x n => S (jfuel x + n)) 1 l)
  | JObj l => S (foldr (fun kv n => S (jfuel kv.2 + n)) 1 l)
  | _ => 1
  end%nat.
Fixpoint jdepth (j : json) : Z :=
  match j with
  | JArr l => 1 + foldr (fun x n => Z.max (jdepth x) n) 0 l
  | JObj l => 1 + foldr (fun kv n => Z.max (jdepth kv.2) n) 0 l
  | _ => 0
  end.

Lemma foldr_max_nonneg {A} (f : A -> Z) l : 0 <= foldr (fun x n => Z.max (f x) n) 0 l.
Proof. induction l; simpl; lia. Qed.

Lemma jfuel_pos j : (1 <= jfuel j)%nat.
Proof. destruct j; simpl; lia. Qed.

(** The first byte written is not white space. *)
Definition starts (s : string) : Prop :=
  exists c t, s = String c t /\ 33 <= ord c /\ ord c <> 44 /\ ord c <> 93 /\ ord c <> 125.

Lemma skip_starts s : starts s -> skip_ws s = s.
Proof.
  intros (c & t & -> & H & _). simpl.
  replace ((ord c =? 32) || (ord c =? 9) || (ord c =? 13) || (ord c =? 10)) with false by lia.
  done.
Qed.

Lemma skip_delim u : delim u -> skip_ws u = u.
Proof.
  destruct u as [|c t]; [done|]. simpl. intros H.
  replace ((ord c =? 32) || (ord c =? 9) || (ord c =? 13) || (ord c =? 10)) with false by lia.
  done.
Qed.

Lemma encode_starts j u : wf_json j -> starts (encode j +:+ u).
Proof.
  intros Hw. unfold starts.
  destruct j as [|[]|lit|s|l|l]; cbn [encode]; rewrite ?app_assoc_s.
  5: rewrite quote_app.
  all: try (do 2 eexists; split; [reflexivity|vm_compute; intuition congruence]).
  destruct Hw as [(c & t & -> & Hc) _]. exists c, (t +:+ u). split; [done|].
  unfold is_digit, between in Hc. lia.
Qed.

Definition elems_text (l : list json) : string := Join (map encode l) ",".
Definition member_text (kv : string * json) : string := quote kv.1 +:+ ":" +:+ encode kv.2.
Definition members_text (l : list (string * json)) : string := Join (map member_text l) ",".

Definition reads (j : json) : Prop :=
  wf_json j -> forall fuel d u, (jfuel j <= fuel)%nat -> jdepth j <= d -> delim u ->
  parse_value fuel d (encode j +:+ u) = Some (j, u).

(** Evaluate tests on literal bytes. *)
Ltac ords :=
  repeat match goal with
  | |- context [ord ?c =? ?n] =>
      let v := eval vm_compute in (ord c =? n) in
      lazymatch v with true => idtac | false => idtac end;
      change (ord c =? n) with v
  end; cbn [orb andb].

Lemma comma_app u : "," +:+ u = String ","%char u.
Proof. done. Qed.

Lemma parse_elems_text l : l <> [] -> Forall reads l ->
  forall fuel d u, wf_json (JArr l) -> (jfuel (JArr l) <= S fuel)%nat -> jdepth (JArr l) <= 1 + d ->
  parse_elems fuel d (elems_text l +:+ "]" +:+ u) = Some (l, u).
Proof.
  induction l as [|x l IH]; intros Hne Hr fuel d u Hw Hf Hd; [done|].
  apply Forall_cons_1 in Hr as [Hx Hr]. cbn [wf_json foldr] in Hw. destruct Hw as [Hwx Hw].
  cbn [jfuel jdepth foldr] in Hf, Hd. destruct fuel as [|fuel]; [lia|].
  unfold elems_text. destruct l as [|y l].
  - cbn [map Join parse_elems]. rewrite Hx by (done || lia || (simpl; lia) || (right; left; reflexivity)).
    reflexivity.
  - cbn [map]. rewrite join_cons by done. rewrite !app_assoc_s, comma_app. cbn [parse_elems].
    rewrite Hx by (done || lia || (left; reflexivity)). cbn [skip_ws].
    ords.
    fold (elems_text (y :: l)). pose proof (jfuel_pos x).
    rewrite IH; try done; cbn [jfuel jdepth foldr] in *; lia.
Qed.

Lemma parse_members_text l : l <> [] -> Forall (fun kv => reads kv.2) l ->
  forall fuel d u, wf_json (JObj l) -> (jfuel (JObj l) <= S fuel)%nat -> jdepth (JObj l) <= 1 + d ->
  parse_members fuel d (members_text l +:+ "}" +:+ u) = Some (l, u).
Proof.
  induction l as [|[k x] l IH]; intros Hne Hr fuel d u Hw Hf Hd; [done|].
  apply Forall_cons_1 in Hr as [Hx Hr]. unfold reads in Hx. cbn [wf_json foldr fst snd] in Hw, Hx.
  destruct Hw as [[Hk Hwx] Hw]. pose proof (jfuel_pos x).
  cbn [jfuel jdepth foldr snd] in *. destruct fuel as [|fuel]; [lia|].
  unfold members_text. destruct l as [|y l].
  - cbn [map Join parse_members]. unfold member_text. cbn [fst snd].
    rewrite !app_assoc_s, quote_app. cbn [skip_ws]. ords. rewrite parse_quoted by done.
    change (":" +:+ encode x +:+ "}" +:+ u) with (String ":"%char (encode x +:+ "}" +:+ u)).
    cbn [skip_ws]. ords.
    rewrite Hx by (done || lia || (simpl; lia) || (right; right; reflexivity)). reflexivity.
  - change (Join (map member_text ((k, x) :: y :: l)) ",")
      with (member_text (k, x) +:+ String ","%char (members_text (y :: l))).
    cbn [parse_members]. unfold member_text at 1. cbn [fst snd].
    rewrite !app_assoc_s, quote_app. cbn [skip_ws]. ords. rewrite parse_quoted by done.
    rewrite (app_cons_s ":"%char), app_nil_l_s, app_cons_s. cbn [skip_ws]. ords.
    rewrite Hx by (done || lia || (left; reflexivity)).
    cbn [skip_ws]. ords. rewrite IH; try done; cbn [jfuel jdepth foldr] in *; lia.
Qed.

Lemma members_starts kv l u : starts (members_text (kv :: l) +:+ u).
Proof.
  unfold starts, members_text. cbn [map].
  assert (exists t, Join (member_text kv :: map member_text l) "," +:+ u = String quote_char t) as [t ->].
  { destruct (map member_text l); cbn [Join]; unfold member_text at 1; rewrite !app_assoc_s, quote_app; eauto. }
  do 2 eexists. split; [reflexivity|]. vm_compute. intuition congruence.
Qed.

Lemma elems_starts x l u : wf_json x -> starts (elems_text (x :: l) +:+ u).
Proof.
  intros Hw. unfold elems_text. cbn [map]. destruct (map encode l); cbn [Join].
  - by apply encode_starts.
  - rewrite !app_assoc_s. by apply encode_starts.
Qed.

Lemma depth_positive {A} (f : A -> Z) l d : 1 + foldr (fun x n => Z.max (f x) n) 0 l <= d -> (d <=? 0) = false.
Proof. pose proof (foldr_max_nonneg f l). lia. Qed.

Lemma reads_num lit : reads (JNum lit).
Proof.
  intros Hw [|fuel] d u Hf Hd Hu; [simpl in Hf; lia|].
  pose proof (encode_starts (JNum lit) u Hw) as Hs.
  destruct Hw as [(c & t & -> & Hc) Hn]. specialize (Hn u Hu).
  cbn [encode] in *. cbn [parse_value]. rewrite skip_starts by done.
  rewrite app_cons_s in *.
  unfold is_digit, between in Hc.
  replace (ord c =? 123) with false by lia. replace (ord c =? 91) with false by lia.
  replace (ord c =? 34) with false by lia.
  assert (Hno : forall e w v, 97 <= ord e -> HasPrefix (String c v) (String e w) = false).
  { intros e w v He. destruct (HasPrefix _ _) eqn:E; [|done].
    apply prefix_app in E as [z Hz]. rewrite app_cons_s in Hz. simplify_eq. lia. }
  rewrite !Hno by done.
  by rewrite Hn.
Qed.

Lemma reads_arr l : Forall reads l -> reads (JArr l).
Proof.
  intros Hl Hw [|fuel] d u Hf Hd Hu; [simpl in Hf; lia|].
  cbn [encode parse_value]. fold (elems_text l). rewrite !app_assoc_s.
  change ("[" +:+ elems_text l +:+ "]" +:+ u) with (String "["%char (elems_text l +:+ "]" +:+ u)).
  cbn [skip_ws]. ords. rewrite (depth_positive _ l d Hd).
  destruct l as [|x l]; [reflexivity|].
  rewrite skip_starts by (apply elems_starts; apply Hw).
  destruct (elems_starts x l ("]" +:+ u)) as (c & t & E & Hc & _ & Hc2 & _); [apply Hw|].
  rewrite E. replace (ord c =? 93) with false by lia. rewrite <-E.
  rewrite parse_elems_text by (done || lia). done.
Qed.

Lemma reads_obj l : Forall (fun kv => reads kv.2) l -> reads (JObj l).
Proof.
  intros Hl Hw [|fuel] d u Hf Hd Hu; [simpl in Hf; lia|].
  cbn [encode parse_value]. fold member_text. fold (members_text l). rewrite !app_assoc_s.
  change ("{" +:+ members_text l +:+ "}" +:+ u) with (String "{"%char (members_text l +:+ "}" +:+ u)).
  cbn [skip_ws]. ords. rewrite (depth_positive _ l d Hd).
  destruct l as [|x l]; [reflexivity|].
  rewrite skip_starts by apply members_starts.
  destruct (members_starts x l ("}" +:+ u)) as (c & t & E & Hc & _ & _ & Hc2).
  rewrite E. replace (ord c =? 125) with false by lia. rewrite <-E.
  rewrite parse_members_text by (done || lia). done.
Qed.

(** [Unmarshal] of [Marshal] is the identity on well-formed trees. *)
Lemma encode_reads j : reads j.
Proof.
  induction j as [|b|lit|s|l Hl|l Hl] using json_tree_ind;
    [..|apply reads_num| |by apply reads_arr|by apply reads_obj];
    intros Hw [|fuel] d u Hf Hd Hu; try (simpl in Hf; lia).
  - by destruct u.
  - by destruct b, u.
  - cbn [encode]. rewrite quote_app. cbn [parse_value skip_ws].
    ords.
    by rewrite parse_quoted.
Qed.

(** The fuel of [parse] is enough for what [encode] writes. *)
Lemma join_length l sep :
  String.length sep = 1%nat ->
  (foldr (fun s n => String.length s + S n) 0 l <= S (String.length (Join l sep)))%nat.
Proof.
  intros Hs. induction l as [|x [|y l] IH]; simpl; [lia|simpl; lia|].
  rewrite !length_app_s, Hs. simpl in *. lia.
Qed.

Lemma jfuel_encode j : wf_json j -> (jfuel j <= S (2 * String.length (encode j)))%nat.
Proof.
  induction j as [|b|lit|s|l Hl|l Hl] using json_tree_ind; intros Hw; try (simpl; lia);
    cbn [encode jfuel]; rewrite !length_app_s; cbn [String.length].
  - pose proof (join_length (map encode l) "," eq_refl) as Hj.
    assert (foldr (fun x n => S (jfuel x + n)) 1 l
            <= 1 + 2 * foldr (fun s n => String.length s + S n) 0 (map encode l))%nat; [|lia].
    clear Hj. induction l as [|x l IH]; cbn [map foldr]; [lia|].
    apply Forall_cons_1 in Hl as [Hx Hl]. destruct Hw as [Hwx Hw].
    specialize (Hx Hwx). specialize (IH Hl Hw). lia.
  - fold member_text. pose proof (join_length (map member_text l) "," eq_refl) as Hj.
    assert (foldr (fun kv n => S (jfuel kv.2 + n)) 1 l
            <= 1 + 2 * foldr (fun s n => String.length s + S n) 0 (map member_text l))%nat; [|lia].
    clear Hj. induction l as [|x l IH]; cbn [map foldr]; [lia|].
    apply Forall_cons_1 in Hl as [Hx Hl]. destruct Hw as [[_ Hwx] Hw].
    specialize (Hx Hwx). specialize (IH Hl Hw). unfold member_text at 1.
    rewrite !length_app_s. lia.
Qed.

Lemma parse_encode j : wf_json j -> jdepth j <= maxNestingDepth -> parse (encode j) = Some j.
Proof.
  intros Hw Hd. unfold parse. pose proof (jfuel_encode j Hw) as Hf.
  pose proof (encode_reads j Hw _ _ "" Hf Hd I) as Hr. rewrite app_nil_r_s in Hr.
  by rewrite Hr.
Qed.

(** ** String maps *)

Definition valid_smap (m : gmap string string) : Prop :=
  map_Forall (fun k v => valid_utf8 k = true /\ valid_utf8 v = true) m.

Lemma sorted_entries_perm {A} (m : gmap string A) : sorted_entries m ≡ₚ map_to_list m.
Proof. apply merge_sort_Permutation. Qed.

Lemma sorted_entries_elem {A} (m : gmap string A) k v :
  (k, v) ∈ sorted_entries m <-> m !! k = Some v.
Proof. rewrite sorted_entries_perm. apply elem_of_map_to_list. Qed.

Lemma sorted_entries_nodup {A} (m : gmap string A) : NoDup (sorted_entries m).*1.
Proof. rewrite sorted_entries_perm. apply NoDup_fst_map_to_list. Qed.

Lemma sorted_entries_map {A} (m : gmap string A) : list_to_map (sorted_entries m) = m.
Proof.
  rewrite <-(list_to_map_to_list m) at 2. apply list_to_map_proper; [|by rewrite sorted_entries_perm].
  apply sorted_entries_nodup.
Qed.

Lemma decode_smap_entries (l : list (string * string)) m :
  NoDup l.*1 -> (forall k, k ∈ l.*1 -> m !! k = None) ->
  decode_smap (map (fun p => (p.1, JStr p.2)) l) m = Some (list_to_map l ∪ m).
Proof.
  revert m. induction l as [|[k v] l IH]; intros m Hnd Hm; cbn [map decode_smap fst snd].
  - by rewrite list_to_map_nil, (left_id_L ∅ (∪)).
  - rewrite fmap_cons in Hnd, Hm. apply NoDup_cons in Hnd as [Hk Hnd].
    rewrite IH; [|done|].
    + f_equal. rewrite list_to_map_cons, <-insert_union_l, insert_union_r; [done|].
      by apply not_elem_of_list_to_map_1.
    + intros k' Hk'. rewrite lookup_insert_ne; [apply Hm; by right|]. intros ->. done.
Qed.

Lemma decode_of_smap m : decode_smap (map (fun p => (p.1, JStr p.2)) (sorted_entries m)) ∅ = Some m.
Proof.
  rewrite decode_smap_entries; [|apply sorted_entries_nodup|by intros; apply lookup_empty].
  by rewrite sorted_entries_map, (right_id_L ∅ (∪)).
Qed.

Lemma wf_of_smap m : valid_smap m -> wf_json (of_smap m).
Proof.
  intros Hv. unfold of_smap. cbn [wf_json].
  assert (Hall : forall k v, (k, v) ∈ sorted_entries m -> valid_utf8 k = true /\ valid_utf8 v = true).
  { intros k v H. apply sorted_entries_elem in H. by apply (Hv k v). }
  clear Hv. induction (sorted_entries m) as [|[k v] l IH]; cbn [map foldr]; [done|].
  split; [apply Hall; by left|]. apply IH. intros k' v' H. apply Hall. by right.
Qed.

Lemma depth_of_smap m : jdepth (of_smap m) <= 1.
Proof.
  unfold of_smap. cbn [jdepth]. induction (sorted_entries m); cbn [map foldr snd jdepth]; lia.
Qed.

(** A [map[string]string] survives [Marshal] and [Unmarshal]. *)
Lemma unmarshal_marshal_smap m : valid_smap m -> unmarshal_smap (encode (of_smap m)) = Some m.
Proof.
  intros Hv. unfold unmarshal_smap. rewrite parse_encode; [|by apply wf_of_smap|].
  - apply decode_of_smap.
  - pose proof (depth_of_smap m). unfold maxNestingDepth. lia.
Qed.

(** ** Integers as number literals *)

Fixpoint all_digits (s : string) : bool :=
  match s with "" => true | String c s' => is_digit c && all_digits s' end.

Lemma digit_ord d : 0 <= d < 10 -> ord (digit d) = 48 + d.
Proof. intros H. destruct (digit_is d H) as [_ Hd]. lia. Qed.

(** A positive number is printed without a leading zero. *)
Lemma udigits_shape fuel n acc : 1 <= n < 2 ^ Z.of_nat fuel -> all_digits acc = true ->
  exists c t, udigits fuel n acc = String c t /\ is_digit c = true /\ ord c <> 48
              /\ all_digits t = true.
Proof.
  revert n acc. induction fuel as [|fuel IH]; intros n acc Hn Ha; [simpl in Hn; lia|].
  cbn [udigits]. assert (Hm : 0 <= n mod 10 < 10) by (apply Z.mod_pos_bound; lia).
  destruct (digit_is _ Hm) as [Hd Hv].
  destruct (Z.ltb_spec n 10).
  - eexists _, _. split; [done|]. rewrite digit_ord by done.
    split; [done|]. rewrite Z.mod_small by lia. split; [lia|done].
  - apply IH; [|simpl; by rewrite Hd].
    rewrite Nat2Z.inj_succ, Z.pow_succ_r in Hn by lia.
    split; [apply Z.div_le_lower_bound; lia|apply Z.div_lt_upper_bound; lia].
Qed.

Lemma span_digits_app t u : all_digits t = true -> delim u -> span_digits (t +:+ u) = (t, u).
Proof.
  intros Ht Hu. induction t as [|c t IH].
  - rewrite app_nil_l_s. destruct u as [|x u]; [done|]. simpl in *.
    unfold is_digit, between. by replace (_ && _) with false by lia.
  - rewrite app_cons_s. simpl in *. apply andb_prop in Ht as [-> Ht]. by rewrite IH.
Qed.

Lemma scan_tail_delim u : delim u -> scan_frac u = Some ("", u) /\ scan_exp u = Some ("", u).
Proof.
  destruct u as [|c u]; [done|]. simpl. intros H.
  replace (ord c =? 46) with false by lia.
  by replace ((ord c =? 101) || (ord c =? 69)) with false by lia.
Qed.

Lemma scan_int_udigits fuel n u : 0 <= n < 2 ^ Z.of_nat fuel -> (0 < fuel)%nat -> delim u ->
  scan_int (udigits fuel n "" +:+ u) = Some (udigits fuel n "", u).
Proof.
  intros Hn Hf Hu. destruct (Z.eq_dec n 0) as [->|].
  - destruct fuel; [lia|]. cbn [udigits]. change (0 <? 10) with true. cbn match.
    by rewrite app_cons_s, app_nil_l_s.
  - destruct (udigits_shape fuel n "") as (c & t & -> & Hc & H0 & Ht); [lia|done|].
    rewrite app_cons_s. cbn [scan_int]. replace (ord c =? 48) with false by lia.
    by rewrite Hc, span_digits_app.
Qed.

Lemma log2_fuel i : 0 <= Z.abs i < 2 ^ Z.of_nat (S (Z.to_nat (Z.log2 (Z.abs i)))).
Proof.
  split; [lia|]. rewrite Nat2Z.inj_succ, Z2Nat.id by apply Z.log2_nonneg.
  destruct (Z.eq_dec (Z.abs i) 0) as [->|Hnz]; [done|]. apply Z.log2_spec. lia.
Qed.

Lemma num_ok_FormatInt i : num_ok (FormatInt i).
Proof.
  unfold FormatInt. pose proof (log2_fuel i) as Hb.
  set (fuel := S (Z.to_nat (Z.log2 (Z.abs i)))) in *. set (n := Z.abs i) in *.
  assert (Hf : (0 < fuel)%nat) by (unfold fuel; lia).
  destruct (udigits_head fuel n "") as (d & s & Hd & Hu); [lia|done|].
  pose proof (digit_is d Hd) as [Hdd _]. pose proof (digit_ord d Hd) as Hdo.
  destruct (i <? 0).
  - split; [eexists _, _; split; [done|by right]|]. intros u Hdl.
    destruct (scan_tail_delim u Hdl) as [Hfr He].
    rewrite app_cons_s. unfold scan_number. cbn match beta.
    change (ord "-"%char =? 45) with true. cbn match beta.
    rewrite scan_int_udigits by done. cbn [mbind option_bind].
    rewrite Hfr. cbn [mbind option_bind]. rewrite He. cbn [mbind option_bind].
    by rewrite !app_nil_r_s.
  - split; [rewrite Hu; eexists _, _; split; [done|by left]|]. intros u Hdl.
    destruct (scan_tail_delim u Hdl) as [Hfr He]. unfold scan_number.
    pose proof (scan_int_udigits fuel n u Hb Hf Hdl) as Hs.
    rewrite Hu in *. rewrite app_cons_s in *. cbn match beta.
    replace (ord (digit d) =? 45) with false by lia. cbn match beta.
    rewrite Hs. cbn [mbind option_bind].
    rewrite Hfr. cbn [mbind option_bind]. rewrite He. cbn [mbind option_bind].
    by rewrite !app_nil_r_s.
Qed.

(** ** Seven-bit texts are valid *)

Fixpoint seven_bit (s : string) : bool :=
  match s with "" => true | String c s' => (ord c <? 128) && seven_bit s' end.

Lemma seven_bit_valid s : seven_bit s = true -> valid_utf8 s = true.
Proof.
  unfold valid_utf8. induction s as [|c s IH]; [done|]. cbn [seven_bit]. intros H. bools.
  rewrite runes_ascii by lia. cbn [forallb]. rewrite IH by done.
  unfold good_rune. simpl. replace (ord c =? RuneError) with false by (unfold RuneError; lia). done.
Qed.

Lemma digits_seven_bit s : all_digits s = true -> seven_bit s = true.
Proof.
  induction s as [|c s IH]; [done|]. cbn [all_digits seven_bit]. intros H. bools.
  rewrite IH by done. unfold is_digit, between in *. lia.
Qed.

Lemma FormatInt_valid i : valid_utf8 (FormatInt i) = true.
Proof.
  apply seven_bit_valid. unfold FormatInt. pose proof (log2_fuel i) as Hb.
  assert (Hd : seven_bit (udigits (S (Z.to_nat (Z.log2 (Z.abs i)))) (Z.abs i) "") = true).
  { apply digits_seven_bit. destruct (Z.eq_dec (Z.abs i) 0) as [->|]; [done|].
    destruct (udigits_shape (S (Z.to_nat (Z.log2 (Z.abs i)))) (Z.abs i) "")
      as (c & t & -> & Hc & _ & Ht); [lia|done|]. cbn [all_digits]. by rewrite Hc. }
  destruct (i <? 0); [|done]. cbn [seven_bit]. by rewrite Hd.
Qed.

Lemma valid_smap_insert m k v : valid_utf8 k = true -> valid_utf8 v = true ->
  valid_smap m -> valid_smap (<[k := v]> m).
Proof. intros Hk Hv Hm. by apply map_Forall_insert_2. Qed.
#[export] Hint Resolve valid_smap_insert FormatInt_valid : go.

(** ** Text in front of a value *)

Fixpoint blank (s : string) : bool :=
  match s with
  | "" => true
  | String c s' => ((ord c =? 32) || (ord c =? 9) || (ord c =? 13) || (ord c =? 10)) && blank s'
  end.

Lemma skip_ws_split s : exists w, s = w +:+ skip_ws s /\ blank w = true.
Proof.
  induction s as [|c s (w & E & Hw)]; [by exists ""|]. cbn [skip_ws].
  destruct (_ || _) eqn:Ec; [|by exists ""].
  exists (String c w). rewrite app_cons_s. split; [by f_equal|]. cbn [blank]. by rewrite Ec.
Qed.

Lemma skip_ws_app w s : blank w = true -> skip_ws (w +:+ s) = skip_ws s.
Proof.
  induction w as [|c w IH]; [done|]. cbn [blank]. intros H. bools.
  rewrite app_cons_s. cbn [skip_ws]. rewrite H. by apply IH.
Qed.

Lemma blank_no_brace w : blank w = true -> ~ In_s "{"%char w.
Proof.
  induction w as [|c w IH]; [by intros _ []|]. cbn [blank]. intros H. bools.
  intros [->|Hin]; [done|]. by apply IH.
Qed.

Lemma parse_value_obj fuel d s l t : parse_value fuel d s = Some (JObj l, t) ->
  exists u, skip_ws s = String "{"%char u.
Proof.
  destruct fuel as [|f]; [done|]. cbn [parse_value]. destruct (skip_ws s) as [|c u]; [done|].
  destruct (Z.eqb_spec (ord c) 123) as [E|E].
  - intros _. exists u. f_equal. by apply ord_inj.
  - intros H. repeat (case_match; simplify_eq).
Qed.

Lemma parse_value_null fuel d s t : parse_value fuel d s = Some (JNull, t) ->
  skip_ws s = "null" +:+ t.
Proof.
  destruct fuel as [|f]; [done|]. cbn [parse_value]. destruct (skip_ws s) as [|c u]; [done|].
  destruct (HasPrefix (String c u) "null") eqn:En.
  - apply prefix_app in En as [v Ev]. intros H.
    rewrite Ev in *. rewrite app_cons_s in Ev. injection Ev as -> _.
    cbn match in H. vm_compute in H. vm_compute. congruence.
  - intros H. repeat (case_match; simplify_eq).
Qed.

(** A text decoded as an object or null is blank up to its first brace. *)
Lemma parse_struct_blank noise t j : ~ In_s "{"%char noise ->
  parse (noise +:+ String "{"%char t) = Some j ->
  match j with JObj _ => blank noise = true | JNull => False | _ => True end.
Proof.
  intros Hn. unfold parse. set (s := noise +:+ String "{"%char t).
  destruct (parse_value _ _ s) as [[j' u]|] eqn:E; [|done].
  destruct (eqb_spec_s (skip_ws u) ""); [|done]. intros [= ->].
  destruct (skip_ws_split s) as (w & Es & Hw).
  assert (Hin : In_s "{"%char s) by (unfold s; rewrite In_app_s; right; by left).
  destruct j; try done.
  - apply parse_value_null in E. rewrite Es, E, !In_app_s in Hin.
    destruct (skip_ws_split u) as (w' & Eu & Hw'). rewrite e, app_nil_r_s in Eu. subst w'.
    apply blank_no_brace in Hw, Hw'. cbn in Hin. intuition congruence.
  - apply parse_value_obj in E as [v Ev]. rewrite Ev in Es.
    apply blank_no_brace in Hw as Hnw.
    pose proof (cut_char "{"%char noise t Hn) as C1.
    pose proof (cut_char "{"%char w v Hnw) as C2. fold s in C1. rewrite <-Es in C2.
    congruence.
Qed.

Lemma parse_value_blank fuel d w s : blank w = true ->
  parse_value fuel d (w +:+ s) = parse_value fuel d s.
Proof.
  intros H. destruct fuel as [|f]; [done|]. cbn [parse_value]. by rewrite skip_ws_app.
Qed.

Lemma parse_blank w j : blank w = true -> wf_json j -> jdepth j <= maxNestingDepth ->
  parse (w +:+ encode j) = Some j.
Proof.
  intros Hb Hw Hd. unfold parse. pose proof (jfuel_encode j Hw) as Hf.
  rewrite parse_value_blank by done.
  pose proof (encode_reads j Hw (S (2 * String.length (w +:+ encode j))) maxNestingDepth "") as Hr.
  rewrite app_nil_r_s in Hr. rewrite Hr; [done|rewrite length_app_s; lia|done|done].
Qed.
