(* ===== verification/Options.v ===== *)
(** * pkg/options: the agent's configuration and what it derives from it *)

From S2P Require Import Prelude GoStrings.
Local Open Scope Z_scope.

Module Options.

(** ** Constants *)

Definition ProgramName := "CHAOS_AGENT".
Definition AgentHostMode := "host".
Definition AgentK8sMode := "k8s".
Definition AgentCSK8sMode := "cs_k8s".
Definition AgentK8sHelmMode := "k8s_helm".
Definition AgentCSK8sHelmMode := "cs_k8s_helm".
Definition AppInstanceKeyName := "appInstance".
Definition AppGroupKeyName := "appGroup".
Definition DefaultApplicationInstance := "chaos-default-app".
Definition DefaultApplicationGroup := "chaos-default-app-group".
Definition Host : Z := 0.

(** [path.Join("/opt", BladeDirName)] and [path.Join(BladeHome, BladeBin)]. *)
Definition BladeHome := "/opt/chaosblade".
Definition BladeBinPath := "/opt/chaosblade/blade".
Definition CtlForChaos := "chaosctl.sh".

(** The tables of chaostoolsoptions.go are maps to [true] used as sets. *)
Definition PrepareOperation : gset string := {["prepare"; "p"]}.
Definition CreateOperation : gset string := {["create"; "c"]}.
Definition RevokeOperation : gset string := {["revoke"; "r"]}.
Definition DestroyOperation : gset string := {["destroy"; "d"]}.
Definition AsyncParamer : gset string := {["async"; "a"]}.

(** ** The options *)

(** Durations are in nanoseconds. *)
Record TransportConfig := mkTransportConfig {
  tc_Environment : string;
  Endpoint : string;
  Timeout : Z;
  Secure : bool
}.

Record LogConfig := mkLogConfig {
  Level : string;
  MaxFileSize : Z;
  MaxFileCount : Z;
  LogOutput : string
}.

(** [type Options struct]; [Flags], the flag set of pflag, is left out. *)
Record Options := mkOptions {
  LogCfg : LogConfig;
  Help : bool;
  Environment : string;
  IsVpc : bool;
  VpcId : string;
  Pid : string;
  Cid : string;
  Uid : string;
  Ip : string;
  HostName : string;
  InstanceId : string;
  Namespace : string;
  License : string;
  AgentMode : string;
  InstallOperator : string;
  Port : string;
  HeartbeatPeriod : Z;
  TransportCfg : TransportConfig;
  ApplicationInstance : string;
  ApplicationGroup : string;
  StartupMode : string;
  RestrictedVpc : bool;
  Version : string;
  ChaosbladeVersion : string;
  LitmusChaosVerison : string;
  ClusterId : string;
  ClusterName : string;
  PodMetricFlag : bool;
  ExternalIpEnable : bool;
  ChaosAgentBinUrl : string;
  ChaosAgentSHUrl : string;
  ChaosBladeTarUrl : string;
  LitmusChartUrl : string;
  CertUrl : string;
  LocalIp : string
}.

(** The options field by field, and an assignment to one of them. *)
Definition allFields (o : Options) : Options :=
  mkOptions o.(LogCfg) o.(Help) o.(Environment) o.(IsVpc) o.(VpcId) o.(Pid) o.(Cid) o.(Uid) o.(Ip)
    o.(HostName) o.(InstanceId) o.(Namespace) o.(License) o.(AgentMode) o.(InstallOperator) o.(Port)
    o.(HeartbeatPeriod) o.(TransportCfg) o.(ApplicationInstance) o.(ApplicationGroup) o.(StartupMode)
    o.(RestrictedVpc) o.(Version) o.(ChaosbladeVersion) o.(LitmusChaosVerison) o.(ClusterId) o.(ClusterName)
    o.(PodMetricFlag) o.(ExternalIpEnable) o.(ChaosAgentBinUrl) o.(ChaosAgentSHUrl) o.(ChaosBladeTarUrl)
    o.(LitmusChartUrl) o.(CertUrl) o.(LocalIp).
Ltac assign o field v :=
  let all := eval unfold allFields in (allFields o) in
  lazymatch eval pattern field in all with
  | ?others _ => let r := eval cbv beta in (others v) in exact r
  end.

Definition set_Pid (v : string) (o : Options) : Options := ltac:(assign o o.(Pid) v).
Definition set_IsVpc (v : bool) (o : Options) : Options := ltac:(assign o o.(IsVpc) v).
Definition set_VpcId (v : string) (o : Options) : Options := ltac:(assign o o.(VpcId) v).
Definition set_Cid (v : string) (o : Options) : Options := ltac:(assign o o.(Cid) v).
Definition set_Uid (v : string) (o : Options) : Options := ltac:(assign o o.(Uid) v).
Definition set_Ip (v : string) (o : Options) : Options := ltac:(assign o o.(Ip) v).
Definition set_HostName (v : string) (o : Options) : Options := ltac:(assign o o.(HostName) v).
Definition set_InstanceId (v : string) (o : Options) : Options := ltac:(assign o o.(InstanceId) v).
Definition set_Version (v : string) (o : Options) : Options := ltac:(assign o o.(Version) v).
Definition set_ChaosbladeVersion (v : string) (o : Options) : Options := ltac:(assign o o.(ChaosbladeVersion) v).
Definition set_LitmusChaosVerison (v : string) (o : Options) : Options := ltac:(assign o o.(LitmusChaosVerison) v).
Definition set_ClusterId (v : string) (o : Options) : Options := ltac:(assign o o.(ClusterId) v).
Definition set_ApplicationInstance (v : string) (o : Options) : Options := ltac:(assign o o.(ApplicationInstance) v).
Definition set_ApplicationGroup (v : string) (o : Options) : Options := ltac:(assign o o.(ApplicationGroup) v).
Definition set_TransportCfg (v : TransportConfig) (o : Options) : Options := ltac:(assign o o.(TransportCfg) v).
Definition set_LitmusChartUrl (v : string) (o : Options) : Options := ltac:(assign o o.(LitmusChartUrl) v).

Definition second : Z := 1000000000.

(** [AddFlags]: the value of every option before the command line is read;
    the fields without a flag are zero. *)
Definition AddFlags : Options :=
  {| LogCfg := mkLogConfig "info" 10 1 "file";
     Help := false; Environment := "prod"; IsVpc := false; VpcId := ""; Pid := ""; Cid := "";
     Uid := ""; Ip := ""; HostName := ""; InstanceId := ""; Namespace := "default";
     License := ""; AgentMode := AgentHostMode; InstallOperator := "linux"; Port := "19527";
     HeartbeatPeriod := 5 * second;
     TransportCfg := mkTransportConfig "" "" (3 * second) true;
     ApplicationInstance := DefaultApplicationInstance;
     ApplicationGroup := DefaultApplicationGroup;
     StartupMode := "console"; RestrictedVpc := false;
     Version := ""; ChaosbladeVersion := ""; LitmusChaosVerison := "";
     ClusterId := ""; ClusterName := ""; PodMetricFlag := false; ExternalIpEnable := false;
     ChaosAgentBinUrl := ""; ChaosAgentSHUrl := ""; ChaosBladeTarUrl := "";
     LitmusChartUrl := ""; CertUrl := ""; LocalIp := "" |}.

Definition SetUid (o : Options) (uid : string) : Options := set_Uid uid o.
Definition SetCid (o : Options) (cid : string) : Options := set_Cid cid o.
Definition SetChaosBladeVersion (o : Options) (v : string) : Options := set_ChaosbladeVersion v o.

Definition SetClusterIdIfNotPresent (o : Options) (clusterId : string) : Options :=
  if o.(ClusterId) ==s "" then set_ClusterId clusterId o else o.

Definition IsK8sMode (o : Options) : bool :=
  (o.(AgentMode) ==s AgentK8sMode) || (o.(AgentMode) ==s AgentCSK8sMode)
  || (o.(AgentMode) ==s AgentK8sHelmMode) || (o.(AgentMode) ==s AgentCSK8sHelmMode).

Definition IsHostMode (o : Options) : bool := o.(AgentMode) ==s AgentHostMode.

(** ** The version of the blade tool *)

(** The body of both loops for a line that carries the version prefix. *)
Definition versionOfLine (line : string) : option string :=
  match Split line ":" with
  | [_; v] =>
      let version := TrimSpace v in
      if version ==s "" then None
      else match Fields version with w :: _ => Some w | [] => None end
  | _ => None
  end.

(** A loop over the lines: the first accepted line that yields a version. *)
Fixpoint findVersion (accept : string -> bool) (lines : list string) : option string :=
  match lines with
  | [] => None
  | l :: lines' =>
      let line := TrimSpace l in
      if accept line
      then match versionOfLine line with
           | Some v => Some v
           | None => findVersion accept lines'
           end
      else findVersion accept lines'
  end.

Definition newline : string := String (chr 10) "".

Definition parseVersionFromOutput (output : string) : result string :=
  let trimmedOutput := TrimSpace output in
  if trimmedOutput ==s "" then Err "cannot get blade version"
  else
    let versionInfos := Split trimmedOutput newline in
    match versionInfos with
    | [] => Err "cannot get blade version"
    | _ =>
        match findVersion (fun line => HasPrefix line "Version:") versionInfos with
        | Some v => Ok v
        | None =>
            match findVersion (fun line => HasPrefix (ToLower line) "version:") versionInfos with
            | Some v => Ok v
            | None => Err ("cannot parse version info from output. " +:+ output)
            end
        end
    end.

(** ** Facts *)

(** The cases of bladeoptions_test.go. *)
Example version_new_format :
  parseVersionFromOutput ("ChaosBlade Version Information:" +:+ newline +:+ "=====" +:+ newline
     +:+ "Version:     1.8.0   " +:+ newline +:+ "Git Tag:     v1.8.0" +:+ newline +:+ "version: 1.7.3")
  = Ok "1.8.0".
Proof. vm_compute. reflexivity. Qed.
Example version_old_format :
  parseVersionFromOutput ("VERSION: 1.7.3" +:+ newline +:+ "env: #1 SMP Thu Mar 17") = Ok "1.7.3".
Proof. vm_compute. reflexivity. Qed.
Example version_colons :
  is_ok (parseVersionFromOutput "Version: 1.8.0:extra") = false.
Proof. vm_compute. reflexivity. Qed.
Example version_blank : is_ok (parseVersionFromOutput (newline +:+ newline)) = false.
Proof. vm_compute. reflexivity. Qed.

End Options.
