(* ===== verification/Net.v ===== *)
(** * pkg/options: addresses

    [net.ParseIP], [IP.To4], [IP.IsLoopback] and [IP.String] of the Go library
    as far as options.go uses them, and its functions [isValidIP] and
    [GetPrivateIp].  Addresses are lists of bytes. *)

From S2P Require Import Prelude GoStrings Json.
Local Open Scope Z_scope.

Module Net.

(** ** net/netip: parsing *)

Definition isDot (c : ascii) : bool := ord c =? 46.
Definition isColon (c : ascii) : bool := ord c =? 58.
Definition isPercent (c : ascii) : bool := ord c =? 37.

(** [parseIPv4Fields]: [prev] is the byte before, [val] and [digLen] the octet
    being read, [fields] the octets before it. *)
Fixpoint parseIPv4Fields (s : string) (prev : option ascii) (val : Z) (digLen : nat) (fields : list Z)
    : option (list Z) :=
  match s with
  | "" => if (length fields <? 3)%nat then None else Some (fields ++ [val])
  | String c t =>
      if is_digit c then
        if (digLen =? 1)%nat && (val =? 0) then None
        else
          let val := val * 10 + (ord c - 48) in
          if 255 <? val then None else parseIPv4Fields t (Some c) val (S digLen) fields
      else if isDot c then
        match prev with
        | None => None
        | Some p =>
            if isDot p || (t ==s "") then None
            else if (length fields =? 3)%nat then None
            else parseIPv4Fields t (Some c) 0 0 (fields ++ [val])
        end
      else None
  end.
Definition parseIPv4 (s : string) : option (list Z) := parseIPv4Fields s None 0 0 [].

(** A group of at most four hexadecimal digits: how many, the value, and what
    follows. *)
Fixpoint scanGroup (s : string) (off : nat) (acc : Z) : option (nat * Z * string) :=
  match s with
  | "" => Some (off, acc, "")
  | String c t =>
      match hexval c with
      | None => Some (off, acc, s)
      | Some v => if (3 <? off)%nat then None else scanGroup t (S off) (acc * 16 + v)
      end
  end.

(** The end of [parseIPv6]: nothing is left over, and an ellipsis stands for
    at least one group. *)
Definition finish6 (s : string) (ip : list Z) (ellipsis : option nat) : option (list Z) :=
  if negb (s ==s "") then None
  else if (length ip <? 16)%nat then
    match ellipsis with
    | None => None
    | Some e => Some (take e ip ++ replicate (16 - length ip) 0 ++ drop e ip)
    end
  else match ellipsis with Some _ => None | None => Some ip end.

(** Its loop; every turn adds two bytes, so that eight turns are enough. *)
Fixpoint loop6 (turns : nat) (s : string) (ip : list Z) (ellipsis : option nat) : option (list Z) :=
  match turns with
  | O => finish6 s ip ellipsis
  | S turns' =>
      '(off, acc, rest) ← scanGroup s 0 0;
      if (off =? 0)%nat then None
      else
        let ip' := ip ++ [acc / 256; acc mod 256] in
        match rest with
        | "" => finish6 "" ip' ellipsis
        | String c t =>
            if isDot c then
              if bool_decide (ellipsis = None) && negb (length ip =? 12)%nat then None
              else if (16 <? length ip + 4)%nat then None
              else fields ← parseIPv4 s; finish6 "" (ip ++ fields) ellipsis
            else if negb (isColon c) then None
            else match t with
                 | "" => None
                 | String c' t' =>
                     if isColon c' then
                       match ellipsis with
                       | Some _ => None
                       | None => if t' ==s "" then finish6 "" ip' (Some (length ip'))
                                 else loop6 turns' t' ip' (Some (length ip'))
                       end
                     else loop6 turns' t ip' ellipsis
                 end
        end
  end.
Definition parseIPv6 (s : string) : option (list Z) :=
  match s with
  | String c (String c' t) =>
      if isColon c && isColon c'
      then if t ==s "" then Some (replicate 16 0) else loop6 8 t [] (Some 0%nat)
      else loop6 8 s [] None
  | _ => loop6 8 s [] None
  end.

(** The first dot, colon or percent sign decides. *)
Fixpoint firstMark (s : string) : option ascii :=
  match s with
  | "" => None
  | String c t => if isDot c || isColon c || isPercent c then Some c else firstMark t
  end.
Fixpoint hasByte (p : ascii -> bool) (s : string) : bool :=
  match s with "" => false | String d t => p d || hasByte p t end.

(** [net.ParseIP]: sixteen bytes; an address with a zone is none. *)
Definition v4InV6Prefix : list Z := replicate 10 0 ++ [255; 255].
Definition ParseIP (s : string) : option (list Z) :=
  c ← firstMark s;
  if isDot c then l ← parseIPv4 s; Some (v4InV6Prefix ++ l)
  else if isColon c then if hasByte isPercent s then None else parseIPv6 s
  else None.

(** ** net: addresses *)

Definition To4 (ip : list Z) : option (list Z) :=
  if (length ip =? 4)%nat then Some ip
  else if (length ip =? 16)%nat && bool_decide (take 12 ip = v4InV6Prefix) then Some (drop 12 ip)
  else None.
Definition IsLoopback (ip : list Z) : bool :=
  match To4 ip with
  | Some ip4 => default 0 (head ip4) =? 127
  | None => bool_decide (ip = replicate 15 0 ++ [1])
  end.
(** [IP.String] of four bytes. *)
Definition ipString (ip4 : list Z) : string := Join (map FormatInt ip4) ".".

(** ** options.go *)

Definition isValidIP (ip : string) : bool :=
  match ParseIP ip with
  | None => false
  | Some parsedIP => match To4 parsedIP with Some _ => true | None => false end
  end.

(** An interface: its flags and its addresses or the error of reading them.
    An address of another type leaves the variable nil. *)
Inductive Addr := IPNet (ip : option (list Z)) | IPAddr (ip : option (list Z)) | OtherAddr.
Record Interface := mkInterface { FlagUp : bool; FlagLoopback : bool; Addrs : result (list Addr) }.

Definition addrIP (a : Addr) : option (list Z) :=
  match a with IPNet ip => ip | IPAddr ip => ip | OtherAddr => None end.
Fixpoint firstAddr (addrs : list Addr) : option string :=
  match addrs with
  | [] => None
  | a :: addrs' =>
      match addrIP a with
      | None => firstAddr addrs'
      | Some ip =>
          if IsLoopback ip then firstAddr addrs'
          else match To4 ip with
               | None => firstAddr addrs'
               | Some ip4 => Some (ipString ip4)
               end
      end
  end.
Fixpoint firstInterface (ifs : list Interface) : option string :=
  match ifs with
  | [] => None
  | i :: ifs' =>
      if negb i.(FlagUp) then firstInterface ifs'
      else if i.(FlagLoopback) then firstInterface ifs'
      else match i.(Addrs) with
           | Err _ => firstInterface ifs'
           | Ok addrs => match firstAddr addrs with
                         | Some ip => Some ip
                         | None => firstInterface ifs'
                         end
           end
  end.
(** [None] ends the process. *)
Definition GetPrivateIp (interfaces : result (list Interface)) : option string :=
  match interfaces with Err _ => None | Ok ifs => firstInterface ifs end.

Example parse_mapped : isValidIP "::ffff:1.2.3.4" = true.
Proof. reflexivity. Qed.
Example parse_loopback : ParseIP "::1" = Some (replicate 15 0 ++ [1]).
Proof. reflexivity. Qed.
Example parse_groups : ParseIP "2001:db8::8:800:200C:417A" = Some [32; 1; 13; 184; 0; 0; 0; 0; 0; 8; 8; 0; 32; 12; 65; 122].
Proof. reflexivity. Qed.
Example parse_refused :
  map isValidIP ["1.2.3"; "1.2.3.4.5"; "01.2.3.4"; "256.1.1.1"; ".1.2.3"; "1..2.3"; "1.2.3."; ""; "a.b.c.d"; "::1"; "1.2.3.4%eth0"]
  = replicate 11 false.
Proof. reflexivity. Qed.

(** ** Dotted texts *)

Definition octet (n : Z) : Prop := 0 <= n <= 255.

Lemma octet_text n : octet n ->
  (0 <= n < 10 /\ FormatInt n = String (digit n) "") \/
  (exists a b, 1 <= a <= 9 /\ 0 <= b < 10 /\ n = 10 * a + b /\ FormatInt n = String (digit a) (String (digit b) "")) \/
  (exists a b c, 1 <= a <= 2 /\ 0 <= b < 10 /\ 0 <= c < 10 /\ n = 10 * (10 * a + b) + c /\
     FormatInt n = String (digit a) (String (digit b) (String (digit c) ""))).
Proof.
  intros Hn. unfold octet in Hn. destruct (decide (n < 10)).
  { left. split; [lia|]. apply FormatInt_digit. lia. }
  right. assert (E : n = 10 * (n / 10) + n mod 10) by (apply Z.div_mod; lia).
  pose proof (Z.mod_pos_bound n 10 ltac:(lia)). assert (1 <= n / 10 <= 25) by (Z.div_mod_to_equations; lia).
  destruct (decide (n < 100)).
  - left. exists (n / 10), (n mod 10). split_and!; try (Z.div_mod_to_equations; lia).
    rewrite E at 1. rewrite FormatInt_snoc by lia. rewrite FormatInt_digit by (Z.div_mod_to_equations; lia). done.
  - right. set (m := n / 10) in *. assert (Em : m = 10 * (m / 10) + m mod 10) by (apply Z.div_mod; lia).
    exists (m / 10), (m mod 10), (n mod 10). split_and!; try (Z.div_mod_to_equations; lia).
    rewrite E at 1. rewrite FormatInt_snoc by lia. rewrite Em at 1.
    rewrite FormatInt_snoc by (Z.div_mod_to_equations; lia). rewrite FormatInt_digit by (Z.div_mod_to_equations; lia). done.
Qed.

Lemma digit_facts d : 0 <= d < 10 ->
  is_digit (digit d) = true /\ ord (digit d) = 48 + d /\ isDot (digit d) = false /\
  isColon (digit d) = false /\ isPercent (digit d) = false.
Proof.
  intros Hd. assert (d = 0 \/ d = 1 \/ d = 2 \/ d = 3 \/ d = 4 \/ d = 5 \/ d = 6 \/ d = 7 \/ d = 8 \/ d = 9) as Hc by lia.
  repeat (destruct Hc as [->|Hc]; [done|]). by subst.
Qed.

(** One digit is read. *)
Lemma parse_digit d t prev val digLen fields : 0 <= d < 10 -> (digLen =? 1)%nat && (val =? 0) = false ->
  val * 10 + d <= 255 ->
  parseIPv4Fields (String (digit d) t) prev val digLen fields
  = parseIPv4Fields t (Some (digit d)) (val * 10 + d) (S digLen) fields.
Proof.
  intros Hd Hz Hv. destruct (digit_facts d Hd) as (H1 & H2 & _). cbn [parseIPv4Fields]. rewrite H1, Hz, H2.
  replace (val * 10 + (48 + d - 48)) with (val * 10 + d) by lia.
  by rewrite (proj2 (Z.ltb_ge 255 _)) by lia.
Qed.

Lemma parse_octet n t prev fields : octet n -> exists c k,
  isDot c = false /\
  parseIPv4Fields (FormatInt n +:+ t) prev 0 0 fields = parseIPv4Fields t (Some c) n (S k) fields.
Proof.
  intros Hn. unfold octet in Hn.
  destruct (octet_text n Hn) as [[Hd ->]|[(a & b & Ha & Hb & -> & ->)|(a & b & c & Ha & Hb & Hc & -> & ->)]];
    rewrite !app_cons_s, app_nil_l_s.
  - rewrite parse_digit by (done || lia). rewrite Z.mul_0_l, Z.add_0_l.
    eexists _, _. split; [|reflexivity]. by apply digit_facts.
  - rewrite !parse_digit by (done || lia). replace ((0 * 10 + a) * 10 + b) with (10 * a + b) by lia.
    eexists _, _. split; [|reflexivity]. by apply digit_facts.
  - rewrite !parse_digit by (done || lia).
    replace (((0 * 10 + a) * 10 + b) * 10 + c) with (10 * (10 * a + b) + c) by lia.
    eexists _, _. split; [|reflexivity]. by apply digit_facts.
Qed.

Lemma FormatInt_octet_cons n : octet n -> exists d t, 0 <= d < 10 /\ FormatInt n = String (digit d) t.
Proof.
  intros Hn. destruct (octet_text n Hn) as [[Hd ->]|[(a & b & Ha & Hb & -> & ->)|(a & b & c & Ha & Hb & Hc & -> & ->)]];
    eexists _, _; (split; [|reflexivity]); lia.
Qed.

Lemma parse_dot t c val digLen fields : isDot c = false -> t <> "" -> (length fields < 3)%nat ->
  parseIPv4Fields ("." +:+ t) (Some c) val digLen fields = parseIPv4Fields t (Some "."%char) 0 0 (fields ++ [val]).
Proof.
  intros Hc Ht Hl. change ("." +:+ t) with (String "."%char t). cbn [parseIPv4Fields]. rewrite Hc.
  apply eqb_false_s in Ht. rewrite Ht. cbn [orb].
  replace (length fields =? 3)%nat with false by (symmetry; apply Nat.eqb_neq; lia). done.
Qed.

Lemma parse_dotted l : forall prev fields, l <> [] -> Forall octet l -> (length fields + length l = 4)%nat ->
  parseIPv4Fields (ipString l) prev 0 0 fields = Some (fields ++ l).
Proof.
  induction l as [|n l IH]; intros prev fields Hne Hf Hlen; [done|]. apply Forall_cons in Hf as [Hn Hf].
  destruct l as [|m l].
  - unfold ipString. cbn [map Join]. rewrite <-(app_nil_r_s (FormatInt n)).
    destruct (parse_octet n "" prev fields Hn) as (c & k & _ & ->). cbn [parseIPv4Fields].
    cbn in Hlen. by replace (length fields <? 3)%nat with false by (symmetry; apply Nat.ltb_ge; lia).
  - unfold ipString in *. change (map FormatInt (n :: m :: l)) with (FormatInt n :: map FormatInt (m :: l)).
    rewrite join_cons by done.
    destruct (parse_octet n ("." +:+ Join (map FormatInt (m :: l)) ".") prev fields Hn) as (c & k & Hc & ->).
    rewrite parse_dot; [|done| |cbn in Hlen; lia].
    + rewrite IH; [by rewrite <-app_assoc|done|done|]. rewrite length_app. cbn in *. lia.
    + apply Forall_cons in Hf as [Hm _]. destruct (FormatInt_octet_cons m Hm) as (d & t & _ & E).
      cbn [map]. destruct l as [|x l]; [cbn [map Join]; by rewrite E|]. rewrite join_cons by done. by rewrite E.
Qed.

(** What is read is printed as it was. *)
Lemma parse_sound s : forall prev val digLen fields l,
  parseIPv4Fields s prev val digLen fields = Some l ->
  octet val -> (digLen = 0%nat -> val = 0 /\ s <> "" /\ match prev with None => True | Some p => isDot p = true end) ->
  ((2 <= digLen)%nat -> 1 <= val) -> Forall octet fields -> (length fields <= 3)%nat ->
  Forall octet l /\ length l = 4%nat /\ exists l', l = fields ++ l' /\
    (if (digLen =? 0)%nat then "" else FormatInt val) +:+ s = ipString l'.
Proof.
  induction s as [|c s IH]; intros prev val digLen fields l; cbn [parseIPv4Fields].
  { intros H Hv H0 _ Hf Hl. destruct digLen as [|digLen]; [by destruct (H0 eq_refl) as (_ & ? & _)|].
    destruct (Nat.ltb_spec (length fields) 3); [done|]. injection H as <-. split; [apply Forall_app; split; [done|by constructor]|].
    split; [rewrite length_app; cbn; lia|]. exists [val]. split; [done|]. cbn. apply app_nil_r_s. }
  intros H Hv H0 H2 Hf Hl. destruct (is_digit c) eqn:Ec.
  - destruct (_ && _) eqn:Ez; [done|]. destruct (Z.ltb_spec 255 (val * 10 + (ord c - 48))) as [|Hle]; [done|].
    assert (Hd : 0 <= ord c - 48 < 10) by (unfold is_digit, between in Ec; lia).
    set (d := ord c - 48) in *.
    assert (Hc : c = digit d) by (unfold digit, d; replace (48 + (ord c - 48)) with (ord c) by lia; by rewrite chr_ord).
    apply IH in H as (Hfl & Hlen & l' & -> & E); [|unfold octet in *; lia|done| |done|done].
    + split; [done|]. split; [done|]. exists l'. split; [done|]. rewrite <-E. cbn [Nat.eqb].
      destruct digLen as [|digLen]; cbn [Nat.eqb].
      * destruct (H0 eq_refl) as (-> & _). rewrite Z.mul_0_l, Z.add_0_l, FormatInt_digit by done.
        by rewrite Hc, app_nil_l_s, app_cons_s, app_nil_l_s.
      * assert (1 <= val) by (destruct digLen; [cbn in Ez; unfold octet in *; lia|by apply H2; lia]).
        rewrite (Z.mul_comm val), FormatInt_snoc by done. by rewrite Hc, app_assoc_s, app_cons_s, app_nil_l_s.
    + intros Hk. destruct digLen as [|[|digLen]]; unfold octet in *; [lia| |assert (1 <= val) by (apply H2; lia); lia].
      cbn in Ez. lia.
  - destruct (isDot c) eqn:Ed; [|done]. destruct prev as [p|]; [|done].
    destruct (isDot p) eqn:Ep; [done|]. cbn [orb] in H. destruct (eqb_spec_s s "") as [|Hs]; [done|].
    destruct (Nat.eqb_spec (length fields) 3) as [|Hn3]; [done|].
    destruct digLen as [|digLen]; [destruct (H0 eq_refl) as (_ & _ & ?); congruence|].
    apply IH in H as (Hfl & Hlen & l' & -> & E);
      [|unfold octet; lia|done|lia|apply Forall_app; split; [done|by constructor]|rewrite length_app; cbn; lia].
    split; [done|]. split; [done|]. exists (val :: l'). split; [by rewrite <-app_assoc|]. cbn [Nat.eqb] in *.
    rewrite app_nil_l_s in E. rewrite E. rewrite !length_app in Hlen. cbn in Hlen.
    assert (Hc : c = "."%char) by (unfold isDot in Ed; apply Z.eqb_eq in Ed; by rewrite <-(chr_ord c), Ed).
    unfold ipString. cbn [map]. rewrite join_cons; [by rewrite Hc|]. destruct l'; [cbn in Hlen; lia|done].
Qed.

Lemma parseIPv4_exact s l : s <> "" ->
  parseIPv4 s = Some l <-> length l = 4%nat /\ Forall octet l /\ s = ipString l.
Proof.
  intros Hs. split.
  - intros H. apply parse_sound in H as (Hf & Hl & l' & -> & E); try (done || (unfold octet; lia) || (cbn; lia)).
  - intros (Hl & Hf & ->). apply (parse_dotted l None []); [by destruct l|done|done].
Qed.

Lemma firstMark_octet n t : octet n -> firstMark (FormatInt n +:+ t) = firstMark t.
Proof.
  intros Hn. destruct (octet_text n Hn) as [[Hd ->]|[(a & b & Ha & Hb & -> & ->)|(a & b & c & Ha & Hb & Hc & -> & ->)]];
    rewrite !app_cons_s, app_nil_l_s; cbn [firstMark];
    repeat match goal with
    | |- context [isDot (digit ?d)] =>
        let H := fresh in destruct (digit_facts d ltac:(lia)) as (_ & _ & H); destruct H as (-> & -> & ->)
    end; done.
Qed.

Lemma firstMark_no_colon s c : hasByte isColon s = false -> firstMark s = Some c -> isColon c = false.
Proof.
  induction s as [|d s IH]; cbn; [done|]. intros [H1 H2]%orb_false_iff.
  destruct (_ || _ || _); [by intros [= <-]|auto].
Qed.

Lemma isValidIP_dotted a b c d : octet a -> octet b -> octet c -> octet d -> isValidIP (ipString [a; b; c; d]) = true.
Proof.
  intros Ha Hb Hc Hd. unfold isValidIP, ParseIP.
  assert (Hm : firstMark (ipString [a; b; c; d]) = Some "."%char).
  { unfold ipString. cbn [map]. rewrite join_cons by done. by rewrite firstMark_octet. }
  rewrite Hm. cbn [mbind option_bind]. change (isDot ".") with true. cbn match.
  destruct (parseIPv4_exact (ipString [a; b; c; d]) [a; b; c; d]) as [_ ->]; [by intros E; rewrite E in Hm|reflexivity|].
  split_and!; [done| |done]. by repeat (constructor; [done|]).
Qed.

(** What the parser of IPv6 returns is never shorter than sixteen bytes. *)
Lemma finish6_length s ip e l : finish6 s ip e = Some l -> (16 <= length l)%nat.
Proof.
  unfold finish6. destruct (negb _); [done|]. destruct (Nat.ltb_spec (length ip) 16).
  - destruct e as [n|]; [|done]. intros [= <-].
    rewrite !length_app, length_replicate, length_drop, length_take. lia.
  - destruct e; [done|]. by intros [= <-].
Qed.

Lemma loop6_length turns : forall s ip e l, loop6 turns s ip e = Some l -> (16 <= length l)%nat.
Proof.
  induction turns as [|turns IH]; intros s ip e l; cbn [loop6]; [apply finish6_length|].
  intros ([[off acc] rest] & _ & E)%bind_Some. destruct (off =? 0)%nat; [done|].
  destruct rest as [|c t]; [by eapply finish6_length|]. destruct (isDot c).
  - destruct (_ && _); [done|]. destruct (_ <? _)%nat; [done|].
    apply bind_Some in E as (fs & _ & E). by eapply finish6_length.
  - destruct (negb _); [done|]. destruct t as [|c' t']; [done|]. destruct (isColon c'); [|by eapply IH].
    destruct e; [done|]. destruct (t' ==s ""); [by eapply finish6_length|by eapply IH].
Qed.

Lemma ParseIP_length s l : ParseIP s = Some l -> (16 <= length l)%nat.
Proof.
  unfold ParseIP. intros (c & _ & E)%bind_Some. destruct (isDot c).
  - apply bind_Some in E as (f & Hf & E). assert (l = v4InV6Prefix ++ f) as -> by congruence.
    destruct s as [|x s]; [done|]. apply parseIPv4_exact in Hf as (Hl & _); [|done].
    rewrite length_app, Hl. cbn. lia.
  - destruct (isColon c); [|done]. destruct (hasByte _ _); [done|]. unfold parseIPv6 in E.
    destruct s as [|x [|y t]]; [by apply loop6_length in E..|].
    destruct (_ && _); [|by apply loop6_length in E].
    destruct (t ==s ""); [|by apply loop6_length in E]. by simplify_eq.
Qed.

Lemma To4_long ip ip4 : (16 <= length ip)%nat -> To4 ip = Some ip4 <-> ip = v4InV6Prefix ++ ip4 /\ length ip4 = 4%nat.
Proof.
  intros Hl. unfold To4. destruct (Nat.eqb_spec (length ip) 4); [lia|].
  destruct (Nat.eqb_spec (length ip) 16) as [E16|Hne]; cbn [andb].
  - case_bool_decide as Hp.
    + split.
      * intros [= <-]. rewrite <-Hp, take_drop, length_drop. split; [done|lia].
      * intros [-> _]. done.
    + split; [done|]. intros [-> _]. by destruct Hp.
  - split; [done|]. intros [-> H4]. rewrite length_app, H4 in Hne. by destruct Hne.
Qed.

(** C40. The check of an address given by the user: a text is accepted exactly
    when it parses to an address of IPv4, be it an IPv6 text that maps one (an
    IPv6 address of its own is refused), and a text without a colon exactly
    when it is the canonical dotted form of four numbers from 0 to 255: no
    signs, blanks, leading zeros, empty or missing parts. *)
Theorem isValidIP_exact s :
  (isValidIP s = true <-> exists a b c d, ParseIP s = Some (v4InV6Prefix ++ [a; b; c; d])) /\
  (hasByte isColon s = false ->
   isValidIP s = true <-> exists a b c d, octet a /\ octet b /\ octet c /\ octet d /\ s = ipString [a; b; c; d]).
Proof.
  split.
  - unfold isValidIP. destruct (ParseIP s) as [ip|] eqn:E; [|by split; [|intros (? & ? & ? & ? & ?)]].
    apply ParseIP_length in E. destruct (To4 ip) as [ip4|] eqn:E4.
    + apply To4_long in E4 as [-> H4]; [|done]. split; [|done]. intros _.
      destruct ip4 as [|a [|b [|c [|d [|]]]]]; try done. by exists a, b, c, d.
    + split; [done|]. intros (a & b & c & d & Ei).
      assert (To4 ip = Some [a; b; c; d]); [|congruence]. apply To4_long; [done|]. split; [congruence|done].
  - intros Hc. split.
    + unfold isValidIP, ParseIP. destruct (firstMark s) as [m|] eqn:Em; [|done]. cbn [mbind option_bind].
      rewrite (firstMark_no_colon s m Hc Em). destruct (isDot m); [|done].
      destruct (parseIPv4 s) as [l|] eqn:El; [|done]. intros _.
      apply parseIPv4_exact in El as (Hl & Hf & ->); [|by intros ->].
      destruct l as [|a [|b [|c [|d [|]]]]]; try done. exists a, b, c, d.
      repeat apply Forall_cons in Hf as [? Hf]. done.
    + intros (a & b & c & d & Ha & Hb & Hcc & Hd & ->). by apply isValidIP_dotted.
Qed.

Lemma firstAddr_valid addrs ip :
  Forall (fun a => match addrIP a with Some b => Forall octet b | None => True end) addrs ->
  firstAddr addrs = Some ip -> exists ip4, length ip4 = 4%nat /\ Forall octet ip4 /\ head ip4 <> Some 127 /\ ip = ipString ip4.
Proof.
  induction 1 as [|a addrs Ha _ IH]; cbn [firstAddr]; [done|].
  destruct (addrIP a) as [b|]; [|done]. unfold IsLoopback. destruct (To4 b) as [b4|] eqn:Eb.
  - destruct (Z.eqb_spec (default 0 (head b4)) 127) as [|Hl]; [done|]. intros [= <-].
    unfold To4 in Eb. exists b4. destruct (Nat.eqb_spec (length b) 4) as [E4|_].
    + simplify_eq. split_and!; [done|done|by intros E; rewrite E in Hl|done].
    + destruct (Nat.eqb_spec (length b) 16) as [E16|]; [|done]. destruct (bool_decide _); [|done]. simplify_eq/=.
      split_and!; [rewrite length_drop; lia|by apply Forall_drop|by intros E; rewrite E in Hl|done].
  - by case_bool_decide.
Qed.

(** The address the agent finds by itself is the dotted form of an IPv4
    address that is not a loopback address, on an interface that is up and no
    loopback; it passes the check that an address given by the user must
    pass. *)
Theorem GetPrivateIp_valid ifs ip :
  Forall (fun i => forall addrs, i.(Addrs) = Ok addrs ->
            Forall (fun a => match addrIP a with Some b => Forall octet b | None => True end) addrs) ifs ->
  GetPrivateIp (Ok ifs) = Some ip ->
  isValidIP ip = true /\
  exists i addrs ip4, i ∈ ifs /\ i.(FlagUp) = true /\ i.(FlagLoopback) = false /\ i.(Addrs) = Ok addrs /\
    firstAddr addrs = Some ip /\ head ip4 <> Some 127 /\ ip = ipString ip4.
Proof.
  cbn [GetPrivateIp]. induction 1 as [|i ifs Hi _ IH]; cbn [firstInterface]; [done|].
  assert (Hrest : firstInterface ifs = Some ip -> isValidIP ip = true /\
    exists j addrs ip4, j ∈ i :: ifs /\ j.(FlagUp) = true /\ j.(FlagLoopback) = false /\ j.(Addrs) = Ok addrs /\
      firstAddr addrs = Some ip /\ head ip4 <> Some 127 /\ ip = ipString ip4).
  { intros [? (j & addrs & ip4 & Hj & ?)]%IH. split; [done|]. exists j, addrs, ip4. split; [by right|done]. }
  destruct (FlagUp i) eqn:Eu; [|done]. destruct (FlagLoopback i) eqn:El; [done|]. cbn [negb].
  destruct (Addrs i) as [addrs|] eqn:Ea; [|done]. destruct (firstAddr addrs) as [ip'|] eqn:Ef; [|done].
  intros [= ->]. destruct (firstAddr_valid addrs ip (Hi _ eq_refl) Ef) as (ip4 & H4 & Hf & Hl & ->). split.
  - destruct ip4 as [|a [|b [|c [|d [|]]]]]; try done. repeat apply Forall_cons in Hf as [? Hf].
    by apply isValidIP_dotted.
  - exists i, addrs, ip4. split; [by left|]. done.
Qed.

Lemma isValidIP_exact_witness :
  isValidIP "::ffff:10.0.0.1" = true /\ isValidIP "fe80::1" = false /\
  (isValidIP "192.168.0.1" = true <->
   exists a b c d, octet a /\ octet b /\ octet c /\ octet d /\ "192.168.0.1" = ipString [a; b; c; d]).
Proof.
  split; [|split; [reflexivity|]].
  - apply (proj1 (isValidIP_exact "::ffff:10.0.0.1")). exists 10, 0, 0, 1. reflexivity.
  - exact (proj2 (isValidIP_exact "192.168.0.1") eq_refl).
Defined.

Definition demo_ifs : list Interface :=
  [mkInterface true true (Ok [IPNet (Some [127; 0; 0; 1])]);
   mkInterface true false (Ok [IPNet (Some (replicate 15 0 ++ [1])); IPNet (Some [10; 0; 0; 7])])].

Lemma GetPrivateIp_valid_witness : GetPrivateIp (Ok demo_ifs) = Some "10.0.0.7" /\ isValidIP "10.0.0.7" = true.
Proof.
  split; [reflexivity|]. apply (GetPrivateIp_valid demo_ifs "10.0.0.7"); [|reflexivity].
  repeat (constructor; [intros addrs [= <-]; repeat (constructor; [repeat (constructor; [unfold octet; lia|]); constructor|]); constructor|]).
  constructor.
Defined.
End Net.
