(* ===== verification/Files.v ===== *)
(** * pkg/tools: files, archives, downloads, directories

    file.go, download.go, env.go, uuid.go and panic.go over a file system of
    files and directories under their cleaned paths; symbolic links and
    permissions appear only as errors that an operation may answer with. *)

From S2P Require Import Prelude GoStrings Hash Json JsonFacts.
Local Open Scope Z_scope.

Module Files.

(** ** path *)

(** The elements of [path.Clean], innermost first. *)
Definition cleanStep (rooted : bool) (out : list string) (elem : string) : list string :=
  if (elem ==s "") || (elem ==s ".") then out
  else if elem ==s ".." then
    match out with
    | x :: out' => if x ==s ".." then elem :: out else out'
    | [] => if rooted then [] else [elem]
    end
  else elem :: out.
Definition Clean (path : string) : string :=
  let rooted := HasPrefix path "/" in
  let elems := reverse (foldl (cleanStep rooted) [] (Split path "/")) in
  if rooted then "/" +:+ Join elems "/"
  else match elems with [] => "." | _ => Join elems "/" end.
(** [path.Join] of two elements. *)
Definition pathJoin (a b : string) : string :=
  match List.filter (fun e => negb (e ==s "")) [a; b] with
  | [] => ""
  | l => Clean (Join l "/")
  end.

Example clean_ex :
  map Clean ["/a/b/../c//./d/"; "a/../../b"; "/.."; ""] = ["/a/c/d"; "../b"; "/"; "."].
Proof. reflexivity. Qed.

Lemma cleanStep_nonempty rooted l out : Forall (fun e => e <> "") out ->
  Forall (fun e => e <> "") (foldl (cleanStep rooted) out l).
Proof.
  revert out. induction l as [|e l IH]; intros out Ho; [done|]. cbn. apply IH. unfold cleanStep.
  destruct (eqb_spec_s e "") as [|He]; [done|]. destruct (e ==s "."); [done|]. cbn [orb].
  destruct (e ==s ".."); [|by constructor]. destruct out as [|x out]; [by destruct rooted; repeat constructor|].
  apply Forall_cons in Ho as [? ?]. destruct (x ==s ".."); [by repeat constructor|done].
Qed.

Lemma Clean_nonempty path : Clean path <> "".
Proof.
  unfold Clean. destruct (HasPrefix path "/"); [done|].
  pose proof (cleanStep_nonempty false (Split path "/") [] ltac:(constructor)) as Hf.
  apply Forall_reverse in Hf. destruct (reverse _) as [|[|c e] l]; [done|by apply Forall_cons in Hf as [? _]|].
  by destruct l.
Qed.

Lemma pathJoin_nonempty a b : b <> "" -> pathJoin a b <> "".
Proof.
  intros Hb. unfold pathJoin. cbn. destruct (eqb_spec_s b ""); [done|]. cbn.
  destruct (negb (a ==s "")); apply Clean_nonempty.
Qed.

(** ** The file system *)

(** [refuses op path] is the error of the operating system, if it has one. *)
Record FS := mkFS {
  contents : gmap string string;
  directories : gset string;
  refuses : string -> string -> option string
}.
Definition set_contents (fs : FS) (c : gmap string string) : FS := mkFS c fs.(directories) fs.(refuses).
Definition set_directories (fs : FS) (d : gset string) : FS := mkFS fs.(contents) d fs.(refuses).

Definition fsExists (fs : FS) (path : string) : bool :=
  bool_decide (is_Some (fs.(contents) !! Clean path)) || bool_decide (Clean path ∈ fs.(directories)).

(** The directories on the way to a clean absolute path. *)
Definition ancestors (path : string) : list string :=
  match Split path "/" with
  | _ :: elems => map (fun n => "/" +:+ Join (take n elems) "/") (seq 1 (length elems))
  | [] => []
  end.
Definition parents (path : string) : list string :=
  take (length (ancestors path) - 1) (ancestors path).
Definition MkdirAll (fs : FS) (path : string) : FS * option string :=
  match fs.(refuses) "mkdir" path with
  | Some err => (fs, Some err)
  | None =>
      if existsb (fun d => bool_decide (is_Some (fs.(contents) !! d))) (ancestors (Clean path))
      then (fs, Some ("mkdir " +:+ path +:+ ": not a directory"))
      else (set_directories fs (list_to_set (ancestors (Clean path)) ∪ fs.(directories)), None)
  end.
(** Opening for writing, with creation: what the file holds then. *)
Definition OpenFile (fs : FS) (path : string) (truncate : bool) : result FS :=
  match fs.(refuses) "open" path with
  | Some err => Err err
  | None =>
      if bool_decide (Clean path ∈ fs.(directories)) then Err ("open " +:+ path +:+ ": is a directory")
      else if negb (forallb (fun d => bool_decide (d ∈ fs.(directories))) (parents (Clean path)))
      then Err ("open " +:+ path +:+ ": no such file or directory")
      else
        let old := if truncate then "" else default "" (fs.(contents) !! Clean path) in
        Ok (set_contents fs (<[Clean path := old]> fs.(contents)))
  end.
Definition readFile (fs : FS) (path : string) : result string :=
  match fs.(refuses) "open" path, fs.(contents) !! Clean path with
  | Some err, _ => Err err
  | None, Some t => Ok t
  | None, None => Err ("open " +:+ path +:+ ": no such file or directory")
  end.
(** Writing from the start of an open file. *)
Definition writeStart (fs : FS) (path t : string) : FS :=
  let old := default "" (fs.(contents) !! Clean path) in
  set_contents fs (<[Clean path := t +:+ drop_s (String.length t) old]> fs.(contents)).

(** ** file.go *)

(** [strings.LastIndex] of a slash; the conversion to runes and back. *)
Fixpoint lastSlash (s : string) (i : nat) (found : option nat) : option nat :=
  match s with
  | "" => found
  | String c t => lastSlash t (S i) (if ord c =? 47 then Some i else found)
  end.
Definition firstRunes (n : nat) (s : string) : outcome string :=
  if (length (runes s) <? n)%nat then Panics "slice bounds out of range"
  else Returns (foldr (fun r t => encode_rune r.1 +:+ t) "" (take n (runes s))).
Fixpoint endsWithSlash (s : string) : bool :=
  match s with "" => false | String c "" => ord c =? 47 | String _ t => endsWithSlash t end.

(** [createFile]; [content] is what the tar reader gives and the error that
    ends it. *)
Definition createFile (fs : FS) (fileName : string) (content : string * option string)
    : outcome (FS * option string) :=
  match lastSlash fileName 0 None with
  | None => Panics "slice bounds out of range [:-1]"
  | Some i =>
      dir ← firstRunes i fileName;
      match MkdirAll fs dir with
      | (fs, Some err) => Returns (fs, Some err)
      | (fs, None) =>
          if endsWithSlash fileName then Returns (fs, None)
          else match OpenFile fs fileName false with
               | Err err => Returns (fs, Some err)
               | Ok fs => let '(t, err) := content in Returns (writeStart fs fileName t, err)
               end
      end
  end.

(** The loop of [DeCompressTgz] over the entries of an archive, each with what
    its reader gives; [last] is what [Next] returns after them, [None] for the
    end of the archive. *)
Fixpoint extract (fs : FS) (destPath : string) (entries : list (string * (string * option string)))
    (last : option string) : outcome (FS * option string) :=
  match entries with
  | [] => Returns (fs, last)
  | (name, content) :: entries' =>
      '(fs, err) ← createFile fs (destPath +:+ "/" +:+ name) content;
      match err with
      | Some e => Returns (fs, Some e)
      | None => extract fs destPath entries' last
      end
  end.
(** [open_archive] is the gzip and tar readers: the entries, or nothing when
    the gzip header cannot be read. *)
Definition DeCompressTgz (open_archive : string -> option (list (string * (string * option string)) * option string))
    (fs : FS) (tarFile destPath : string) : outcome (FS * option string) :=
  match readFile fs tarFile with
  | Err err => Returns (fs, Some err)
  | Ok bytes =>
      match open_archive bytes with
      | None => Returns (fs, None)
      | Some (entries, last) => extract fs destPath entries last
      end
  end.

Definition Md5sum (fs : FS) (filePath : string) : result string :=
  bytes ← readFile fs filePath; Ok (hex (Md5Sum bytes)).
Definition CheckMd5 (fs : FS) (filePath md5sum : string) : bool * option string :=
  match Md5sum fs filePath with
  | Err err => (false, Some err)
  | Ok sum => if sum ==s md5sum then (true, None) else (false, Some "md5 not equal")
  end.

(** ** download.go *)

(** [get] is [http.Get]: the status, and what the body gives before it ends or
    fails. *)
Definition Download (get : string -> result (Z * (string * option string))) (fs : FS)
    (destFileFullPath url : string) : FS * option string :=
  match OpenFile fs destFileFullPath true with
  | Err err => (fs, Some err)
  | Ok fs =>
      match get url with
      | Err err => (fs, Some err)
      | Ok (code, (body, err)) =>
          if negb (code =? 200) then (fs, Some ("response code: " +:+ FormatInt code))
          else (writeStart fs destFileFullPath body, err)
      end
  end.

(** ** uuid.go, panic.go *)

Definition GenerateUid (read : result string) : result string := b ← read; Ok (hex b).

(** A deferred [PanicPrintStack] ends a panic of its function. *)
Definition PanicPrintStack (body : outcome unit) : outcome unit :=
  match body with Panics _ => Returns tt | o => o end.

(** ** env.go *)

Definition AgentLog := "agent.log".
(** The variables of the file. *)
Record Paths := mkPaths { chaosPath : string; metricPath : string; agentPath : string; chaosLogFilePath : string }.

Definition GetUserHome (home : result string) : string := match home with Ok h => h | Err _ => "/root" end.
(** [None] ends the process; [absDir] is the absolute directory of the
    program. *)
Definition GetCurrentDirectory (absDir : result string) (p : Paths) : option (string * Paths) :=
  if negb (p.(chaosPath) ==s "") then Some (p.(chaosPath), p)
  else match absDir with
       | Err _ => None
       | Ok dir => Some (dir, mkPaths dir p.(metricPath) p.(agentPath) p.(chaosLogFilePath))
       end.
Definition GetAgentLogFilePath (absDir : result string) (p : Paths) : option (string * Paths) :=
  if negb (p.(chaosLogFilePath) ==s "") then Some (p.(chaosLogFilePath), p)
  else '(dir, p) ← GetCurrentDirectory absDir p;
       let f := pathJoin dir AgentLog in
       Some (f, mkPaths p.(chaosPath) p.(metricPath) p.(agentPath) f).
Definition ensureDirectory (fs : FS) (dir : string) : option FS :=
  if fsExists fs dir then Some fs
  else match MkdirAll fs dir with (fs, None) => Some fs | (_, Some _) => None end.
Definition GetMetricDirectory (absDir : result string) (fs : FS) (p : Paths) : option (string * FS * Paths) :=
  if negb (p.(metricPath) ==s "") then Some (p.(metricPath), fs, p)
  else '(dir, p) ← GetCurrentDirectory absDir p;
       let d := pathJoin dir "metric" in
       fs ← ensureDirectory fs d;
       Some (d, fs, mkPaths p.(chaosPath) d p.(agentPath) p.(chaosLogFilePath)).
Definition GetAgentDirectory (absDir : result string) (fs : FS) (p : Paths) : option (string * FS * Paths) :=
  if negb (p.(agentPath) ==s "") then Some (p.(agentPath), fs, p)
  else '(dir, p) ← GetCurrentDirectory absDir p;
       let d := pathJoin dir "agent" in
       fs ← ensureDirectory fs d;
       Some (d, fs, mkPaths p.(chaosPath) p.(metricPath) d p.(chaosLogFilePath)).
(** [os.RemoveAll]: the path and all below. *)
Definition below (dir path : string) : bool := (path ==s dir) || HasPrefix path (dir +:+ "/").
Definition RemoveAll (fs : FS) (dir : string) : FS * option string :=
  match fs.(refuses) "remove" dir with
  | Some err => (fs, Some err)
  | None => (mkFS (filter (fun kv => below (Clean dir) kv.1 = false) fs.(contents))
               (filter (fun d => below (Clean dir) d = false) fs.(directories)) fs.(refuses), None)
  end.
Definition ClearMetricDirectory (absDir : result string) (fs : FS) (p : Paths)
    : option (option string * FS * Paths) :=
  '(dir, fs, p) ← GetMetricDirectory absDir fs p;
  match RemoveAll fs dir with
  | (fs, Some err) => Some (Some err, fs, p)
  | (fs, None) => Some (None, fs, mkPaths p.(chaosPath) "" p.(agentPath) p.(chaosLogFilePath))
  end.
Definition SetchaosPath (path : string) (p : Paths) : Paths :=
  mkPaths path p.(metricPath) p.(agentPath) p.(chaosLogFilePath).
Definition IsPublicEnv (regionId : string) : bool := regionId ==s "cn-public".
Definition IsUnix (GOOS : string) : bool := (GOOS ==s "linux") || (GOOS ==s "darwin").
Definition IsWindows (GOOS : string) : bool := GOOS ==s "windows".
(** [None] ends the process. *)
Definition CheckEnvironment (GOOS : string) : option unit := if IsWindows GOOS then None else Some tt.

(** ** Archives *)

Lemma runes_seven_bit s : seven_bit s = true -> forall n,
  length (runes s) = String.length s /\
  foldr (fun r t => encode_rune r.1 +:+ t) "" (take n (runes s)) = take_s n s.
Proof.
  induction s as [|c s IH]; intros Hs n; [by destruct n|]. cbn [seven_bit] in Hs.
  apply andb_true_iff in Hs as [Hc Hs]. rewrite runes_ascii by lia. cbn [length String.length].
  destruct (IH Hs (n - 1)%nat) as [-> _]. split; [done|]. destruct n as [|n]; [done|]. cbn [take foldr take_s].
  destruct (IH Hs n) as [_ ->]. cbn [fst]. rewrite encode_rune_1 by lia. done.
Qed.

Lemma lastSlash_bound s : forall k found i, lastSlash s k found = Some i ->
  found = Some i \/ (k <= i < k + String.length s)%nat.
Proof.
  induction s as [|c s IH]; intros k found i; cbn [lastSlash String.length]; [by left|].
  intros [E|?]%IH; [|right; lia]. destruct (ord c =? 47); [simplify_eq; right; lia|by left].
Qed.

(** For a name in ASCII the directory is what stands before the last slash. *)
Lemma createFile_ascii fs fileName t i : seven_bit fileName = true -> lastSlash fileName 0 None = Some i ->
  createFile fs fileName (t, None) =
    Returns (match MkdirAll fs (take_s i fileName) with
             | (fs, Some err) => (fs, Some err)
             | (fs, None) =>
                 if endsWithSlash fileName then (fs, None)
                 else match OpenFile fs fileName false with
                      | Err err => (fs, Some err)
                      | Ok fs => (writeStart fs fileName t, None)
                      end
             end).
Proof.
  intros Hs Hi. unfold createFile. rewrite Hi. destruct (runes_seven_bit fileName Hs i) as [Hl Ht].
  destruct (lastSlash_bound _ _ _ _ Hi) as [|Hb]; [done|].
  unfold firstRunes. rewrite Hl, Ht. destruct (Nat.ltb_spec (String.length fileName) i); [lia|]. cbn.
  destruct (MkdirAll fs (take_s i fileName)) as [fs' [err|]]; [done|].
  destruct (endsWithSlash fileName); [done|]. by destruct (OpenFile fs' fileName false).
Qed.

(** Otherwise a byte position is used as a number of runes: a directory name
    of two Chinese characters is enough for a panic. *)
Definition cjk : string :=
  String (chr 230) (String (chr 151) (String (chr 165) (String (chr 230) (String (chr 156) (String (chr 172) ""))))).
Example createFile_multibyte_panics :
  createFile (mkFS ∅ {["/"]} (fun _ _ => None)) ("/d/" +:+ cjk +:+ "/x") ("data", None)
  = Panics "slice bounds out of range".
Proof. reflexivity. Qed.

(** And a name in an archive may lead out of the destination. *)
Example extract_escapes :
  extract (mkFS {["/etc/passwd" := "root"]} {["/"; "/etc"; "/opt"]} (fun _ _ => None)) "/opt"
    [("../etc/passwd", ("mine!", None))] None
  = Returns (mkFS {["/etc/passwd" := "mine!"]} {["/"; "/etc"; "/opt"]} (fun _ _ => None), None).
Proof. vm_compute. reflexivity. Qed.

Lemma MkdirAll_contents fs dir : (MkdirAll fs dir).1.(contents) = fs.(contents).
Proof. unfold MkdirAll. destruct (refuses fs "mkdir" dir); [done|]. by destruct (existsb _ _). Qed.

Lemma OpenFile_contents fs path tr fs' : OpenFile fs path tr = Ok fs' ->
  fs'.(contents) = <[Clean path := if tr then "" else default "" (fs.(contents) !! Clean path)]> fs.(contents).
Proof.
  unfold OpenFile. destruct (refuses fs "open" path); [done|]. destruct (bool_decide _); [done|].
  destruct (negb _); [done|]. by intros [= <-].
Qed.

(** What a file holds after its entry was extracted. *)
Definition laid (fs : FS) (path t : string) : string :=
  t +:+ drop_s (String.length t) (default "" (fs.(contents) !! Clean path)).

Lemma createFile_effect fs fileName t e fs' :
  createFile fs fileName (t, e) = Returns (fs', None) ->
  if endsWithSlash fileName then fs'.(contents) = fs.(contents)
  else fs'.(contents) = <[Clean fileName := laid fs fileName t]> fs.(contents).
Proof.
  unfold createFile. destruct (lastSlash fileName 0 None) as [i|]; [|done].
  intros (dir & _ & H)%outcome_bind_returns. pose proof (MkdirAll_contents fs dir) as Hm.
  destruct (MkdirAll fs dir) as [fs1 [err|]]; [by simplify_eq|]. cbn in Hm.
  destruct (endsWithSlash fileName); [by simplify_eq|].
  destruct (OpenFile fs1 fileName false) as [fs2|err] eqn:Eo; [|by simplify_eq].
  apply OpenFile_contents in Eo. simplify_eq. unfold writeStart, laid. cbn.
  rewrite Eo, Hm, lookup_insert_eq. cbn. by rewrite insert_insert_eq.
Qed.

Definition entryPath (destPath name : string) : string := destPath +:+ "/" +:+ name.
(** The files of an archive, without its directories. *)
Definition plain (destPath : string) (entry : string * (string * option string)) : bool :=
  negb (endsWithSlash (entryPath destPath entry.1)).

Lemma extract_effect destPath entries : forall fs fs',
  extract fs destPath entries None = Returns (fs', None) ->
  NoDup (map (fun x => Clean (entryPath destPath x.1)) (List.filter (plain destPath) entries)) ->
  (forall p, p ∉ map (fun x => Clean (entryPath destPath x.1)) (List.filter (plain destPath) entries) ->
     fs'.(contents) !! p = fs.(contents) !! p) /\
  forall x, x ∈ entries -> plain destPath x = true ->
    fs'.(contents) !! Clean (entryPath destPath x.1) = Some (laid fs (entryPath destPath x.1) x.2.1).
Proof.
  induction entries as [|[name [t e]] entries IH]; intros fs fs'; cbn [extract List.filter].
  { intros [= <-] _. split; [done|]. intros x Hx. by apply elem_of_nil in Hx. }
  intros ([fs1 err] & Hc & H)%outcome_bind_returns. destruct err as [err|]; [by simplify_eq|].
  apply createFile_effect in Hc. fold (entryPath destPath name) in Hc.
  unfold plain at 1 2 4. cbn [fst]. destruct (endsWithSlash (entryPath destPath name)) eqn:Ee; cbn [negb].
  - intros Hnd. destruct (IH fs1 fs' H Hnd) as [Ho Hx]. rewrite Hc in Ho. split; [done|].
    intros x [->|Hin]%elem_of_cons Hp; [unfold plain in Hp; cbn in Hp; by rewrite Ee in Hp|].
    rewrite Hx by done. unfold laid. by rewrite Hc.
  - cbn [map]. intros [Hn Hnd]%NoDup_cons. destruct (IH fs1 fs' H Hnd) as [Ho Hx]. split.
    + intros p [Hp1 Hp2]%not_elem_of_cons. rewrite Ho, Hc by done. by rewrite lookup_insert_ne.
    + intros x [->|Hin]%elem_of_cons Hp; cbn [fst snd].
      * rewrite Ho by done. by rewrite Hc, lookup_insert_eq.
      * rewrite Hx by done. unfold laid. rewrite Hc, lookup_insert_ne; [done|]. intros E. apply Hn.
        cbn [fst] in *. rewrite E. apply list_elem_of_fmap. exists x. split; [done|].
        apply list_elem_of_In, filter_In. split; [by apply list_elem_of_In|done].
Qed.

(** An archive that is unpacked without error leaves every file of it
    under the destination with its content from the archive (over what was
    there, whose end stays when it was longer), and leaves every other file as
    it was. *)
Theorem DeCompressTgz_unpacks open_archive fs tarFile destPath bytes entries fs' :
  readFile fs tarFile = Ok bytes -> open_archive bytes = Some (entries, None) ->
  NoDup (map (fun x => Clean (entryPath destPath x.1)) (List.filter (plain destPath) entries)) ->
  DeCompressTgz open_archive fs tarFile destPath = Returns (fs', None) ->
  (forall p, p ∉ map (fun x => Clean (entryPath destPath x.1)) (List.filter (plain destPath) entries) ->
     fs'.(contents) !! p = fs.(contents) !! p) /\
  forall x, x ∈ entries -> plain destPath x = true ->
    fs'.(contents) !! Clean (entryPath destPath x.1) = Some (laid fs (entryPath destPath x.1) x.2.1).
Proof.
  intros Hr Ho Hnd. unfold DeCompressTgz. rewrite Hr, Ho. intros H. by apply extract_effect.
Qed.

(** An archive whose compression cannot be read is reported as unpacked. *)
Lemma DeCompressTgz_silent open_archive fs tarFile destPath bytes :
  readFile fs tarFile = Ok bytes -> open_archive bytes = None ->
  DeCompressTgz open_archive fs tarFile destPath = Returns (fs, None).
Proof. intros Hr Ho. unfold DeCompressTgz. by rewrite Hr, Ho. Qed.

(** ** Downloads and digests *)

(** A download reports success exactly when the file could be opened, the
    server answered 200 and the body was read to its end, and then the file
    holds the body.  Once the file is open its old content is gone: a failure
    leaves it empty or with the part of the body that was read. *)
Theorem Download_outcome get fs path url fs' err :
  Download get fs path url = (fs', err) ->
  match OpenFile fs path true with
  | Err e => fs' = fs /\ err = Some e
  | Ok _ =>
      (err = None <-> exists body, get url = Ok (200, (body, None))) /\
      fs'.(contents) !! Clean path =
        Some match get url with Ok (200, (body, _)) => body | _ => "" end
  end.
Proof.
  unfold Download. destruct (OpenFile fs path true) as [fs1|e] eqn:Eo; [|by intros [= <- <-]].
  apply OpenFile_contents in Eo. destruct (get url) as [[code [body berr]]|e]; cbn.
  - destruct (Z.eqb_spec code 200) as [->|Hc]; cbn [negb]; intros [= <- <-].
    + split; [split; [intros ->; by exists body|by intros (b & [= _ ->])]|].
      unfold writeStart. cbn. rewrite lookup_insert_eq, Eo, lookup_insert_eq. cbn.
      by rewrite drop_nil_s, app_nil_r_s.
    + split; [split; [done|intros (b & [=]); congruence]|]. rewrite Eo, lookup_insert_eq.
      f_equal. destruct code as [|code|]; try done. repeat (destruct code as [code|code|]; try done).
  - intros [= <- <-]. split; [split; [done|by intros (b & ?)]|]. by rewrite Eo, lookup_insert_eq.
Qed.

Lemma CheckMd5_true fs filePath md5sum :
  CheckMd5 fs filePath md5sum = (true, None) <->
  exists bytes, readFile fs filePath = Ok bytes /\ hex (Md5Sum bytes) = md5sum.
Proof.
  unfold CheckMd5, Md5sum. destruct (readFile fs filePath) as [bytes|e]; cbn [mbind result_bind].
  - destruct (eqb_spec_s (hex (Md5Sum bytes)) md5sum) as [E|E].
    + split; [intros _; by exists bytes|done].
    + split; [done|]. intros (b & Hb & Hs). injection Hb as ->. done.
  - split; [done|]. by intros (b & Hb & _).
Qed.

(** ** Directories *)

Lemma below_refl d : below d d = true.
Proof. unfold below. by rewrite eqb_refl_s. Qed.

Lemma ensureDirectory_exists fs d fs' : Clean d ∈ ancestors (Clean d) ->
  ensureDirectory fs d = Some fs' -> fsExists fs' d = true.
Proof.
  intros Ha. unfold ensureDirectory. destruct (fsExists fs d) eqn:E; [by intros [= <-]|].
  unfold MkdirAll. destruct (refuses fs "mkdir" d); [done|]. destruct (existsb _ _); [done|]. intros [= <-].
  unfold fsExists. cbn. rewrite (bool_decide_true (Clean d ∈ _ ∪ _)); [by rewrite orb_true_r|]. set_solver.
Qed.

Lemma GetCurrentDirectory_keeps absDir p dir p' : GetCurrentDirectory absDir p = Some (dir, p') ->
  p'.(metricPath) = p.(metricPath) /\ p'.(chaosPath) = dir /\
  (dir <> "" -> GetCurrentDirectory absDir p' = Some (dir, p')).
Proof.
  unfold GetCurrentDirectory. destruct (eqb_spec_s (chaosPath p) "") as [E|E]; cbn [negb].
  - destruct absDir as [d|]; [|done]. intros [= <- <-]. split_and!; [done..|]. intros Hd. cbn.
    apply eqb_false_s in Hd. by rewrite Hd.
  - intros [= <- <-]. split_and!; [done..|]. apply eqb_false_s in E. by rewrite E.
Qed.

(** The metric directory exists when its path is computed, the path is
    then remembered, and after it was cleared it is gone and made again at the
    same place by the next use. *)
Theorem metric_directory_recreated absDir fs p dir fs1 p1 fs2 p2 dir3 fs3 p3 :
  p.(metricPath) = "" -> p1.(chaosPath) <> "" -> dir <> "" -> Clean dir ∈ ancestors (Clean dir) ->
  GetMetricDirectory absDir fs p = Some (dir, fs1, p1) ->
  ClearMetricDirectory absDir fs1 p1 = Some (None, fs2, p2) ->
  GetMetricDirectory absDir fs2 p2 = Some (dir3, fs3, p3) ->
  fsExists fs1 dir = true /\ GetMetricDirectory absDir fs1 p1 = Some (dir, fs1, p1) /\
  fsExists fs2 dir = false /\ dir3 = dir /\ fsExists fs3 dir = true.
Proof.
  intros Hm Hc1 Hd Ha H1 H2 H3. unfold GetMetricDirectory in H1. rewrite Hm in H1. cbn [negb String.eqb] in H1.
  destruct (GetCurrentDirectory absDir p) as [[cur q]|] eqn:Ec; [|done]. cbn in H1.
  destruct (ensureDirectory fs (pathJoin cur "metric")) as [fs1'|] eqn:Ee; [|done]. cbn in H1. simplify_eq.
  pose proof (ensureDirectory_exists _ _ _ Ha Ee) as Hex1.
  destruct (GetCurrentDirectory_keeps _ _ _ _ Ec) as (_ & Hcur & _).
  subst cur. cbn in Hc1. assert (Hg1 : GetMetricDirectory absDir fs1 (mkPaths (chaosPath q) (pathJoin (chaosPath q) "metric") (agentPath q) (chaosLogFilePath q))
    = Some (pathJoin (chaosPath q) "metric", fs1, mkPaths (chaosPath q) (pathJoin (chaosPath q) "metric") (agentPath q) (chaosLogFilePath q))).
  { unfold GetMetricDirectory. cbn [metricPath]. apply eqb_false_s in Hd. by rewrite Hd. }
  unfold ClearMetricDirectory in H2. rewrite Hg1 in H2. cbn [mbind option_bind] in H2.
  unfold RemoveAll in H2. destruct (refuses fs1 "remove" _); [done|]. cbn in H2. injection H2 as <- <-.
  unfold GetMetricDirectory, GetCurrentDirectory in H3. cbn [metricPath chaosPath negb String.eqb] in H3.
  apply eqb_false_s in Hc1. rewrite Hc1 in H3. cbn [negb mbind option_bind] in H3.
  apply bind_Some in H3 as (fs3' & Ee3 & H3). injection H3 as <- <- <-.
  split_and!; [done|exact Hg1| |done|by apply (ensureDirectory_exists _ _ _ Ha Ee3)].
  unfold fsExists. cbn. rewrite !bool_decide_false; [done| |].
  - rewrite elem_of_filter. intros [Hb _]. by rewrite below_refl in Hb.
  - rewrite map_lookup_filter. intros [v Hv]. destruct (contents fs1 !! _); cbn in Hv; [|done].
    case_guard as Hb; cbn in *; [|done]. by rewrite below_refl in Hb.
Qed.

(** ** Examples *)

Definition demo_fs : FS := mkFS {["/opt/a.tgz" := "GZ"]} {["/"; "/opt"]} (fun _ _ => None).
Definition demo_archive (bytes : string) : option (list (string * (string * option string)) * option string) :=
  if bytes ==s "GZ" then Some ([("d/", ("", None)); ("d/f", ("text", None))], None) else None.

Lemma DeCompressTgz_unpacks_witness :
  exists fs', DeCompressTgz demo_archive demo_fs "/opt/a.tgz" "/opt" = Returns (fs', None) /\
    fs'.(contents) !! "/opt/d/f" = Some "text".
Proof.
  destruct (DeCompressTgz demo_archive demo_fs "/opt/a.tgz" "/opt") as [[fs' err]| |] eqn:E;
    try (vm_compute in E; discriminate E).
  assert (err = None) as -> by (vm_compute in E; injection E as _ <-; reflexivity).
  exists fs'. split; [reflexivity|].
  destruct (DeCompressTgz_unpacks demo_archive demo_fs "/opt/a.tgz" "/opt" "GZ"
              [("d/", ("", None)); ("d/f", ("text", None))] fs') as [_ H].
  - reflexivity.
  - reflexivity.
  - cbn. apply NoDup_singleton.
  - exact E.
  - apply (H ("d/f", ("text", None))); [by right; left|reflexivity].
Defined.

Lemma Download_outcome_witness :
  (Download (fun _ => Ok (404, ("nothing", None))) demo_fs "/opt/a.tgz" "http://x").1.(contents) !! "/opt/a.tgz" = Some "".
Proof.
  destruct (Download_outcome (fun _ => Ok (404, ("nothing", None))) demo_fs "/opt/a.tgz" "http://x"
    (Download (fun _ => Ok (404, ("nothing", None))) demo_fs "/opt/a.tgz" "http://x").1
    (Download (fun _ => Ok (404, ("nothing", None))) demo_fs "/opt/a.tgz" "http://x").2 (surjective_pairing _)) as [_ H].
  exact H.
Defined.

Definition demo_paths : Paths := mkPaths "/opt" "" "" "".
Definition demo_get (fs : FS) (p : Paths) : FS * Paths :=
  match GetMetricDirectory (Ok "/opt") fs p with Some (_, fs, p) => (fs, p) | None => (fs, p) end.
Definition demo_clear (fs : FS) (p : Paths) : FS * Paths :=
  match ClearMetricDirectory (Ok "/opt") fs p with Some (_, fs, p) => (fs, p) | None => (fs, p) end.
Definition demo_1 := demo_get demo_fs demo_paths.
Definition demo_2 := demo_clear demo_1.1 demo_1.2.
Definition demo_3 := demo_get demo_2.1 demo_2.2.

Lemma metric_directory_recreated_witness :
  fsExists demo_1.1 "/opt/metric" = true /\ fsExists demo_2.1 "/opt/metric" = false /\
  fsExists demo_3.1 "/opt/metric" = true.
Proof.
  destruct (metric_directory_recreated (Ok "/opt") demo_fs demo_paths "/opt/metric" demo_1.1 demo_1.2
              demo_2.1 demo_2.2 "/opt/metric" demo_3.1 demo_3.2) as (H1 & _ & H2 & _ & H3).
  - reflexivity.
  - intros H. discriminate H.
  - intros H. discriminate H.
  - right. left.
  - reflexivity.
  - reflexivity.
  - reflexivity.
  - split; [exact H1|]. split; [exact H2|exact H3].
Defined.
End Files.
