(* ===== verification/GoSet.v ===== *)
(** * pkg/tools/set.go: the set the collectors use

    A map from values to [true]; the order in which the map is walked is a
    parameter of the operations that list its keys. *)

From S2P Require Import Prelude.

Module GoSet.

Section set.
(** The keys are interface values; [as_str] is the type assertion to string. *)
Context {A : Type} `{Countable A} (as_str : A -> option string).

Record Set_ := mkSet { m : gmap A bool }.

Definition NewSet : Set_ := mkSet ∅.
Definition Add (set : Set_) (item : A) : Set_ := mkSet (<[item := true]> set.(m)).
Definition Remove (set : Set_) (item : A) : Set_ := mkSet (delete item set.(m)).
(** A missing key reads as the zero value. *)
Definition Contains (set : Set_) (item : A) : bool := default false (set.(m) !! item).
Definition Length (set : Set_) : nat := size set.(m).
Definition Clear (set : Set_) : Set_ := mkSet ∅.

(** [range] over the map. *)
Definition Keys (range : gmap A bool -> list (A * bool)) (set : Set_) : list A := (range set.(m)).*1.
Fixpoint assertAll (keys : list A) : outcome (list string) :=
  match keys with
  | [] => Returns []
  | key :: keys' =>
      match as_str key with
      | None => Panics "interface conversion: interface {} is not string"
      | Some s => l ← assertAll keys'; Returns (s :: l)
      end
  end.
Definition StringKeys (range : gmap A bool -> list (A * bool)) (set : Set_) : outcome (list string) :=
  assertAll (Keys range set).

(** ** The set it stands for *)

Definition elements_of (set : Set_) : gset A := dom set.(m).

(** Every key is bound to [true]. *)
Definition wf (set : Set_) : Prop := map_Forall (fun _ b => b = true) set.(m).

Lemma NewSet_wf : wf NewSet.
Proof. apply map_Forall_empty. Qed.
Lemma Add_wf set x : wf set -> wf (Add set x).
Proof. by apply map_Forall_insert_2. Qed.
Lemma Remove_wf set x : wf set -> wf (Remove set x).
Proof. by apply map_Forall_delete. Qed.

Lemma assertAll_fmap keys l : assertAll keys = Returns l <-> as_str <$> keys = Some <$> l.
Proof.
  revert l. induction keys as [|k keys IH]; intros l; simpl.
  - destruct l; naive_solver.
  - destruct (as_str k) as [s|]; [|split; [done|by destruct l]].
    destruct l as [|s' l]; simpl.
    + split; [|done]. intros E. by apply outcome_bind_returns in E as (? & _ & ?).
    + split.
      * intros E. apply outcome_bind_returns in E as (l' & E & [= -> ->]). f_equal. by apply IH.
      * intros [= -> E]. apply IH in E as ->. done.
Qed.
End set.
Arguments Set_ A {_ _}.

(** The operations are those of a finite set: building a set from any
    sequence of additions and removals keeps every key bound to [true], and
    membership, size and the listed keys are those of the set of elements. *)
Section spec.
Context {A : Type} `{Countable A}.

Inductive op := OpAdd (x : A) | OpRemove (x : A) | OpClear.
Definition run (set : Set_ A) (o : op) : Set_ A :=
  match o with OpAdd x => Add set x | OpRemove x => Remove set x | OpClear => Clear set end.
Definition spec (s : gset A) (o : op) : gset A :=
  match o with OpAdd x => {[x]} ∪ s | OpRemove x => s ∖ {[x]} | OpClear => ∅ end.

Lemma run_wf set o : wf set -> wf (run set o).
Proof. destruct o; [apply Add_wf|apply Remove_wf|intros _; apply NewSet_wf]. Qed.

Lemma run_elements set o : elements_of (run set o) = spec (elements_of set) o.
Proof.
  destruct o; unfold elements_of; simpl;
    [apply dom_insert_L|apply dom_delete_L|apply dom_empty_L].
Qed.

Theorem set_refines range ops :
  (forall m, range m ≡ₚ map_to_list m) ->
  let set := foldl run NewSet ops in
  let s := foldl spec ∅ ops in
  (forall x, Contains set x = bool_decide (x ∈ s)) /\ Length set = size s /\
  NoDup (Keys range set) /\ forall x, x ∈ Keys range set <-> x ∈ s.
Proof.
  intros Hr set s. assert (wf set /\ elements_of set = s) as [Hw <-].
  { unfold set, s. clear set s. replace ∅ with (elements_of (NewSet (A := A))) by apply dom_empty_L.
    pose proof (NewSet_wf (A := A)) as Hw. revert Hw. generalize (NewSet (A := A)).
    induction ops as [|o ops IH]; intros set Hw; [done|]. simpl. rewrite <-run_elements.
    apply IH. by apply run_wf. }
  split; [|split; [|split]].
  - intros x. unfold Contains. destruct (set.(m) !! x) as [b|] eqn:E; simpl.
    + rewrite (Hw x b E). symmetry. apply bool_decide_eq_true, elem_of_dom. eauto.
    + symmetry. apply bool_decide_eq_false, not_elem_of_dom. done.
  - unfold Length, elements_of. by rewrite size_dom.
  - unfold Keys. rewrite (Hr set.(m)). apply NoDup_fst_map_to_list.
  - intros x. unfold Keys, elements_of. rewrite (Hr set.(m)), elem_of_dom. split.
    + intros Hx. apply list_elem_of_fmap in Hx as ([k b] & -> & Hk). apply elem_of_map_to_list in Hk. eauto.
    + intros [b Hb]. apply list_elem_of_fmap. exists (x, b). split; [done|]. by apply elem_of_map_to_list.
Qed.
End spec.
End GoSet.
