(* ===== verification/Tools.v ===== *)
(** * pkg/tools and pkg/bash: keys, signatures, local records, sets, scripts

    The operating system appears as the files it holds and the errors it
    answers with; both are inputs of the definitions. *)

From S2P Require Import Prelude GoStrings Hash Json JsonFacts Options.
Local Open Scope Z_scope.

Module Tools.
Import Options.

(** ** The file system *)

Record OS := mkOS {
  files : gmap string string;
  (** the error of opening a path for writing *)
  open_err : string -> option string;
  (** the error of the [n]-th [WriteString] to a path *)
  write_err : string -> nat -> option string
}.
Definition with_files (os : OS) (fs : gmap string string) : OS :=
  mkOS fs os.(open_err) os.(write_err).

(** file.go [IsExist]. *)
Definition IsExist (os : OS) (fileName : string) : bool :=
  bool_decide (is_Some (os.(files) !! fileName)).

(** Writing [t] from the start of a file that holds [old]. *)
Definition overwrite (t old : string) : string := t +:+ drop_s (String.length t) old.

(** ** auth.go: keys and signatures *)

Record Keys := mkKeys { localAccessKey : string; localSecureKey : string }.

Definition GetAccessKey (k : Keys) : string := k.(localAccessKey).
Definition GetSecureKey (k : Keys) : string := k.(localSecureKey).

Definition Sign (k : Keys) (signData : string) : string :=
  let sum256 := Sum256 (signData +:+ k.(localSecureKey)) in
  b64_encode (hex sum256).

Definition Auth (k : Keys) (sign signData : string) : bool :=
  let expectSign := Sign k signData in
  if negb (expectSign ==s sign) then false else true.

(** [splitToChunk]: chunks of [size] bytes joined again.  The loop shrinks
    [encodeString] by [size >= 1] bytes, the length is enough fuel. *)
Fixpoint chunks_go (fuel : nat) (s : string) (size : nat) : list string :=
  match fuel with
  | O => []
  | S f =>
      match s with
      | "" => []
      | _ => let size' := if (String.length s <? size)%nat then String.length s else size in
             take_s size' s :: chunks_go f (drop_s size' s) size'
      end
  end.
Definition splitToChunk (encodeString : string) (size : nat) : string :=
  if (String.length encodeString <? size)%nat then encodeString
  else Join (chunks_go (String.length encodeString) encodeString size) "".

(** ** auth.go: records on disk *)

Definition AccessKeyName := "AK".
Definition SecretKeyName := "SK".
Definition Delimiter := "=".

Definition entryText (kv : string * string) : string :=
  Join [kv.1; kv.2] Delimiter +:+ newline.

(** The writing loop: what got written, and the error that stopped it. *)
Fixpoint writeEntries (os : OS) (filePath : string) (i : nat) (entries : list (string * string))
    : string * option string :=
  match entries with
  | [] => ("", None)
  | kv :: entries' =>
      match os.(write_err) filePath i with
      | Some e => ("", Some e)
      | None => let '(t, err) := writeEntries os filePath (S i) entries' in
                (entryText kv +:+ t, err)
      end
  end.

(** [RecordMapToFile]; [entries] are the bindings of [data] in the order the
    [range] of the call visits them. *)
Definition RecordMapToFile (os : OS) (entries : list (string * string)) (filePath : string)
    (truncate : bool) : OS * option string :=
  match entries with
  | [] => (os, None)
  | _ =>
      match os.(open_err) filePath with
      | Some e => (os, Some e)
      | None =>
          let old := if truncate then "" else default "" (os.(files) !! filePath) in
          let '(t, err) := writeEntries os filePath 0 entries in
          (with_files os (<[filePath := overwrite t old]> os.(files)), err)
      end
  end.

(** A map literal with two keys is visited in one of two orders. *)
Definition order2 {A} (flip : bool) (x y : A) : list A := if flip then [y; x] else [x; y].

Definition RecordSecretKeyToFile (home : string) (flip : bool) (os : OS) (k : Keys)
    (accessKey secretKey : string) : OS * Keys * option string :=
  if (accessKey ==s "") || (secretKey ==s "")
  then (os, k, Some "accessKey or secretKey is empty")
  else
    let keys := order2 flip (AccessKeyName, accessKey) (SecretKeyName, secretKey) in
    match RecordMapToFile os keys (home +:+ "/.chaos.cert") true with
    | (os', Some e) => (os', k, Some e)
    | (os', None) => (os', mkKeys accessKey secretKey, None)
    end.

Definition RecordApplicationToFile (AppFile : string) (flip : bool) (os : OS)
    (appInstance appGroup : string) (truncate : bool) : OS * option string :=
  RecordMapToFile os
    (order2 flip (AppInstanceKeyName, appInstance) (AppGroupKeyName, appGroup)) AppFile truncate.

(** The loop over the lines of the application record. *)
Fixpoint readLines (lines : list string) (acc : string * string) : string * string :=
  match lines with
  | [] => acc
  | value :: lines' =>
      match SplitN value Delimiter 2 with
      | [k; v] =>
          readLines lines'
            (if k ==s AppInstanceKeyName then (v, acc.2)
             else if k ==s AppGroupKeyName then (acc.1, v) else acc)
      | _ => readLines lines' acc
      end
  end.

Definition ReadAppInfoFromFile (AppFile : string) (os : OS) : result (string * string) :=
  match os.(files) !! AppFile with
  | None => Err ("open " +:+ AppFile +:+ ": no such file or directory")
  | Some bytes =>
      let content := TrimSpace bytes in
      let slice := Split content newline in
      match slice with
      | [] => Err "empty content"
      | _ => Ok (readLines slice ("", ""))
      end
  end.

(** options.go [InitApplicationInfo]: the receiver, the file system and the
    local values of the two parameters when the function returns. *)
Definition InitApplicationInfo (AppFile : string) (flip : bool) (os : OS) (o : Options)
    (appInstance appGroup : string) : OS * Options * (string * string) :=
  if IsExist os AppFile && (appInstance ==s DefaultApplicationInstance)
     && (appGroup ==s DefaultApplicationGroup)
  then
    let '(instance, group) :=
      match ReadAppInfoFromFile AppFile os with Ok p => p | Err _ => ("", "") end in
    let appInstance := if instance ==s "" then appInstance else instance in
    let appGroup := if group ==s "" then appGroup else group in
    (os, o, (appInstance, appGroup))
  else
    let '(os', _) := RecordApplicationToFile AppFile flip os appInstance appGroup true in
    (os', o, (appInstance, appGroup)).

(** ** file.go: digests *)

(** [Md5sumData] on a non-nil value, given its JSON text. *)
Definition Md5sumData (data : json) : string := hex (Md5Sum (encode data)).

(** ** bash.go *)

(** Output and error of running a command line under [/bin/sh -c]. *)
Definition shell := string -> string * option string.

(** [ExecScript] on Linux and macOS: output, error message, success. *)
Definition ExecScript (os : OS) (sh : shell) (script args : string) : string * string * bool :=
  if negb (IsExist os script) then ("", script +:+ " not found", false)
  else match sh (script +:+ " " +:+ args) with
       | (output, Some err) => (output, err, false)
       | (output, None) => (output, "", true)
       end.

(** bladeoptions.go [GetChaosBladeVersion]. *)
Definition GetChaosBladeVersion (os : OS) (sh : shell) : result string :=
  if negb (IsExist os BladeBinPath) then Err "blade bin file not exist"
  else
    let '(res, errMsg, isSuccess) := ExecScript os sh BladeBinPath "version" in
    if negb isSuccess then Err errMsg else parseVersionFromOutput res.

(** A float64 that compares equal to 0: the value is at most half the least
    positive float64. *)
Definition float_zero (lit : string) : bool :=
  let '(m, e) := num_parts lit in
  if m =? 0 then true else if 0 <=? e then false else m * 2 ^ 1075 <=? 10 ^ (- e).

Definition handleOsAgentResult (res : string) : string * bool :=
  match cut "{" res with
  | None => (res, false)
  | Some (_, t) =>
      let res' := "{" +:+ t in
      match unmarshal_map res' with
      | None => (res', false)
      | Some sr => match jget "exitCode" sr with
                   | JNum lit => (res', float_zero lit)
                   | _ => (res', false)
                   end
      end
  end.

Definition ExecOsAgentScript (os : OS) (sh : shell) (script args : string) : string * bool :=
  let '(res, errMsg, ok) := ExecScript os sh script args in
  if ok : bool then handleOsAgentResult res else (res +:+ " " +:+ errMsg, false).

(** ** signal.go *)

Inductive Signal := SIGINT | SIGTERM | SIGQUIT.

(** [Hold]: for each signal received, the hooks shut down (a nil hook is
    skipped); the call returns after the first SIGINT or SIGTERM.  The trace
    lists the hooks run; the flag says whether the call has returned. *)
Definition runHooks {H} (hooks : list (option H)) : list H := omap id hooks.
Fixpoint Hold {H} (hooks : list (option H)) (sig : list Signal) : list H * bool :=
  match sig with
  | [] => ([], false)
  | SIGQUIT :: sig' => let '(t, r) := Hold hooks sig' in (runHooks hooks ++ t, r)
  | _ :: _ => (runHooks hooks, true)
  end.

(** ** Signatures *)

Lemma hex_Sum256_length d : String.length (hex (Sum256 d)) = 64%nat.
Proof. by rewrite length_hex, length_Sum256. Qed.

Lemma Sign_eq k1 k2 d1 d2 :
  Sign k1 d1 = Sign k2 d2 <->
  Sum256 (d1 +:+ k1.(localSecureKey)) = Sum256 (d2 +:+ k2.(localSecureKey)).
Proof.
  unfold Sign. split; intros H; [|by rewrite H].
  apply hex_inj, b64_inj; [by rewrite !hex_Sum256_length|done].
Qed.

Lemma Auth_Sign k d : Auth k (Sign k d) d = true.
Proof. unfold Auth. by rewrite eqb_refl_s. Qed.

Lemma Auth_true k s d : Auth k s d = true <-> s = Sign k d.
Proof.
  unfold Auth. destruct (eqb_spec_s (Sign k d) s); simpl; naive_solver.
Qed.

(** ** The application record *)

Lemma strip_left_keep r b l : IsSpace r = false -> strip_left ((r, b) :: l) = (r, b) :: l.
Proof. intros H. simpl. by rewrite H. Qed.

(** The last rune, if any, is not a space. *)
Definition ends_tidy (s : string) : Prop :=
  match last (runes s) with Some (r, _) => IsSpace r = false | None => True end.

(** A text that starts and ends with a visible character, with a newline
    behind it. *)
Lemma TrimSpace_line r b l s :
  runes s = (r, b) :: l -> IsSpace r = false -> ends_tidy s ->
  TrimSpace (s +:+ newline) = s.
Proof.
  intros Hs Hr He. unfold TrimSpace, newline, ends_tidy in *.
  rewrite runes_app by (by vm_compute). rewrite Hs in *.
  rewrite <-app_comm_cons, strip_left_keep by done.
  rewrite app_comm_cons, reverse_app.
  change (reverse (runes (String (chr 10) ""))) with [(10, String (chr 10) "")].
  cbn [app strip_left]. change (IsSpace 10) with true. cbn match.
  destruct (exists_last (l := (r, b) :: l)) as (l' & [r' b'] & E); [done|].
  rewrite E in *. rewrite last_snoc in He.
  rewrite reverse_snoc, strip_left_keep, <-reverse_snoc, reverse_involutive by done.
  rewrite <-Hs. apply bytes_runes.
Qed.

Lemma last_app_cons {A} (l l' : list A) x : last (l ++ x :: l') = last (x :: l').
Proof.
  induction l as [|y l IH]; [done|]. rewrite <-app_comm_cons, <-IH. by destruct l.
Qed.

Lemma ends_tidy_app s c t : ord c < 128 -> IsSpace (ord c) = false -> ends_tidy t ->
  ends_tidy (s +:+ String c t).
Proof.
  intros Hc Hs Ht. unfold ends_tidy in *.
  rewrite runes_app, runes_ascii by done. rewrite last_app_cons.
  destruct (runes t); [done|]. by rewrite last_cons_cons.
Qed.

Definition record_text (flip : bool) (i g : string) : string :=
  Join (order2 flip (AppInstanceKeyName +:+ "=" +:+ i) (AppGroupKeyName +:+ "=" +:+ g)) newline
  +:+ newline.

Lemma Record_content AppFile flip os i g os' :
  RecordApplicationToFile AppFile flip os i g true = (os', None) ->
  os'.(files) !! AppFile = Some (record_text flip i g).
Proof.
  unfold RecordApplicationToFile, RecordMapToFile, order2. intros H.
  destruct flip; cbn [writeEntries] in H; destruct (open_err os AppFile); try done;
    repeat (case_match; simplify_eq); simpl; rewrite lookup_insert_eq; f_equal;
    unfold overwrite, record_text, entryText, order2, Delimiter; cbn [Join fst snd];
    by rewrite drop_nil_s, ?app_nil_r_s, ?app_assoc_s.
Qed.

(** Reading back a fresh record: values without line breaks, and without
    trailing white space, which [TrimSpace] would take off the last line. *)
Lemma readLines_record flip i g :
  ~ In_s (chr 10) i -> ~ In_s (chr 10) g -> ends_tidy i -> ends_tidy g ->
  readLines (Split (TrimSpace (record_text flip i g)) newline) ("", "") = (i, g).
Proof.
  intros Hi Hg Ti Tg. unfold record_text, order2.
  assert (Hkey : forall k v, k = AppInstanceKeyName \/ k = AppGroupKeyName ->
            ~ In_s (chr 10) v -> ~ In_s (chr 10) (k +:+ "=" +:+ v)).
  { intros k v Hk Hv. rewrite !In_app_s. vm_compute in Hk.
    destruct Hk as [-> | ->]; vm_compute; vm_compute in Hv; intuition congruence. }
  assert (Hsplit : forall k v, k = AppInstanceKeyName \/ k = AppGroupKeyName ->
            SplitN (k +:+ "=" +:+ v) Delimiter 2 = [k; v]).
  { intros k v Hk. apply (SplitN2_char "="%char k v).
    destruct Hk as [-> | ->]; vm_compute; intuition congruence. }
  assert (Hend : forall a k v, ends_tidy v -> ends_tidy (a +:+ newline +:+ k +:+ "=" +:+ v)).
  { intros a k v Hv. replace (a +:+ newline +:+ k +:+ "=" +:+ v)
      with ((a +:+ newline +:+ k) +:+ String "="%char v) by (by rewrite !app_assoc_s).
    by apply ends_tidy_app. }
  destruct flip; cbn [Join].
  all: erewrite TrimSpace_line;
    [| rewrite app_assoc_s; unfold AppGroupKeyName, AppInstanceKeyName;
       rewrite app_cons_s, runes_ascii by done; reflexivity
     | reflexivity
     | by apply Hend].
  all: unfold newline; rewrite (app_cons_s (chr 10)), app_nil_l_s, Split_char_cons, Split_char_single
    by (apply Hkey; auto).
  all: cbn [readLines]; rewrite !Hsplit by auto; reflexivity.
Qed.


Lemma read_record AppFile flip (os : OS) i g :
  ~ In_s (chr 10) i -> ~ In_s (chr 10) g -> ends_tidy i -> ends_tidy g ->
  os.(files) !! AppFile = Some (record_text flip i g) ->
  ReadAppInfoFromFile AppFile os = Ok (i, g).
Proof.
  intros Hi Hg Ti Tg H. unfold ReadAppInfoFromFile. rewrite H.
  pose proof (readLines_record flip i g Hi Hg Ti Tg) as Hr.
  destruct (Split _ newline) eqn:E; [|by rewrite Hr].
  by apply split_go_nonempty in E.
Qed.

(** ** Properties *)

(** What [RecordApplicationToFile] writes, [ReadAppInfoFromFile] reads
    back, whichever way the map literal is iterated and whatever the file
    held before, for values without line breaks and without white space at
    their end. *)
Theorem application_record_roundtrip AppFile flip os i g os' :
  ~ In_s (chr 10) i -> ~ In_s (chr 10) g -> ends_tidy i -> ends_tidy g ->
  RecordApplicationToFile AppFile flip os i g true = (os', None) ->
  ReadAppInfoFromFile AppFile os' = Ok (i, g).
Proof. intros Hi Hg Ti Tg H. eapply read_record; eauto using Record_content. Qed.

Definition demo_os : OS := mkOS (<["f" := "old"]> ∅) (fun _ => None) (fun _ _ => None).

Lemma application_record_roundtrip_witness :
  ReadAppInfoFromFile "f" (RecordApplicationToFile "f" true demo_os "shop=eu" "" true).1
  = Ok ("shop=eu", "").
Proof.
  apply (application_record_roundtrip "f" true demo_os "shop=eu" "").
  - vm_compute. intuition congruence.
  - vm_compute. intuition congruence.
  - vm_compute. reflexivity.
  - vm_compute. exact I.
  - reflexivity.
Defined.

(** A restart with default flags: [InitApplicationInfo] finds the recorded
    names [(i, g)], but they only reach its parameters.  The file system and
    the options are what they were, so the agent goes on under the default
    names. *)
Theorem InitApplicationInfo_drops_record AppFile flip flip' os o i g :
  ~ In_s (chr 10) i -> ~ In_s (chr 10) g -> ends_tidy i -> ends_tidy g -> i <> "" -> g <> "" ->
  os.(files) !! AppFile = Some (record_text flip i g) ->
  o.(ApplicationInstance) = DefaultApplicationInstance ->
  o.(ApplicationGroup) = DefaultApplicationGroup ->
  InitApplicationInfo AppFile flip' os o o.(ApplicationInstance) o.(ApplicationGroup) = (os, o, (i, g)).
Proof.
  intros Hi Hg Ti Tg Ni Ng Hf -> ->. unfold InitApplicationInfo, IsExist.
  rewrite bool_decide_true by (rewrite Hf; eauto). rewrite !eqb_refl_s. cbn [andb].
  rewrite (read_record _ _ _ i g Hi Hg Ti Tg Hf).
  apply eqb_false_s in Ni as ->, Ng as ->. done.
Qed.

Lemma InitApplicationInfo_drops_record_witness :
  InitApplicationInfo "f" false (RecordApplicationToFile "f" false demo_os "shop" "eu" true).1
    AddFlags AddFlags.(ApplicationInstance) AddFlags.(ApplicationGroup)
  = ((RecordApplicationToFile "f" false demo_os "shop" "eu" true).1, AddFlags, ("shop", "eu")).
Proof.
  apply (InitApplicationInfo_drops_record "f" false); try done;
    [vm_compute; intuition congruence | vm_compute; intuition congruence].
Defined.
End Tools.
