(* ===== verification/Transport.v ===== *)
(** * transport: requests, responses, interceptors and the client *)

From S2P Require Import Prelude GoStrings Hash Json JsonFacts Options Tools.
Local Open Scope Z_scope.

Module Transport.
Import Options Tools.

(** ** response.go *)

(** [Result] is an [interface{}]: nil is [JNull]. *)
Record Response := mkResponse {
  Code : Z;
  Success : bool;
  Error : string;
  Result : json
}.

Definition OK : Z := 200.
Definition InvalidTimestamp : Z := 401.
Definition Forbidden : Z := 403.
Definition HandlerNotFound : Z := 404.
Definition TokenNotFound : Z := 405.
Definition ParameterEmpty : Z := 406.
Definition ParameterLess : Z := 407.
Definition ParameterTypeError : Z := 408.
Definition ServerError : Z := 500.
Definition ServiceNotOpened : Z := 501.
Definition ServiceNotAuthorized : Z := 502.
Definition EncodeError : Z := 503.
Definition ServiceSwitchError : Z := 504.
Definition HandlerClosed : Z := 505.
Definition ServiceNotSupport : Z := 506.
Definition CtlFileNotFound : Z := 507.
Definition CtlExecFailed : Z := 508.
Definition ChaosbladeFileNotFound : Z := 600.
Definition ResultUnmarshalFailed : Z := 601.
Definition Helm3ExecError : Z := 602.

Definition Errors : gmap Z string := list_to_map [
  (OK, "success");
  (InvalidTimestamp, "invalid timestamp");
  (Forbidden, "forbidden, err: %s");
  (HandlerNotFound, "request handler not found");
  (TokenNotFound, "access token not found");
  (ParameterEmpty, "`%s`: parameter is empty");
  (ParameterLess, "`%s`: parameter less");
  (ParameterTypeError, "`%s` parameter data error");
  (ServerError, "server error, err: %s");
  (ServiceNotOpened, "chaos service not opened");
  (ServiceNotAuthorized, "chaos service not authorized");
  (EncodeError, "encode error, err: %s");
  (ServiceSwitchError, "service switch error, err: %s");
  (HandlerClosed, "service handler closed");
  (ServiceNotSupport, "service not support: %s");
  (CtlFileNotFound, "`%s`: ctl file not found");
  (CtlExecFailed, "exec ctl file failed: %s");
  (ChaosbladeFileNotFound, BladeBinPath +:+ ", chaosblade file not found");
  (ResultUnmarshalFailed, "`%s`: exec result unmarshal failed, err: %s");
  (Helm3ExecError, "helm3 exec error, err: %s")].

(** [fmt.Sprintf] for formats whose only verb is [%s].  An argument is a
    string or, as in [ReturnFail], a whole [[]interface{}] of strings. *)
Inductive fmtArg := AStr (s : string) | ASlice (l : list string).
Definition fmtText (a : fmtArg) : string :=
  match a with AStr s => s | ASlice l => "[" +:+ Join l " " +:+ "]" end.
Definition fmtType (a : fmtArg) : string :=
  match a with AStr _ => "string" | ASlice _ => "[]interface {}" end.
Definition fmtExtra (args : list fmtArg) : string :=
  match args with
  | [] => ""
  | _ => "%!(EXTRA " +:+ Join (map (fun a => fmtType a +:+ "=" +:+ fmtText a) args) ", " +:+ ")"
  end.
Fixpoint Sprintf (format : string) (args : list fmtArg) : string :=
  match format with
  | "" => fmtExtra args
  | String "%"%char (String "s"%char format') =>
      match args with
      | a :: args' => fmtText a +:+ Sprintf format' args'
      | [] => "%!s(MISSING)" +:+ Sprintf format' []
      end
  | String c format' => String c (Sprintf format' args)
  end.

(** The variadic [args] is handed to [Sprintf] as one value. *)
Definition ReturnFail (errCode : Z) (args : list string) : Response :=
  mkResponse errCode false (Sprintf (default "" (Errors !! errCode)) [ASlice args]) JNull.

Definition ReturnSuccess : Response := mkResponse OK true "" (JStr "success").
Definition ReturnSuccessWithResult (result : json) : Response := mkResponse OK true "" result.

(** [json.Marshal] of a response, the keys of decoded objects in order.  A
    number decoded earlier is kept as it was written; Go writes the float64
    of the same value. *)
Fixpoint canon (j : json) : json :=
  match j with
  | JArr l => JArr (map canon l)
  | JObj l => JObj (sorted_entries (list_to_map (reverse (map (fun kv => (kv.1, canon kv.2)) l))))
  | _ => j
  end.
Definition responseFields (r : Response) : list (string * json) :=
  [("Code", JNum (FormatInt r.(Code))); ("Success", JBool r.(Success));
   ("Error", JStr r.(Error)); ("Result", canon r.(Result))].
Definition marshalResponse (r : Response) : string := encode (JObj (responseFields r)).

(** [json.Unmarshal] into a [Response]: keys match field names up to case,
    null leaves a field as it is, a value of another type is an error. *)
Definition int32_ok (z : Z) : bool := (- 2 ^ 31 <=? z) && (z <=? 2 ^ 31 - 1).
Definition decodeField (kv : string * json) (r : Response) : option Response :=
  let '(k, v) := kv in
  if EqualFold k "Code" then
    match v with
    | JNum lit => match ParseInt lit with
                  | Some z => if int32_ok z then Some (mkResponse z r.(Success) r.(Error) r.(Result)) else None
                  | None => None
                  end
    | JNull => Some r
    | _ => None
    end
  else if EqualFold k "Success" then
    match v with
    | JBool b => Some (mkResponse r.(Code) b r.(Error) r.(Result))
    | JNull => Some r
    | _ => None
    end
  else if EqualFold k "Error" then
    match v with
    | JStr s => Some (mkResponse r.(Code) r.(Success) s r.(Result))
    | JNull => Some r
    | _ => None
    end
  else if EqualFold k "Result" then
    if ifc_ok v then Some (mkResponse r.(Code) r.(Success) r.(Error) v) else None
  else Some r.

Fixpoint decodeResponse (l : list (string * json)) (r : Response) : option Response :=
  match l with
  | [] => Some r
  | kv :: l' => r' ← decodeField kv r; decodeResponse l' r'
  end.

Definition zeroResponse : Response := mkResponse 0 false "" JNull.

Definition unmarshalResponse (data : string) : option Response :=
  match parse data with
  | Some (JObj l) => decodeResponse l zeroResponse
  | Some JNull => Some zeroResponse
  | _ => None
  end.

(** ** request.go *)

Record Request := mkRequest {
  Headers : gmap string string;
  Params : gmap string string
}.

(** [m[k]] on a Go map of strings. *)
Definition get (m : gmap string string) (k : string) : string := default "" (m !! k).

Definition AddHeader (request : Request) (key value : string) : Request :=
  if key ==s "" then request
  else mkRequest (<[key := value]> request.(Headers)) request.(Params).
Definition AddParam (request : Request) (key value : string) : Request :=
  if key ==s "" then request
  else mkRequest request.(Headers) (<[key := value]> request.(Params)).

Definition FromHeader := "FR".
Definition Client := "C".
Definition Cid := "cid".
Definition Pid := "pid".
Definition Uid := "uid".

Definition NewRequest (o : Options) : Request :=
  let r := mkRequest ∅ ∅ in
  let r := AddHeader r FromHeader Client in
  let r := AddHeader r Pid o.(Options.Pid) in
  let r := AddHeader r Uid o.(Options.Uid) in
  let r := if o.(Options.Cid) ==s "" then r else AddHeader r Cid o.(Options.Cid) in
  let r := AddHeader r "type" ProgramName in
  let r := AddHeader r "v" o.(Version) in
  let r := AddHeader r "cbv" o.(ChaosbladeVersion) in
  AddParam r "port" o.(Port).

(** Headers first, then parameters over them. *)
Definition GetBody (request : Request) : gmap string string :=
  request.(Params) ∪ request.(Headers).

Record Uri := mkUri {
  ServerName : string;
  HandlerName : string;
  uri_VpcId : string;
  uri_Ip : string;
  uri_Pid : string;
  Tag : string;
  RequestId : string;
  CompressVersion : string
}.

Definition NoCompress : Z := 1.
Definition AllCompress : Z := 2.

Definition NewUri (o : Options) (serverName handlerName : string) : Uri :=
  {| ServerName := serverName; HandlerName := handlerName; uri_VpcId := o.(VpcId);
     uri_Ip := o.(Ip); uri_Pid := o.(Options.Pid); Tag := ProgramName; RequestId := "";
     CompressVersion := FormatInt NoCompress |}.

Definition zeroUri : Uri := mkUri "" "" "" "" "" "" "" "".

Definition Chaos := "Chaos".
Definition HttpHandlerRegister := "chaos/AgentRegister".
Definition HttpHandlerHeartbeat := "chaos/AgentHeartBeat".
Definition HttpHandlerClose := "chaos/AgentClosed".
Definition MKChaosbladeAsync := "chaos/chaosbladeAsync".
Definition HttpHandlerJavaAgentInstall := "chaos/javaAgentInstall".
Definition HttpHandlerJavaAgentUninstall := "chaos/javaAgentUninstall".
Definition HttpHandlerK8sPod := "chaos/k8sPod".
Definition API_REGISTRY := "registry".
Definition API_HEARTBEAT := "heartbeat".
Definition API_CLOSE := "close".
Definition API_METRIC := "metric".
Definition API_CHAOSBLADE_ASYNC := "chaosbladeAsync".
Definition API_JAVA_INSTALL := "javaInstall".
Definition API_JAVA_UNINSTALL := "javaUninstall".
Definition API_K8S_POD := "k8sPod".
Definition API_K8S_VIRTUAL_NODE := "k8sVirtualNode".
Definition API_K8S_NODE := "k8sNode".
Definition API_K8S_NAMESPACE := "k8sNamespace".
Definition API_K8S_SERVICE := "k8sService".
Definition API_K8S_DEPLOYMNT := "k8sDeployment".
Definition API_K8S_REPLICASET := "k8sReplicaset".
Definition API_K8S_INGRESS := "k8sIgress".
Definition API_K8S_DAEMONSET := "k8sDaemonset".
Definition API_EVENT := "event".
Definition API_UPGRADE_CALLBACK := "upgradeCallback".

(** transport.go [InitTransprotUri]. *)
Definition InitTransprotUri (o : Options) : gmap string Uri :=
  let m := <[API_REGISTRY := NewUri o Chaos HttpHandlerRegister]> ∅ in
  let m := <[API_HEARTBEAT := NewUri o Chaos HttpHandlerHeartbeat]> m in
  let m := <[API_CLOSE := NewUri o Chaos HttpHandlerClose]> m in
  let m := <[API_CHAOSBLADE_ASYNC := NewUri o Chaos MKChaosbladeAsync]> m in
  let m := <[API_JAVA_INSTALL := NewUri o Chaos HttpHandlerJavaAgentInstall]> m in
  let m := <[API_JAVA_UNINSTALL := NewUri o Chaos HttpHandlerJavaAgentUninstall]> m in
  <[API_K8S_POD := NewUri o Chaos HttpHandlerK8sPod]> m.

(** [json.Marshal] of a request and of its parameters. *)
Definition marshalRequest (r : Request) : string :=
  encode (JObj [("headers", of_smap r.(Headers)); ("params", of_smap r.(Params))]).
Definition marshalParams (r : Request) : string := encode (of_smap r.(Params)).

(** [json.Unmarshal] into a zero [Request]; a repeated key adds to the map it
    already filled, null empties it. *)
Definition decodeMapField (v : json) (m : gmap string string) : option (gmap string string) :=
  match v with JObj l => decode_smap l m | JNull => Some ∅ | _ => None end.
Fixpoint decodeRequest (l : list (string * json)) (r : Request) : option Request :=
  match l with
  | [] => Some r
  | (k, v) :: l' =>
      if EqualFold k "headers" then
        m ← decodeMapField v r.(Headers); decodeRequest l' (mkRequest m r.(Params))
      else if EqualFold k "params" then
        m ← decodeMapField v r.(Params); decodeRequest l' (mkRequest r.(Headers) m)
      else decodeRequest l' r
  end.
(** A member that is missing or null leaves Go's nil map, which reads like the
    empty one; only printing it would differ, and the parameters are printed
    after the timestamp was found among them. *)
Definition unmarshalRequest (data : string) : option Request :=
  match parse data with
  | Some (JObj l) => decodeRequest l (mkRequest ∅ ∅)
  | Some JNull => Some (mkRequest ∅ ∅)
  | _ => None
  end.

(** ** interceptor.go *)

Definition SignData := "sd".
Definition AccessKey := "ak".
Definition SignKey := "sn".
Definition TimestampKey := "ts".

(** [getCurrentTimeInMillis], from [time.Now().UnixNano()]. *)
Definition getCurrentTimeInMillis (unixNano : Z) : Z := Z.quot unixNano 1000.

(** What [doHandler] answers: [None] for [(nil, true)], the failing response
    for [(response, false)].  [Marshal] of a string map does not fail. *)
Definition auth_doHandler (k : Keys) (request : Request) : option Response :=
  let sign := get request.(Headers) SignKey in
  if sign ==s "" then Some (ReturnFail Forbidden ["missing sign"])
  else
    let accessKey := get request.(Headers) AccessKey in
    if negb (accessKey ==s "") && negb (accessKey ==s GetAccessKey k)
    then Some (ReturnFail Forbidden ["accessKey not matched"])
    else
      let signData := get request.(Headers) SignData in
      let signData := if signData ==s "" then marshalParams request else signData in
      if negb (Auth k sign signData) then Some (ReturnFail Forbidden ["illegal request"])
      else None.

Definition auth_doInvoker (k : Keys) (request : Request) : Request * option Response :=
  let accessKey := GetAccessKey k in
  let secureKey := GetSecureKey k in
  if (accessKey ==s "") || (secureKey ==s "") then (request, Some (ReturnFail TokenNotFound []))
  else
    let request := AddHeader request AccessKey accessKey in
    let signData := get request.(Headers) SignData in
    let signData := if signData ==s "" then marshalParams request else signData in
    let sign := Sign k signData in
    (AddHeader request SignKey sign, None).

Definition timestamp_doHandler (request : Request) : option Response :=
  let requestTime := get request.(Params) TimestampKey in
  if requestTime ==s "" then Some (ReturnFail InvalidTimestamp [])
  else match ParseInt requestTime with
       | None => Some (ReturnFail InvalidTimestamp [])
       | Some _ => None
       end.

Definition timestamp_doInvoker (now : Z) (request : Request) : Request * option Response :=
  (AddParam request TimestampKey (FormatInt (getCurrentTimeInMillis now)), None).

(** An interceptor object: which [doRequestInterceptor] it carries, and the
    next one of the chain. *)
Inductive Interceptor :=
| authInterceptor (chain : option Interceptor)
| timestampInterceptor (chain : option Interceptor).

(** What the interceptors read from the process: the keys and the clock. *)
Record Env := mkEnv { keys : Keys; now : Z; uuid : string }.

Definition doHandler (i : Interceptor) (e : Env) (r : Request) : option Response :=
  match i with
  | authInterceptor _ => auth_doHandler e.(keys) r
  | timestampInterceptor _ => timestamp_doHandler r
  end.
Definition doInvoker (i : Interceptor) (e : Env) (r : Request) : Request * option Response :=
  match i with
  | authInterceptor _ => auth_doInvoker e.(keys) r
  | timestampInterceptor _ => timestamp_doInvoker e.(now) r
  end.

(** [requestInterceptorChain.Handle] and [.Invoke]. *)
Fixpoint Handle (i : Interceptor) (e : Env) (request : Request) : option Response :=
  match doHandler i e request with
  | Some response => Some response
  | None =>
      match i with
      | authInterceptor (Some c) | timestampInterceptor (Some c) => Handle c e request
      | _ => None
      end
  end.
Fixpoint InvokeChain (i : Interceptor) (e : Env) (request : Request) : Request * option Response :=
  match doInvoker i e request with
  | (request, Some response) => (request, Some response)
  | (request, None) =>
      match i with
      | authInterceptor (Some c) | timestampInterceptor (Some c) => InvokeChain c e request
      | _ => (request, None)
      end
  end.

(** ** transport.go *)

Definition BuildInterceptor : Interceptor :=
  timestampInterceptor (Some (authInterceptor None)).

(** The interface a channel to the server implements. *)
Class TransportChannel (C : Type) := DoInvoker : C -> Uri -> string -> result string.

(** [TransportClient.Invoke]: the request as it is afterwards, the response
    and the error, as the two values of the Go call. *)
Definition Invoke {C} `{TransportChannel C} (channel : C) (e : Env) (uri : Uri)
    (request : Request) (needInterceptor : bool) : Request * option Response * option string :=
  let '(request, rejected) :=
    if needInterceptor then InvokeChain BuildInterceptor e request else (request, None) in
  match rejected with
  | Some response => (request, Some response, Some response.(Error))
  | None =>
      let requestId := e.(uuid) in
      let request := AddHeader request "rid" requestId in
      let uri := mkUri uri.(ServerName) uri.(HandlerName) uri.(uri_VpcId) uri.(uri_Ip) uri.(uri_Pid)
                   uri.(Tag) requestId uri.(CompressVersion) in
      match DoInvoker channel uri (marshalRequest request) with
      | Err err => (request, None, Some err)
      | Ok res =>
          match unmarshalResponse res with
          | None => (request, None, Some "invalid response")
          | Some response => (request, Some response, None)
          end
      end
  end.

(** ** Requests and responses on the wire *)

Definition valid_request (r : Request) : Prop :=
  valid_smap r.(Headers) /\ valid_smap r.(Params).

Lemma jdepth_pair a b : jdepth a <= 1 -> jdepth b <= 1 ->
  jdepth (JObj [("headers", a); ("params", b)]) <= maxNestingDepth.
Proof. unfold maxNestingDepth. cbn [jdepth foldr snd]. lia. Qed.

Lemma request_wire r : valid_request r -> unmarshalRequest (marshalRequest r) = Some r.
Proof.
  destruct r as [h p]. intros [Hh Hp]. unfold unmarshalRequest, marshalRequest.
  rewrite parse_encode.
  - unfold of_smap. cbn [decodeRequest Headers Params].
    change (EqualFold "headers" "headers") with true.
    change (EqualFold "params" "headers") with false.
    change (EqualFold "params" "params") with true. cbn [decodeMapField].
    rewrite decode_of_smap. cbn [mbind option_bind Params]. by rewrite decode_of_smap.
  - cbn [wf_json foldr fst snd]. repeat split; try done; by apply wf_of_smap.
  - apply jdepth_pair; apply depth_of_smap.
Qed.

(** A response whose fields survive the encoding. *)
Definition portable (r : Response) : Prop :=
  int32_ok r.(Code) = true /\ valid_utf8 r.(Error) = true /\ wf_json r.(Result) /\
  jdepth r.(Result) < maxNestingDepth /\ canon r.(Result) = r.(Result) /\ ifc_ok r.(Result) = true.

Lemma responseFields_ok r : portable r ->
  wf_json (JObj (responseFields r)) /\ jdepth (JObj (responseFields r)) <= maxNestingDepth /\
  decodeResponse (responseFields r) zeroResponse = Some r.
Proof.
  destruct r as [c s e j]. intros (Hc & He & Hj & Hd & Hcan & Hi). cbn [Code Error Result] in *.
  unfold responseFields. cbn [Code Success Error Result]. rewrite Hcan. split; [|split].
  - cbn [wf_json foldr fst snd]. pose proof (num_ok_FormatInt c). tauto.
  - unfold maxNestingDepth in *. cbn [jdepth foldr snd]. lia.
  - cbn [decodeResponse decodeField].
    change (EqualFold "Code" "Code") with true.
    change (EqualFold "Success" "Code") with false.
    change (EqualFold "Success" "Success") with true.
    change (EqualFold "Error" "Code") with false.
    change (EqualFold "Error" "Success") with false.
    change (EqualFold "Error" "Error") with true.
    change (EqualFold "Result" "Code") with false.
    change (EqualFold "Result" "Success") with false.
    change (EqualFold "Result" "Error") with false.
    change (EqualFold "Result" "Result") with true.
    rewrite ParseInt_FormatInt
      by (unfold int32_ok in Hc; bools; unfold int64_min, int64_max; lia).
    rewrite Hc. cbn [mbind option_bind Code Success Error Result]. by rewrite Hi.
Qed.

Lemma response_wire r : portable r -> unmarshalResponse (marshalResponse r) = Some r.
Proof.
  intros H. apply responseFields_ok in H as (Hw & Hd & Hr).
  unfold unmarshalResponse, marshalResponse. by rewrite parse_encode.
Qed.

(** What is decoded from text that stands in front of a marshalled response
    and holds no brace. *)
Lemma response_noise noise r : portable r -> ~ In_s "{"%char noise ->
  unmarshalResponse (noise +:+ marshalResponse r) = if blank noise then Some r else None.
Proof.
  intros H Hn. apply responseFields_ok in H as (Hw & Hd & Hr).
  unfold unmarshalResponse, marshalResponse. destruct (blank noise) eqn:Hb.
  - by rewrite parse_blank.
  - destruct (parse _) as [j|] eqn:Ep; [|done].
    assert (exists t, encode (JObj (responseFields r)) = String "{"%char t) as [t Et].
    { cbn [encode]. rewrite app_cons_s. eauto. }
    rewrite Et in Ep. apply parse_struct_blank in Ep; [|done]. destruct j; try done. congruence.
Qed.

(** ** The interceptors *)

Lemma get_insert m k v : get (<[k := v]> m) k = v.
Proof. unfold get. by rewrite lookup_insert_eq. Qed.
Lemma get_insert_ne m k k' v : k <> k' -> get (<[k := v]> m) k' = get m k'.
Proof. intros H. unfold get. by rewrite lookup_insert_ne. Qed.

Lemma AddHeader_ne r k v : k <> "" -> AddHeader r k v = mkRequest (<[k := v]> r.(Headers)) r.(Params).
Proof. intros H. unfold AddHeader. by apply eqb_false_s in H as ->. Qed.

Lemma Sign_length k d : String.length (Sign k d) = 88%nat.
Proof. unfold Sign. by rewrite length_b64, hex_Sum256_length. Qed.

Lemma Sign_nonempty k d : (Sign k d ==s "") = false.
Proof.
  apply eqb_false_s. intros H. pose proof (Sign_length k d) as L. by rewrite H in L.
Qed.

Lemma FormatInt_nonempty i : (FormatInt i ==s "") = false.
Proof.
  destruct (num_ok_FormatInt i) as [(c & t & -> & _) _]. done.
Qed.

(** What is signed: the [sd] header, or the parameters when it is empty. *)
Definition signedText (r : Request) : string :=
  if get r.(Headers) SignData ==s "" then marshalParams r else get r.(Headers) SignData.

Lemma signedText_AddHeader r k v : k <> "" -> k <> SignData ->
  signedText (AddHeader r k v) = signedText r.
Proof.
  intros H H'. rewrite AddHeader_ne by done. unfold signedText. cbn [Headers].
  rewrite get_insert_ne by done. done.
Qed.

(** The condition under which the chain lets a request through. *)
Definition accepted (k : Keys) (r : Request) : Prop :=
  is_Some (ParseInt (get r.(Params) TimestampKey)) /\
  (get r.(Headers) AccessKey = "" \/ get r.(Headers) AccessKey = k.(localAccessKey)) /\
  get r.(Headers) SignKey = Sign k (signedText r).

Lemma timestamp_ok r : timestamp_doHandler r = None <-> is_Some (ParseInt (get r.(Params) TimestampKey)).
Proof.
  unfold timestamp_doHandler. destruct (eqb_spec_s (get (Params r) TimestampKey) "") as [->|].
  - split; [done|]. by intros [? ?].
  - destruct (ParseInt _); split; naive_solver.
Qed.

Lemma auth_ok k r : auth_doHandler k r = None <->
  (get r.(Headers) AccessKey = "" \/ get r.(Headers) AccessKey = k.(localAccessKey)) /\
  get r.(Headers) SignKey = Sign k (signedText r).
Proof.
  unfold auth_doHandler. fold (signedText r). pose proof (Sign_nonempty k (signedText r)) as Hs.
  destruct (eqb_spec_s (get (Headers r) SignKey) "") as [E|_].
  { rewrite E. split; [done|]. intros [_ H]. by rewrite <-H in Hs. }
  destruct (eqb_spec_s (get (Headers r) AccessKey) "") as [->|]; simpl.
  - destruct (Auth k _ _) eqn:EA; simpl.
    + apply Auth_true in EA. naive_solver.
    + split; [done|]. intros [_ H]. rewrite H, Auth_Sign in EA. done.
  - unfold GetAccessKey. destruct (eqb_spec_s (get (Headers r) AccessKey) (localAccessKey k)); simpl.
    + destruct (Auth k _ _) eqn:EA; simpl.
      * apply Auth_true in EA. naive_solver.
      * split; [done|]. intros [_ H]. rewrite H, Auth_Sign in EA. done.
    + naive_solver.
Qed.

Lemma Handle_chain e r : Handle BuildInterceptor e r = None <->
  timestamp_doHandler r = None /\ auth_doHandler e.(keys) r = None.
Proof.
  unfold BuildInterceptor. cbn [Handle doHandler].
  destruct (timestamp_doHandler r); [naive_solver|]. destruct (auth_doHandler _ r); naive_solver.
Qed.

Lemma Handle_accepted e r : Handle BuildInterceptor e r = None <-> accepted e.(keys) r.
Proof. rewrite Handle_chain, timestamp_ok, auth_ok. done. Qed.

(** The request after the client side of the chain. *)
Definition signedRequest (e : Env) (r : Request) : Request :=
  let r := AddParam r TimestampKey (FormatInt (getCurrentTimeInMillis e.(now))) in
  let r := AddHeader r AccessKey e.(keys).(localAccessKey) in
  AddHeader r SignKey (Sign e.(keys) (signedText r)).

Definition has_keys (e : Env) : Prop :=
  e.(keys).(localAccessKey) <> "" /\ e.(keys).(localSecureKey) <> "".

Lemma InvokeChain_signed e r : has_keys e ->
  InvokeChain BuildInterceptor e r = (signedRequest e r, None).
Proof.
  intros [Ha Hs]. unfold BuildInterceptor. cbn [InvokeChain doInvoker timestamp_doInvoker].
  unfold auth_doInvoker, GetAccessKey, GetSecureKey.
  apply eqb_false_s in Ha as ->, Hs as ->. done.
Qed.

Definition int64_ok (z : Z) : Prop := int64_min <= z <= int64_max.

Lemma micros_int64 z : int64_ok z -> int64_ok (getCurrentTimeInMillis z).
Proof.
  unfold int64_ok, getCurrentTimeInMillis, int64_min, int64_max. intros H.
  Z.quot_rem_to_equations. lia.
Qed.

Lemma signedRequest_accepted e r k v : int64_ok e.(now) ->
  k ∉ [""; SignData; AccessKey; SignKey] ->
  accepted e.(keys) (AddHeader (signedRequest e r) k v).
Proof.
  intros Hn Hk. apply micros_int64 in Hn.
  assert (k <> "" /\ k <> SignData /\ k <> AccessKey /\ k <> SignKey) as (H0 & H1 & H2 & H3)
    by (repeat split; intros ->; apply Hk; set_solver).
  unfold accepted. rewrite signedText_AddHeader by done. rewrite AddHeader_ne by done.
  unfold signedRequest. cbn [Params Headers].
  rewrite !signedText_AddHeader by done. rewrite !AddHeader_ne by done. cbn [Params Headers].
  change (AddParam r TimestampKey ?t) with (mkRequest r.(Headers) (<[TimestampKey := t]> r.(Params))).
  cbn [Params Headers].
  rewrite get_insert, ParseInt_FormatInt by done.
  rewrite !(get_insert_ne _ k) by done. rewrite get_insert.
  rewrite get_insert_ne, get_insert by done. split; [eauto|]. split; [by right|done].
Qed.

Lemma signedRequest_Params e r :
  (signedRequest e r).(Params) = <[TimestampKey := FormatInt (getCurrentTimeInMillis e.(now))]> r.(Params).
Proof. unfold signedRequest. rewrite !AddHeader_ne by done. done. Qed.

Lemma AddHeader_valid r k v : valid_utf8 k = true -> valid_utf8 v = true ->
  valid_request r -> valid_request (AddHeader r k v).
Proof.
  intros Hk Hv [Hh Hp]. unfold AddHeader. case_match; [done|]. split; [|done].
  by apply valid_smap_insert.
Qed.

Lemma ord_chr_lt z : z < 128 -> (ord (chr z) <? 128) = true.
Proof.
  intros H. unfold chr, ord. rewrite N_ascii_embedding by lia. apply Z.ltb_lt. lia.
Qed.

Lemma b64digit_seven d : (ord (b64digit d) <? 128) = true.
Proof. unfold b64digit. repeat case_match; try done; apply ord_chr_lt; lia. Qed.

Lemma b64_seven s : seven_bit (b64_encode s) = true.
Proof.
  induction s as [s IH] using string_len_ind.
  destruct s as [|a [|b [|c s]]]; cbn [b64_encode seven_bit]; rewrite ?b64digit_seven; try done.
  apply IH. simpl. lia.
Qed.

Lemma Sign_valid k d : valid_utf8 (Sign k d) = true.
Proof. apply seven_bit_valid, b64_seven. Qed.
#[export] Hint Resolve AddHeader_valid Sign_valid : go.

Lemma signedRequest_valid e r : valid_utf8 e.(keys).(localAccessKey) = true ->
  valid_request r -> valid_request (signedRequest e r).
Proof.
  intros Hk [Hh Hp]. unfold signedRequest.
  apply AddHeader_valid; [done|apply Sign_valid|]. apply AddHeader_valid; [done..|].
  split; [done|]. apply valid_smap_insert; [done|apply FormatInt_valid|done].
Qed.

Lemma marshalParams_inj p q h h' : valid_smap p -> valid_smap q ->
  marshalParams (mkRequest h p) = marshalParams (mkRequest h' q) -> p = q.
Proof.
  unfold marshalParams. cbn [Params]. intros Hp Hq E.
  apply unmarshal_marshal_smap in Hp, Hq. rewrite E in Hp. congruence.
Qed.

(** ** Properties *)

(** C2. The interceptor chain lets a request through exactly when its [ts]
    parameter is a 64-bit integer, its access key is absent or the local one,
    and its signature is the one of the signed text; a request that is turned
    away gets code 401 when the timestamp is missing or malformed, and 403 in
    every other case. *)
Theorem Handle_decides e r :
  match Handle BuildInterceptor e r with
  | None => accepted e.(keys) r
  | Some response =>
      ~ accepted e.(keys) r /\ response.(Success) = false /\
      response.(Code) = if decide (is_Some (ParseInt (get r.(Params) TimestampKey)))
                        then Forbidden else InvalidTimestamp
  end.
Proof.
  pose proof (Handle_accepted e r) as Hacc. pose proof (timestamp_ok r) as Hts.
  destruct (Handle _ e r) as [resp|] eqn:E; [|by apply Hacc].
  split; [naive_solver|].
  unfold BuildInterceptor in E. cbn [Handle doHandler] in E.
  destruct (timestamp_doHandler r) as [tr|] eqn:Et.
  - rewrite decide_False by naive_solver. unfold timestamp_doHandler in Et.
    repeat case_match; simplify_eq; done.
  - rewrite decide_True by naive_solver. unfold auth_doHandler in E.
    repeat (case_match; simplify_eq; try done).
Qed.

(** C10. Changing the parameters under a signature: the new parameters are a
    different signed text, and the request still passes exactly when the two
    texts, each followed by the secure key, collide under SHA-256.  This is
    for a request without an [sd] header. *)
Theorem tampering_needs_collision e h p q :
  valid_smap p -> valid_smap q -> get h SignData = "" -> p <> q ->
  Handle BuildInterceptor e (mkRequest h p) = None ->
  is_Some (ParseInt (get q TimestampKey)) ->
  let d := marshalParams (mkRequest h p) in
  let d' := marshalParams (mkRequest h q) in
  d <> d' /\
  (Handle BuildInterceptor e (mkRequest h q) = None <->
   Sum256 (d +:+ e.(keys).(localSecureKey)) = Sum256 (d' +:+ e.(keys).(localSecureKey))).
Proof.
  intros Hp Hq Hsd Hne H1 Hts d d'. rewrite Handle_accepted in *.
  destruct H1 as (_ & Ha & H1). unfold accepted, signedText in *. cbn [Headers Params] in *.
  rewrite Hsd in *. cbn in H1. split.
  - intros E. by apply Hne, (marshalParams_inj p q h h).
  - rewrite <-Sign_eq, H1. fold d d'. cbn. naive_solver.
Qed.

(** C35. A request that carries an [sd] header is signed over that header
    only: once it is accepted, it is accepted with any other parameters that
    hold a well-formed timestamp. *)
Theorem sd_leaves_params_unsigned e h p q :
  get h SignData <> "" -> Handle BuildInterceptor e (mkRequest h p) = None ->
  is_Some (ParseInt (get q TimestampKey)) ->
  Handle BuildInterceptor e (mkRequest h q) = None.
Proof.
  intros Hsd H Hq. apply Handle_accepted in H as (_ & Ha & Hs). apply Handle_accepted.
  split; [done|]. split; [done|]. unfold signedText in *. cbn [Headers] in *.
  apply eqb_false_s in Hsd. by rewrite Hsd in *.
Qed.

Definition demo_env : Env := mkEnv (mkKeys "ak1" "sk1") 1600000000000000000 "rid-1".
Definition demo_h : gmap string string :=
  <[SignData := "x"]> (<[SignKey := Sign demo_env.(keys) "x"]> ∅).

Lemma sd_leaves_params_unsigned_witness :
  Handle BuildInterceptor demo_env
    (mkRequest demo_h (<["cmd" := "destroy all"]> (<[TimestampKey := "0"]> ∅))) = None.
Proof.
  apply (sd_leaves_params_unsigned demo_env demo_h (<[TimestampKey := "1"]> ∅)).
  - done.
  - vm_compute. reflexivity.
  - by eexists.
Defined.

Definition demo_p : gmap string string := <["cmd" := "create"]> (<[TimestampKey := "1"]> ∅).
Definition demo_q : gmap string string := <["cmd" := "destroy"]> (<[TimestampKey := "1"]> ∅).
Definition demo_signed : gmap string string :=
  <[SignKey := Sign demo_env.(keys) (marshalParams (mkRequest ∅ demo_p))]> ∅.

Lemma tampering_needs_collision_witness :
  Handle BuildInterceptor demo_env (mkRequest demo_signed demo_q) <> None.
Proof.
  destruct (tampering_needs_collision demo_env demo_signed demo_p demo_q) as [_ [H _]].
  - by apply (bool_decide_unpack _); vm_compute.
  - by apply (bool_decide_unpack _); vm_compute.
  - done.
  - by apply (bool_decide_unpack _); vm_compute.
  - vm_compute. reflexivity.
  - by eexists.
  - intros E. apply H in E. vm_compute in E. discriminate E.
Defined.

(** Without an access key or a secure key the client sends nothing: the
    answer does not depend on the channel, the response is the one of code
    405, and the error is its text. *)
Theorem keyless_client_is_silent {C} `{TransportChannel C} (channel : C) e uri r :
  ~ has_keys e ->
  Invoke channel e uri r true =
    (AddParam r TimestampKey (FormatInt (getCurrentTimeInMillis e.(now))),
     Some (ReturnFail TokenNotFound []),
     Some "access token not found%!(EXTRA []interface {}=[])").
Proof.
  intros Hk. unfold Invoke, BuildInterceptor.
  cbn [InvokeChain doInvoker timestamp_doInvoker].
  assert (auth_doInvoker (keys e) (AddParam r TimestampKey (FormatInt (getCurrentTimeInMillis (now e))))
          = (AddParam r TimestampKey (FormatInt (getCurrentTimeInMillis (now e))),
             Some (ReturnFail TokenNotFound []))) as ->; [|done].
  unfold auth_doInvoker, GetAccessKey, GetSecureKey. unfold has_keys in Hk.
  destruct (eqb_spec_s (localAccessKey (keys e)) ""); [done|].
  destruct (eqb_spec_s (localSecureKey (keys e)) ""); [done|]. naive_solver.
Qed.

#[local] Instance function_channel : TransportChannel (Uri -> string -> result string) := fun f => f.

Lemma keyless_client_is_silent_witness :
  (Invoke (fun (_ : Uri) (_ : string) => Ok "{}") (mkEnv (mkKeys "" "s") 5000 "u") zeroUri
     (mkRequest ∅ ∅) true).2 = Some "access token not found%!(EXTRA []interface {}=[])".
Proof. rewrite keyless_client_is_silent; [done|]. by intros [? _]. Defined.

Lemma Invoke_response {C} `{TransportChannel C} (channel : C) e uri r b r' oresp :
  Invoke channel e uri r b = (r', oresp, None) -> is_Some oresp.
Proof.
  unfold Invoke. destruct (if b then _ else _) as [r1 [resp|]]; [naive_solver|].
  destruct (DoInvoker channel _ _) as [res|]; [|naive_solver].
  destruct (unmarshalResponse res); naive_solver.
Qed.

(** Callers use the response of [Invoke] as soon as the error is nil:
    a nil error always comes with a response, decoded from what the channel
    returned for the request as it is after the call. *)
Theorem Invoke_no_error {C} `{TransportChannel C} (channel : C) e uri r b r' oresp :
  Invoke channel e uri r b = (r', oresp, None) ->
  exists uri' res resp,
    oresp = Some resp /\ DoInvoker channel uri' (marshalRequest r') = Ok res /\
    unmarshalResponse res = Some resp /\ uri'.(RequestId) = e.(uuid) /\
    uri'.(ServerName) = uri.(ServerName) /\ uri'.(HandlerName) = uri.(HandlerName).
Proof.
  unfold Invoke. destruct (if b then _ else _) as [r1 [resp|]] eqn:E; [naive_solver|].
  set (u := mkUri _ _ _ _ _ _ _ _). destruct (DoInvoker channel u _) as [res|] eqn:Ed; [|naive_solver].
  destruct (unmarshalResponse res) as [resp|] eqn:Er; [|naive_solver].
  intros ?; simplify_eq. by exists u, res, resp.
Qed.

Lemma Invoke_no_error_witness :
  exists resp, (Invoke (fun (_ : Uri) (_ : string) => Ok (marshalResponse ReturnSuccess)) demo_env zeroUri
     (mkRequest ∅ ∅) true).1.2 = Some resp.
Proof.
  destruct (Invoke (fun (_ : Uri) (_ : string) => Ok (marshalResponse ReturnSuccess)) demo_env zeroUri
     (mkRequest ∅ ∅) true) as [[r' o] [err|]] eqn:E; [vm_compute in E; discriminate E|].
  destruct (Invoke_no_error _ _ _ _ _ _ _ E) as (_ & _ & resp & H & _). by exists resp.
Defined.

(** ** Failure texts *)

Fixpoint verbless (s : string) : bool :=
  match s with "" => true | String c s' => negb (ord c =? 37) && verbless s' end.

Lemma Sprintf_cons c f args : ord c <> 37 -> Sprintf (String c f) args = String c (Sprintf f args).
Proof. intros H. destruct c as [[] [] [] [] [] [] [] []]; done. Qed.

Lemma Sprintf_verbless f args g : verbless f = true ->
  Sprintf (f +:+ g) args = f +:+ Sprintf g args.
Proof.
  induction f as [|c f IH]; [done|]. cbn [verbless]. intros H. bools.
  rewrite !app_cons_s, Sprintf_cons by lia. by rewrite IH.
Qed.

Lemma Sprintf_plain f : verbless f = true -> Sprintf f [] = f.
Proof.
  intros H. rewrite <-(app_nil_r_s f) at 1. rewrite Sprintf_verbless by done. by rewrite app_nil_r_s.
Qed.

Lemma Sprintf_verb a f args : Sprintf ("%s" +:+ f) (a :: args) = fmtText a +:+ Sprintf f args.
Proof. done. Qed.
Lemma Sprintf_missing f : Sprintf ("%s" +:+ f) [] = "%!s(MISSING)" +:+ Sprintf f [].
Proof. done. Qed.

(** [ReturnFail] hands its variadic arguments to the formatter as one
    slice: a message with one verb prints them all inside brackets, a message
    without a verb is followed by an EXTRA note, and a message with two verbs
    never shows its second argument. *)
Theorem ReturnFail_text code f g args :
  Errors !! code = Some (f +:+ g) -> verbless f = true ->
  let shown := "[" +:+ Join args " " +:+ "]" in
  (ReturnFail code args).(Error) =
    f +:+ Sprintf g [ASlice args] /\
  (g = "" -> (ReturnFail code args).(Error) = f +:+ "%!(EXTRA []interface {}=" +:+ shown +:+ ")") /\
  (forall t, g = "%s" +:+ t -> verbless t = true ->
     (ReturnFail code args).(Error) = f +:+ shown +:+ t) /\
  (forall t u, g = "%s" +:+ t +:+ "%s" +:+ u -> verbless t = true -> verbless u = true ->
     (ReturnFail code args).(Error) = f +:+ shown +:+ t +:+ "%!s(MISSING)" +:+ u).
Proof.
  intros He Hf shown. unfold ReturnFail. cbn [Error]. rewrite He. change (default "" (Some (f +:+ g))) with (f +:+ g).
  rewrite Sprintf_verbless by done. split; [done|]. split; [by intros ->|].
  split; [intros t -> Ht|intros t u -> Ht Hu]; f_equal; rewrite Sprintf_verb; f_equal.
  - by apply Sprintf_plain.
  - rewrite Sprintf_verbless by done. f_equal. rewrite Sprintf_missing. f_equal.
    by apply Sprintf_plain.
Qed.

Lemma ReturnFail_text_witness :
  (ReturnFail ResultUnmarshalFailed ["out"; "err"]).(Error) =
    "`[out err]`: exec result unmarshal failed, err: %!s(MISSING)".
Proof.
  destruct (ReturnFail_text ResultUnmarshalFailed "`" "%s`: exec result unmarshal failed, err: %s"
              ["out"; "err"]) as (_ & _ & _ & H); [done|done|].
  exact (H "`: exec result unmarshal failed, err: " "" eq_refl eq_refl eq_refl).
Defined.
End Transport.
