(* ===== verification/KeyRace.v ===== *)
(** * pkg/tools/auth.go: the keys while they change

    [RecordSecretKeyToFile] assigns the two keys one after the other and takes
    no lock; the check of a request reads them one after the other, [Sign]
    without a lock.  A registration and the requests that come in at the same
    time interleave at these assignments and reads, each of which is one
    step here. *)

From S2P Require Import Prelude GoStrings Json Options Tools Transport.

Module KeyRace.
Import Options Tools Transport.

(** ** Readers and writers *)

(** [authInterceptor.doHandler] up to its comparison of the access key, up to
    its end. *)
Inductive reader :=
| Arrived (r : Request)
| KeyMatched (r : Request)
| Allowed (r : Request)
| Denied (response : Response).

Definition readStep (k : Keys) (p : reader) : option reader :=
  match p with
  | Arrived request =>
      if get request.(Headers) SignKey ==s "" then Some (Denied (ReturnFail Forbidden ["missing sign"]))
      else
        let accessKey := get request.(Headers) AccessKey in
        if negb (accessKey ==s "") && negb (accessKey ==s GetAccessKey k)
        then Some (Denied (ReturnFail Forbidden ["accessKey not matched"]))
        else Some (KeyMatched request)
  | KeyMatched request =>
      let signData := get request.(Headers) SignData in
      let signData := if signData ==s "" then marshalParams request else signData in
      if negb (Auth k (get request.(Headers) SignKey) signData)
      then Some (Denied (ReturnFail Forbidden ["illegal request"]))
      else Some (Allowed request)
  | Allowed _ | Denied _ => None
  end.

(** [RecordSecretKeyToFile] once its file is written: both assignments to
    come, the second to come, over. *)
Inductive writer := BothKeys (accessKey secretKey : string) | SecondKey (secretKey : string) | Written.

Definition writeStep (k : Keys) (w : writer) : option (writer * Keys) :=
  match w with
  | BothKeys ak sk => Some (SecondKey sk, mkKeys ak k.(localSecureKey))
  | SecondKey sk => Some (Written, mkKeys k.(localAccessKey) sk)
  | Written => None
  end.

Record sys := mkSys { mem : Keys; readers : list reader; writers : list writer; granted : list Keys }.

(** A request is to be checked, a registration has written its file, a check or
    a registration goes on. *)
Inductive step : sys -> sys -> Prop :=
| step_request r k rs ws g : step (mkSys k rs ws g) (mkSys k (rs ++ [Arrived r]) ws g)
| step_register ak sk k rs ws g : ak <> "" -> sk <> "" ->
    step (mkSys k rs ws g) (mkSys k rs (ws ++ [BothKeys ak sk]) (g ++ [mkKeys ak sk]))
| step_read i p p' k rs ws g : rs !! i = Some p -> readStep k p = Some p' ->
    step (mkSys k rs ws g) (mkSys k (<[i := p']> rs) ws g)
| step_write i w w' k k' rs ws g : ws !! i = Some w -> writeStep k w = Some (w', k') ->
    step (mkSys k rs ws g) (mkSys k' rs (<[i := w']> ws) g).

Definition started : sys := mkSys (mkKeys "" "") [] [] [].
Definition reachable (s : sys) : Prop := rtc step started s.

(** ** Undisturbed, they are the functions of auth.go and interceptor.go *)

Lemma reader_alone k r : exists p, readStep k (Arrived r) = Some p /\
  match auth_doHandler k r with
  | None => p = KeyMatched r /\ readStep k p = Some (Allowed r)
  | Some response => p = Denied response \/ (p = KeyMatched r /\ readStep k p = Some (Denied response))
  end.
Proof.
  unfold auth_doHandler. cbn [readStep]. destruct (get _ SignKey ==s ""); [by eexists; split; [|left]|].
  destruct (negb _ && negb _); [by eexists; split; [|left]|]. eexists. split; [done|]. cbn [readStep].
  destruct (negb (Auth _ _ _)); [by right|done].
Qed.

Lemma writer_alone home flip os k ak sk os' k' : RecordSecretKeyToFile home flip os k ak sk = (os', k', None) ->
  ak <> "" /\ sk <> "" /\
  exists k1, writeStep k (BothKeys ak sk) = Some (SecondKey sk, k1) /\ writeStep k1 (SecondKey sk) = Some (Written, k').
Proof.
  unfold RecordSecretKeyToFile. destruct (eqb_spec_s ak ""), (eqb_spec_s sk ""); cbn [orb]; try done.
  destruct (RecordMapToFile _ _ _ _) as [? [|]]; intros E; simplify_eq. eauto.
Qed.

(** ** What the race can and cannot do *)

(** A key is that of a registration, or still empty. *)
Definition given (f : Keys -> string) (g : list Keys) (x : string) : Prop := x = "" \/ x ∈ map f g.

Definition matched (g : list Keys) (r : Request) : Prop := given localAccessKey g (get r.(Headers) AccessKey).
Definition signed (g : list Keys) (r : Request) : Prop :=
  exists sk, given localSecureKey g sk /\ get r.(Headers) SignKey = Sign (mkKeys "" sk) (signedText r).

Definition reader_ok (g : list Keys) (p : reader) : Prop :=
  match p with KeyMatched r => matched g r | Allowed r => matched g r /\ signed g r | _ => True end.
Definition writer_ok (g : list Keys) (w : writer) : Prop :=
  match w with
  | BothKeys ak sk => given localAccessKey g ak /\ given localSecureKey g sk
  | SecondKey sk => given localSecureKey g sk
  | Written => True
  end.
Record ok (s : sys) : Prop := {
  ok_mem : given localAccessKey s.(granted) s.(mem).(localAccessKey) /\
           given localSecureKey s.(granted) s.(mem).(localSecureKey);
  ok_readers : Forall (reader_ok s.(granted)) s.(readers);
  ok_writers : Forall (writer_ok s.(granted)) s.(writers)
}.

Lemma given_more f g k x : given f g x -> given f (g ++ [k]) x.
Proof. unfold given. rewrite map_app. set_solver. Qed.

Lemma reader_ok_more g k p : reader_ok g p -> reader_ok (g ++ [k]) p.
Proof.
  destruct p as [|r|r|]; cbn; try done; unfold matched; [apply given_more|].
  intros [Hm (sk & Hg & Hs)]. split; [by apply given_more|]. exists sk. split; [by apply given_more|done].
Qed.

Lemma writer_ok_more g k w : writer_ok g w -> writer_ok (g ++ [k]) w.
Proof. destruct w; cbn; intuition eauto using given_more. Qed.

Lemma readStep_ok k g p p' : given localAccessKey g k.(localAccessKey) -> given localSecureKey g k.(localSecureKey) ->
  reader_ok g p -> readStep k p = Some p' -> reader_ok g p'.
Proof.
  intros Ha Hs Hp E. destruct p as [r|r| |]; cbn [readStep] in E; try done.
  - destruct (get _ SignKey ==s ""); [by simplify_eq|].
    destruct (eqb_spec_s (get (Headers r) AccessKey) "") as [E0|E0]; cbn [negb andb] in E; [simplify_eq; by left|].
    destruct (eqb_spec_s (get (Headers r) AccessKey) (GetAccessKey k)) as [E1|E1]; cbn [negb] in E; simplify_eq; [|done].
    cbn. unfold matched. by rewrite E1.
  - destruct (Auth k _ _) eqn:Ea; cbn [negb] in E; simplify_eq; [|done]. split; [done|].
    apply Auth_true in Ea. exists k.(localSecureKey). split; [done|]. exact Ea.
Qed.

Lemma ok_step s s' : ok s -> step s s' -> ok s'.
Proof.
  intros [[Ha Hk] Hr Hw] Hs. destruct Hs as [r k rs ws g|ak sk k rs ws g _ _|i p p' k rs ws g Hi E|i w w' k k' rs ws g Hi E];
    cbn [granted mem readers writers] in *; split; cbn [granted mem readers writers]; try done.
  - apply Forall_app. by split; [|apply Forall_singleton].
  - split; by apply given_more.
  - eapply Forall_impl; [exact Hr|]. intros. by apply reader_ok_more.
  - apply Forall_app. split; [eapply Forall_impl; [exact Hw|]; intros; by apply writer_ok_more|].
    apply Forall_singleton. cbn. unfold given. rewrite !map_app. set_solver.
  - apply Forall_insert; [done|]. rewrite Forall_lookup in Hr. eauto using readStep_ok.
  - rewrite Forall_lookup in Hw. specialize (Hw i w Hi). destruct w; cbn in E; simplify_eq; cbn in *; tauto.
  - pose proof Hw as Hw'. rewrite Forall_lookup in Hw'. specialize (Hw' i w Hi). apply Forall_insert; [done|].
    destruct w; cbn in E; simplify_eq; cbn in *; tauto.
Qed.

Lemma reachable_ok s : reachable s -> ok s.
Proof.
  unfold reachable. assert (Hs : ok started) by (split; cbn; [by split; left|constructor..]).
  revert Hs. generalize started. intros s0 Hs Hr. induction Hr; eauto using ok_step.
Qed.

(** ** A request between two assignments *)

Definition stale (r : Request) (ak : string) : Prop :=
  get r.(Headers) AccessKey = ak /\ get r.(Headers) SignKey = Sign (mkKeys "" "") (signedText r).

Lemma stale_reads r ak sk : stale r ak -> sk = "" ->
  readStep (mkKeys ak sk) (Arrived r) = Some (KeyMatched r) /\
  readStep (mkKeys ak sk) (KeyMatched r) = Some (Allowed r).
Proof.
  intros [Ha Hs] ->.
  destruct (reader_alone (mkKeys ak "") r) as (p & E & Hp).
  assert (auth_doHandler (mkKeys ak "") r = None) as Hn by (apply auth_ok; split; [by right|exact Hs]).
  rewrite Hn in Hp. destruct Hp as [-> E2]. done.
Qed.

(** Whoever learns the access key can make such a request. *)
Lemma stale_made ak params : let d := marshalParams (mkRequest ∅ params) in
  stale (mkRequest (<[AccessKey := ak]> {[SignKey := Sign (mkKeys "" "") d]}) params) ak.
Proof.
  split; unfold signedText, get; cbn [Headers Params].
  - by rewrite lookup_insert_eq.
  - by rewrite !lookup_insert_ne, lookup_singleton_eq, lookup_singleton_ne by done.
Qed.

(** C11. The race of a registration with the requests: every request that is let
    through, whatever the interleaving, is signed with the secret of some
    registration or with the empty one from before the first, and names the
    access key of a registration or none.  But the two need not belong
    together: a request with the new access key and a signature made without a
    secret, which is refused before the registration and, unless the digests
    collide, after it, is let through between the two assignments. *)
Theorem keys_race :
  (forall s i r, reachable s -> s.(readers) !! i = Some (Allowed r) -> matched s.(granted) r /\ signed s.(granted) r) /\
  (forall r ak sk, ak <> "" -> sk <> "" -> stale r ak ->
     (exists s, reachable s /\ s.(readers) = [Allowed r] /\ s.(writers) = [Written] /\ s.(mem) = mkKeys ak sk /\
        s.(granted) = [mkKeys ak sk]) /\
     auth_doHandler (mkKeys "" "") r <> None /\
     (Sign (mkKeys ak sk) (signedText r) <> Sign (mkKeys "" "") (signedText r) ->
      auth_doHandler (mkKeys ak sk) r <> None)).
Proof.
  split.
  - intros s i r Hr Hi. destruct (reachable_ok s Hr) as [_ Hrs _]. rewrite Forall_lookup in Hrs. exact (Hrs i _ Hi).
  - intros r ak sk Hak Hsk Hst. pose proof Hst as [Ha Hs]. split_and!.
    + destruct (stale_reads r ak "" Hst eq_refl) as [E1 E2].
      exists (mkSys (mkKeys ak sk) [Allowed r] [Written] [mkKeys ak sk]). split_and!; try done.
      eapply rtc_l; [by apply (step_register ak sk)|]. eapply rtc_l; [by apply (step_request r)|]. cbn [app].
      eapply rtc_l; [by apply (step_write 0 (BothKeys ak sk) (SecondKey sk))|].
      eapply rtc_l; [by apply (step_read 0 (Arrived r) (KeyMatched r)); [|exact E1]|].
      eapply rtc_l; [by apply (step_read 0 (KeyMatched r) (Allowed r)); [|exact E2]|].
      eapply rtc_l; [by apply (step_write 0 (SecondKey sk) Written)|]. apply rtc_refl.
    + rewrite auth_ok. rewrite Ha. intros [[?|?] _]; done.
    + intros Hd. rewrite auth_ok. intros [_ E]. apply Hd. by rewrite <-E, Hs.
Qed.
End KeyRace.
