(* ===== verification/HttpClient.v ===== *)
(** * pkg/http: the channel to the server

    http.go builds a client from the configured endpoint and posts the body
    of a request as JSON: the [TransportChannel] the rest of the agent calls.
    The network is a parameter. *)

From S2P Require Import Prelude GoStrings Json JsonFacts Options Tools Transport.
Local Open Scope Z_scope.

Module HttpClient.
Import Options Tools Transport.

(** transport.go [ServerConfig], the fields that are ever set. *)
Record ServerConfig := mkServerConfig {
  ClientVpcId : string;
  ClientIp : string;
  ClientProcessFlag : string;
  ServerIp : string;
  ServerPort : Z;
  cfgTimeout : Z
}.

Definition uint32 (z : Z) : Z := z mod 2 ^ 32.

(** The number [strconv.Atoi] returns next to its error: 0 for bad syntax, the
    nearest int64 when out of range. *)
Definition Atoi_value (s : string) : Z :=
  match ParseInt s with
  | Some v => v
  | None =>
      let '(neg, ds) :=
        match s with
        | String "-"%char r => (true, r)
        | String "+"%char r => (false, r)
        | _ => (false, s)
        end in
      match ds, parse_digits ds 0 with
      | "", _ | _, None => 0
      | _, Some _ => if neg : bool then int64_min else int64_max
      end
  end.

(** net/url: the bytes of a host that are written as they are, and the others
    as [%XX]. *)
Definition hostByte (c : Ascii.ascii) : bool :=
  let x := ord c in
  between 97 x 122 || between 65 x 90 || between 48 x 57 ||
  existsb (Z.eqb x) [45; 95; 46; 126; 33; 36; 38; 39; 40; 41; 42; 43; 44; 59; 61; 58; 91; 93; 60; 62; 34].
Definition upperhex (d : Z) : Ascii.ascii := if d <? 10 then chr (48 + d) else chr (55 + d).
Fixpoint escapeHost (s : string) : string :=
  match s with
  | "" => ""
  | String c s' =>
      if hostByte c then String c (escapeHost s')
      else String "%"%char (String (upperhex (ord c / 16)) (String (upperhex (ord c mod 16)) (escapeHost s')))
  end.

(** [HttpClient]; the [http.Client] in it is the network. *)
Record HttpClient := mkHttpClient {
  Config : ServerConfig; timeout : Z; inited : bool; urlHost : string }.

(** [hc.url.String()]. *)
Definition urlString (hc : HttpClient) : string := "http://" +:+ escapeHost hc.(urlHost).

Definition GetDirectInstance (config : ServerConfig) : HttpClient :=
  mkHttpClient config (uint32 (Z.quot config.(cfgTimeout) 1000000)) true
    (config.(ServerIp) +:+ ":" +:+ FormatInt config.(ServerPort)).

Definition NewHttpClient (o : Options) (config : TransportConfig) : result HttpClient :=
  if config.(Endpoint) ==s "" then Err "transport endpoint is empty"
  else
    let hostAndPort := SplitN config.(Endpoint) ":" 2 in
    let port := match hostAndPort with _ :: p :: _ => Atoi_value p | _ => 80 end in
    Ok (GetDirectInstance
          (mkServerConfig o.(VpcId) o.(Ip) ProgramName (default "" (head hostAndPort)) (uint32 port)
             config.(Timeout))).

Section invoke.
(** [http.NewRequest] refuses an URL; [Do] fails or gives the status and what
    [ReadAll] returns, the bytes read so far and the error. *)
Context (newRequest_err : string -> option string)
  (post : string -> string -> result (Z * (string * option string))).

(** [json.Unmarshal] is given what [Invoke] encoded; its error is dropped. *)
Definition DoInvoker (hc : HttpClient) (uri : Uri) (jsonParam : string) : result string :=
  let request := default (mkRequest ∅ ∅) (unmarshalRequest jsonParam) in
  let reqBody := encode (of_smap (GetBody request)) in
  let url := urlString hc +:+ "/" +:+ uri.(HandlerName) in
  match newRequest_err url with
  | Some err => Err err
  | None =>
      match post url reqBody with
      | Err err => Err err
      | Ok (code, (result, err)) =>
          if negb (code =? 200) then
            match err with
            | Some _ =>
                Err ("direct http call " +:+ uri.(HandlerName) +:+ " and read message from response failed")
            | None =>
                Err ("direct http call " +:+ uri.(HandlerName) +:+ " failed, code: " +:+ FormatInt code +:+
                     ", body: " +:+ result)
            end
          else Ok result
      end
  end.
#[local] Instance http_channel : TransportChannel HttpClient := DoInvoker.

(** ** Properties *)

Lemma escapeHost_app s t : escapeHost (s +:+ t) = escapeHost s +:+ escapeHost t.
Proof.
  induction s as [|c s IH]; [done|]. rewrite app_cons_s. simpl. rewrite IH. by destruct (hostByte c).
Qed.

Fixpoint host_safe (s : string) : bool :=
  match s with "" => true | String c s' => hostByte c && host_safe s' end.

Lemma escapeHost_safe s : host_safe s = true -> escapeHost s = s.
Proof.
  induction s as [|c s IH]; [done|]. simpl. intros H. apply andb_true_iff in H as [-> Hs].
  by rewrite IH.
Qed.

Lemma digits_safe s : all_digits s = true -> host_safe s = true.
Proof.
  induction s as [|c s IH]; [done|]. simpl. intros H. apply andb_true_iff in H as [Hc Hs].
  rewrite (IH Hs), andb_true_r. unfold hostByte, is_digit in *. rewrite Hc. by rewrite orb_true_r.
Qed.

Lemma valid_GetBody r : valid_request r -> valid_smap (GetBody r).
Proof.
  intros [Hh Hp] k v Hk. unfold GetBody in Hk. apply lookup_union_Some_raw in Hk as [Hk|[_ Hk]]; eauto.
Qed.

Lemma FormatInt_safe n : 0 <= n -> host_safe (FormatInt n) = true.
Proof.
  intros Hn. apply digits_safe. unfold FormatInt.
  rewrite (proj2 (Z.ltb_ge n 0)), Z.abs_eq by lia.
  destruct (decide (n = 0)) as [->|]; [done|]. pose proof (log2_fuel n) as Hf. rewrite Z.abs_eq in Hf by lia.
  destruct (udigits_shape (S (Z.to_nat (Z.log2 n))) n "") as (d & t & -> & Hd & _ & Ht); [lia|done|].
  simpl. by rewrite Hd, Ht.
Qed.

Lemma NewHttpClient_url o cfg host n : cfg.(Endpoint) = host +:+ ":" +:+ FormatInt n ->
  0 <= n < 2 ^ 32 -> host_safe host = true -> ~ In_s ":"%char host ->
  exists hc, NewHttpClient o cfg = Ok hc /\ urlString hc = "http://" +:+ host +:+ ":" +:+ FormatInt n.
Proof.
  intros He Hn Hs Hc. unfold NewHttpClient. rewrite He.
  destruct (eqb_spec_s (host +:+ ":" +:+ FormatInt n) "") as [E|_].
  { apply (f_equal String.length) in E. rewrite !length_app_s in E. simpl in E. lia. }
  rewrite (app_cons_s ":"%char "" (FormatInt n)), app_nil_l_s, SplitN2_char by done.
  eexists. split; [done|]. unfold urlString, GetDirectInstance. cbn [urlHost ServerIp ServerPort].
  change (default "" (head [host; FormatInt n])) with host.
  unfold Atoi_value. rewrite ParseInt_FormatInt by (unfold int64_min, int64_max; lia).
  unfold uint32. rewrite Z.mod_small by lia. rewrite !escapeHost_app.
  rewrite (escapeHost_safe host), (escapeHost_safe (FormatInt n)) by (done || apply FormatInt_safe; lia).
  done.
Qed.

(** C23. A call over HTTP from end to end: with an endpoint [host:port] the
    agent posts, under the name of the handler, a JSON object that decodes to
    the signed request with its parameters over its headers, and the response
    of the server comes back as the result of the call. *)
Theorem Invoke_over_http e o cfg host n uri r resp readErr :
  cfg.(Endpoint) = host +:+ ":" +:+ FormatInt n -> 0 <= n < 2 ^ 32 ->
  host_safe host = true -> ~ In_s ":"%char host ->
  has_keys e -> valid_request r -> valid_utf8 e.(keys).(localAccessKey) = true ->
  valid_utf8 e.(uuid) = true -> portable resp ->
  let sent := AddHeader (signedRequest e r) "rid" e.(uuid) in
  let body := encode (of_smap (GetBody sent)) in
  let url := "http://" +:+ host +:+ ":" +:+ FormatInt n +:+ "/" +:+ uri.(HandlerName) in
  newRequest_err url = None -> post url body = Ok (200, (marshalResponse resp, readErr)) ->
  exists hc, NewHttpClient o cfg = Ok hc /\ Invoke hc e uri r true = (sent, Some resp, None) /\
    unmarshal_smap body = Some (GetBody sent).
Proof.
  intros He Hn Hs Hc Hk Hv Ha Hu Hp sent body url Hnew Hpost.
  assert (valid_request sent) as Hvs by (apply AddHeader_valid; [done|done|by apply signedRequest_valid]).
  destruct (NewHttpClient_url o cfg host n He Hn Hs Hc) as (hc & Ehc & Hurl).
  exists hc. split; [done|]. split; [|by apply unmarshal_marshal_smap, valid_GetBody].
  unfold Invoke. rewrite InvokeChain_signed by done. fold sent.
  unfold Transport.DoInvoker, http_channel, DoInvoker. rewrite request_wire by done.
  cbn [HandlerName]. change (default _ (Some sent)) with sent. fold body.
  replace (urlString hc +:+ "/" +:+ uri.(HandlerName)) with url
    by (unfold url; rewrite Hurl; by rewrite !app_assoc_s).
  rewrite Hnew, Hpost. cbn [negb Z.eqb Pos.eqb]. by rewrite response_wire.
Qed.
End invoke.

Definition demo_request : Request := mkRequest ∅ (<["cmd" := "create"]> ∅).
Definition demo_cfg : TransportConfig := mkTransportConfig "prod" "127.0.0.1:7001" 3000000000 false.
Definition demo_post (url body : string) : result (Z * (string * option string)) :=
  Ok (200, (marshalResponse ReturnSuccess, None)).

Lemma Invoke_over_http_witness :
  exists hc, NewHttpClient AddFlags demo_cfg = Ok hc /\
    (Invoke (H := http_channel (fun _ => None) demo_post) hc demo_env zeroUri demo_request true).1.2 =
      Some ReturnSuccess.
Proof.
  destruct (Invoke_over_http (fun _ => None) demo_post demo_env AddFlags demo_cfg "127.0.0.1" 7001 zeroUri
    demo_request ReturnSuccess None) as (hc & E & Ei & _).
  - reflexivity.
  - lia.
  - vm_compute. reflexivity.
  - vm_compute. intuition congruence.
  - split; discriminate.
  - split; intros k v Hk; [discriminate Hk|].
    unfold demo_request in Hk. cbn [Params] in Hk.
    apply lookup_insert_Some in Hk as [[<- <-]|[_ Hk]]; [by vm_compute|discriminate Hk].
  - vm_compute. reflexivity.
  - vm_compute. reflexivity.
  - repeat split; vm_compute; reflexivity.
  - reflexivity.
  - reflexivity.
  - exists hc. split; [exact E|]. rewrite Ei. reflexivity.
Defined.
End HttpClient.
