(* ===== verification/LimitedList.v ===== *)
(** * pkg/tools/limitedlist.go: a list bounded by a capacity *)

From S2P Require Import Prelude.

Module LimitedList.

(** [type LimitedList struct]; the mutex is left out, each method holds it
    for its whole access to [list]. *)
Record LimitedList (A : Type) := mkLimitedList {
  cap : Z;
  list : Datatypes.list A
}.
Arguments mkLimitedList {A} _ _.
Arguments cap {A} _.
Arguments list {A} _.

Definition NewLimitedSortList (A : Type) (cap : Z) : result (LimitedList A) :=
  if (cap <=? 0)%Z then Err "cap less or equal than 0"
  else Ok (mkLimitedList cap []).

(** [container/list]: [Front] and [Remove] of the front element. *)
Definition removeFront {A} (l : Datatypes.list A) : Datatypes.list A :=
  match l with [] => [] | _ :: l' => l' end.

Definition Put {A} (this : LimitedList A) (value : A) : LimitedList A :=
  let l := list this ++ [value] in
  if (Z.of_nat (length l) >? cap this)%Z
  then mkLimitedList (cap this) (removeFront l)
  else mkLimitedList (cap this) l.

(** The loop shared by the two iterations.  [handle] is a Go closure: it
    updates the variables it captures, here a state [S], and may return an
    error.  The loop stops at the first error when [breakWhenWrong] is set. *)
Fixpoint foreach {A S} (handle : A -> S -> S * option string)
    (breakWhenWrong : bool) (l : Datatypes.list A) (s : S) : S :=
  match l with
  | [] => s
  | v :: l' =>
      match handle v s with
      | (s', Some _) =>
          if breakWhenWrong then s' else foreach handle breakWhenWrong l' s'
      | (s', None) => foreach handle breakWhenWrong l' s'
      end
  end.

Definition Foreach {A S} (this : LimitedList A)
    (handle : A -> S -> S * option string) (breakWhenWrong : bool) (s : S) : S :=
  foreach handle breakWhenWrong (list this) s.

Definition ForeachReverse {A S} (this : LimitedList A)
    (handle : A -> S -> S * option string) (breakWhenWrong : bool) (s : S) : S :=
  foreach handle breakWhenWrong (reverse (list this)) s.

(** ** Invariant and refinement *)

(** A well-formed list has a positive capacity and does not exceed it. *)
Definition wf {A} (this : LimitedList A) : Prop :=
  (0 < cap this)%Z /\ (Z.of_nat (length (list this)) <= cap this)%Z.

(** Specification: the list of everything ever put, and what of it is kept. *)
Definition abs {A} (history : Datatypes.list A) (this : LimitedList A) : Prop :=
  (0 < cap this)%Z /\ list this = lastn (Z.to_nat (cap this)) history.

Section facts.
Context {A : Type}.
Implicit Types (this : LimitedList A) (history : Datatypes.list A).

Lemma new_wf c this : NewLimitedSortList A c = Ok this -> wf this.
Proof. unfold NewLimitedSortList, wf. intros H. go_cases_in H. lia. Qed.

Lemma Put_wf this v : wf this -> wf (Put this v).
Proof.
  unfold wf, Put. intros [Hc Hl].
  destruct (Z.gtb_spec (Z.of_nat (length (list this ++ [v]))) (cap this)) as [H|H];
    simpl; [|split; [done|lia]].
  rewrite length_app in H. simpl in H.
  destruct (list this) as [|x l]; simpl in *; [lia|].
  rewrite length_app. simpl. lia.
Qed.

Lemma Put_cap this v : cap (Put this v) = cap this.
Proof. unfold Put. by case_match. Qed.

Lemma abs_wf history this : abs history this -> wf this.
Proof.
  intros [Hc Hl]. split; [done|]. rewrite Hl, lastn_length. lia.
Qed.

Lemma Put_abs history this v : abs history this -> abs (history ++ [v]) (Put this v).
Proof.
  intros [Hc Hl]. split; [by rewrite Put_cap|].
  rewrite Put_cap. unfold Put.
  destruct (Z.to_nat (cap this)) as [|n] eqn:Hn; [lia|].
  rewrite lastn_snoc.
  assert (Hlen : length (list this) = Nat.min (S n) (length history))
    by (by rewrite Hl, lastn_length).
  destruct (Z.gtb_spec (Z.of_nat (length (list this ++ [v]))) (cap this)) as [H|H];
    rewrite length_app in H; cbn [length] in H; cbn [list].
  - assert (Hfull : length (list this) = S n) by lia.
    rewrite <-(lastn_lastn (S n) n) by lia. rewrite <-Hl.
    destruct (list this) as [|x l]; simplify_eq/=.
    by rewrite lastn_cons.
  - assert (length history <= n) by lia.
    rewrite Hl, !lastn_short by lia. done.
Qed.
End facts.

#[export] Hint Resolve new_wf Put_wf Put_abs : go.

Lemma Puts_abs {A} (vs history : Datatypes.list A) this :
  abs history this -> abs (history ++ vs) (fold_left Put vs this).
Proof.
  revert history this. induction vs as [|v vs IH]; intros history this H; simpl.
  - by rewrite app_nil_r.
  - rewrite (cons_middle v history vs), app_assoc. apply IH, Put_abs, H.
Qed.

Lemma new_abs {A} c (this : LimitedList A) : NewLimitedSortList A c = Ok this ->
  abs [] this /\ cap this = c.
Proof.
  unfold NewLimitedSortList, abs. destruct (Z.leb_spec c 0); intros ?; simplify_eq/=.
  split; [|done]. split; [lia|]. unfold lastn. by rewrite drop_nil.
Qed.

(** ** Property *)

(** C36. A list created with capacity [c] holds, after any sequence of puts,
    exactly the [c] most recent values in the order they were put; creation
    fails exactly for a capacity that is not positive. *)
Theorem keeps_newest {A} c (vs : Datatypes.list A) :
  match NewLimitedSortList A c with
  | Ok l => list (fold_left Put vs l) = lastn (Z.to_nat c) vs /\ (0 < c)%Z
  | Err _ => (c <= 0)%Z
  end.
Proof.
  destruct (NewLimitedSortList A c) as [l|e] eqn:E.
  - apply new_abs in E as [Ha Hc]. destruct (Puts_abs vs [] l Ha) as [Hp Hl].
    assert (Hk : cap (fold_left Put vs l) = cap l).
    { clear. revert l. induction vs as [|v vs IH]; intros l; [done|]. simpl. by rewrite IH, Put_cap. }
    rewrite Hk, Hc in *. done.
  - unfold NewLimitedSortList in E. destruct (Z.leb_spec c 0); naive_solver.
Qed.

End LimitedList.
