(* ===== verification/Monitor.v ===== *)
(** * conn/heartbeat and monitor: heartbeats, their record, and the check on it

    The heartbeat goroutine puts the outcome of every beat into a list of
    capacity 26; the monitor goroutine walks that list every 10 seconds, newest
    first, and decides whether the agent has lost its server (stop) or found
    it again (start). *)

From S2P Require Import Prelude GoStrings Json Options Tools Transport LimitedList.

Module Monitor.
Import Options Transport LimitedList.

(** ** heartbeat.go *)

Record HBSnapshot := mkHBSnapshot { Success : bool }.

(** The package variable [HBSnapshotList]: the error of its creation is
    dropped, a failed creation leaves a nil pointer. *)
Definition HBSnapshotList : option (LimitedList HBSnapshot) :=
  match NewLimitedSortList HBSnapshot 26 with Ok l => Some l | Err _ => None end.

Definition record (l : LimitedList HBSnapshot) (success : bool) : LimitedList HBSnapshot :=
  Put l (mkHBSnapshot success).

(** [sendHeartbeat]; a nil response with a nil error would be dereferenced. *)
Definition sendHeartbeat {C} `{TransportChannel C} (transportClient : C) (e : Env) (uri : Uri)
    (request : Request) (l : LimitedList HBSnapshot) : outcome (LimitedList HBSnapshot) :=
  match Invoke transportClient e uri request true with
  | (_, _, Some err) => Returns (record l false)
  | (_, None, None) => Panics "invalid memory address or nil pointer dereference"
  | (_, Some response, None) =>
      if negb response.(Transport.Success) then Returns (record l false)
      else Returns (record l true)
  end.

(** The request of one tick of [Start]. *)
Definition heartbeatRequest (o : Options) : Request :=
  let request := NewRequest o in
  let request := if o.(ExternalIpEnable) then AddParam request "ip" o.(Ip) else request in
  let request := AddParam request AppInstanceKeyName o.(ApplicationInstance) in
  AddParam request AppGroupKeyName o.(ApplicationGroup).

(** One tick of [Start]; a missing uri is Go's zero value. *)
Definition heartbeatTick {C} `{TransportChannel C} (transportClient : C) (e : Env) (o : Options)
    (TransportUriMap : gmap string Uri) (l : LimitedList HBSnapshot) : outcome (LimitedList HBSnapshot) :=
  let uri := default zeroUri (TransportUriMap !! API_HEARTBEAT) in
  sendHeartbeat transportClient e uri (heartbeatRequest o) l.

(** ** checker.go *)

Record monitorAction := mkAction {
  needStop : bool;
  needStart : bool;
  needExit : bool;
  reason : string
}.
Definition recovered : monitorAction := mkAction false false false "".

Definition hbStopThreshold : nat := 12.
Definition hbStartThreshold : nat := 3.

(** The variables the closure of [checkHeartBeat] works on. *)
Record walk := mkWalk {
  hbFailContinuousCount : nat;
  hbSuccContinuousCount : nat;
  walkerList : Datatypes.list HBSnapshot;
  hbAlreadyStoped : bool;
  action : monitorAction
}.

(** The closure.  Every element of the list is an [HBSnapshot], so its type
    assertion holds. *)
Definition visit (hbSnapshot : HBSnapshot) (w : walk) : walk * option string :=
  let walkerList := walkerList w ++ [hbSnapshot] in
  let '(fails, succs) :=
    if negb hbSnapshot.(Success) then (S (hbFailContinuousCount w), 0)
    else (0, S (hbSuccContinuousCount w)) in
  let w := mkWalk fails succs walkerList (hbAlreadyStoped w) (action w) in
  if (fails =? hbStopThreshold) && negb (hbAlreadyStoped w) then
    (mkWalk fails succs walkerList true (mkAction true false false "stop because of heartbeat"),
     Some "nolog")
  else if (fails =? hbStopThreshold) && hbAlreadyStoped w then (w, Some "nolog")
  else if (succs =? hbStartThreshold) && hbAlreadyStoped w then
    (mkWalk fails succs walkerList (hbAlreadyStoped w) (mkAction false true false ""), Some "nolog")
  else if (succs =? hbStartThreshold) && negb (hbAlreadyStoped w) then (w, Some "nolog")
  else (w, None).

(** The flag and the action afterwards. *)
Definition checkHeartBeat (hb : LimitedList HBSnapshot) (alreadyStoped : bool) (a : monitorAction)
    : bool * monitorAction :=
  let w := ForeachReverse hb visit true (mkWalk 0 0 [] alreadyStoped a) in
  (hbAlreadyStoped w, action w).

(** [defaultChecker.check]. *)
Definition check (hb : LimitedList HBSnapshot) (alreadyStoped : bool) : bool * monitorAction :=
  let '(alreadyStoped, action) := checkHeartBeat hb alreadyStoped recovered in
  if action.(needStop) then (alreadyStoped, action)
  else if action.(needExit) then (alreadyStoped, action)
  else if action.(needStart) then (false, action)
  else (alreadyStoped, action).

(** ** monitor.go *)

(** What one turn of [doMonitor] sets off, in order. *)
Inductive event := StopEvent (reason : string) | ExitEvent | StartEvent (reason : string).

Definition react (a : monitorAction) : Datatypes.list event :=
  (if a.(needStop) then [StopEvent ("monitor exception[" +:+ a.(reason) +:+ "], stop")] else []) ++
  (if a.(needExit) then [ExitEvent] else []) ++
  (if a.(needStart) then [StartEvent ("recover[" +:+ a.(reason) +:+ "], start")] else []).

(** [sendEventToServer]: what [Invoke] answered, or [None] when the function
    returns before calling it. *)
Definition sendEventToServer {C} `{TransportChannel C} (transportClient : C) (e : Env) (o : Options)
    (TransportUriMap : gmap string Uri) (event reason : string)
    : option (Request * option Response * option string) :=
  match TransportUriMap !! API_EVENT with
  | None => None
  | Some uri =>
      let request := NewRequest o in
      let request := AddParam (AddParam request "event" event) "reason" reason in
      Some (Invoke transportClient e uri request true)
  end.

(** [StopWithReason] and [StartWithReason] hand the event to the goroutine
    that runs [sendEventToServer]. *)
Definition deliver {C} `{TransportChannel C} (transportClient : C) (e : Env) (o : Options)
    (uris : gmap string Uri) (ev : event) : option (Request * option Response * option string) :=
  match ev with
  | StopEvent r => sendEventToServer transportClient e o uris "stop" r
  | StartEvent r => sendEventToServer transportClient e o uris "start" r
  | ExitEvent => None
  end.

(** [GetMonitorInstance]: the package variable and what the call returns. *)
Definition GetMonitorInstance {M} (instance : option M) (new : M) : option M * M :=
  match instance with
  | Some m => (instance, m)
  | None => (Some new, new)
  end.

(** ** The two goroutines *)

Record state := mkState {
  snapshots : LimitedList HBSnapshot;
  stopped : bool;
  events : Datatypes.list event
}.

Inductive move := Beat (ok : bool) | Turn.

(** A heartbeat outcome, or one turn of the monitor's loop. *)
Definition run (m : move) (s : state) : state :=
  match m with
  | Beat ok => mkState (record s.(snapshots) ok) s.(stopped) s.(events)
  | Turn => let '(st, a) := check s.(snapshots) s.(stopped) in
            mkState s.(snapshots) st (s.(events) ++ react a)
  end.

Definition start_state (l : LimitedList HBSnapshot) : state := mkState l false [].

Inductive reachable : state -> Prop :=
| reach_start l : HBSnapshotList = Some l -> reachable (start_state l)
| reach_run m s : reachable s -> reachable (run m s).

(** ** Specification of the check *)

(** How many equal outcomes in a row count. *)
Definition threshold (b : bool) : nat := if b then hbStartThreshold else hbStopThreshold.

Definition ends_with (b : bool) (n : nat) (p : Datatypes.list bool) : Prop :=
  exists q, p = q ++ replicate n b.

(** Reading [l] from its head, the first run to reach its threshold is one
    of [b]. *)
Definition first_run (l : Datatypes.list bool) (b : bool) : Prop :=
  exists p rest, l = p ++ rest /\ ends_with b (threshold b) p /\
    forall p' b', p' `prefix_of` p -> p' <> p -> ~ ends_with b' (threshold b') p'.

Definition newest_first (hb : LimitedList HBSnapshot) : Datatypes.list bool :=
  map Success (reverse (list hb)).

(** The search for that run as a recursion. *)
Fixpoint verdict (l : Datatypes.list bool) (f s : nat) : option bool :=
  match l with
  | [] => None
  | b :: l' =>
      let '(f, s) := if b then (0, S s) else (S f, 0) in
      if f =? hbStopThreshold then Some false
      else if s =? hbStartThreshold then Some true
      else verdict l' f s
  end.

(** What the verdict means for the flag and the action. *)
Definition conclude (v : option bool) (st : bool) (a : monitorAction) : bool * monitorAction :=
  match v, st with
  | Some false, false => (true, mkAction true false false "stop because of heartbeat")
  | Some true, true => (true, mkAction false true false "")
  | _, _ => (st, a)
  end.

Lemma foreach_visit l : forall w,
  let w' := foreach visit true l w in
  (hbAlreadyStoped w', action w') =
    conclude (verdict (map Success l) (hbFailContinuousCount w) (hbSuccContinuousCount w))
      (hbAlreadyStoped w) (action w).
Proof.
  induction l as [|[b] l IH]; intros [f s wl st a]; [done|].
  cbn [foreach map Success verdict hbFailContinuousCount hbSuccContinuousCount].
  unfold visit. cbn [Success hbFailContinuousCount hbSuccContinuousCount walkerList hbAlreadyStoped action].
  destruct b; cbn [negb].
  - change (0 =? hbStopThreshold) with false. cbn [andb].
    destruct (S s =? hbStartThreshold); destruct st; cbn [andb negb]; try done; apply IH.
  - change (0 =? hbStartThreshold) with false. cbn [andb].
    destruct (S f =? hbStopThreshold); destruct st; cbn [andb negb]; try done; apply IH.
Qed.

Lemma checkHeartBeat_verdict hb st a :
  checkHeartBeat hb st a = conclude (verdict (newest_first hb) 0 0) st a.
Proof.
  unfold checkHeartBeat, ForeachReverse, newest_first.
  apply (foreach_visit (reverse (list hb)) (mkWalk 0 0 [] st a)).
Qed.

(** ** Counters and runs *)

Lemma ends_with_0 b p : ends_with b 0 p.
Proof. exists p. by rewrite app_nil_r. Qed.

Lemma ends_with_snoc b n p x : ends_with b (S n) (p ++ [x]) <-> x = b /\ ends_with b n p.
Proof.
  unfold ends_with. rewrite replicate_S_end. split.
  - intros [q H]. rewrite app_assoc in H. apply app_inj_2 in H as [-> ?]; [|done].
    simplify_eq. eauto.
  - intros [-> [q ->]]. exists q. by rewrite app_assoc.
Qed.

(** The counters are the lengths of the runs that end a prefix. *)
Definition counts (p : Datatypes.list bool) (f s : nat) : Prop :=
  (forall n, ends_with false n p <-> n <= f) /\ (forall n, ends_with true n p <-> n <= s).

Lemma counts_nil : counts [] 0 0.
Proof.
  assert (forall b n, ends_with b n [] <-> n <= 0) as H; [|split; apply H].
  intros b n. split; [|intros ?; replace n with 0 by lia; apply ends_with_0].
  intros [q H]. apply (f_equal length) in H. rewrite length_app, length_replicate in H. simpl in H. lia.
Qed.

Lemma counts_snoc p f s b : counts p f s ->
  counts (p ++ [b]) (if b then 0 else S f) (if b then S s else 0).
Proof.
  intros [Hf Hs]. split; (intros [|n]; [split; [lia|intros; apply ends_with_0]|]);
    rewrite ends_with_snoc, ?Hf, ?Hs; destruct b; split; naive_solver lia.
Qed.

(** No run has reached its threshold anywhere in [p]. *)
Definition quiet (p : Datatypes.list bool) : Prop :=
  forall p' b, p' `prefix_of` p -> ~ ends_with b (threshold b) p'.

Lemma quiet_snoc p x : quiet p -> (forall b, ~ ends_with b (threshold b) (p ++ [x])) -> quiet (p ++ [x]).
Proof.
  intros Hq Hx p' b Hp. apply prefix_snoc in Hp as [Hp| ->]; [by apply Hq|apply Hx].
Qed.

Lemma prefix_snoc_proper (p p' : Datatypes.list bool) x :
  p' `prefix_of` p ++ [x] -> p' <> p ++ [x] -> p' `prefix_of` p.
Proof. intros H Hne. by apply prefix_snoc in H as [H| ->]. Qed.

Lemma verdict_spec l : forall p f s, counts p f s -> quiet p ->
  match verdict l f s with
  | Some b => exists q rest, l = q ++ rest /\ ends_with b (threshold b) (p ++ q) /\
      forall p' b', p' `prefix_of` p ++ q -> p' <> p ++ q -> ~ ends_with b' (threshold b') p'
  | None => quiet (p ++ l)
  end.
Proof.
  induction l as [|b l IH]; intros p f s Hc Hq; [by rewrite app_nil_r|]. cbn [verdict].
  pose proof (counts_snoc p f s b Hc) as Hc'.
  replace (if b then (0, S s) else (S f, 0))
    with ((if b then 0 else S f), (if b then S s else 0)) by (by destruct b).
  set (f' := if b then 0 else S f) in *. set (s' := if b then S s else 0) in *.
  destruct Hc' as [Hf' Hs'].
  destruct (Nat.eqb_spec f' hbStopThreshold) as [Ef|Nf].
  { exists [b], l. repeat split; [apply Hf'; simpl; lia|].
    intros p' b' Hp Hne. by apply Hq, (prefix_snoc_proper p p' b). }
  destruct (Nat.eqb_spec s' hbStartThreshold) as [Es|Ns].
  { exists [b], l. repeat split; [apply Hs'; simpl; lia|].
    intros p' b' Hp Hne. by apply Hq, (prefix_snoc_proper p p' b). }
  assert (Hq' : quiet (p ++ [b])).
  { apply quiet_snoc; [done|]. intros b' He.
    assert (Hle : f <= 11 /\ s <= 2).
    { destruct Hc as [Hf Hs]. split.
      - destruct (decide (12 <= f)); [|lia]. exfalso. apply (Hq p false); [done|]. by apply Hf.
      - destruct (decide (3 <= s)); [|lia]. exfalso. apply (Hq p true); [done|]. by apply Hs. }
    unfold hbStopThreshold, hbStartThreshold in *.
    destruct b'; [apply Hs' in He|apply Hf' in He]; unfold threshold, hbStopThreshold, hbStartThreshold in He;
      subst f' s'; destruct b; lia. }
  specialize (IH (p ++ [b]) f' s' (conj Hf' Hs') Hq').
  rewrite (cons_middle b p l), app_assoc.
  destruct (verdict l f' s') as [v|]; [|done].
  destruct IH as (q & rest & -> & H1 & H2). exists (b :: q), rest.
  by rewrite (cons_middle b p q), app_assoc.
Qed.

Lemma quiet_nil : quiet [].
Proof.
  intros p' b Hp He. apply prefix_nil_inv in Hp as ->.
  destruct counts_nil as [Hf Hs]. destruct b; [apply Hs in He|apply Hf in He];
    unfold threshold, hbStopThreshold, hbStartThreshold in He; lia.
Qed.

Lemma first_run_unique l b b' : first_run l b -> first_run l b' -> b = b'.
Proof.
  intros (p & r & E & H1 & H2) (p' & r' & E' & H1' & H2').
  assert (p = p') as <-.
  { rewrite E in E'. assert (Hp : p `prefix_of` p' \/ p' `prefix_of` p).
    { apply (prefix_weak_total p p' (p ++ r)); [by exists r|exists r'; done]. }
    destruct (decide (p = p')) as [|Hne]; [done|]. exfalso. destruct Hp as [Hp|Hp].
    - by apply (H2' p b Hp).
    - by apply (H2 p' b' Hp (not_eq_sym Hne)). }
  destruct H1 as [q Hq], H1' as [q' Hq']. rewrite Hq in Hq'.
  apply (f_equal last) in Hq'.
  destruct b, b'; try done; unfold threshold, hbStopThreshold, hbStartThreshold in Hq'.
  all: rewrite (replicate_S_end 11), (replicate_S_end 2), !app_assoc, !last_snoc in Hq'; done.
Qed.

Lemma verdict_first_run l b : verdict l 0 0 = Some b <-> first_run l b.
Proof.
  pose proof (verdict_spec l [] 0 0 counts_nil quiet_nil) as H.
  destruct (verdict l 0 0) as [v|].
  - assert (Hv : first_run l v) by exact H.
    split; [by intros ?; simplify_eq|]. intros Hb. f_equal. by apply (first_run_unique l).
  - split; [done|]. intros (p & r & -> & H1 & _). exfalso. apply (H p b); [by exists r|done].
Qed.

(** One turn of [check] through the verdict. *)
Lemma check_verdict hb st :
  check hb st =
    match verdict (newest_first hb) 0 0, st with
    | Some false, false => (true, mkAction true false false "stop because of heartbeat")
    | Some true, true => (false, mkAction false true false "")
    | _, _ => (st, recovered)
    end.
Proof.
  unfold check. rewrite checkHeartBeat_verdict.
  by destruct (verdict _ 0 0) as [[]|], st.
Qed.

(** ** Properties *)

(** C8. The walk with its two counters and early returns computes the
    intended decision: reading the recorded beats from the newest, the first
    run to reach 12 failures or 3 successes decides; failures stop an agent
    that is not stopped, successes start one that is, and nothing else
    changes the flag.  An exit is never asked for. *)
Theorem check_decides hb st st' a : check hb st = (st', a) ->
  (a.(needStop) = true <-> st = false /\ first_run (newest_first hb) false) /\
  (a.(needStart) = true <-> st = true /\ first_run (newest_first hb) true) /\
  a.(needExit) = false /\
  st' = if a.(needStop) then true else if a.(needStart) then false else st.
Proof.
  rewrite check_verdict, <-!verdict_first_run. intros H.
  destruct (verdict (newest_first hb) 0 0) as [[]|], st; simplify_eq/=; naive_solver.
Qed.

Definition demo_hb : LimitedList HBSnapshot :=
  mkLimitedList 26 (map mkHBSnapshot ([true; true] ++ replicate 12 false ++ [true; true])).

Lemma check_decides_witness : first_run (newest_first demo_hb) false.
Proof.
  destruct (check_decides demo_hb false true (mkAction true false false "stop because of heartbeat"))
    as ([H _] & _); [reflexivity|]. by apply H.
Defined.

(** Stops and starts that take turns, from a given flag to the flag
    afterwards. *)
Fixpoint alternate (st : bool) (evs : Datatypes.list event) : option bool :=
  match evs with
  | [] => Some st
  | StopEvent _ :: evs' => if st then None else alternate true evs'
  | StartEvent _ :: evs' => if st then alternate false evs' else None
  | ExitEvent :: _ => None
  end.

Lemma alternate_app st evs evs' : alternate st (evs ++ evs') = st' ← alternate st evs; alternate st' evs'.
Proof.
  revert st. induction evs as [|[] evs IH]; intros st; simpl; [done|by destruct st..].
Qed.

(** C20. However heartbeats and turns of the monitor interleave, the events it
    raises are a stop, a start, a stop, and so on, and the flag says which
    of the two was last. *)
Theorem events_alternate s : reachable s -> alternate false s.(events) = Some s.(stopped).
Proof.
  induction 1 as [l _|m s Hr IH]; [done|]. destruct m as [ok|]; cbn [run]; [done|].
  rewrite check_verdict.
  destruct (verdict _ 0 0) as [[]|], (stopped s) eqn:E; cbn [events stopped react needStop needExit needStart];
    rewrite alternate_app, IH; done.
Qed.

Definition demo_moves : Datatypes.list move :=
  replicate 12 (Beat false) ++ [Turn; Turn] ++ replicate 3 (Beat true) ++ [Turn; Beat false; Turn].
Definition demo_list : LimitedList HBSnapshot := mkLimitedList 26 [].

Lemma events_alternate_witness :
  length (fold_left (fun s m => run m s) demo_moves (start_state demo_list)).(events) = 2 /\
  alternate false (fold_left (fun s m => run m s) demo_moves (start_state demo_list)).(events) = Some false.
Proof.
  split; [reflexivity|].
  apply (events_alternate (fold_left (fun s m => run m s) demo_moves (start_state demo_list))).
  cbn [demo_moves replicate app fold_left]. repeat apply reach_run. by apply reach_start.
Defined.

(** ** Beats in a row *)

Definition beats (n : nat) (b : bool) (s : state) : state := Nat.iter n (run (Beat b)) s.

Lemma reachable_beats n b s : reachable s -> reachable (beats n b s).
Proof. intros H. induction n; [done|]. by apply reach_run. Qed.

Lemma reachable_list s : reachable s -> wf s.(snapshots) /\ cap s.(snapshots) = 26%Z.
Proof.
  induction 1 as [l Hl|m s Hr [IH1 IH2]].
  - vm_compute in Hl. simplify_eq. split; [|done]. split; cbn; lia.
  - destruct m; cbn [run].
    + cbn [snapshots]. split; [by apply Put_wf|]. unfold record. by rewrite Put_cap.
    + by destruct (check _ _).
Qed.

Lemma beats_newest s n b : reachable s -> n <= 25 ->
  exists t, newest_first (beats n b s).(snapshots) = replicate n b ++ t.
Proof.
  intros Hr. induction n as [|n IH]; intros Hn; [by eexists|].
  destruct IH as [t Ht]; [lia|].
  destruct (reachable_list _ (reachable_beats n b s Hr)) as [Hw Hc].
  change (beats (S n) b s) with (run (Beat b) (beats n b s)).
  set (s' := beats n b s) in *. cbn [run snapshots].
  unfold newest_first, record, Put.
  destruct (Z.gtb_spec (Z.of_nat (length (list (snapshots s') ++ [mkHBSnapshot b]))) (cap (snapshots s')))
    as [Hg|_]; cbn [list].
  - unfold newest_first in Ht. rewrite length_app in Hg. cbn [length] in Hg.
    destruct (list (snapshots s')) as [|x l]; [cbn in *; lia|]. cbn [app removeFront].
    rewrite reverse_snoc. cbn [map Success]. rewrite reverse_cons, map_app in Ht.
    cbn [length] in Hg.
    exists (drop n (map Success (reverse l))). cbn [replicate app]. f_equal.
    rewrite <-(take_drop n (map Success (reverse l))) at 1. f_equal.
    apply (f_equal (take n)) in Ht.
    rewrite take_app_le in Ht by (rewrite length_map, length_reverse; lia).
    by rewrite Ht, take_app_length' by (by rewrite length_replicate).
  - exists t. rewrite reverse_snoc. cbn [map Success replicate app]. f_equal. exact Ht.
Qed.

Lemma verdict_run (b : bool) t : verdict (replicate (threshold b) b ++ t) 0 0 = Some b.
Proof. by destruct b. Qed.

(** C21. Twelve failed heartbeats in a row leave the agent stopped after the
    next turn of the monitor, and three successful ones leave it started,
    from every state the two loops can reach. *)
Theorem runs_decide s b : reachable s ->
  (run Turn (beats (threshold b) b s)).(stopped) = negb b.
Proof.
  intros Hr. destruct (beats_newest s (threshold b) b Hr) as [t Ht]; [|].
  { unfold threshold, hbStartThreshold, hbStopThreshold. destruct b; lia. }
  cbn [run]. rewrite check_verdict, Ht, verdict_run.
  assert (stopped (beats (threshold b) b s) = stopped s) as ->; [by destruct b|].
  by destruct b, (stopped s).
Qed.

Lemma runs_decide_witness :
  (run Turn (beats 12 false (run (Beat true) (start_state demo_list)))).(stopped) = true.
Proof. apply (runs_decide (run (Beat true) (start_state demo_list)) false). by apply reach_run, reach_start. Defined.

(** With the addresses the agent sets up, no stop or start event ever
    reaches the server: the event address is missing, so nothing is sent. *)
Theorem events_never_sent {C} `{TransportChannel C} (client : C) e o ev :
  deliver client e o (InitTransprotUri o) ev = None.
Proof. destruct ev; [..]; unfold deliver, sendEventToServer, InitTransprotUri; done. Qed.

(** A heartbeat never dereferences a nil response; it records exactly one
    outcome, a success when the call to the server gave no error and a
    response marked successful. *)
Theorem heartbeat_records {C} `{TransportChannel C} (client : C) e o uris l :
  heartbeatTick client e o uris l =
    Returns (record l
      match Invoke client e (default zeroUri (uris !! API_HEARTBEAT)) (heartbeatRequest o) true with
      | (_, Some response, None) => response.(Transport.Success)
      | _ => false
      end).
Proof.
  unfold heartbeatTick, sendHeartbeat.
  destruct (Invoke client e _ _ true) as [[r' [resp|]] [err|]] eqn:E; try done.
  - by destruct (Transport.Success resp).
  - apply Invoke_response in E as [? ?]. done.
Qed.
End Monitor.
