(* ===== verification/Chaosblade.v ===== *)
(** * web/handler/chaosblade.go: running blade commands for the server

    [Handle] runs the command of a request through the blade binary, keeps
    the experiments it started in [running], and starts goroutines that watch
    an experiment and report its status (conn/asyncreport). *)

From S2P Require Import Prelude GoStrings Json JsonFacts Options Tools Transport.

Module Chaosblade.
Import Options Tools Transport.

(** ** What the handler touches outside itself *)

(** The files, and the shell: [answers n] is how the shell responds at the
    time of the [n]-th script run.  [calls] lists the argument strings the
    blade binary was run with, oldest first. *)
Record World := mkWorld {
  os : OS;
  answers : nat -> shell;
  calls : list string
}.

(** [bash.ExecScript] on the blade binary. *)
Definition execBlade (args : string) (w : World) : (string * string * bool) * World :=
  let sh := w.(answers) (length w.(calls)) in
  (ExecScript w.(os) sh BladeBinPath args, mkWorld w.(os) w.(answers) (w.(calls) ++ [args])).

(** ** Results of the blade binary *)

Definition parseResult (res : string) : Response :=
  match unmarshalResponse res with
  | Some response => response
  | None =>
      let bladeIndex := Index res "{" in
      if (bladeIndex <? 0)%Z
      then ReturnFail ServerError ["execute success, but parse result err, result: " +:+ res]
      else
        let jsonStr := drop_s (Z.to_nat bladeIndex) res in
        match unmarshalResponse jsonStr with
        | None => ReturnFail ServerError
                    ["execute success, but unmarshal result err with parsing, result: " +:+ res]
        | Some response => response
        end
  end.

Definition isCreateOrPrepareCmd (command : string) : bool :=
  if bool_decide (command ∈ PrepareOperation) then true
  else if bool_decide (command ∈ CreateOperation) then true
  else false.

Definition isDestroyOrRevokeCmd (command : string) : bool :=
  if bool_decide (command ∈ RevokeOperation) then true
  else if bool_decide (command ∈ DestroyOperation) then true
  else false.

Definition JavaType := "jvm".

Definition isJavaAgentInstall (command agentType : string) : bool :=
  if bool_decide (command ∈ PrepareOperation) then agentType ==s JavaType else false.

Definition isRevokeOperation (command : string) : bool :=
  if bool_decide (command ∈ RevokeOperation) then true else false.

(** The loop of [isAsyncCreate]. *)
Fixpoint hasAsyncParam (cmds : list string) : bool :=
  match cmds with
  | [] => false
  | v :: cmds' =>
      if negb (HasPrefix v "--") then hasAsyncParam cmds'
      else if bool_decide (drop_s 2 v ∈ AsyncParamer) then true
      else hasAsyncParam cmds'
  end.

Definition isAsyncCreate (cmd : string) : outcome bool :=
  match Fields cmd with
  | [] => Panics "index out of range [0] with length 0"
  | c :: cmds =>
      if negb (bool_decide (c ∈ CreateOperation)) then Returns false
      else Returns (hasAsyncParam (c :: cmds))
  end.

Definition isK8sCreateCmd (cmd command : string) : bool :=
  if negb (bool_decide (command ∈ CreateOperation)) then false
  else match Fields cmd with
       | _ :: f1 :: _ => EqualFold f1 "k8s"
       | _ => false
       end.

(** ** Finding the uid of an experiment *)

(** [m["uid"].(string)] when it is a non-empty string. *)
Definition uidOf (m : list (string * json)) : option string :=
  match jget "uid" m with
  | JStr uid => if uid ==s "" then None else Some uid
  | _ => None
  end.

Definition extractUidFromRawResult (rawResult : string) : string :=
  match unmarshal_map rawResult with
  | None => ""
  | Some resultMap =>
      let inner := match jget "result" resultMap with JObj m => uidOf m | _ => None end in
      match inner with
      | Some uid => uid
      | None => default "" (uidOf resultMap)
      end
  end.

(** The receiver of the response is never nil in this file. *)
Definition extractUidFromResponse (response : Response) (rawResult : string) : string :=
  let fromMap :=
    match response.(Result) with
    | JObj resultMap => uidOf resultMap
    | JStr "" => m ← unmarshal_map ""; uidOf m
    | JStr uid => Some uid
    | _ => None
    end in
  match fromMap with
  | Some uid => uid
  | None => extractUidFromRawResult rawResult
  end.

(** ** Waiting for the operator *)

(** What the [select] of the loop picks next. *)
Inductive selected := Ticked | Timeout.

Definition nonemptyArray (j : json) : bool :=
  match j with JArr (_ :: _) => true | _ => false end.
Definition isTrue (j : json) : bool := match j with JBool true => true | _ => false end.

(** One tick of [waitForK8sStatus]: whether the loop returns. *)
Definition pollK8sStatus (uid : string) (w : World) : bool * World :=
  let queryCmd := "query k8s create " +:+ uid in
  let '(res, _, ok, w) := execBlade queryCmd w in
  if negb ok then (false, w)
  else
    let response := parseResult res in
    if negb response.(Success) then (false, w)
    else match response.(Result) with
         | JNull => (false, w)
         | JObj resultMap =>
             if nonemptyArray (jget "statuses" resultMap) then (true, w)
             else if isTrue (jget "success" resultMap) then
               (* queries once more and returns whatever comes back *)
               let '(_, w) := execBlade queryCmd w in (true, w)
             else (false, w)
         | JStr resultStr =>
             match unmarshal_map resultStr with
             | None => (false, w)
             | Some resultMap =>
                 if nonemptyArray (jget "statuses" resultMap) then (true, w)
                 else (isTrue (jget "success" resultMap), w)
             end
         | JArr statusesArray => (nonemptyArray (JArr statusesArray), w)
         | _ => (false, w)
         end.

(** The loop, given what the [select] picks; a schedule that ends without a
    return leaves the call blocked. *)
Fixpoint waitForK8sStatus (sched : list selected) (uid : string) (w : World) : outcome World :=
  match sched with
  | [] => Blocks
  | Timeout :: _ => Returns w
  | Ticked :: sched' =>
      let '(returned, w) := pollK8sStatus uid w in
      if returned : bool then Returns w else waitForK8sStatus sched' uid w
  end.

(** ** Status of a preparation *)

Record preparation := mkPreparation {
  prep_Uid : string;
  ProgramType : string;
  Status : string;
  prep_Error : string
}.

(** [if v, ok := fields[k]; ok { x = v.(string) }]. *)
Definition stringField (k : string) (fields : list (string * json)) : outcome string :=
  if jhas k fields then
    match jget k fields with
    | JStr s => Returns s
    | _ => Panics "interface conversion: interface {} is not string"
    end
  else Returns "".

Definition queryPreparationStatus (uid : string) (w : World) : outcome (result preparation * World) :=
  let '(res, errorMsg, isSuccess, w) := execBlade ("status " +:+ uid) w in
  if negb isSuccess then Returns (Err ("invoke blade error, " +:+ errorMsg), w)
  else
    let response := parseResult res in
    match response.(Result) with
    | JNull => Returns (Err "cannot get record", w)
    | JObj fields =>
        programType ← stringField "ProgramType" fields;
        status ← stringField "Status" fields;
        err ← stringField "Error" fields;
        Returns (Ok (mkPreparation uid programType status err), w)
    | _ => Returns (Err "unknown type of response", w)
    end.

(** [timingCheckStatus]: at each tick the context has expired or has not. *)
Inductive tick := Alive | Expired.

Fixpoint timingCheck (sched : list tick) (uid status errorMsg : string) (w : World)
    : outcome (string * string * World) :=
  match sched with
  | [] => Blocks
  | Expired :: _ => Returns (status, errorMsg, w)
  | Alive :: sched' =>
      '(record, w) ← queryPreparationStatus uid w;
      match record with
      | Err _ => timingCheck sched' uid status errorMsg w
      | Ok record =>
          let status := record.(Status) in
          if EqualFold record.(Status) "Created" then timingCheck sched' uid status errorMsg w
          else
            let errorMsg := if EqualFold status "Error" then record.(prep_Error) else errorMsg in
            Returns (status, errorMsg, w)
      end
  end.
Definition timingCheckStatus (sched : list tick) (uid : string) (w : World)
    : outcome (string * string * World) := timingCheck sched uid "Unknown" "" w.

(** ** The handler *)

(** [type ChaosbladeHandler struct]; [mutex] is held by
    [handleCacheAndSafePoint] from its first to its last statement. *)
Record ChaosbladeHandler := mkHandler { running : gmap string string }.
Definition NewChaosbladeHandler : ChaosbladeHandler := mkHandler ∅.

(** The goroutines the handler starts. *)
Inductive task :=
| checkJavaAgent (uid : string)
| checkAsync (uid : string)
| checkJavaAgentUninstall (uid : string).

Definition handleCacheAndSafePoint (ch : ChaosbladeHandler) (cmdline command arg : string)
    (response : Response) (w : World) : outcome (ChaosbladeHandler * list task * World) :=
  if isCreateOrPrepareCmd command then
    match response.(Result) with
    | JStr uid =>
        let ch := mkHandler (<[uid := cmdline]> ch.(running)) in
        let java := if isJavaAgentInstall command arg then [checkJavaAgent uid] else [] in
        isAsync ← isAsyncCreate cmdline;
        Returns (ch, java ++ (if isAsync : bool then [checkAsync uid] else []), w)
    | _ => Panics "interface conversion: interface {} is not string"
    end
  else if isDestroyOrRevokeCmd command then
    let uid := arg in
    let ch := if bool_decide (is_Some (ch.(running) !! uid))
              then mkHandler (delete uid ch.(running)) else ch in
    if isRevokeOperation command then
      '(record, w) ← queryPreparationStatus uid w;
      match record with
      | Err _ => Returns (ch, [], w)
      | Ok record =>
          if record.(ProgramType) ==s JavaType
          then Returns (ch, [checkJavaAgentUninstall uid], w)
          else Returns (ch, [], w)
      end
    else Returns (ch, [], w)
  else Returns (ch, [], w).

(** The wait that [exec] inserts for a k8s create command whose output names
    a uid. *)
Definition waitIfK8sCreate (sched : list selected) (cmd command uid : string) (w : World) : outcome World :=
  if isK8sCreateCmd cmd command
  then if negb (uid ==s "") then waitForK8sStatus sched uid w else Returns w
  else Returns w.

Definition exec (sched : list selected) (ch : ChaosbladeHandler) (cmd : string) (w : World)
    : outcome (Response * ChaosbladeHandler * list task * World) :=
  let fields := Fields cmd in
  match fields with
  | [] => Returns (ReturnFail ParameterLess ["command"], ch, [], w)
  | command :: rest =>
      if negb (IsExist w.(os) BladeBinPath)
      then Returns (ReturnFail ChaosbladeFileNotFound [], ch, [], w)
      else
        let '(res, errMsg, ok, w) := execBlade cmd w in
        if ok : bool then
          let response := parseResult res in
          if negb response.(Success) then
            w ← waitIfK8sCreate sched cmd command (extractUidFromResponse response res) w;
            Returns (response, ch, [], w)
          else
            w ← waitIfK8sCreate sched cmd command (extractUidFromResponse response res) w;
            match rest with
            | [] => Panics "index out of range [1] with length 1"
            | arg :: _ =>
                '(ch, tasks, w) ← handleCacheAndSafePoint ch cmd command arg response w;
                Returns (response, ch, tasks, w)
            end
        else
          match unmarshalResponse res with
          | None =>
              w ← waitIfK8sCreate sched cmd command (extractUidFromRawResult res) w;
              Returns (ReturnFail ResultUnmarshalFailed [res; errMsg], ch, [], w)
          | Some response =>
              w ← waitIfK8sCreate sched cmd command (extractUidFromResponse response res) w;
              Returns (response, ch, [], w)
          end
  end.

Definition Handle (sched : list selected) (ch : ChaosbladeHandler) (request : Request) (w : World)
    : outcome (Response * ChaosbladeHandler * list task * World) :=
  let cmd := get request.(Params) "cmd" in
  if cmd ==s "" then Returns (ReturnFail ParameterEmpty ["cmd"], ch, [], w)
  else exec sched ch cmd w.

(** ** The goroutines *)

(** conn/asyncreport [ReportStatus]: the request, and how [Invoke] ends. *)
Definition statusRequest (o : Options) (uid status errorMsg toolType : string) : Request :=
  let request := AddParam (AddParam (NewRequest o) "uid" uid) "status" status in
  let request := if errorMsg ==s "" then request else AddParam request "error" errorMsg in
  if toolType ==s "" then request else AddParam request "ToolType" toolType.

Section tasks.
Context {C : Type} `{TransportChannel C} (client : C) (e : Env) (o : Options).

Definition ReportStatus (uid status errorMsg toolType : string) (uri : Uri)
    : outcome (Request * option Response * option string) :=
  let sent := Invoke client e uri (statusRequest o uid status errorMsg toolType) true in
  match sent with
  | (_, None, None) => Panics "invalid memory address or nil pointer dereference"
  | _ => Returns sent
  end.

Definition deleteCallback (ch : ChaosbladeHandler) (uid status : string) : ChaosbladeHandler :=
  if EqualFold status "Error" then
    if bool_decide (is_Some (ch.(running) !! uid)) then mkHandler (delete uid ch.(running)) else ch
  else ch.

(** A goroutine from start to end: the status it found, and what it sent,
    [None] when the address is missing. *)
Definition report (uris : gmap string Uri) (api uid status errorMsg : string)
    : outcome (option (Request * option Response * option string)) :=
  match uris !! api with
  | None => Returns None
  | Some uri => s ← ReportStatus uid status errorMsg "" uri; Returns (Some s)
  end.

Definition checkAndReportJavaAgentStatus (sched : list tick) (uris : gmap string Uri) (uid : string)
    (ch : ChaosbladeHandler) (w : World) :=
  '(status, errorMsg, w) ← timingCheckStatus sched uid w;
  let ch := deleteCallback ch uid status in
  sent ← report uris API_JAVA_INSTALL uid status errorMsg;
  Returns (ch, sent, w).

Definition checkAndReportJavaAgentUninstallStatus (sched : list tick) (uris : gmap string Uri)
    (uid : string) (ch : ChaosbladeHandler) (w : World) :=
  '(status, errorMsg, w) ← timingCheckStatus sched uid w;
  sent ← report uris API_JAVA_UNINSTALL uid status errorMsg;
  Returns (ch, sent, w).

(** A missing address is the zero value here. *)
Definition checkAndReportAsyncStatus (sched : list tick) (uris : gmap string Uri) (uid : string)
    (ch : ChaosbladeHandler) (w : World) :=
  '(status, errorMsg, w) ← timingCheckStatus sched uid w;
  let uri := default zeroUri (uris !! API_CHAOSBLADE_ASYNC) in
  s ← ReportStatus uid status errorMsg "" uri;
  Returns (ch, Some s, w).

Definition runTask (sched : list tick) (uris : gmap string Uri) (t : task)
    (ch : ChaosbladeHandler) (w : World)
    : outcome (ChaosbladeHandler * option (Request * option Response * option string) * World) :=
  match t with
  | checkJavaAgent uid => checkAndReportJavaAgentStatus sched uris uid ch w
  | checkAsync uid => checkAndReportAsyncStatus sched uris uid ch w
  | checkJavaAgentUninstall uid => checkAndReportJavaAgentUninstallStatus sched uris uid ch w
  end.
End tasks.

(** ** Reading the output of blade *)

Lemma marshalResponse_brace r : exists t, marshalResponse r = String "{"%char t.
Proof. unfold marshalResponse. cbn [encode]. rewrite app_cons_s. eauto. Qed.

(** A marshalled response is read back as it is, whatever text without an
    opening brace blade printed in front of it. *)
Theorem parseResult_ignores_prefix noise r : portable r -> ~ In_s "{"%char noise ->
  parseResult (noise +:+ marshalResponse r) = r.
Proof.
  intros Hp Hn. unfold parseResult. rewrite response_noise by done.
  destruct (blank noise); [done|]. destruct (marshalResponse_brace r) as [t Et].
  assert (Hi : Index (noise +:+ marshalResponse r) "{" = Z.of_nat (String.length noise)).
  { unfold Index. rewrite Et. by rewrite cut_char. }
  rewrite Hi. replace (_ <? 0)%Z with false by lia.
  by rewrite Nat2Z.id, drop_app_s, response_wire.
Qed.

Definition demo_ok : Response := mkResponse 200 true "" (JStr "uid-1").

Lemma demo_ok_portable : portable demo_ok.
Proof. repeat split. Defined.

Lemma parseResult_ignores_prefix_witness :
  parseResult ("getcwd: cannot access parent directories" +:+ marshalResponse demo_ok) = demo_ok.
Proof.
  apply parseResult_ignores_prefix; [exact demo_ok_portable|]. vm_compute. intuition congruence.
Defined.

(** ** The wait *)

Lemma execBlade_world args w : exists r, execBlade args w = (r, mkWorld w.(os) w.(answers) (w.(calls) ++ [args])).
Proof. unfold execBlade. eauto. Qed.

(** The world after [k] more runs of the same command. *)
Definition ran (k : nat) (args : string) (w : World) : World :=
  mkWorld w.(os) w.(answers) (w.(calls) ++ replicate k args).

Lemma ran_0 args w : ran 0 args w = w.
Proof. destruct w. unfold ran. cbn. by rewrite app_nil_r. Qed.
Lemma ran_1 args w : mkWorld w.(os) w.(answers) (w.(calls) ++ [args]) = ran 1 args w.
Proof. done. Qed.
Lemma ran_ran j k args w : ran j args (ran k args w) = ran (k + j) args w.
Proof. unfold ran. cbn. by rewrite <-app_assoc, <-replicate_add. Qed.

Definition queryCmd (uid : string) : string := "query k8s create " +:+ uid.

(** A tick queries once, and once more only when the loop then returns. *)
Lemma poll_world uid w : exists k,
  (pollK8sStatus uid w).2 = ran k (queryCmd uid) w /\
  k <= 1 + (if (pollK8sStatus uid w).1 then 1 else 0).
Proof.
  unfold pollK8sStatus. fold (queryCmd uid).
  destruct (execBlade_world (queryCmd uid) w) as [[[res err] ok] ->].
  rewrite ran_1. repeat case_match; simplify_eq/=; try (exists 1; split; [done|lia]).
  destruct (execBlade_world (queryCmd uid) (ran 1 (queryCmd uid) w)) as [r E].
  rewrite ran_1, ran_ran in E. change (1 + 1) with 2 in E. exists 2. split; [congruence|lia].
Qed.

(** How many ticks a schedule has before its first timeout. *)
Fixpoint ticks (sched : list selected) : nat :=
  match sched with Ticked :: sched' => S (ticks sched') | _ => 0 end.

Lemma wait_returns sched uid w : Timeout ∈ sched ->
  exists k, waitForK8sStatus sched uid w = Returns (ran k (queryCmd uid) w) /\
            k <= S (ticks sched).
Proof.
  revert w. induction sched as [|[] sched IH]; intros w Hin; [by apply elem_of_nil in Hin| |].
  - cbn [waitForK8sStatus ticks]. destruct (poll_world uid w) as (k & Ew & Hk).
    destruct (pollK8sStatus uid w) as [[] w'] eqn:E; simpl in *; subst w'.
    + exists k. split; [done|lia].
    + assert (Hin' : Timeout ∈ sched) by (by apply elem_of_cons in Hin as [|]).
      destruct (IH (ran k (queryCmd uid) w) Hin') as (k' & -> & Hk').
      exists (k + k'). rewrite ran_ran. split; [done|lia].
  - exists 0. rewrite ran_0. split; [done|lia].
Qed.

Lemma waitIf_returns sched cmd command uid w : Timeout ∈ sched ->
  exists w', waitIfK8sCreate sched cmd command uid w = Returns w' /\ w'.(os) = w.(os) /\
             w'.(answers) = w.(answers).
Proof.
  intros H. unfold waitIfK8sCreate. destruct (isK8sCreateCmd _ _); [|eauto].
  destruct (uid ==s ""); cbn [negb]; [eauto|].
  destruct (wait_returns sched uid w H) as (k & -> & _). eauto.
Qed.

(** The wait for the operator ends with the timeout of its context at the
    latest, changes nothing, and runs blade once per tick plus at most once
    more, always with the same query. *)
Theorem waitForK8sStatus_ends sched uid w : Timeout ∈ sched ->
  exists k, waitForK8sStatus sched uid w =
      Returns (mkWorld w.(os) w.(answers) (w.(calls) ++ replicate k ("query k8s create " +:+ uid)))
    /\ k <= S (ticks sched).
Proof. apply wait_returns. Qed.

Definition demo_os : OS := mkOS (<[BladeBinPath := "elf"]> ∅) (fun _ => None) (fun _ _ => None).
(** A shell that answers every script with the same text and success. *)
Definition always (text : string) : nat -> shell := fun _ _ => (text, None).
Definition demo_world (text : string) : World := mkWorld demo_os (always text) [].

Lemma waitForK8sStatus_ends_witness :
  exists k, waitForK8sStatus [Ticked; Ticked; Timeout] "u1" (demo_world "busy") =
      Returns (mkWorld demo_os (always "busy") (replicate k "query k8s create u1")) /\ k <= 3.
Proof.
  apply (waitForK8sStatus_ends [Ticked; Ticked; Timeout] "u1" (demo_world "busy")). set_solver.
Defined.

(** ** The experiments on record *)

(** What a command line does to the record when blade ended without error:
    the answer's uid is bound to a create or prepare command, the argument of
    a destroy or revoke command is forgotten. *)
Definition track (cmd : string) (response : Response) (m : gmap string string) : gmap string string :=
  match Fields cmd, response.(Success) with
  | command :: arg :: _, true =>
      if bool_decide (command ∈ PrepareOperation ∪ CreateOperation) then
        match response.(Result) with JStr uid => <[uid := cmd]> m | _ => m end
      else if bool_decide (command ∈ RevokeOperation ∪ DestroyOperation) then delete arg m
      else m
  | _, _ => m
  end.

Lemma isCreateOrPrepareCmd_spec c :
  isCreateOrPrepareCmd c = bool_decide (c ∈ PrepareOperation ∪ CreateOperation).
Proof.
  unfold isCreateOrPrepareCmd. repeat case_bool_decide; set_solver.
Qed.
Lemma isDestroyOrRevokeCmd_spec c :
  isDestroyOrRevokeCmd c = bool_decide (c ∈ RevokeOperation ∪ DestroyOperation).
Proof. unfold isDestroyOrRevokeCmd. repeat case_bool_decide; set_solver. Qed.

Lemma forget_delete (m : gmap string string) uid :
  running (if bool_decide (is_Some (m !! uid)) then mkHandler (delete uid m) else mkHandler m)
  = delete uid m.
Proof.
  case_bool_decide as H; [done|]. cbn. apply eq_None_not_Some in H.
  symmetry. by apply delete_id.
Qed.

Lemma handleCache_running ch cmd command arg rest response w ch' ts w' :
  Fields cmd = command :: arg :: rest -> response.(Success) = true ->
  handleCacheAndSafePoint ch cmd command arg response w = Returns (ch', ts, w') ->
  ch'.(running) = track cmd response ch.(running).
Proof.
  intros Hf Hs. unfold handleCacheAndSafePoint, track. rewrite Hf, Hs.
  rewrite isCreateOrPrepareCmd_spec, isDestroyOrRevokeCmd_spec.
  destruct (bool_decide (command ∈ PrepareOperation ∪ CreateOperation)).
  - destruct (Result response) as [| | |uid| |]; try done. intros H.
    apply outcome_bind_returns in H as (b & _ & H). by simplify_eq.
  - destruct (bool_decide (command ∈ RevokeOperation ∪ DestroyOperation)); [|by intros; simplify_eq].
    intros H. rewrite <-(forget_delete (running ch) arg). destruct ch as [m]. cbn [running] in *.
    destruct (isRevokeOperation command); [|by simplify_eq].
    apply outcome_bind_returns in H as ([record w1] & _ & H). repeat case_match; by simplify_eq.
Qed.

(** Whether the script run of [exec] ends without error. *)
Definition scriptOk (cmd : string) (w : World) : bool :=
  (ExecScript w.(os) (w.(answers) (length w.(calls))) BladeBinPath cmd).2.

Lemma exec_running sched ch cmd w resp ch' ts w' :
  exec sched ch cmd w = Returns (resp, ch', ts, w') ->
  ch'.(running) = if scriptOk cmd w then track cmd resp ch.(running) else ch.(running).
Proof.
  unfold exec, scriptOk, execBlade. destruct (Fields cmd) as [|command rest] eqn:Ef.
  { intros [= <- <- <- <-]. unfold track. rewrite Ef. by destruct (_.2). }
  unfold ExecScript. destruct (IsExist (os w) BladeBinPath) eqn:Ex; cbn [negb]; [|by intros [= <- <- <- <-]].
  destruct (answers w (length (calls w)) _) as [out [err|]]; cbn [fst snd].
  - destruct (unmarshalResponse out); intros H; apply outcome_bind_returns in H as (w1 & _ & H); by simplify_eq.
  - destruct (Success (parseResult out)) eqn:Es; cbn [negb]; intros H;
      apply outcome_bind_returns in H as (w1 & _ & H).
    + destruct rest as [|arg rest]; [done|].
      apply outcome_bind_returns in H as ([[ch1 ts1] w2] & H1 & H). simplify_eq.
      by eapply handleCache_running.
    + simplify_eq. unfold track. rewrite Ef, Es. by destruct rest.
Qed.

(** C3. The record of running experiments follows the commands: a request that is
    answered changes it by its own command alone, only when blade ended without
    error and answered success, and then a create or prepare binds the uid of
    the answer to the command line and a destroy or revoke forgets its argument.
    (Later, in its own goroutine, the callback of a failed java agent also
    changes the record.) *)
Theorem exec_tracks sched ch request w resp ch' ts w' :
  let cmd := get request.(Params) "cmd" in
  Handle sched ch request w = Returns (resp, ch', ts, w') ->
  ch'.(running) = if scriptOk cmd w then track cmd resp ch.(running) else ch.(running).
Proof.
  intros cmd. unfold Handle. fold cmd. destruct (eqb_spec_s cmd "") as [E|_].
  - intros [= <- <- <- <-]. rewrite E. by destruct (scriptOk _ _).
  - apply exec_running.
Qed.

Definition create_request (cmd : string) : Request := mkRequest ∅ (<["cmd" := cmd]> ∅).

Definition demo_running : ChaosbladeHandler := mkHandler (<["uid-1" := "create cpu load"]> ∅).
Definition demo_before : World := demo_world (marshalResponse demo_ok).
Definition demo_after : World :=
  mkWorld demo_os (always (marshalResponse demo_ok)) ["create cpu load"].

Lemma demo_create :
  Handle [Timeout] NewChaosbladeHandler (create_request "create cpu load") demo_before =
  Returns (demo_ok, demo_running, [], demo_after).
Proof. vm_compute. reflexivity. Defined.

Lemma exec_tracks_witness :
  demo_running.(running) = track "create cpu load" demo_ok ∅.
Proof.
  exact (exec_tracks [Timeout] NewChaosbladeHandler (create_request "create cpu load")
    demo_before demo_ok demo_running [] demo_after demo_create).
Defined.

(** ** Requests and goroutines interleaved *)

Record sys := mkSys { handler : ChaosbladeHandler; pending : list task; world : World }.

(** A request is served, the goroutine of a java agent calls back with the
    status it found, or the outside world moves on. *)
Inductive step : sys -> sys -> Prop :=
| step_serve sched request ch ts w resp ch' new w' :
    Handle sched ch request w = Returns (resp, ch', new, w') ->
    step (mkSys ch ts w) (mkSys ch' (ts ++ new) w')
| step_callback uid status ch ts w :
    checkJavaAgent uid ∈ ts ->
    step (mkSys ch ts w) (mkSys (deleteCallback ch uid status) ts w)
| step_elapse ch ts w w' : step (mkSys ch ts w) (mkSys ch ts w').

Inductive reachable : sys -> Prop :=
| reach_init w : reachable (mkSys NewChaosbladeHandler [] w)
| reach_step s s' : reachable s -> step s s' -> reachable s'.

(** A command line that starts an experiment. *)
Definition starts_experiment (cmd : string) : Prop :=
  exists command arg rest, Fields cmd = command :: arg :: rest /\
    command ∈ PrepareOperation ∪ CreateOperation.

Lemma track_starts cmd resp m : map_Forall (fun _ => starts_experiment) m ->
  map_Forall (fun _ => starts_experiment) (track cmd resp m).
Proof.
  intros Hm. unfold track. repeat case_match; try done.
  - apply map_Forall_insert_2; [|done]. case_bool_decide; [|done].
    by exists s, s0, l0.
  - by apply map_Forall_delete.
Qed.

Lemma deleteCallback_running ch uid status :
  (deleteCallback ch uid status).(running) =
  if EqualFold status "Error" then delete uid ch.(running) else ch.(running).
Proof.
  unfold deleteCallback. destruct (EqualFold status "Error"); [|done].
  destruct ch as [m]. apply forget_delete.
Qed.

(** In every reachable state, whatever the interleaving of requests and
    callbacks, each recorded experiment was started by a create or prepare
    command with at least one argument. *)
Theorem running_started s : reachable s ->
  map_Forall (fun _ => starts_experiment) s.(handler).(running).
Proof.
  induction 1 as [w|s s' _ IH Hstep]; [apply map_Forall_empty|].
  destruct Hstep as [sched request ch ts w resp ch' new w' H|uid status ch ts w Hin|]; cbn [handler] in *.
  - unfold Handle in H. destruct (_ ==s _); [by simplify_eq|].
    rewrite (exec_running _ _ _ _ _ _ _ _ H). destruct (scriptOk _ w); [|done]. by apply track_starts.
  - rewrite deleteCallback_running. destruct (EqualFold _ _); [|done]. by apply map_Forall_delete.
  - done.
Qed.

Lemma running_started_witness : starts_experiment "create cpu load".
Proof.
  apply (running_started (mkSys demo_running [] demo_after)) with "uid-1"; [|reflexivity].
  eapply reach_step; [apply (reach_init demo_before)|].
  exact (step_serve [Timeout] (create_request "create cpu load") _ [] _ _ _ _ _ demo_create).
Defined.

(** ** Panics and returns *)

(** Blade ends without error and prints [out]. *)
Definition prints (w : World) (cmd out : string) : Prop :=
  IsExist w.(os) BladeBinPath = true /\
  w.(answers) (length w.(calls)) (BladeBinPath +:+ " " +:+ cmd) = (out, None).

Lemma execBlade_prints w cmd out : prints w cmd out ->
  execBlade cmd w = ((out, "", true), mkWorld w.(os) w.(answers) (w.(calls) ++ [cmd])).
Proof. intros [He Ha]. unfold execBlade, ExecScript. by rewrite He, Ha. Qed.

(** A successful answer makes the handler panic when the command line is
    a single word, and when a create or prepare command is answered with a
    result that is not a string. *)
Theorem exec_panics sched ch cmd command rest w out :
  Timeout ∈ sched -> Fields cmd = command :: rest -> prints w cmd out ->
  (parseResult out).(Success) = true ->
  (rest = [] \/
   isCreateOrPrepareCmd command = true /\ as_string (parseResult out).(Result) = None) ->
  exists why, exec sched ch cmd w = Panics why.
Proof.
  intros Ht Hf Hp Hs Hbad. unfold exec. rewrite Hf. pose proof Hp as [He _]. rewrite He. cbn [negb].
  rewrite (execBlade_prints w cmd out Hp), Hs. cbn [negb].
  destruct (waitIf_returns sched cmd command (extractUidFromResponse (parseResult out) out)
              (mkWorld (os w) (answers w) (calls w ++ [cmd])) Ht) as (w1 & -> & _).
  cbn [mbind outcome_bind]. destruct rest as [|arg rest]; [eauto|].
  destruct Hbad as [?|[Hc Hr]]; [done|]. unfold handleCacheAndSafePoint. rewrite Hc.
  destruct (Result (parseResult out)); try done; cbn [mbind outcome_bind]; eauto.
Qed.

Lemma exec_panics_witness :
  exists why, exec [Timeout] NewChaosbladeHandler "help" (demo_world (dq "{'success':true}")) = Panics why.
Proof.
  apply (exec_panics [Timeout] NewChaosbladeHandler "help" "help" [] _ (dq "{'success':true}")).
  - set_solver.
  - reflexivity.
  - split; reflexivity.
  - vm_compute. reflexivity.
  - by left.
Defined.

(** A status answer whose fields, as far as they are there, are strings. *)
Definition stringStatus (out : string) : Prop :=
  forall fields k, (parseResult out).(Result) = JObj fields -> k ∈ ["ProgramType"; "Status"; "Error"] ->
    jhas k fields = true -> is_Some (as_string (jget k fields)).

Lemma stringField_returns k l : (jhas k l = true -> is_Some (as_string (jget k l))) ->
  exists t, stringField k l = Returns t.
Proof.
  unfold stringField. destruct (jhas k l); [|eauto]. intros H. destruct (H eq_refl) as [t Ht].
  destruct (jget k l); try done. eauto.
Qed.

Lemma query_returns uid w :
  (forall out, w.(answers) (length w.(calls)) (BladeBinPath +:+ " status " +:+ uid) = (out, None) -> stringStatus out) ->
  exists r, queryPreparationStatus uid w = Returns r.
Proof.
  intros H. unfold queryPreparationStatus, execBlade, ExecScript.
  destruct (IsExist (os w) BladeBinPath); cbn [negb]; [|eauto].
  change (BladeBinPath +:+ " " +:+ "status " +:+ uid) with (BladeBinPath +:+ " status " +:+ uid).
  destruct (answers w (length (calls w)) _) as [out [err|]] eqn:Ea; cbn [negb]; [eauto|].
  specialize (H out eq_refl). destruct (Result (parseResult out)) as [| | | | |fields] eqn:Er; eauto.
  destruct (stringField_returns "ProgramType" fields) as [t1 ->]; [by apply H; [done|set_solver]|].
  destruct (stringField_returns "Status" fields) as [t2 ->]; [by apply H; [done|set_solver]|].
  destruct (stringField_returns "Error" fields) as [t3 ->]; [by apply H; [done|set_solver]|]. cbn. eauto.
Qed.

(** C28. Outside those two cases, and unless a revoked preparation has a status
    field that is not a string, [exec] comes back with a response once the
    context of its wait can expire. *)
Theorem exec_returns sched ch cmd w : Timeout ∈ sched ->
  (forall command rest out, Fields cmd = command :: rest -> prints w cmd out ->
     (parseResult out).(Success) = true ->
     rest <> [] /\
     (isCreateOrPrepareCmd command = true -> is_Some (as_string (parseResult out).(Result))) /\
     (isRevokeOperation command = true -> forall uid n status,
        head rest = Some uid -> w.(answers) n (BladeBinPath +:+ " status " +:+ uid) = (status, None) ->
        stringStatus status)) ->
  exists r, exec sched ch cmd w = Returns r.
Proof.
  intros Ht Hok. unfold exec. destruct (Fields cmd) as [|command rest] eqn:Ef; [eauto|].
  destruct (IsExist (os w) BladeBinPath) eqn:He; cbn [negb]; [|eauto].
  unfold execBlade, ExecScript. rewrite He. cbn [negb].
  set (w1 := mkWorld (os w) (answers w) (calls w ++ [cmd])).
  assert (Hw : forall uid, exists w', waitIfK8sCreate sched cmd command uid w1 = Returns w' /\ w'.(answers) = w.(answers)).
  { intros uid. destruct (waitIf_returns sched cmd command uid w1 Ht) as (w' & -> & _ & ?). eauto. }
  destruct (answers w (length (calls w)) _) as [out [err|]] eqn:Ea.
  - destruct (unmarshalResponse out) as [r|].
    + destruct (Hw (extractUidFromResponse r out)) as (w' & -> & _). cbn. eauto.
    + destruct (Hw (extractUidFromRawResult out)) as (w' & -> & _). cbn. eauto.
  - destruct (Hw (extractUidFromResponse (parseResult out) out)) as (w' & -> & Hw').
    destruct (Success (parseResult out)) eqn:Es; cbn [negb mbind outcome_bind]; [|eauto].
    destruct (Hok command rest out eq_refl (conj He Ea) Es) as (Hr & Hstr & Hrev).
    destruct rest as [|arg rest]; [done|].
    unfold handleCacheAndSafePoint. destruct (isCreateOrPrepareCmd command).
    + destruct (Hstr eq_refl) as [uid Hu]. destruct (Result (parseResult out)); try done.
      unfold isAsyncCreate. rewrite Ef. destruct (negb _); cbn; eauto.
    + destruct (isDestroyOrRevokeCmd command); [|cbn; eauto]. destruct (isRevokeOperation command); [|cbn; eauto].
      destruct (query_returns arg w') as [[[rc|] w2] ->]; [|cbn; by case_match; eauto|cbn; eauto].
      intros status. rewrite Hw'. by apply Hrev.
Qed.

(** A revoke whose preparation is a java agent. *)
Definition revoked : string := dq "{'success':true,'result':{'ProgramType':'jvm','Status':'Revoked'}}".
Lemma exec_returns_witness :
  exists r, exec [Timeout] NewChaosbladeHandler "revoke uid-1" (demo_world revoked) = Returns r.
Proof.
  apply (exec_returns [Timeout] NewChaosbladeHandler "revoke uid-1" (demo_world revoked)).
  - set_solver.
  - intros command rest out [= <- <-] [_ E] _. injection E as <-. split; [done|]. split; [done|].
    intros _ uid n status _ E. injection E as <-. intros fields k Hf Hk Hh.
    assert (Hfs : fields = [("ProgramType", JStr "jvm"); ("Status", JStr "Revoked")])
      by (vm_compute in Hf; congruence). subst fields.
    assert (k = "ProgramType" \/ k = "Status" \/ k = "Error") as [-> |[-> | ->]] by (clear Hf; set_solver).
    + exists "jvm". reflexivity.
    + exists "Revoked". reflexivity.
    + vm_compute in Hh. discriminate Hh.
Defined.

(** ** The goroutines *)

Lemma timingCheck_ends sched : forall uid status errorMsg w, Expired ∈ sched ->
  timingCheck sched uid status errorMsg w <> Blocks.
Proof.
  induction sched as [|[] sched IH]; intros uid status errorMsg w Hin; [by apply elem_of_nil in Hin| |done].
  assert (Hin' : Expired ∈ sched) by (by apply elem_of_cons in Hin as [|]).
  cbn [timingCheck]. destruct (queryPreparationStatus uid w) as [[[rec|err] w1]|why|] eqn:E; cbn; try done.
  - destruct (EqualFold (Status rec) "Created"); [by apply IH|done].
  - by apply IH.
  - exfalso. unfold queryPreparationStatus, stringField in E.
    repeat (case_match; simplify_eq/=).
Qed.

Lemma timingCheck_error sched : forall uid status w status' errorMsg' w',
  timingCheck sched uid status "" w = Returns (status', errorMsg', w') ->
  errorMsg' <> "" -> EqualFold status' "Error" = true.
Proof.
  induction sched as [|[] sched IH]; intros uid status w status' errorMsg' w' H Hne; [done| |by simplify_eq/=].
  cbn [timingCheck] in H. apply outcome_bind_returns in H as ([[rec|err] w1] & _ & H).
  - destruct (EqualFold (Status rec) "Created"); [by eapply IH|].
    simplify_eq/=. by destruct (EqualFold (Status rec) "Error").
  - by eapply IH.
Qed.

(** Watching an experiment ends by the time its one-minute context
    expires, and an error text is only reported together with the status
    Error. *)
Theorem timingCheckStatus_ends sched uid w : Expired ∈ sched ->
  match timingCheckStatus sched uid w with
  | Returns (status, errorMsg, _) => errorMsg = "" \/ EqualFold status "Error" = true
  | Panics _ => True
  | Blocks => False
  end.
Proof.
  intros H. unfold timingCheckStatus.
  destruct (timingCheck sched uid "Unknown" "" w) as [[[status errorMsg] w']|why|] eqn:E; [|done|].
  - destruct (eqb_spec_s errorMsg ""); [by left|]. right. by eapply timingCheck_error.
  - by apply timingCheck_ends in E.
Qed.

Lemma timingCheckStatus_ends_witness :
  match timingCheckStatus [Alive; Expired] "u" (demo_world (dq "{'success':true,'result':{'Status':'Error','Error':'x'}}")) with
  | Returns (status, errorMsg, _) => errorMsg = "" \/ EqualFold status "Error" = true
  | Panics _ => True
  | Blocks => False
  end.
Proof. apply timingCheckStatus_ends. set_solver. Defined.

Definition task_uid (t : task) : string :=
  match t with checkJavaAgent u | checkAsync u | checkJavaAgentUninstall u => u end.
Definition task_handler (t : task) : string :=
  match t with
  | checkJavaAgent _ => "chaos/javaAgentInstall"
  | checkAsync _ => "chaos/chaosbladeAsync"
  | checkJavaAgentUninstall _ => "chaos/javaAgentUninstall"
  end.

Lemma ReportStatus_sent {C} `{TransportChannel C} (client : C) e o uid status errorMsg toolType uri :
  ReportStatus client e o uid status errorMsg toolType uri =
  Returns (Invoke client e uri (statusRequest o uid status errorMsg toolType) true).
Proof.
  unfold ReportStatus. destruct (Invoke client e uri _ true) as [[r' [resp|]] [err|]] eqn:E; try done.
  by apply Invoke_response in E as [? ?].
Qed.

(** C29. With the addresses the agent sets up, a goroutine that ends its watch
    sends exactly one report, the status it found, to the address of its kind;
    the record loses the uid when a java agent failed and is otherwise left
    alone. *)
Theorem runTask_reports {C} `{TransportChannel C} (client : C) e o sched t ch w status errorMsg w' :
  timingCheckStatus sched (task_uid t) w = Returns (status, errorMsg, w') ->
  exists uri ch', uri.(HandlerName) = task_handler t /\
    runTask client e o sched (InitTransprotUri o) t ch w =
      Returns (ch', Some (Invoke client e uri (statusRequest o (task_uid t) status errorMsg "") true), w') /\
    ch'.(running) =
      match t with
      | checkJavaAgent uid =>
          if EqualFold status "Error" then delete uid ch.(running) else ch.(running)
      | _ => ch.(running)
      end.
Proof.
  intros Ht. destruct t as [uid|uid|uid]; cbn [runTask task_uid task_handler] in *.
  - exists (NewUri o Chaos "chaos/javaAgentInstall"), (deleteCallback ch uid status).
    split; [done|]. split; [|apply deleteCallback_running].
    unfold checkAndReportJavaAgentStatus. rewrite Ht. cbn [mbind outcome_bind].
    change (report client e o (InitTransprotUri o) API_JAVA_INSTALL uid status errorMsg) with
      (s ← ReportStatus client e o uid status errorMsg "" (NewUri o Chaos "chaos/javaAgentInstall");
       Returns (Some s)).
    by rewrite ReportStatus_sent.
  - exists (NewUri o Chaos "chaos/chaosbladeAsync"), ch. split; [done|]. split; [|done].
    unfold checkAndReportAsyncStatus. rewrite Ht. cbn [mbind outcome_bind].
    change (default zeroUri (InitTransprotUri o !! API_CHAOSBLADE_ASYNC))
      with (NewUri o Chaos "chaos/chaosbladeAsync").
    by rewrite ReportStatus_sent.
  - exists (NewUri o Chaos "chaos/javaAgentUninstall"), ch. split; [done|]. split; [|done].
    unfold checkAndReportJavaAgentUninstallStatus. rewrite Ht. cbn [mbind outcome_bind].
    change (report client e o (InitTransprotUri o) API_JAVA_UNINSTALL uid status errorMsg) with
      (s ← ReportStatus client e o uid status errorMsg "" (NewUri o Chaos "chaos/javaAgentUninstall");
       Returns (Some s)).
    by rewrite ReportStatus_sent.
Qed.

#[local] Instance function_channel : TransportChannel (Uri -> string -> result string) := fun f => f.

Lemma runTask_reports_witness : exists uri ch',
  runTask (fun (_ : Uri) (_ : string) => Ok "{}") demo_env AddFlags [Expired] (InitTransprotUri AddFlags)
    (checkJavaAgent "u") demo_running demo_before =
  Returns (ch', Some (Invoke (fun (_ : Uri) (_ : string) => Ok "{}") demo_env uri
                        (statusRequest AddFlags "u" "Unknown" "" "") true), demo_before).
Proof.
  destruct (runTask_reports (fun (_ : Uri) (_ : string) => Ok "{}") demo_env AddFlags [Expired]
              (checkJavaAgent "u") demo_running demo_before "Unknown" "" demo_before eq_refl)
    as (uri & ch' & _ & H & _). by exists uri, ch'.
Defined.
End Chaosblade.
