(* ===== verification/Concurrent.v ===== *)
(** * web/handler/chaosblade.go: requests and goroutines interleaved

    The server runs every request in a goroutine of its own and the handler
    starts more of them.  Here a goroutine is a program counter, and a step of
    the system is one step of one goroutine: a run of blade, a tick of a
    polling loop, taking or releasing the mutex, a change of the record of
    running experiments, a report.  [Chaosblade.exec] is what a goroutine does
    when it runs alone ([solo_is_exec]). *)

From S2P Require Import Prelude GoStrings Json JsonFacts Options Tools Transport Chaosblade.

Module Concurrent.
Import Options Tools Transport Chaosblade.

(** ** Goroutines *)

(** Where a goroutine stands.  A request is at the entry of [exec], in the
    polling loop of [waitForK8sStatus] with what follows it, before the mutex,
    inside [handleCacheAndSafePoint] (at the change of the record, at the query
    of a revoke, at the deferred unlock), or over.  A goroutine of the handler
    is in the loop of [timingCheckStatus], at its callback, at its report, or
    over. *)
Inductive pc :=
| AtExec (cmd : string)
| AtWait (uid : string) (next : pc)
| AtLock (cmd command arg : string) (response : Response)
| AtBook (cmd command arg : string) (response : Response)
| AtQuery (uid : string) (response : Response)
| AtUnlock (next : pc)
| Answered (response : Response)
| Panicked (why : string)
| AtCheck (t : task) (status errorMsg : string)
| AtCallback (t : task) (status errorMsg : string)
| AtReport (t : task) (status errorMsg : string)
| Crashed (why : string)
| Done.

(** What the goroutines share: the files and the runs of blade, the handler,
    its mutex with the goroutine that holds it, what they read of the process,
    and what was sent to the server. *)
Record shared := mkShared {
  world : World;
  handler : ChaosbladeHandler;
  mutex : option nat;
  env : Env;
  opts : Options;
  sent : list (Request * option Response * option string)
}.
Definition set_world (w : World) (s : shared) : shared :=
  mkShared w s.(handler) s.(mutex) s.(env) s.(opts) s.(sent).
Definition set_handler (ch : ChaosbladeHandler) (s : shared) : shared :=
  mkShared s.(world) ch s.(mutex) s.(env) s.(opts) s.(sent).
Definition set_mutex (m : option nat) (s : shared) : shared :=
  mkShared s.(world) s.(handler) m s.(env) s.(opts) s.(sent).
Definition add_sent (x : option (Request * option Response * option string)) (s : shared) : shared :=
  mkShared s.(world) s.(handler) s.(mutex) s.(env) s.(opts) (s.(sent) ++ option_list x).

(** What [exec] goes on with after the run of blade. *)
Definition afterBlade (cmd command : string) (rest : list string) (ran : string * string * bool) : pc :=
  let '(res, errMsg, ok) := ran in
  let wait uid next := if isK8sCreateCmd cmd command then
                         if negb (uid ==s "") then AtWait uid next else next
                       else next in
  if ok : bool then
    let response := parseResult res in
    if negb response.(Success) then wait (extractUidFromResponse response res) (Answered response)
    else wait (extractUidFromResponse response res)
           match rest with
           | [] => Panicked "index out of range [1] with length 1"
           | arg :: _ => AtLock cmd command arg response
           end
  else
    match unmarshalResponse res with
    | None => wait (extractUidFromRawResult res) (Answered (ReturnFail ResultUnmarshalFailed [res; errMsg]))
    | Some response => wait (extractUidFromResponse response res) (Answered response)
    end.

(** The change of the record under the mutex and the goroutines it starts. *)
Definition bookStep (cmd command arg : string) (response : Response) (s : shared) : pc * list task * shared :=
  if isCreateOrPrepareCmd command then
    match response.(Result) with
    | JStr uid =>
        let s := set_handler (mkHandler (<[uid := cmd]> s.(handler).(running))) s in
        let java := if isJavaAgentInstall command arg then [checkJavaAgent uid] else [] in
        match isAsyncCreate cmd with
        | Returns isAsync =>
            (AtUnlock (Answered response), java ++ (if isAsync : bool then [checkAsync uid] else []), s)
        | Panics why => (AtUnlock (Panicked why), java, s)
        | Blocks => (AtBook cmd command arg response, [], s)
        end
    | _ => (AtUnlock (Panicked "interface conversion: interface {} is not string"), [], s)
    end
  else if isDestroyOrRevokeCmd command then
    let s := if bool_decide (is_Some (s.(handler).(running) !! arg))
             then set_handler (mkHandler (delete arg s.(handler).(running))) s else s in
    (if isRevokeOperation command then AtQuery arg response else AtUnlock (Answered response), [], s)
  else (AtUnlock (Answered response), [], s).

(** The query of a revoke, still under the mutex. *)
Definition queryStep (uid : string) (response : Response) (s : shared) : pc * list task * shared :=
  match queryPreparationStatus uid s.(world) with
  | Returns (record, w) =>
      let new := match record with
                 | Ok r => if r.(ProgramType) ==s JavaType then [checkJavaAgentUninstall uid] else []
                 | Err _ => []
                 end in
      (AtUnlock (Answered response), new, set_world w s)
  | Panics why => (AtUnlock (Panicked why), [], set_world (execBlade ("status " +:+ uid) s.(world)).2 s)
  | Blocks => (AtQuery uid response, [], s)
  end.

(** A tick of [timingCheckStatus].  Nobody recovers from a panic in a goroutine
    of the handler: it ends the process. *)
Definition checkStep (c : selected) (t : task) (status errorMsg : string) (s : shared) : pc * shared :=
  match c with
  | Timeout => (AtCallback t status errorMsg, s)
  | Ticked =>
      match queryPreparationStatus (task_uid t) s.(world) with
      | Returns (Err _, w) => (AtCheck t status errorMsg, set_world w s)
      | Returns (Ok record, w) =>
          let status := record.(Status) in
          if EqualFold record.(Status) "Created" then (AtCheck t status errorMsg, set_world w s)
          else (AtCallback t status (if EqualFold status "Error" then record.(prep_Error) else errorMsg),
                set_world w s)
      | Panics why => (Crashed why, set_world (execBlade ("status " +:+ task_uid t) s.(world)).2 s)
      | Blocks => (AtCheck t status errorMsg, s)
      end
  end.

Section system.
Context {C : Type} `{TransportChannel C} (client : C) (uris : gmap string Uri).

Definition reportStep (t : task) (status errorMsg : string) (s : shared) : pc * shared :=
  let post api := report client s.(env) s.(opts) uris api (task_uid t) status errorMsg in
  let sending :=
    match t with
    | checkJavaAgent _ => post API_JAVA_INSTALL
    | checkJavaAgentUninstall _ => post API_JAVA_UNINSTALL
    | checkAsync _ =>
        x ← ReportStatus client s.(env) s.(opts) (task_uid t) status errorMsg ""
              (default zeroUri (uris !! API_CHAOSBLADE_ASYNC));
        Returns (Some x)
    end in
  match sending with
  | Returns x => (Done, add_sent x s)
  | Panics why => (Crashed why, s)
  | Blocks => (AtReport t status errorMsg, s)
  end.

(** One step of goroutine [i]: where it stands afterwards, the goroutines it
    started, the shared state; [None] when it is over or waits for the mutex.
    [c] is what the [select] of a polling loop picks.  There is no clock here:
    a context that the code gives ten seconds or a minute may have expired at
    any turn, as for a goroutine that was not scheduled for that long; no
    theorem needs one to expire early. *)
Definition tstep (i : nat) (c : selected) (p : pc) (s : shared) : option (pc * list task * shared) :=
  match p with
  | AtExec cmd =>
      match Fields cmd with
      | [] => Some (Answered (ReturnFail ParameterLess ["command"]), [], s)
      | command :: rest =>
          if negb (IsExist s.(world).(os) BladeBinPath)
          then Some (Answered (ReturnFail ChaosbladeFileNotFound []), [], s)
          else let '(out, w) := execBlade cmd s.(world) in
               Some (afterBlade cmd command rest out, [], set_world w s)
      end
  | AtWait uid next =>
      match c with
      | Timeout => Some (next, [], s)
      | Ticked => let '(returned, w) := pollK8sStatus uid s.(world) in
                  Some (if returned : bool then next else AtWait uid next, [], set_world w s)
      end
  | AtLock cmd command arg response =>
      match s.(mutex) with
      | None => Some (AtBook cmd command arg response, [], set_mutex (Some i) s)
      | Some _ => None
      end
  | AtBook cmd command arg response => Some (bookStep cmd command arg response s)
  | AtQuery uid response => Some (queryStep uid response s)
  | AtUnlock next => Some (next, [], set_mutex None s)
  | AtCheck t status errorMsg => let '(p, s) := checkStep c t status errorMsg s in Some (p, [], s)
  | AtCallback t status errorMsg =>
      let ch := match t with
                | checkJavaAgent uid => deleteCallback s.(handler) uid status
                | _ => s.(handler)
                end in
      Some (AtReport t status errorMsg, [], set_handler ch s)
  | AtReport t status errorMsg => let '(p, s) := reportStep t status errorMsg s in Some (p, [], s)
  | Answered _ | Panicked _ | Crashed _ | Done => None
  end.

(** The same as a relation, a rule for each way to go on. *)
Inductive tmove (i : nat) (c : selected) : pc -> shared -> pc -> list task -> shared -> Prop :=
| mv_less cmd s : Fields cmd = [] ->
    tmove i c (AtExec cmd) s (Answered (ReturnFail ParameterLess ["command"])) [] s
| mv_missing cmd command rest s : Fields cmd = command :: rest -> IsExist s.(world).(os) BladeBinPath = false ->
    tmove i c (AtExec cmd) s (Answered (ReturnFail ChaosbladeFileNotFound [])) [] s
| mv_blade cmd command rest out w s : Fields cmd = command :: rest ->
    IsExist s.(world).(os) BladeBinPath = true -> execBlade cmd s.(world) = (out, w) ->
    tmove i c (AtExec cmd) s (afterBlade cmd command rest out) [] (set_world w s)
| mv_giveup uid next s : c = Timeout -> tmove i c (AtWait uid next) s next [] s
| mv_poll uid next (returned : bool) w s : c = Ticked -> pollK8sStatus uid s.(world) = (returned, w) ->
    tmove i c (AtWait uid next) s (if returned then next else AtWait uid next) [] (set_world w s)
| mv_lock cmd command arg response s : s.(mutex) = None ->
    tmove i c (AtLock cmd command arg response) s (AtBook cmd command arg response) [] (set_mutex (Some i) s)
| mv_book cmd command arg response s p' new s' : bookStep cmd command arg response s = (p', new, s') ->
    tmove i c (AtBook cmd command arg response) s p' new s'
| mv_query uid response s p' new s' : queryStep uid response s = (p', new, s') ->
    tmove i c (AtQuery uid response) s p' new s'
| mv_unlock next s : tmove i c (AtUnlock next) s next [] (set_mutex None s)
| mv_check t status errorMsg s p' s' : checkStep c t status errorMsg s = (p', s') ->
    tmove i c (AtCheck t status errorMsg) s p' [] s'
| mv_callback t status errorMsg s :
    tmove i c (AtCallback t status errorMsg) s (AtReport t status errorMsg) []
      (set_handler match t with
                   | checkJavaAgent uid => deleteCallback s.(handler) uid status
                   | _ => s.(handler)
                   end s)
| mv_report t status errorMsg s p' s' : reportStep t status errorMsg s = (p', s') ->
    tmove i c (AtReport t status errorMsg) s p' [] s'.

Lemma tstep_moves i c p s p' new s' : tstep i c p s = Some (p', new, s') <-> tmove i c p s p' new s'.
Proof.
  split.
  - intros E. destruct p; cbn [tstep] in E; try done; repeat case_match; simplify_eq;
      first [by eapply (mv_poll _ _ _ _ true)|by eapply (mv_poll _ _ _ _ false)
            |econstructor; first [eassumption|by apply negb_true_iff|by apply negb_false_iff|done]].
  - destruct 1; cbn [tstep]; repeat match goal with E : _ = _ |- _ => rewrite ?E; clear E end; done.
Qed.

(** ** The system *)

Record sys := mkSys { threads : list pc; sh : shared }.
Definition spawn (t : task) : pc := AtCheck t "Unknown" "".
Definition over (p : pc) : bool :=
  match p with Answered _ | Panicked _ | Crashed _ | Done => true | _ => false end.
Definition isCrash (p : pc) : bool := match p with Crashed _ => true | _ => false end.
Definition up (s : sys) : Prop := Forall (fun p => isCrash p = false) s.(threads).

(** The next step of a goroutine looks a key up in the map of running
    experiments, or stores or deletes one. *)
Definition readsMap (p : pc) : bool :=
  match p with
  | AtBook _ command _ _ => negb (isCreateOrPrepareCmd command) && isDestroyOrRevokeCmd command
  | AtCallback (checkJavaAgent _) status _ => EqualFold status "Error"
  | _ => false
  end.
Definition writesMap (p : pc) (m : gmap string string) : bool :=
  match p with
  | AtBook _ command arg response =>
      if isCreateOrPrepareCmd command then match response.(Result) with JStr _ => true | _ => false end
      else isDestroyOrRevokeCmd command && bool_decide (is_Some (m !! arg))
  | AtCallback (checkJavaAgent uid) status _ => EqualFold status "Error" && bool_decide (is_Some (m !! uid))
  | _ => false
  end.

(** As long as the process is up: a goroutine takes a step, a request with a
    command arrives, or the machine, the clock, the keys and the options
    change.  When one goroutine is at a write of the map and another at an
    access to it, Go's runtime may throw a fatal error that nothing recovers
    from; it stands as a goroutine of its own at its end. *)
Inductive step : sys -> sys -> Prop :=
| step_run i c ths s p p' new s' :
    up (mkSys ths s) -> ths !! i = Some p -> tstep i c p s = Some (p', new, s') ->
    step (mkSys ths s) (mkSys (<[i := p']> ths ++ map spawn new) s')
| step_arrive cmd ths s :
    up (mkSys ths s) -> cmd <> "" -> step (mkSys ths s) (mkSys (ths ++ [AtExec cmd]) s)
| step_elapse os' e' o' ths s :
    up (mkSys ths s) ->
    step (mkSys ths s)
         (mkSys ths (mkShared (mkWorld os' s.(world).(answers) s.(world).(calls)) s.(handler) s.(mutex)
                       e' o' s.(sent)))
| step_throw i j p q ths s :
    up (mkSys ths s) -> i <> j -> ths !! i = Some p -> ths !! j = Some q ->
    writesMap p s.(handler).(running) = true -> readsMap q || writesMap q s.(handler).(running) = true ->
    step (mkSys ths s) (mkSys (ths ++ [Crashed "fatal error: concurrent map access"]) s).

Inductive reachable : sys -> Prop :=
| reach_init w e o : w.(calls) = [] -> reachable (mkSys [] (mkShared w NewChaosbladeHandler None e o []))
| reach_step s s' : reachable s -> step s s' -> reachable s'.

(** ** The mutex *)

(** Inside [handleCacheAndSafePoint]. *)
Definition critical (p : pc) : bool :=
  match p with AtBook _ _ _ _ | AtQuery _ _ | AtUnlock _ => true | _ => false end.

(** What may follow a wait and an unlock. *)
Definition wf_pc (p : pc) : Prop :=
  match p with
  | AtWait _ next => match next with Answered _ | Panicked _ | AtLock _ _ _ _ => True | _ => False end
  | AtUnlock next => match next with Answered _ | Panicked _ => True | _ => False end
  | _ => True
  end.

Lemma afterBlade_wf cmd command rest out :
  wf_pc (afterBlade cmd command rest out) /\ critical (afterBlade cmd command rest out) = false.
Proof. unfold afterBlade. destruct out as [[res err] ok]. by repeat case_match. Qed.

(** What the parts of a step leave alone: a booking and a query stay in the
    section, a goroutine of the handler has nothing to do with it. *)
Definition watching (p : pc) : bool :=
  match p with AtCheck _ _ _ | AtCallback _ _ _ | AtReport _ _ _ | Crashed _ | Done => true | _ => false end.

Lemma bookStep_frame cmd command arg response s p new s' : bookStep cmd command arg response s = (p, new, s') ->
  wf_pc p /\ critical p = true /\ s'.(mutex) = s.(mutex) /\ s'.(env) = s.(env) /\ s'.(world) = s.(world).
Proof. unfold bookStep. intros E. repeat case_match; by simplify_eq/=. Qed.

Lemma queryStep_frame uid response s p new s' : queryStep uid response s = (p, new, s') ->
  wf_pc p /\ critical p = true /\ s'.(mutex) = s.(mutex) /\ s'.(env) = s.(env) /\ s'.(handler) = s.(handler).
Proof. unfold queryStep. intros E. repeat case_match; by simplify_eq/=. Qed.

Lemma checkStep_frame c t status errorMsg s p s' : checkStep c t status errorMsg s = (p, s') ->
  watching p = true /\ s'.(mutex) = s.(mutex) /\ s'.(env) = s.(env) /\ s'.(handler) = s.(handler).
Proof. unfold checkStep. intros E. repeat case_match; by simplify_eq/=. Qed.

Lemma reportStep_frame t status errorMsg s p s' : reportStep t status errorMsg s = (p, s') ->
  watching p = true /\ s'.(mutex) = s.(mutex) /\ s'.(env) = s.(env) /\ s'.(handler) = s.(handler) /\
  s'.(world) = s.(world).
Proof. unfold reportStep. intros E. repeat case_match; by simplify_eq/=. Qed.

(** A step enters the section by taking a free mutex, stays, leaves by
    releasing it, or has nothing to do with it. *)
Lemma tstep_mutex i c p s p' new s' : wf_pc p -> tstep i c p s = Some (p', new, s') ->
  wf_pc p' /\
  match critical p, critical p' with
  | false, true => s.(mutex) = None /\ s'.(mutex) = Some i
  | true, false => s'.(mutex) = None
  | _, _ => s'.(mutex) = s.(mutex)
  end.
Proof.
  intros Hw E. apply tstep_moves in E.
  destruct E as [| |cmd command rest out w s| |uid next [] w s| |????? p' ?? E|??? p' ?? E|next s|???? p' ? E| |???? p' ? E];
    try done; try (by destruct next).
  - by destruct (afterBlade_wf cmd command rest out) as [? ->].
  - by apply bookStep_frame in E as (? & -> & ? & _).
  - by apply queryStep_frame in E as (? & -> & ? & _).
  - apply checkStep_frame in E as (? & ? & _). by destruct p'.
  - apply reportStep_frame in E as (? & ? & _). by destruct p'.
Qed.

(** The goroutines read the keys, the clock and the options only. *)
Lemma tstep_env i c p s p' new s' : tstep i c p s = Some (p', new, s') -> s'.(env) = s.(env).
Proof.
  intros E. apply tstep_moves in E. destruct E; try done;
    [eapply bookStep_frame|eapply queryStep_frame|eapply checkStep_frame|eapply reportStep_frame]; eassumption.
Qed.

(** What a step sends is a call with the keys of the moment. *)
Lemma tstep_sent i c p s p' new s' : tstep i c p s = Some (p', new, s') -> exists x,
  s'.(sent) = s.(sent) ++ option_list x /\
  forall y, x = Some y -> exists uri r, y = Invoke client s.(env) uri r true.
Proof.
  intros E. apply tstep_moves in E.
  assert (Hn : s'.(sent) = s.(sent) -> exists x, s'.(sent) = s.(sent) ++ option_list x /\
    forall y, x = Some y -> exists uri r, y = Invoke client s.(env) uri r true).
  { intros ->. exists None. by rewrite app_nil_r. }
  destruct E as [| | | | | |????? p' ?? E|??? p' ?? E| |???? p' ? E| |t st er ? p' ? E]; try (by apply Hn).
  - apply Hn. unfold bookStep in E. repeat case_match; by simplify_eq/=.
  - apply Hn. unfold queryStep in E. repeat case_match; by simplify_eq/=.
  - apply Hn. unfold checkStep in E. repeat case_match; by simplify_eq/=.
  - unfold reportStep, report in E.
    destruct t; [destruct (uris !! _)| |destruct (uris !! _)]; rewrite ?ReportStatus_sent in E; simplify_eq/=;
      try (by apply Hn; rewrite app_nil_r); (eexists (Some _)); (split; [done|]); intros y [= <-]; eauto.
Qed.

Lemma threads_update (ths : list pc) i p p' (new : list task) j q : ths !! i = Some p ->
  (<[i := p']> ths ++ map spawn new) !! j = Some q ->
  (j = i /\ q = p') \/ (j <> i /\ ths !! j = Some q) \/ exists t, q = spawn t.
Proof.
  intros Hi Hq. apply lookup_app_Some in Hq as [Hq|[_ Hq]].
  - destruct (decide (j = i)) as [->|Hne].
    + rewrite list_lookup_insert_eq in Hq by (by eapply lookup_lt_Some). left. by simplify_eq.
    + rewrite list_lookup_insert_ne in Hq by done. auto.
  - right; right. apply list_elem_of_lookup_2, list_elem_of_In, in_map_iff in Hq as (t & <- & _). eauto.
Qed.

(** The holder of the mutex is the one goroutine inside the section. *)
Definition locked (s : sys) : Prop :=
  (forall j q, s.(threads) !! j = Some q -> wf_pc q /\ (critical q = true -> s.(sh).(mutex) = Some j)) /\
  (forall j, s.(sh).(mutex) = Some j -> exists q, s.(threads) !! j = Some q /\ critical q = true).

Lemma locked_step s s' : locked s -> step s s' -> locked s'.
Proof.
  assert (Hadd : forall p ths s, critical p = false -> wf_pc p -> locked (mkSys ths s) -> locked (mkSys (ths ++ [p]) s)).
  { intros p ths t Hc Hw [H1 H2]. split; cbn [threads sh] in *.
    - intros j q Hq. apply lookup_app_Some in Hq as [Hq|[_ Hq]]; [by apply H1|].
      apply list_lookup_singleton_Some in Hq as [_ <-]. split; [done|congruence].
    - intros j Hj. destruct (H2 j Hj) as (q & Hq & ?). exists q. split; [by apply lookup_app_l_Some|done]. }
  intros Hl Hs. destruct Hs as [i c ths s p p' new s' _ Hi E|cmd ths s _ _|os' e' o' ths s _|i j p q ths s _ _ _ _ _ _];
    [|by apply Hadd|by destruct Hl; split|by apply Hadd].
  destruct Hl as [H1 H2]. cbn [threads sh] in *.
  - destruct (H1 i p Hi) as [Hw Hc]. apply tstep_mutex in E as [Hw' Hm]; [|done]. split; cbn [threads sh].
    + intros j q Hq. destruct (threads_update _ _ _ _ _ _ _ Hi Hq) as [[-> ->]|[[Hne Hj]|[t ->]]]; [| |done].
      * split; [done|]. intros Hq'. rewrite Hq' in Hm. destruct (critical p); [|tauto]. rewrite Hm. auto.
      * destruct (H1 j q Hj) as [? Hcj]. split; [done|]. intros Hq'. specialize (Hcj Hq').
        destruct (critical p) eqn:Ep; [specialize (Hc eq_refl); congruence|].
        destruct (critical p'); [destruct Hm; congruence|congruence].
    + intros j Hj. destruct (decide (j = i)) as [->|Hne].
      * exists p'. rewrite lookup_app_l, list_lookup_insert_eq by (rewrite ?length_insert; by eapply lookup_lt_Some).
        split; [done|]. destruct (critical p) eqn:Ep, (critical p') eqn:Ep'; try done; [congruence|].
        rewrite Hm in Hj. destruct (H2 i Hj) as (q & Hq & Hcq). congruence.
      * assert (Hmj : mutex s = Some j).
        { destruct (critical p) eqn:Ep, (critical p') eqn:Ep'; try congruence. destruct Hm; congruence. }
        destruct (H2 j Hmj) as (q & Hq & Hcq). exists q. split; [|done].
        apply lookup_app_l_Some. by rewrite list_lookup_insert_ne.
Qed.

Lemma reachable_locked s : reachable s -> locked s.
Proof.
  induction 1 as [w e o _|s s' _ IH Hs]; [|by eapply locked_step]. by split.
Qed.

Lemma section_unique s i j p q : reachable s ->
  s.(threads) !! i = Some p -> s.(threads) !! j = Some q -> critical p = true -> critical q = true ->
  i = j /\ s.(sh).(mutex) = Some i.
Proof.
  intros [Hl _]%reachable_locked Hi Hj Hp Hq. destruct (Hl i p Hi) as [_ H1], (Hl j q Hj) as [_ H2].
  specialize (H1 Hp). specialize (H2 Hq). split; congruence.
Qed.

(** The mutex works: in every reachable state at most one goroutine is inside
    [handleCacheAndSafePoint], and it is the one that holds the mutex. *)
Theorem one_in_section s i j p q : reachable s ->
  s.(threads) !! i = Some p -> s.(threads) !! j = Some q -> critical p = true -> critical q = true ->
  i = j /\ s.(sh).(mutex) = Some i.
Proof. apply section_unique. Qed.

(** ** Progress *)

Lemma stringField_ends k l : stringField k l <> Blocks.
Proof. unfold stringField. by repeat case_match. Qed.
Lemma queryPreparationStatus_ends uid w : queryPreparationStatus uid w <> Blocks.
Proof.
  unfold queryPreparationStatus. destruct (execBlade _ w) as [[[res err] ok] w']. destruct ok; [|done]. cbn [negb].
  destruct (Result (parseResult res)) as [| | | | |l]; try done.
  pose proof (stringField_ends "ProgramType" l). pose proof (stringField_ends "Status" l).
  pose proof (stringField_ends "Error" l).
  destruct (stringField "ProgramType" l), (stringField "Status" l), (stringField "Error" l); done.
Qed.
Lemma isAsyncCreate_ends cmd : isAsyncCreate cmd <> Blocks.
Proof. unfold isAsyncCreate. by repeat case_match. Qed.

(** The steps left to a goroutine inside the section. *)
Definition toRelease (p : pc) : nat :=
  match p with AtBook _ _ _ _ => 3 | AtQuery _ _ => 2 | AtUnlock _ => 1 | _ => 0 end.

Lemma release_nearer i c p s : critical p = true ->
  exists p' new s', tstep i c p s = Some (p', new, s') /\ (wf_pc p -> toRelease p' < toRelease p).
Proof.
  intros Hc. destruct p; try done; cbn [tstep].
  - destruct (bookStep cmd command arg response s) as [[p' new] s'] eqn:E. do 3 eexists. split; [done|].
    intros _. unfold bookStep in E. pose proof (isAsyncCreate_ends cmd).
    repeat case_match; simplify_eq/=; lia || done.
  - destruct (queryStep uid response s) as [[p' new] s'] eqn:E. do 3 eexists. split; [done|].
    intros _. unfold queryStep in E. pose proof (queryPreparationStatus_ends uid (world s)).
    repeat case_match; simplify_eq/=; lia || done.
  - do 3 eexists. split; [done|]. cbn [wf_pc]. destruct p; cbn; lia || done.
Qed.

(** Only a held mutex stops a goroutine that is not over. *)
Lemma tstep_enabled i c p s : over p = false ->
  (exists p' new s', tstep i c p s = Some (p', new, s')) \/ is_Some s.(mutex).
Proof.
  intros Ho. destruct p; cbn [over] in Ho; try done; cbn [tstep].
  - left. destruct (Fields cmd); [eauto|]. destruct (negb _); [eauto|]. destruct (execBlade _ _). eauto.
  - left. destruct c; [destruct (pollK8sStatus _ _)|]; eauto.
  - destruct (mutex s); eauto.
  - left. destruct (bookStep _ _ _ _ _) as [[? ?] ?]. eauto.
  - left. destruct (queryStep _ _ _) as [[? ?] ?]. eauto.
  - eauto.
  - left. destruct (checkStep _ _ _ _ _). eauto.
  - eauto.
  - left. destruct (reportStep _ _ _ _). eauto.
Qed.

(** In every reachable state a goroutine that is not over can take a step, or it
    waits for the mutex, whose holder can take a step and, taking only its own,
    leaves the section after at most three. *)
Lemma not_stuck s i p c : reachable s -> s.(threads) !! i = Some p -> over p = false ->
  (exists p' new s', tstep i c p s.(sh) = Some (p', new, s')) \/
  (exists j q, s.(sh).(mutex) = Some j /\ s.(threads) !! j = Some q /\ 0 < toRelease q <= 3 /\
     exists q' new s', tstep j c q s.(sh) = Some (q', new, s') /\ toRelease q' < toRelease q).
Proof.
  intros [H1 H2]%reachable_locked Hi Ho. destruct (tstep_enabled i c p (sh s) Ho) as [|[j Hj]]; [by left|].
  right. destruct (H2 j Hj) as (q & Hq & Hc). exists j, q. split; [done|]. split; [done|].
  split; [destruct q; cbn in *; lia || done|].
  destruct (release_nearer j c q (sh s) Hc) as (q' & new & s' & E & Hlt). exists q', new, s'.
  split; [done|]. apply Hlt. by apply (H1 j q Hq).
Qed.

(** ** The record of experiments *)

(** What a goroutine that is about to book carries. *)
Definition booking (p : pc) : Prop :=
  match p with
  | AtLock cmd command arg response | AtBook cmd command arg response
  | AtWait _ (AtLock cmd command arg response) =>
      response.(Success) = true /\ exists rest, Fields cmd = command :: arg :: rest
  | _ => True
  end.

(** What a step of a goroutine does to the record. *)
Definition effect (p : pc) (m : gmap string string) : gmap string string :=
  match p with
  | AtBook cmd _ _ response => track cmd response m
  | AtCallback (checkJavaAgent uid) status _ => if EqualFold status "Error" then delete uid m else m
  | _ => m
  end.

Lemma bookStep_effect cmd command arg rest response s p new s' :
  Fields cmd = command :: arg :: rest -> response.(Success) = true ->
  bookStep cmd command arg response s = (p, new, s') ->
  s'.(handler).(running) = track cmd response s.(handler).(running).
Proof.
  intros Hf Hs. unfold bookStep, track. rewrite Hf, Hs.
  rewrite isCreateOrPrepareCmd_spec, isDestroyOrRevokeCmd_spec.
  destruct (bool_decide (command ∈ PrepareOperation ∪ CreateOperation)).
  - destruct (Result response) as [| | |uid| |]; try (by intros; simplify_eq).
    destruct (isAsyncCreate cmd); by intros; simplify_eq.
  - destruct (bool_decide (command ∈ RevokeOperation ∪ DestroyOperation)); [|by intros; simplify_eq].
    rewrite <-(forget_delete (running (handler s)) arg). intros [= _ _ <-]. case_bool_decide; done.
Qed.

Lemma afterBlade_booking cmd command rest out :
  Fields cmd = command :: rest -> booking (afterBlade cmd command rest out).
Proof.
  intros Hf. unfold afterBlade. destruct out as [[res err] ok].
  destruct ok; [|by repeat case_match].
  destruct (Success (parseResult res)) eqn:Es; cbn [negb]; [|by repeat case_match].
  destruct rest as [|arg rest]; [by repeat case_match|].
  repeat case_match; cbn [booking]; (split; [done|]); by exists rest.
Qed.

Lemma tstep_effect i c p s p' new s' : wf_pc p -> booking p -> tstep i c p s = Some (p', new, s') ->
  booking p' /\ s'.(handler).(running) = effect p s.(handler).(running).
Proof.
  intros Hw Hb E. apply tstep_moves in E.
  destruct E as [| |cmd command rest out w s Hf| |uid next [] w s| |????? p' ?? E|??? p' ?? E|next s|???? p' ? E|t ???|???? p' ? E];
    try done; try (by destruct next).
  - split; [by apply afterBlade_booking|done].
  - destruct Hb as (Hs & rest & Hf). split; [|by eapply bookStep_effect].
    unfold bookStep in E. repeat case_match; simplify_eq/=; eauto.
  - unfold queryStep in E. repeat case_match; by simplify_eq/=.
  - apply checkStep_frame in E as (? & _ & _ & ->). by destruct p'.
  - split; [done|]. destruct t; [apply deleteCallback_running|done..].
  - apply reportStep_frame in E as (? & _ & _ & -> & _). by destruct p'.
Qed.

(** ** What has happened *)

(** A request arrived; a command was booked with blade's answer; a java agent
    failed to attach. *)
Inductive event := Arrived (cmd : string) | Booked (cmd : string) (response : Response) | Failed (uid : string).
Definition eventsOf (p : pc) : list event :=
  match p with
  | AtBook cmd _ _ response => [Booked cmd response]
  | AtCallback (checkJavaAgent uid) status _ => if EqualFold status "Error" then [Failed uid] else []
  | _ => []
  end.

(** Reachable states with the events that led there, oldest first. *)
Inductive history : sys -> list event -> Prop :=
| hist_init w e o : w.(calls) = [] -> history (mkSys [] (mkShared w NewChaosbladeHandler None e o [])) []
| hist_run i c ths s p p' new s' log :
    history (mkSys ths s) log -> up (mkSys ths s) -> ths !! i = Some p -> tstep i c p s = Some (p', new, s') ->
    history (mkSys (<[i := p']> ths ++ map spawn new) s') (log ++ eventsOf p)
| hist_arrive cmd ths s log :
    history (mkSys ths s) log -> up (mkSys ths s) -> cmd <> "" ->
    history (mkSys (ths ++ [AtExec cmd]) s) (log ++ [Arrived cmd])
| hist_elapse os' e' o' ths s log :
    history (mkSys ths s) log -> up (mkSys ths s) ->
    history (mkSys ths (mkShared (mkWorld os' s.(world).(answers) s.(world).(calls)) s.(handler) s.(mutex)
                          e' o' s.(sent))) log
| hist_throw i j p q ths s log :
    history (mkSys ths s) log -> up (mkSys ths s) -> i <> j -> ths !! i = Some p -> ths !! j = Some q ->
    writesMap p s.(handler).(running) = true -> readsMap q || writesMap q s.(handler).(running) = true ->
    history (mkSys (ths ++ [Crashed "fatal error: concurrent map access"]) s) log.

Lemma history_reachable s log : history s log -> reachable s.
Proof.
  induction 1; [by apply reach_init|eapply reach_step; [done|]..]; [by eapply step_run|by apply step_arrive| |].
  - by apply (step_elapse os' e' o' ths s).
  - by apply (step_throw i j p q).
Qed.
Lemma reachable_history s : reachable s -> exists log, history s log.
Proof.
  induction 1 as [w e o Hw|s s' _ [log IH] Hs]; [exists []; by apply hist_init|].
  destruct Hs; eexists; [by eapply hist_run|by apply hist_arrive|by apply hist_elapse|by apply (hist_throw i j p q)].
Qed.

Definition replay (m : gmap string string) (e : event) : gmap string string :=
  match e with
  | Arrived _ => m
  | Booked cmd response => track cmd response m
  | Failed uid => delete uid m
  end.

Lemma replay_events p m : foldl replay m (eventsOf p) = effect p m.
Proof. destruct p as [| | | | | | | | |[] st er| | |]; try done. cbn. by destruct (EqualFold st "Error"). Qed.

Lemma history_booking s log : history s log ->
  forall j q, s.(threads) !! j = Some q -> wf_pc q /\ booking q.
Proof.
  assert (Hadd : forall p ths, wf_pc p /\ booking p -> (forall j q, ths !! j = Some q -> wf_pc q /\ booking q) ->
    forall j q, (ths ++ [p]) !! j = Some q -> wf_pc q /\ booking q).
  { intros p ths Hp Hths j q Hq. apply lookup_app_Some in Hq as [Hq|[_ Hq]]; [by apply (Hths j)|].
    by apply list_lookup_singleton_Some in Hq as [_ <-]. }
  induction 1 as [|i c ths s p p' new s' log Hh IH _ Hi E|cmd ths s log _ IH _ _| |i j p q ths s log _ IH _ _ _ _ _ _];
    cbn [threads] in *; try done; [|by apply Hadd|by apply Hadd].
  - intros j q Hq. destruct (IH i p Hi) as [Hw Hb].
    destruct (tstep_mutex _ _ _ _ _ _ _ Hw E) as [Hw' _], (tstep_effect _ _ _ _ _ _ _ Hw Hb E) as [Hb' _].
    destruct (threads_update _ _ _ _ _ _ _ Hi Hq) as [[-> ->]|[[_ Hj]|[t ->]]]; [done|by apply (IH j)|done].
Qed.

Lemma history_record s log : history s log ->
  s.(sh).(handler).(running) = foldl replay ∅ log.
Proof.
  induction 1 as [|i c ths s p p' new s' log Hh IH _ Hi E|cmd ths s log _ IH _ _| |]; cbn [sh] in *; try done.
  - destruct (history_booking _ _ Hh i p Hi) as [Hw Hb].
    destruct (tstep_effect _ _ _ _ _ _ _ Hw Hb E) as [_ ->]. by rewrite IH, foldl_app, replay_events.
  - by rewrite foldl_app.
Qed.

(** C7. The record follows the events: whatever the interleaving, what the handler
    holds is what replaying the bookings and failures in their order makes of
    an empty record. *)
Theorem record_replays s log : history s log ->
  s.(sh).(handler).(running) = foldl replay ∅ log.
Proof. apply history_record. Qed.

(** ** Every run of blade and every booking has its request *)

(** A query about a uid. *)
Definition isPoll (uid call : string) : Prop := call = "status " +:+ uid \/ call = queryCmd uid.

(** The uids in what blade printed: the result of the response, or the field
    of the name. *)
Definition uidsIn (out : string) : list string :=
  extractUidFromRawResult out :: extractUidFromResponse (parseResult out) out ::
  match (parseResult out).(Result) with JStr uid => [uid] | _ => [] end ++
  match unmarshalResponse out with Some response => [extractUidFromResponse response out] | None => [] end.
(** A command names a uid: it revokes it, or blade printed it when it ran the
    command. *)
Definition names (blade : nat -> shell) (cmd uid : string) : Prop :=
  (exists command rest, Fields cmd = command :: uid :: rest /\ isRevokeOperation command = true) \/
  exists n, uid ∈ uidsIn (blade n (BladeBinPath +:+ " " +:+ cmd)).1.
(** A query about a uid that one of the commands names. *)
Definition follows (blade : nat -> shell) (cmds : list string) (call : string) : Prop :=
  exists cmd uid, cmd ∈ cmds /\ names blade cmd uid /\ isPoll uid call.

(** The uid a goroutine asks about. *)
Definition asks (p : pc) : list string :=
  match p with
  | AtWait uid _ | AtQuery uid _ => [uid]
  | AtCheck t _ _ => [task_uid t]
  | _ => []
  end.
(** What a goroutine works on comes from one of the commands. *)
Fixpoint stems (blade : nat -> shell) (cmds : list string) (p : pc) : Prop :=
  let named uid := exists cmd, cmd ∈ cmds /\ names blade cmd uid in
  match p with
  | AtExec cmd => cmd ∈ cmds
  | AtWait uid next => named uid /\ stems blade cmds next
  | AtLock cmd command arg response | AtBook cmd command arg response =>
      cmd ∈ cmds /\ (exists rest, Fields cmd = command :: arg :: rest) /\
      forall uid, response.(Result) = JStr uid -> names blade cmd uid
  | AtQuery uid _ => named uid
  | AtUnlock next => stems blade cmds next
  | AtCheck t _ _ | AtCallback t _ _ | AtReport t _ _ => named (task_uid t)
  | _ => True
  end.

Lemma stems_more blade cmds cmds' p : cmds ⊆ cmds' -> stems blade cmds p -> stems blade cmds' p.
Proof.
  intros Hc. induction p; cbn [stems]; try done; try naive_solver.
Qed.

Lemma uidsIn_response out uid : (parseResult out).(Result) = JStr uid -> uid ∈ uidsIn out.
Proof. intros E. unfold uidsIn. rewrite E. set_solver. Qed.

Lemma afterBlade_stems blade cmds cmd command rest n errMsg ok :
  cmd ∈ cmds -> Fields cmd = command :: rest ->
  let out := (blade n (BladeBinPath +:+ " " +:+ cmd)).1 in
  stems blade cmds (afterBlade cmd command rest (out, errMsg, ok)).
Proof.
  intros Hc Hf out.
  assert (Hn : forall uid, uid ∈ uidsIn out -> names blade cmd uid) by (intros uid Hu; right; by exists n).
  assert (Hw : forall uid next, uid ∈ uidsIn out -> stems blade cmds next ->
    stems blade cmds (if isK8sCreateCmd cmd command then if negb (uid ==s "") then AtWait uid next else next else next)).
  { intros uid next Hu Hnext. destruct (isK8sCreateCmd cmd command), (negb (uid ==s "")); try done.
    split; [|done]. exists cmd. auto. }
  unfold afterBlade. destruct ok; [destruct (negb _)|destruct (unmarshalResponse out) as [r|] eqn:Er]; apply Hw;
    try (unfold uidsIn; rewrite ?Er; set_solver); try done.
  destruct rest as [|arg rest]; [done|]. cbn [stems]. split_and!; [done|by exists rest|].
  intros uid Hu. by apply Hn, uidsIn_response.
Qed.

Lemma bookStep_stems blade cmds cmd command arg response s p new s' :
  stems blade cmds (AtBook cmd command arg response) -> bookStep cmd command arg response s = (p, new, s') ->
  stems blade cmds p /\ Forall (fun t => stems blade cmds (spawn t)) new.
Proof.
  intros (Hc & [rest Hf] & Hr) E.
  assert (Ht : forall t, response.(Result) = JStr (task_uid t) -> stems blade cmds (spawn t)).
  { intros t Et. exists cmd. auto. }
  assert (Hq : isRevokeOperation command = true -> exists cmd, cmd ∈ cmds /\ names blade cmd arg).
  { intros Ho. exists cmd. split; [done|]. left. eauto. }
  unfold bookStep in E. pose proof (isAsyncCreate_ends cmd).
  repeat case_match; simplify_eq; try done; (split; [by try apply Hq|]); cbn [app];
    repeat (constructor; [by apply Ht|]); constructor.
Qed.

Lemma queryStep_stems blade cmds uid response s p new s' :
  stems blade cmds (AtQuery uid response) -> queryStep uid response s = (p, new, s') ->
  stems blade cmds p /\ Forall (fun t => stems blade cmds (spawn t)) new.
Proof.
  intros Hn E. unfold queryStep in E. repeat case_match; simplify_eq/=; (split; [done|]); by repeat constructor.
Qed.

Lemma execBlade_answers args w : (execBlade args w).2.(answers) = w.(answers).
Proof. done. Qed.
Lemma queryPreparationStatus_answers uid w r w' : queryPreparationStatus uid w = Returns (r, w') ->
  w'.(answers) = w.(answers).
Proof.
  unfold queryPreparationStatus, execBlade. destruct (ExecScript _ _ _ _) as [[res err] ok].
  intros E. destruct (negb ok); [by simplify_eq|]. destruct (Result _); try (by simplify_eq).
  do 3 (apply outcome_bind_returns in E as (? & _ & E)). by simplify_eq.
Qed.

Lemma tstep_answers i c p s p' new s' : tstep i c p s = Some (p', new, s') ->
  s'.(world).(answers) = s.(world).(answers).
Proof.
  intros E. apply tstep_moves in E.
  destruct E as [| |cmd command rest out w s _ _ E| |uid next b w s _ E| |????? p' ?? E|uid ?? p' ?? E| |c0 t ?? p' ? E| |???? p' ? E];
    try done.
  - by rewrite <-(execBlade_answers cmd (world s)), E.
  - destruct (poll_world uid (world s)) as (k & Ek & _). rewrite E in Ek. by simplify_eq/=.
  - by apply bookStep_frame in E as (_ & _ & _ & _ & ->).
  - unfold queryStep in E. destruct (queryPreparationStatus uid (world s)) as [[r w]| |] eqn:Eq; simplify_eq; try done.
    by eapply queryPreparationStatus_answers.
  - unfold checkStep in E. destruct c; [|by simplify_eq].
    destruct (queryPreparationStatus (task_uid _) (world _)) as [[[r|] w]| |] eqn:Eq; repeat case_match; simplify_eq; try done;
      by eapply queryPreparationStatus_answers.
  - by apply reportStep_frame in E as (_ & _ & _ & _ & ->).
Qed.

Lemma tstep_stems cmds i c p s p' new s' : wf_pc p -> stems s.(world).(answers) cmds p ->
  tstep i c p s = Some (p', new, s') ->
  stems s.(world).(answers) cmds p' /\ Forall (fun t => stems s.(world).(answers) cmds (spawn t)) new.
Proof.
  intros Hw Hp E. apply tstep_moves in E.
  destruct E as [| |cmd command rest out w s Hf Hx E| |uid next b w s _ E| |????? p' ?? E|uid ?? p' ?? E|next s|t st er s p' ? E|t st er s|t st er s p' ? E];
    try (by split); try (by split; [apply Hp|]).
  - split; [|done]. unfold execBlade, ExecScript in E. rewrite Hx in E. cbn [negb] in E.
    pose proof (afterBlade_stems (answers (world s)) cmds cmd command rest (length (calls (world s)))) as Ha.
    destruct (answers (world s) (length (calls (world s))) _) as [out' [e|]]; simplify_eq; by apply Ha.
  - destruct Hp as [Hn Hp]. split; [|done]. destruct b; [done|by split].
  - by eapply bookStep_stems.
  - by eapply queryStep_stems.
  - split; [|done]. unfold checkStep in E. repeat case_match; by simplify_eq.
  - split; [|done]. unfold reportStep in E. repeat case_match; by simplify_eq.
Qed.

(** The command a goroutine has still to run, and to book. *)
Definition toRun (p : pc) : list string := match p with AtExec cmd => [cmd] | _ => [] end.
Definition toBook (p : pc) : list string :=
  match p with
  | AtExec cmd | AtLock cmd _ _ _ | AtBook cmd _ _ _ | AtWait _ (AtLock cmd _ _ _) => [cmd]
  | _ => []
  end.
Definition arrived (log : list event) : list string :=
  log ≫= fun e => match e with Arrived cmd => [cmd] | _ => [] end.
Definition booked (log : list event) : list string :=
  log ≫= fun e => match e with Booked cmd _ => [cmd] | _ => [] end.

Lemma queryPreparationStatus_calls uid w r w' : queryPreparationStatus uid w = Returns (r, w') ->
  w'.(calls) = w.(calls) ++ ["status " +:+ uid].
Proof.
  unfold queryPreparationStatus, execBlade. destruct (ExecScript _ _ _ _) as [[res err] ok].
  intros E. destruct (negb ok); [by simplify_eq|]. destruct (Result _); try (by simplify_eq).
  do 3 (apply outcome_bind_returns in E as (? & _ & E)). by simplify_eq.
Qed.
Lemma execBlade_calls args w : (execBlade args w).2.(calls) = w.(calls) ++ [args].
Proof. done. Qed.

Lemma poll_calls uid w : exists po, (pollK8sStatus uid w).2.(calls) = w.(calls) ++ po /\ Forall (isPoll uid) po.
Proof.
  destruct (poll_world uid w) as (k & -> & _). exists (replicate k (queryCmd uid)). split; [done|].
  apply Forall_replicate. by right.
Qed.

(** Each part of a step has blade run queries only. *)
Definition queries (uids : list string) (s s' : shared) : Prop :=
  exists po, s'.(world).(calls) = s.(world).(calls) ++ po /\ Forall (fun call => exists uid, uid ∈ uids /\ isPoll uid call) po.

Lemma queries_none uids s s' : s'.(world) = s.(world) -> queries uids s s'.
Proof. intros E. exists []. by rewrite E, app_nil_r. Qed.

Lemma queries_status uid w (s : shared) : w.(calls) = s.(world).(calls) ++ ["status " +:+ uid] ->
  queries [uid] s (set_world w s).
Proof.
  intros E. exists ["status " +:+ uid]. split; [done|]. repeat constructor. exists uid. split; [set_solver|by left].
Qed.

Lemma queryStep_calls uid response s p new s' : queryStep uid response s = (p, new, s') -> queries [uid] s s'.
Proof.
  unfold queryStep. pose proof (queryPreparationStatus_ends uid (world s)).
  destruct (queryPreparationStatus uid (world s)) as [[record w]| |] eqn:Eq; [| |done]; intros E; simplify_eq;
    apply (queries_status uid); [by apply queryPreparationStatus_calls in Eq|apply execBlade_calls].
Qed.

Lemma checkStep_calls c t status errorMsg s p s' : checkStep c t status errorMsg s = (p, s') ->
  queries [task_uid t] s s'.
Proof.
  unfold checkStep. pose proof (queryPreparationStatus_ends (task_uid t) (world s)).
  destruct c; [|intros; simplify_eq; by apply queries_none].
  destruct (queryPreparationStatus (task_uid t) (world s)) as [[[record|] w]| |] eqn:Eq; [..|done]; intros E;
    try apply queryPreparationStatus_calls in Eq; repeat case_match; simplify_eq;
    apply (queries_status (task_uid t)); done || apply execBlade_calls.
Qed.

Lemma afterBlade_todo cmd command rest out :
  toRun (afterBlade cmd command rest out) = [] /\ toBook (afterBlade cmd command rest out) ⊆+ [cmd].
Proof.
  unfold afterBlade. destruct out as [[? ?] ?]. repeat case_match; (split; [done|]); cbn;
    first [reflexivity|apply submseteq_nil_l].
Qed.

(** The runs of blade in a step: the command of the goroutine, or queries. *)
Lemma tstep_calls i c p s p' new s' : wf_pc p -> tstep i c p s = Some (p', new, s') ->
  exists ex po, s'.(world).(calls) = s.(world).(calls) ++ ex ++ po /\
    Forall (fun call => exists uid, uid ∈ asks p /\ isPoll uid call) po /\
    ex ++ toRun p' ⊆+ toRun p /\ booked (eventsOf p) ++ toBook p' ⊆+ toBook p.
Proof.
  intros Hw E. apply tstep_moves in E.
  assert (Hq : queries (asks p) s s' -> toRun p' ⊆+ toRun p -> booked (eventsOf p) ++ toBook p' ⊆+ toBook p ->
    exists ex po, s'.(world).(calls) = s.(world).(calls) ++ ex ++ po /\
      Forall (fun call => exists uid, uid ∈ asks p /\ isPoll uid call) po /\
      ex ++ toRun p' ⊆+ toRun p /\ booked (eventsOf p) ++ toBook p' ⊆+ toBook p).
  { intros (po & Hc & Hp) ? ?. by exists [], po. }
  destruct E as [| |cmd command rest out w s Hf _ Eb| |uid next b w s _ Ep| |cmd ???? p' ?? E|??? p' ?? E|next s|???? p' ? E|t st ??|???? p' ? E];
    try (apply Hq; [by apply queries_none|..]; try (by destruct next); apply submseteq_nil_l || done).
  - exists [cmd], []. destruct (afterBlade_todo cmd command rest out) as [-> Ht]. rewrite app_nil_r.
    split_and!; try done. cbn. by rewrite <-execBlade_calls, Eb.
  - apply Hq; [|by destruct b, next..]. destruct (poll_calls uid (world s)) as (po & Hc & Hp). rewrite Ep in Hc.
    exists po. split; [done|]. eapply Forall_impl; [exact Hp|]. intros call ?. exists uid. split; [set_solver|done].
  - pose proof (bookStep_frame _ _ _ _ _ _ _ _ E) as (_ & ? & _ & _ & Ew). apply Hq; [by apply queries_none|by destruct p'|].
    unfold bookStep in E. pose proof (isAsyncCreate_ends cmd).
    repeat case_match; simplify_eq/=; done || apply submseteq_nil_l.
  - pose proof (queryStep_frame _ _ _ _ _ _ E) as (_ & ? & _). apply Hq; [by eapply queryStep_calls|by destruct p'|].
    unfold queryStep in E. pose proof (queryPreparationStatus_ends uid (world s)). by repeat case_match; simplify_eq.
  - pose proof (checkStep_frame _ _ _ _ _ _ _ E) as (? & _). apply Hq; [by eapply checkStep_calls|by destruct p'..].
  - apply Hq; [by apply queries_none|done|]. destruct t; [|done..]. cbn. by destruct (EqualFold st "Error").
  - pose proof (reportStep_frame _ _ _ _ _ _ E) as (? & _ & _ & _ & Ew). apply Hq; [by apply queries_none|by destruct p'..].
Qed.

(** The goroutines after a step, for what each has still to do. *)
Lemma bind_update (f : pc -> list string) ths i p p' new : ths !! i = Some p -> (forall t, f (spawn t) = []) ->
  exists rest, ths ≫= f ≡ₚ f p ++ rest /\ (<[i := p']> ths ++ map spawn new) ≫= f ≡ₚ f p' ++ rest.
Proof.
  intros Hi Hf. exists ((take i ths ≫= f) ++ (drop (S i) ths ≫= f)).
  assert (Hn : map spawn new ≫= f = []) by (induction new; cbn; [done|by rewrite Hf]).
  rewrite bind_app, Hn, app_nil_r. split.
  - rewrite <-(take_drop_middle ths i p Hi) at 1. rewrite bind_app. cbn. solve_Permutation.
  - rewrite insert_take_drop by (by eapply lookup_lt_Some). rewrite bind_app. cbn. solve_Permutation.
Qed.

Lemma owed_step (f : pc -> list string) (done_ add all : list string) ths i p p' new :
  ths !! i = Some p -> (forall t, f (spawn t) = []) -> add ++ f p' ⊆+ f p ->
  done_ ++ (ths ≫= f) ⊆+ all -> (done_ ++ add) ++ ((<[i := p']> ths ++ map spawn new) ≫= f) ⊆+ all.
Proof.
  intros Hi Hf Hp Hd. destruct (bind_update f ths i p p' new Hi Hf) as (rest & E1 & E2).
  rewrite E2, <-app_assoc, (assoc_L (++) add). rewrite E1 in Hd. etrans; [|exact Hd].
  by apply submseteq_app, submseteq_skips_r.
Qed.

Lemma history_arrived i c p s p' new s' log : tstep i c p s = Some (p', new, s') ->
  arrived (log ++ eventsOf p) = arrived log.
Proof.
  intros _. unfold arrived. rewrite bind_app. destruct p as [| | | | | | | | |[] st er| | |]; cbn; rewrite ?app_nil_r; try done.
  destruct (EqualFold st "Error"); cbn; by rewrite ?app_nil_r.
Qed.

(** Every goroutine works on what a request brought. *)
Lemma history_stems s log : history s log ->
  Forall (stems s.(sh).(world).(answers) (arrived log)) s.(threads).
Proof.
  induction 1 as [|i c ths s p p' new s' log Hh IH _ Hi E|cmd ths s log _ IH _ _| |i j p q ths s log _ IH _ _ _ _ _ _];
    cbn [sh threads] in *; try done.
  - rewrite (history_arrived _ _ _ _ _ _ _ log E), (tstep_answers _ _ _ _ _ _ _ E).
    destruct (history_booking _ _ Hh i p Hi) as [Hw _].
    pose proof IH as IH'. rewrite Forall_lookup in IH'.
    destruct (tstep_stems _ _ _ _ _ _ _ _ Hw (IH' i p Hi) E) as [Hp Hn].
    apply Forall_app. split; [by apply Forall_insert|by apply Forall_map].
  - unfold arrived. rewrite bind_app. apply Forall_app. split.
    + eapply Forall_impl; [exact IH|]. intros p. apply stems_more. set_solver.
    + apply Forall_singleton. cbn [stems]. apply elem_of_app. right. cbn. set_solver.
  - apply Forall_app. by split; [|apply Forall_singleton].
Qed.

Lemma history_accounts s log : history s log ->
  (exists ex po, s.(sh).(world).(calls) ≡ₚ ex ++ po /\ Forall (follows s.(sh).(world).(answers) (arrived log)) po /\
     ex ++ (s.(threads) ≫= toRun) ⊆+ arrived log) /\
  booked log ++ (s.(threads) ≫= toBook) ⊆+ arrived log.
Proof.
  induction 1 as [w e o Hw|i c ths s p p' new s' log Hh [(ex & po & Hc & Hp & Hx) IH] _ Hi E
    |cmd ths s log _ [(ex & po & Hc & Hp & Hx) IH] _ _| |i j p q ths s log _ IH _ _ _ _ _ _];
    cbn [sh threads] in *; try done.
  - split; [|apply submseteq_nil_l]. exists [], []. cbn. rewrite Hw. done.
  - destruct (history_booking _ _ Hh i p Hi) as [Hw _].
    pose proof (history_stems _ _ Hh) as Hst. cbn [sh threads] in Hst. rewrite Forall_lookup in Hst.
    specialize (Hst i p Hi).
    destruct (tstep_calls _ _ _ _ _ _ _ Hw E) as (ex' & po' & Hc' & Hp' & Hx' & Hb').
    rewrite (history_arrived _ _ _ _ _ _ _ log E), (tstep_answers _ _ _ _ _ _ _ E). split.
    + exists (ex ++ ex'), (po ++ po'). split_and!; [|apply Forall_app; split; [done|]|by eapply owed_step].
      * rewrite Hc', Hc. solve_Permutation.
      * eapply Forall_impl; [exact Hp'|]. intros call (uid & Hu & Hcall).
        assert (exists cmd, cmd ∈ arrived log /\ names s.(world).(answers) cmd uid) as (cmd & ? & ?).
        { destruct p; cbn in Hu; try (by apply elem_of_nil in Hu); apply list_elem_of_singleton in Hu as ->; apply Hst. }
        by exists cmd, uid.
    + unfold booked at 1. rewrite bind_app. by eapply owed_step.
  - unfold arrived, booked. rewrite !bind_app. cbn. rewrite !app_nil_r. split.
    + exists ex, po. split_and!; [done| |rewrite (assoc_L (++)); by apply submseteq_app].
      eapply Forall_impl; [exact Hp|]. intros call (cmd' & uid & ? & ?). exists cmd', uid. split; [|done].
      unfold arrived. set_solver.
    + rewrite (assoc_L (++)). by apply submseteq_app.
  - rewrite !bind_app. cbn. by rewrite !app_nil_r.
Qed.

(** Each entry of the record was booked. *)
Lemma replay_booked (P : string -> Prop) log m :
  map_Forall (fun _ => P) m -> Forall P (booked log) -> map_Forall (fun _ => P) (foldl replay m log).
Proof.
  revert m. induction log as [|e log IH]; intros m Hm Hb; [done|]. cbn [foldl]. destruct e as [cmd|cmd r|uid]; cbn in Hb.
  - by apply IH.
  - apply Forall_cons in Hb as [Hc Hb]. apply IH; [|done]. cbn. unfold track.
    repeat case_match; try done; [by apply map_Forall_insert_2|by apply map_Forall_delete].
  - apply IH; [|done]. by apply map_Forall_delete.
Qed.

(** Nothing happens without a request: whatever the interleaving, the runs of
    blade are commands of requests, each at most once for every time it
    arrived, and queries about uids that such a command revokes or that blade
    printed for one; and each booking of a command has its own request too. *)
Theorem runs_are_requested s log : history s log ->
  (exists ex po, s.(sh).(world).(calls) ≡ₚ ex ++ po /\ Forall (follows s.(sh).(world).(answers) (arrived log)) po /\
     ex ++ (s.(threads) ≫= toRun) ⊆+ arrived log) /\
  booked log ++ (s.(threads) ≫= toBook) ⊆+ arrived log.
Proof. apply history_accounts. Qed.

(** ** A goroutine that runs alone *)

(** Goroutine [i] runs with no step of another in between; [sched] is what the
    [select] of its polling loop picks. *)
Fixpoint solo (fuel i : nat) (sched : list selected) (p : pc) (s : shared) : outcome (pc * list task * shared) :=
  match fuel with
  | O => Blocks
  | S fuel =>
      if over p then Returns (p, [], s)
      else
        let '(c, sched) := match p with AtWait _ _ => (head sched, tail sched) | _ => (Some Ticked, sched) end in
        match c ≫= fun c => tstep i c p s with
        | None => Blocks
        | Some (p, new, s) =>
            '(q, more, s) ← solo fuel i sched p s; Returns (q, new ++ more, s)
        end
  end.

Lemma solo_over n i sched p s : over p = true -> solo (S n) i sched p s = Returns (p, [], s).
Proof. intros Ho. cbn [solo]. by rewrite Ho. Qed.

(** From the mutex on neither the fuel nor the schedule matters. *)
Definition rank (p : pc) : nat := match p with AtLock _ _ _ _ => 4 | _ => toRelease p end.
Definition booksOrEnds (p : pc) : bool :=
  match p with AtLock _ _ _ _ | Answered _ | Panicked _ => true | _ => critical p end.

Lemma tstep_rank i p s p' new s' : wf_pc p -> booksOrEnds p = true -> tstep i Ticked p s = Some (p', new, s') ->
  wf_pc p' /\ booksOrEnds p' = true /\ rank p' < rank p.
Proof.
  intros Hw Hb E. pose proof (tstep_mutex _ _ _ _ _ _ _ Hw E) as [Hw' _].
  assert (Hc : critical p' = true -> critical p = true -> booksOrEnds p' = true /\ rank p' < rank p).
  { intros Hc' Hc. destruct (release_nearer i Ticked p s Hc) as (q & nw & t & E' & Hlt). rewrite E in E'.
    simplify_eq. specialize (Hlt Hw). by destruct p, q. }
  split; [done|]. destruct p; try done; cbn [tstep] in E.
  - destruct (mutex s); simplify_eq. cbn. split; [done|lia].
  - injection E as E. apply bookStep_frame in E as (_ & ? & _). auto.
  - injection E as E. apply queryStep_frame in E as (_ & ? & _). auto.
  - destruct p; try done; simplify_eq; (split; [done|cbn; lia]).
Qed.

Lemma solo_enough r : forall p n m i sched sched' s, wf_pc p -> booksOrEnds p = true ->
  rank p <= r -> r < n -> r < m -> solo n i sched p s = solo m i sched' p s.
Proof.
  induction r as [|r IH]; intros p n m i sched sched' s Hw Hb Hr Hn Hm.
  - assert (over p = true) by (destruct p; cbn in *; try done; lia).
    destruct n, m; try lia. by rewrite !solo_over.
  - destruct n as [|n], m as [|m]; try lia. cbn [solo]. destruct (over p); [done|].
    assert (Hnw : forall (x : list selected), (match p with AtWait _ _ => (head x, tail x) | _ => (Some Ticked, x) end) = (Some Ticked, x))
      by (by destruct p).
    rewrite !Hnw. cbn [mbind option_bind].
    destruct (tstep i Ticked p s) as [[[p' new] s']|] eqn:E; [|done].
    destruct (tstep_rank _ _ _ _ _ _ Hw Hb E) as (Hw' & Hb' & Hlt).
    by rewrite (IH p' n m i sched sched' s') by (done || lia).
Qed.

Lemma solo_wait i uid next k : wf_pc (AtWait uid next) -> booksOrEnds next = true -> rank next < k ->
  forall sched n s, length sched + k <= n ->
  solo (S n) i sched (AtWait uid next) s =
  match waitForK8sStatus sched uid s.(world) with
  | Returns w => solo k i [] next (set_world w s)
  | _ => Blocks
  end.
Proof.
  intros Hw Hb Hk. assert (Hwn : wf_pc next) by (by destruct next).
  assert (Hn : forall n sched s, k <= n -> solo n i sched next s = solo k i [] next s).
  { intros n sched s Hn. apply (solo_enough (rank next)); done || lia. }
  assert (Hz : forall (o : outcome (pc * list task * shared)),
    ('(q, more, s) ← o; Returns (q, [] ++ more, s)) = o) by (by intros [[[? ?] ?]| |]).
  induction sched as [|c sched IH]; intros n s Hl; [done|]. cbn [length] in Hl.
  change (solo (S n) i (c :: sched) (AtWait uid next) s) with
    (match tstep i c (AtWait uid next) s with
     | None => Blocks
     | Some (p, new, s) => '(q, more, s) ← solo n i sched p s; Returns (q, new ++ more, s)
     end).
  cbn [tstep]. destruct c; cbn [waitForK8sStatus].
  - destruct (pollK8sStatus uid (world s)) as [[] w].
    + rewrite Hz. apply Hn. lia.
    + rewrite Hz. destruct n as [|n]; [lia|]. rewrite IH by lia. done.
  - rewrite Hz, Hn by lia. by destruct s.
Qed.

Lemma solo_lock i cmd command arg response s : s.(mutex) = None ->
  match handleCacheAndSafePoint s.(handler) cmd command arg response s.(world) with
  | Returns (ch', ts, w') =>
      solo 5 i [] (AtLock cmd command arg response) s =
        Returns (Answered response, ts, set_world w' (set_handler ch' s))
  | Panics why => exists ts s', solo 5 i [] (AtLock cmd command arg response) s = Returns (Panicked why, ts, s') /\
                    s'.(mutex) = None
  | Blocks => False
  end.
Proof.
  destruct s as [w ch m e o st]. cbn [mutex handler world]. intros ->.
  cbn [solo over tstep mutex mbind option_bind set_mutex].
  unfold handleCacheAndSafePoint, bookStep. cbn [handler world].
  destruct (isCreateOrPrepareCmd command).
  { destruct (Result response) as [| | |uid| |]; try (by cbn; eauto).
    pose proof (isAsyncCreate_ends cmd). destruct (isAsyncCreate cmd) as [b| |]; [| |done]; cbn; [|by eauto].
    by rewrite app_nil_r. }
  destruct (isDestroyOrRevokeCmd command); [|by cbn].
  destruct (isRevokeOperation command); [|by destruct (bool_decide _); cbn].
  pose proof (queryPreparationStatus_ends arg w).
  destruct (bool_decide _); cbn [over tstep mbind option_bind outcome_bind]; unfold queryStep;
    cbn [set_handler set_mutex world]; destruct (queryPreparationStatus arg w) as [[[rc|] w1]| |];
    try done; cbn; eauto;
    match goal with |- context [?t ==s JavaType] => by destruct (t ==s JavaType) end.
Qed.

Lemma set_world_same w s : w = s.(world) -> set_world w s = s.
Proof. intros ->. by destruct s. Qed.

Lemma solo_waitIf i cmd command uid next sched s : wf_pc (AtWait uid next) -> booksOrEnds next = true ->
  solo (S (length sched + 5)) i sched
    (if isK8sCreateCmd cmd command then if negb (uid ==s "") then AtWait uid next else next else next) s =
  match waitIfK8sCreate sched cmd command uid s.(world) with
  | Returns w => solo 5 i [] next (set_world w s)
  | _ => Blocks
  end.
Proof.
  intros Hw Hb. assert (Hwn : wf_pc next) by (by destruct next).
  assert (Hr : rank next <= 4) by (destruct next; cbn in *; lia || done).
  assert (Hn : solo (S (length sched + 5)) i sched next s = solo 5 i [] next (set_world (world s) s)).
  { rewrite set_world_same by done. apply (solo_enough 4); done || lia. }
  unfold waitIfK8sCreate. destruct (isK8sCreateCmd cmd command); [|done].
  destruct (negb (uid ==s "")); [|done]. apply solo_wait; [done|done|lia|lia].
Qed.

Lemma waitIf_panics sched cmd command uid w :
  match waitIfK8sCreate sched cmd command uid w with Panics _ => False | _ => True end.
Proof.
  unfold waitIfK8sCreate. destruct (isK8sCreateCmd cmd command); [|done]. destruct (negb (uid ==s "")); [|done].
  revert w. induction sched as [|[] sched IH]; intros w; [done| |done]. cbn [waitForK8sStatus].
  destruct (pollK8sStatus uid w) as [[] w']; [done|apply IH].
Qed.

(** C5. A request that is not disturbed does what [exec] says: it ends with the
    same answer, goroutines, record and runs of blade, with the same panic
    (and the mutex free again), or is blocked in the same cases. *)
Theorem solo_is_exec i sched cmd s : s.(mutex) = None ->
  let result := solo (length sched + 7) i sched (AtExec cmd) s in
  match exec sched s.(handler) cmd s.(world) with
  | Returns (response, ch', ts, w') => result = Returns (Answered response, ts, set_world w' (set_handler ch' s))
  | Panics why => exists ts s', result = Returns (Panicked why, ts, s') /\ s'.(mutex) = None
  | Blocks => result = Blocks
  end.
Proof.
  intros Hm. cbn zeta. replace (length sched + 7) with (S (S (length sched + 5))) by lia.
  assert (Hz : forall (o : outcome (pc * list task * shared)),
    ('(q, more, s) ← o; Returns (q, [] ++ more, s)) = o) by (by intros [[[? ?] ?]| |]).
  unfold exec. change (solo (S (S (length sched + 5))) i sched (AtExec cmd) s) with
    (match tstep i Ticked (AtExec cmd) s with
     | None => Blocks
     | Some (p, new, s) => '(q, more, s) ← solo (S (length sched + 5)) i sched p s; Returns (q, new ++ more, s)
     end).
  cbn [tstep]. destruct (Fields cmd) as [|command rest].
  { cbn. by destruct s as [? []]. }
  destruct (negb _); [cbn; by destruct s as [? []]|].
  destruct (execBlade cmd (world s)) as [[[res err] ok] w].
  rewrite Hz. unfold afterBlade. assert (Hw : world (set_world w s) = w) by done.
  assert (Hs : forall w', set_world w' (set_world w s) = set_world w' (set_handler (handler s) s)) by (by destruct s).
  destruct ok.
  - destruct (Success (parseResult res)) eqn:Es; cbn [negb].
    + destruct rest as [|arg rest]; rewrite solo_waitIf, Hw by done;
        pose proof (waitIf_panics sched cmd command (extractUidFromResponse (parseResult res) res) w);
        destruct (waitIfK8sCreate _ _ _ _ w) as [w1| |]; try done; cbn [mbind outcome_bind]; [by eauto|].
      pose proof (solo_lock i cmd command arg (parseResult res) (set_world w1 (set_world w s)) Hm) as Hl.
      cbn [handler world set_world] in Hl |- *.
      destruct (handleCacheAndSafePoint _ _ _ _ _ w1) as [[[ch' ts] w2]| |]; [|done..].
      cbn [mbind outcome_bind]. rewrite Hl. by destruct s.
    + rewrite solo_waitIf, Hw by done.
      pose proof (waitIf_panics sched cmd command (extractUidFromResponse (parseResult res) res) w).
      destruct (waitIfK8sCreate _ _ _ _ w) as [w1| |]; try done; cbn; by destruct s as [? []].
  - destruct (unmarshalResponse res) as [r|]; rewrite solo_waitIf, Hw by done;
      match goal with |- context [waitIfK8sCreate _ _ _ ?u w] =>
      pose proof (waitIf_panics sched cmd command u w); destruct (waitIfK8sCreate sched cmd command u w) as [w1| |] end;
      try done; cbn; by destruct s as [? []].
Qed.

(** ** The end of the process *)

(** Blade answers the query of a status with an object one of whose fields is
    not a string. *)
Definition badStatus (uid : string) (w : World) : Prop :=
  exists out fields k, prints w ("status " +:+ uid) out /\ (parseResult out).(Result) = JObj fields /\
    k ∈ ["ProgramType"; "Status"; "Error"] /\ jhas k fields = true /\ as_string (jget k fields) = None.

Lemma stringField_panics k l : (exists why, stringField k l = Panics why) <-> jhas k l = true /\ as_string (jget k l) = None.
Proof.
  unfold stringField. destruct (jhas k l); [|by split; [intros [? [=]]|intros [? _]]].
  destruct (jget k l); cbn; split; try (by intros [? ?]); eauto.
Qed.

Lemma query_panics uid w : (exists why, queryPreparationStatus uid w = Panics why) <-> badStatus uid w.
Proof.
  unfold queryPreparationStatus. split.
  - intros [why E]. unfold execBlade, ExecScript in E. destruct (IsExist (os w) BladeBinPath) eqn:Ex; cbn [negb] in E; [|done].
    destruct (answers w (length (calls w)) _) as [out [err|]] eqn:Ea; cbn [negb] in E; [done|].
    destruct (Result (parseResult out)) as [| | | | |fields] eqn:Er; try done.
    exists out, fields. cut (exists k, k ∈ ["ProgramType"; "Status"; "Error"] /\ exists why, stringField k fields = Panics why).
    { intros (k & Hk & Hp). exists k. apply stringField_panics in Hp. done. }
    destruct (stringField "ProgramType" fields) eqn:E1; [|by exists "ProgramType"; split; [set_solver|eauto]|by apply stringField_ends in E1].
    destruct (stringField "Status" fields) eqn:E2; [|by exists "Status"; split; [set_solver|eauto]|by apply stringField_ends in E2].
    destruct (stringField "Error" fields) eqn:E3; [done|by exists "Error"; split; [set_solver|eauto]|by apply stringField_ends in E3].
  - intros (out & fields & k & Hp & Er & Hk & Hbad). rewrite (execBlade_prints _ _ _ Hp), Er. cbn [negb].
    apply stringField_panics in Hbad as [why Hbad].
    pose proof (stringField_ends "ProgramType" fields). pose proof (stringField_ends "Status" fields).
    assert (k = "ProgramType" \/ k = "Status" \/ k = "Error") as [-> |[-> | ->]] by set_solver; rewrite ?Hbad.
    + by exists why.
    + destruct (stringField "ProgramType" fields); [|by eexists|done]. by exists why.
    + destruct (stringField "ProgramType" fields); [|by eexists|done].
      destruct (stringField "Status" fields); [|by eexists|done]. by exists why.
Qed.

Lemma tstep_crash i c p s p' new s' : isCrash p = false -> wf_pc p -> tstep i c p s = Some (p', new, s') -> isCrash p' = true ->
  exists t status errorMsg, p = AtCheck t status errorMsg /\ badStatus (task_uid t) s.(world).
Proof.
  intros Hp Hw E Hc. apply tstep_moves in E.
  destruct E as [| |cmd command rest out| |uid next []| |????? p' ?? E|??? p' ?? E|next s|t st er s p' ? E| |t ??? p' ? E];
    try done; try (by destruct next).
  - exfalso. unfold afterBlade in Hc. by repeat case_match.
  - apply bookStep_frame in E as (_ & ? & _). by destruct p'.
  - apply queryStep_frame in E as (_ & ? & _). by destruct p'.
  - exists t, st, er. split; [done|]. apply query_panics. unfold checkStep in E.
    destruct c; [|by simplify_eq]. destruct (queryPreparationStatus _ _) as [[[]]| |]; [..|by eauto|];
      repeat case_match; by simplify_eq.
  - exfalso. unfold reportStep, report in E.
    destruct t; [destruct (uris !! _)| |destruct (uris !! _)]; rewrite ?ReportStatus_sent in E; by simplify_eq/=.
Qed.

(** Two goroutines at the map race: one of them is at the callback of a java
    agent, which takes no lock. *)
Definition mapRace (s : sys) : Prop :=
  exists i j p q uid status errorMsg, i <> j /\ s.(threads) !! i = Some p /\ s.(threads) !! j = Some q /\
    writesMap p s.(sh).(handler).(running) = true /\ readsMap q || writesMap q s.(sh).(handler).(running) = true /\
    (p = AtCallback (checkJavaAgent uid) status errorMsg \/ q = AtCallback (checkJavaAgent uid) status errorMsg).
(** A watching goroutine is about to be told a status that is not a string. *)
Definition badWatch (s : sys) : Prop :=
  exists i t status errorMsg, s.(threads) !! i = Some (AtCheck t status errorMsg) /\
    badStatus (task_uid t) s.(sh).(world).

Lemma map_access p m : readsMap p || writesMap p m = true ->
  critical p = true \/ exists uid status errorMsg, p = AtCallback (checkJavaAgent uid) status errorMsg.
Proof. intros E. destruct p as [| | | | | | | | |[]| | |]; try done; [by left|right; eauto]. Qed.

Lemma throw_races s i j p q : reachable s -> i <> j -> s.(threads) !! i = Some p -> s.(threads) !! j = Some q ->
  writesMap p s.(sh).(handler).(running) = true -> readsMap q || writesMap q s.(sh).(handler).(running) = true ->
  mapRace s.
Proof.
  intros Hr Hne Hi Hj Hp Hq.
  destruct (map_access p s.(sh).(handler).(running)) as [Hcp|(u & st & er & ->)];
    [by rewrite Hp, orb_true_r| |by eexists i, j, _, q, u, st, er; split_and!; [..|left]].
  destruct (map_access q _ Hq) as [Hcq|(u & st & er & ->)];
    [|by eexists i, j, p, _, u, st, er; split_and!; [..|right]].
  by destruct (section_unique s i j p q Hr Hi Hj Hcp Hcq).
Qed.

Lemma crashed_stuck ths s i why : ths !! i = Some (Crashed why) ->
  ~ up (mkSys ths s) /\ forall s', ~ step (mkSys ths s) s'.
Proof.
  intros Hi. assert (Hd : forall s1, ~ up (mkSys ths s1)).
  { intros s1 Hu. unfold up in Hu. cbn [threads] in Hu. rewrite Forall_lookup in Hu. by specialize (Hu i _ Hi). }
  split; [apply Hd|]. intros s' Hs. inversion Hs; simplify_eq; by eapply Hd.
Qed.

(** C31. The goroutines of the handler end the process in exactly two ways: a
    watching goroutine asks blade for a status and gets a field that is not a
    string, or two goroutines are at the map of running experiments at once,
    one of them writing it and one of them at the callback of a java agent.  Only such a step ends it, each
    can be taken whenever the goroutines stand there, and nothing moves
    afterwards. *)
Theorem process_ends s : reachable s -> up s ->
  (forall s', step s s' -> ~ up s' -> badWatch s \/ mapRace s) /\
  (badWatch s \/ mapRace s -> exists s', step s s' /\ ~ up s' /\ forall s'', ~ step s' s'').
Proof.
  intros Hr Hup. pose proof (reachable_locked s Hr) as [Hl _]. split.
  - intros s' Hs. destruct Hs as [i c ths s p p' new s' _ Hi E|cmd ths s _ _|os' e' o' ths s _|i j p q ths s _ Hne Hi Hj Hp Hq];
      cbn [threads sh] in *.
    + intros Hd. destruct (isCrash p') eqn:Hc.
      * unfold up in Hup. cbn in Hup. rewrite Forall_lookup in Hup. left.
        destruct (tstep_crash i c p s p' new s') as (t & st & er & -> & Hb);
          [by eapply Hup|by apply (Hl i)|done|done|]. by exists i, t, st, er.
      * destruct Hd. apply Forall_app. split; [by apply Forall_insert|]. by apply Forall_map, Forall_true.
    + intros Hd. destruct Hd. apply Forall_app. split; [done|]. by repeat constructor.
    + done.
    + intros _. right. by apply (throw_races _ i j p q).
  - destruct s as [ths s]. intros [(i & t & st & er & Hi & [why Hq]%query_panics)|(i & j & p & q & _ & _ & _ & Hne & Hi & Hj & Hp & Hq & _)];
      cbn [threads sh] in *.
    + assert (E : tstep i Ticked (AtCheck t st er) s =
        Some (Crashed why, [], set_world (execBlade ("status " +:+ task_uid t) (world s)).2 s)).
      { cbn [tstep]. unfold checkStep. by rewrite Hq. }
      eexists. split; [by eapply step_run|].
      apply (crashed_stuck _ _ i why), lookup_app_l_Some, list_lookup_insert_eq. by eapply lookup_lt_Some.
    + eexists. split; [by apply (step_throw i j p q)|].
      apply (crashed_stuck _ _ (length ths) "fatal error: concurrent map access").
      by rewrite lookup_app_r, Nat.sub_diag by lia.
Qed.

(** ** Every step counts *)

(** The steps left to a goroutine when its polling loop does not go round
    again. *)
Definition stepsLeft (p : pc) : nat :=
  match p with
  | AtExec _ => 6 | AtWait _ _ => 5 | AtLock _ _ _ _ => 4
  | AtBook _ _ _ _ | AtQuery _ _ | AtUnlock _ => toRelease p
  | AtCheck _ _ _ => 3 | AtCallback _ _ _ => 2 | AtReport _ _ _ => 1
  | _ => 0
  end.
(** The loop goes round again. *)
Definition pollsAgain (p p' : pc) : Prop :=
  match p, p' with
  | AtWait uid next, AtWait uid' next' => uid' = uid /\ next' = next
  | AtCheck t _ _, AtCheck t' _ _ => t' = t
  | _, _ => False
  end.

Lemma tstep_progress i c p s p' new s' : wf_pc p -> tstep i c p s = Some (p', new, s') ->
  isCrash p' = true \/ (c = Ticked /\ pollsAgain p p') \/ stepsLeft p' < stepsLeft p.
Proof.
  intros Hw E.
  assert (Hr : critical p = true -> critical p' = true -> stepsLeft p' < stepsLeft p).
  { intros Hc Hc'. destruct (release_nearer i c p s Hc) as (q & nw & s2 & E2 & Hlt). rewrite E in E2. simplify_eq.
    specialize (Hlt Hw). by destruct p, q. }
  apply tstep_moves in E.
  destruct E as [| |cmd command rest out| |? next [] ? ? Ec| |????? p' ?? E|??? p' ?? E|next|t st er ? p' ? E| |t st er ? p' ? E];
    try (right; right; cbn; lia); try (by right; right; destruct next; try done; cbn; lia).
  - right; right. assert (stepsLeft (afterBlade cmd command rest out) <= 5); [|cbn; lia].
    unfold afterBlade. repeat case_match; cbn; lia.
  - right; left. done.
  - right; right. apply bookStep_frame in E as (_ & ? & _). by apply Hr.
  - right; right. apply queryStep_frame in E as (_ & ? & _). by apply Hr.
  - unfold checkStep in E. pose proof (queryPreparationStatus_ends (task_uid t) (world s)).
    repeat case_match; simplify_eq; try done; try (by left); try (by right; left); right; right; cbn; lia.
  - unfold reportStep, report in E.
    destruct t; [destruct (uris !! _)| |destruct (uris !! _)]; rewrite ?ReportStatus_sent in E; simplify_eq/=; right; right; lia.
Qed.

(** C6. No goroutine gets stuck: in every reachable state of a process that is
    up, whatever blade answers, a goroutine that is not over can take a step, or
    it waits for the mutex, whose holder can take a step and leaves the section
    after at most three of its own; and every step a goroutine takes brings it
    nearer to its end, which is at most six steps away, unless its polling loop
    goes round again or the step ends the process. *)
Theorem goroutines_progress s i p : reachable s -> up s -> s.(threads) !! i = Some p -> over p = false ->
  (forall c, (exists p' new s', tstep i c p s.(sh) = Some (p', new, s')) \/
     (exists j q, s.(sh).(mutex) = Some j /\ s.(threads) !! j = Some q /\ 0 < toRelease q <= 3 /\
        exists q' new s', tstep j c q s.(sh) = Some (q', new, s') /\ toRelease q' < toRelease q)) /\
  stepsLeft p <= 6 /\
  (forall c p' new s', tstep i c p s.(sh) = Some (p', new, s') ->
     isCrash p' = true \/ (c = Ticked /\ pollsAgain p p') \/ stepsLeft p' < stepsLeft p).
Proof.
  intros Hr _ Hi Ho. split_and!.
  - intros c. by apply not_stuck.
  - destruct p; cbn; lia.
  - intros c p' new s'. apply tstep_progress. by apply (reachable_locked s Hr) in Hi as [? _].
Qed.

(** ** Runs that can be computed *)

Inductive move := Run (i : nat) (c : selected) | Arrive (cmd : string).
Definition play1 (m : move) (s : sys) (log : list event) : option (sys * list event) :=
  if existsb isCrash s.(threads) then None
  else match m with
       | Arrive cmd => if cmd ==s "" then None
                       else Some (mkSys (s.(threads) ++ [AtExec cmd]) s.(sh), log ++ [Arrived cmd])
       | Run i c => p ← s.(threads) !! i;
                    '(p', new, s') ← tstep i c p s.(sh);
                    Some (mkSys (<[i := p']> s.(threads) ++ map spawn new) s', log ++ eventsOf p)
       end.
Fixpoint play (ms : list move) (s : sys) (log : list event) : option (sys * list event) :=
  match ms with
  | [] => Some (s, log)
  | m :: ms => '(s, log) ← play1 m s log; play ms s log
  end.

Lemma existsb_up s : existsb isCrash s.(threads) = false -> up s.
Proof.
  intros E. apply Forall_forall. intros p Hp. destruct (isCrash p) eqn:Ec; [|done].
  rewrite <-E. symmetry. apply existsb_exists. exists p. split; [by apply list_elem_of_In|done].
Qed.

Lemma play_history ms s log s' log' : history s log -> play ms s log = Some (s', log') -> history s' log'.
Proof.
  revert s log. induction ms as [|m ms IH]; intros s log Hh E; cbn [play] in E; [by simplify_eq|].
  apply bind_Some in E as ([s1 log1] & E1 & E). apply (IH s1 log1); [|done]. clear IH E.
  unfold play1 in E1. destruct (existsb isCrash (threads s)) eqn:Eu; [done|]. apply existsb_up in Eu.
  destruct s as [ths s], m as [i c|cmd]; cbn [threads sh] in *.
  - apply bind_Some in E1 as (p & Hi & E1). apply bind_Some in E1 as ([[p' new] s2] & Ht & E1). simplify_eq.
    by eapply hist_run.
  - destruct (eqb_spec_s cmd ""); [done|]. simplify_eq. by apply hist_arrive.
Qed.

(** A shell that answers its runs in order. *)
Definition scripted (outs : list string) : nat -> shell := fun n _ => (nth n outs "", None).
Definition fresh (outs : list string) (e : Env) (o : Options) : sys :=
  mkSys [] (mkShared (mkWorld demo_os (scripted outs) []) NewChaosbladeHandler None e o []).
Lemma fresh_history outs e o : history (fresh outs e o) [].
Proof. by apply hist_init. Qed.

(** ** Races on the record *)

(** The next step of a goroutine changes the record. *)
Definition writes (p : pc) (m : gmap string string) : Prop := effect p m <> m.

(** A java agent that failed to attach, while another request is about to be
    booked. *)
Definition raceMoves : list move :=
  [Arrive "prepare jvm --pid 7"; Run 0 Ticked; Run 0 Ticked; Run 0 Ticked; Run 0 Ticked;
   Run 1 Ticked; Arrive "create cpu load"; Run 2 Ticked; Run 2 Ticked].
Definition raceOuts : list string :=
  map dq ["{'success':true,'result':'u1'}"; "{'success':true,'result':{'Status':'Error','Error':'no such process'}}";
          "{'success':true,'result':'u2'}"].

(** C30. Requests never change the record at the same time as one another, but the
    callback of a java agent takes no lock: two goroutines about to write the
    map are reachable, and in every such pair one is at the callback. *)
Theorem record_races e o :
  (exists s i j p q, reachable s /\ up s /\ i <> j /\ s.(threads) !! i = Some p /\ s.(threads) !! j = Some q /\
     writes p s.(sh).(handler).(running) /\ writes q s.(sh).(handler).(running) /\
     s.(sh).(env) = e /\ s.(sh).(opts) = o) /\
  (forall s i j p q, reachable s -> i <> j -> s.(threads) !! i = Some p -> s.(threads) !! j = Some q ->
     writes p s.(sh).(handler).(running) -> writes q s.(sh).(handler).(running) ->
     exists uid status errorMsg, p = AtCallback (checkJavaAgent uid) status errorMsg \/
                                 q = AtCallback (checkJavaAgent uid) status errorMsg).
Proof.
  split.
  - destruct (play raceMoves (fresh raceOuts e o) []) as [[s log]|] eqn:E; [|by vm_compute in E].
    pose proof (history_reachable _ _ (play_history _ _ _ _ _ (fresh_history raceOuts e o) E)) as Hr.
    vm_compute in E. injection E as <- <-. eexists _, 1, 2, _, _. split; [exact Hr|].
    split_and!; try done. by repeat constructor.
  - intros s i j p q Hr Hne Hi Hj Hp Hq.
    assert (Hcases : forall x m, writes x m -> critical x = true \/
      exists uid status errorMsg, x = AtCallback (checkJavaAgent uid) status errorMsg).
    { intros x m Hx. destruct x as [| | | | | | | | |[]| | |]; try (by destruct Hx); [by left|right; eauto]. }
    destruct (Hcases _ _ Hp) as [Hcp|(u & st & er & ->)]; [|by eauto].
    destruct (Hcases _ _ Hq) as [Hcq|(u & st & er & ->)]; [|by eauto].
    by destruct (section_unique s i j p q Hr Hi Hj Hcp Hcq).
Qed.

(** A create for Kubernetes that waits for the operator while the same
    experiment is destroyed. *)
Definition lateMoves : list move :=
  [Arrive "create k8s pod-pod delete --uid u1"; Run 0 Ticked; Arrive "destroy u1"; Run 1 Ticked; Run 1 Ticked;
   Run 1 Ticked; Run 1 Ticked; Run 0 Timeout; Run 0 Ticked; Run 0 Ticked; Run 0 Ticked].
Definition lateOuts : list string := map dq ["{'success':true,'result':'u1'}"; "{'success':true,'result':'ok'}"].

(** A create is booked only after its wait: an experiment that is destroyed
    meanwhile stays on record although blade was told to destroy it last and
    every request was answered. *)
Theorem destroyed_stays_on_record e o : exists s log,
  history s log /\ s.(sh).(env) = e /\ s.(sh).(opts) = o /\ forallb over s.(threads) = true /\
  s.(sh).(world).(calls) = ["create k8s pod-pod delete --uid u1"; "destroy u1"] /\
  s.(sh).(handler).(running) !! "u1" = Some "create k8s pod-pod delete --uid u1".
Proof.
  destruct (play lateMoves (fresh lateOuts e o) []) as [[s log]|] eqn:E; [|by vm_compute in E].
  exists s, log. split; [by eapply play_history; [apply (fresh_history lateOuts e o)|]|].
  vm_compute in E. injection E as <- <-. vm_compute. done.
Qed.
End system.

(** ** Examples *)

#[local] Instance function_channel : TransportChannel (Uri -> string -> result string) := fun f => f.
Notation demo_client := (fun (_ : Uri) (_ : string) => Ok "{}").
Notation demo_uris := (InitTransprotUri AddFlags).
(** A process to which [moves] happened. *)
Definition played (moves : list move) (outs : list string) : sys * list event :=
  default (fresh [] demo_env AddFlags, []) (play demo_client demo_uris moves (fresh outs demo_env AddFlags) []).

Lemma played_history moves outs : is_Some (play demo_client demo_uris moves (fresh outs demo_env AddFlags) []) ->
  history demo_client demo_uris (played moves outs).1 (played moves outs).2.
Proof.
  unfold played. intros [[s log] E]. rewrite E. eapply play_history; [apply fresh_history|done].
Qed.

Lemma one_in_section_witness : (played raceMoves raceOuts).1.(sh).(mutex) = Some 2%nat.
Proof.
  apply (one_in_section demo_client demo_uris (played raceMoves raceOuts).1 2 2
    (AtBook "create cpu load" "create" "cpu" (mkResponse 0 true "" (JStr "u2")))
    (AtBook "create cpu load" "create" "cpu" (mkResponse 0 true "" (JStr "u2")))).
  - eapply history_reachable, played_history. by eexists; vm_compute.
  - vm_compute. reflexivity.
  - vm_compute. reflexivity.
  - reflexivity.
  - reflexivity.
Defined.

(** A second request waits for the mutex that the first one holds. *)
Definition queueMoves : list move := raceMoves ++ [Arrive "create mem load"; Run 3 Ticked].
Definition queueOuts : list string := raceOuts ++ [dq "{'success':true,'result':'u3'}"].
Notation queued_pc := (AtLock "create mem load" "create" "mem" (mkResponse 0 true "" (JStr "u3"))).

Lemma goroutines_progress_witness : exists j q, (played queueMoves queueOuts).1.(sh).(mutex) = Some j /\
  (played queueMoves queueOuts).1.(threads) !! j = Some q /\ 0 < toRelease q <= 3.
Proof.
  assert (Hp : is_Some (play demo_client demo_uris queueMoves (fresh queueOuts demo_env AddFlags) []))
    by (by eexists; vm_compute).
  destruct (goroutines_progress demo_client demo_uris (played queueMoves queueOuts).1 3 queued_pc
    (history_reachable _ _ _ _ (played_history _ _ Hp))) as (Hg & _).
  - apply existsb_up. vm_compute. reflexivity.
  - vm_compute. reflexivity.
  - reflexivity.
  - destruct (Hg Ticked) as [(p' & new & s' & E)|(j & q & Hm & Hq & Hr & _)].
    + vm_compute in E. discriminate E.
    + exact (ex_intro _ j (ex_intro _ q (conj Hm (conj Hq Hr)))).
Defined.

Lemma record_replays_witness :
  (played lateMoves lateOuts).1.(sh).(handler).(running) = foldl replay ∅ (played lateMoves lateOuts).2.
Proof.
  apply (record_replays demo_client demo_uris), played_history. by eexists; vm_compute.
Defined.

Lemma runs_are_requested_witness :
  booked (played lateMoves lateOuts).2 ++ ((played lateMoves lateOuts).1.(threads) ≫= toBook) ⊆+
  arrived (played lateMoves lateOuts).2.
Proof.
  apply (runs_are_requested demo_client demo_uris), played_history. by eexists; vm_compute.
Defined.

Definition demo_shared : shared := mkShared demo_before NewChaosbladeHandler None demo_env AddFlags [].
Lemma solo_is_exec_witness :
  solo demo_client demo_uris 8 0 [Timeout] (AtExec "create cpu load") demo_shared =
  Returns (Answered demo_ok, [], set_world demo_after (set_handler demo_running demo_shared)).
Proof.
  pose proof (solo_is_exec demo_client demo_uris 0 [Timeout] "create cpu load" demo_shared eq_refl) as Hs.
  assert (E : exec [Timeout] (handler demo_shared) "create cpu load" (world demo_shared) =
    Returns (demo_ok, demo_running, [], demo_after)) by exact demo_create.
  cbv zeta in Hs. rewrite E in Hs. exact Hs.
Defined.

(** A status that is a number. *)
Definition badMoves : list move := take 5 raceMoves.
Definition badOuts : list string :=
  map dq ["{'success':true,'result':'u1'}"; "{'success':true,'result':{'Status':7}}"].
Lemma process_ends_witness : exists s',
  step demo_client demo_uris (played badMoves badOuts).1 s' /\ ~ up s' /\
  forall s'', ~ step demo_client demo_uris s' s''.
Proof.
  assert (Hp : is_Some (play demo_client demo_uris badMoves (fresh badOuts demo_env AddFlags) []))
    by (by eexists; vm_compute).
  refine (proj2 (process_ends demo_client demo_uris (played badMoves badOuts).1
    (history_reachable _ _ _ _ (played_history _ _ Hp)) _) (or_introl _)).
  { apply existsb_up. vm_compute. reflexivity. }
  exists 1%nat, (checkJavaAgent "u1"), "Unknown", "". split; [vm_compute; reflexivity|].
  exists (dq "{'success':true,'result':{'Status':7}}"), [("Status", JNum "7")], "Status".
  split_and!; [split|..]; vm_compute; reflexivity || set_solver.
Defined.

(** A process in which a java agent has failed while another request is at the
    map. *)
Lemma race_possible : mapRace (played raceMoves raceOuts).1.
Proof.
  exists 1%nat, 2%nat, (AtCallback (checkJavaAgent "u1") "Error" "no such process"),
    (AtBook "create cpu load" "create" "cpu" (mkResponse 0 true "" (JStr "u2"))), "u1", "Error", "no such process".
  split_and!; [done|vm_compute; reflexivity..|by left].
Qed.
End Concurrent.
