(* ===== verification/Conn.v ===== *)
(** * conn: the handlers that talk to the server

    conn.go starts them, conn/connect registers the agent and stores the keys
    it is given, conn/close and conn/callback send one request each. *)

From S2P Require Import Prelude GoStrings Json Options Tools Transport.
Local Open Scope Z_scope.

Module Conn.
Import Options Tools Transport.

(** ** conn.go *)

(** [NewConn] and [Register]: a handler is what its [Start] returns. *)
Definition clientHandlers := gmap string (option string).
Definition NewConn : clientHandlers := ∅.
Definition Register (c : clientHandlers) (name : string) (start : option string) : clientHandlers :=
  <[name := start]> c.

(** Where a goroutine of [Start] stands: before the handler's [Start], at the
    send of its error, at its end. *)
Inductive goroutine := Starting (start : option string) | Sending (err : string) | Ended.

(** The goroutines of one call, the reader of errors among them; [errCh] is
    [None] for a nil channel. *)
Record procs := mkProcs {
  errCh : option unit;
  starters : gmap string goroutine;
  reader : bool;
  exited : bool
}.

(** [Start]: no goroutine when nothing is registered; the channel is declared
    and not made. *)
Definition Start (c : clientHandlers) : procs :=
  if decide (c = ∅) then mkProcs None ∅ false false
  else mkProcs None (Starting <$> c) true false.

(** A handler starts; or an error passes from a sender to the reader, which
    takes a made channel. *)
Inductive step : procs -> procs -> Prop :=
| step_ok name ch gs rd :
    gs !! name = Some (Starting None) ->
    step (mkProcs ch gs rd false) (mkProcs ch (<[name := Ended]> gs) rd false)
| step_err name err ch gs rd :
    gs !! name = Some (Starting (Some err)) ->
    step (mkProcs ch gs rd false) (mkProcs ch (<[name := Sending err]> gs) rd false)
| step_comm name err gs :
    gs !! name = Some (Sending err) ->
    step (mkProcs (Some tt) gs true false) (mkProcs (Some tt) (<[name := Ended]> gs) true true).

(** ** connect.go *)

(** What [Start] reads from the machine: the uptime, the number of cpus and
    the total memory in KB, below [2 ^ 53]. *)
Record machine := mkMachine { uptime : string; numCPU : Z; memTotal : option Z }.

(** [GetUptime]: the output of [uptime], and the content of /proc/uptime. *)
Definition GetUptime (uptimeCmd : string * option string) (procUptime : option string) : string :=
  match uptimeCmd with
  | (_, Some _) =>
      match procUptime with
      | None | Some "" => ""
      | Some bytes => default "" (head (Split bytes " "))
      end
  | ("", None) => ""
  | (output, None) => default "" (head (Split output ","))
  end.

Definition Host : Z := 0.

Definition connectRequest (o : Options) (m : machine) : Request :=
  let r := NewRequest o in
  let r := AddParam r "ip" o.(Ip) in
  let r := AddParam r "pid" o.(Options.Pid) in
  let r := AddParam r "type" ProgramName in
  let r := AddParam r "uid" o.(Options.Uid) in
  let r := AddParam r "instanceId" o.(InstanceId) in
  let r := AddParam r "namespace" o.(Namespace) in
  let r := AddParam r "deviceId" o.(InstanceId) in
  let r := AddParam r "deviceType" (FormatInt Host) in
  let r := AddParam r "ak" o.(License) in
  let r := AddParam r "uptime" m.(uptime) in
  let r := AddParam r "startupMode" o.(StartupMode) in
  let r := AddParam r "v" o.(Version) in
  let r := AddParam r "agentMode" o.(AgentMode) in
  let r := AddParam r "osType" o.(InstallOperator) in
  let r := AddParam r "cpuNum" (FormatInt m.(numCPU)) in
  let r := AddParam (AddParam r "clusterId" o.(ClusterId)) "clusterName" o.(ClusterName) in
  let r := if o.(ChaosbladeVersion) ==s "" then r else AddParam r "cbv" o.(ChaosbladeVersion) in
  let r := match m.(memTotal) with
           | None => r
           | Some kb => AddParam r "memSize" (FormatInt kb +:+ ".000000")
           end in
  let r := AddParam r AppInstanceKeyName o.(ApplicationInstance) in
  let r := AddParam r AppGroupKeyName o.(ApplicationGroup) in
  if o.(RestrictedVpc)
  then AddParam (AddParam r "restrictedVpc" "true") "vpcId" o.(License)
  else AddParam r "vpcId" o.(VpcId).

(** The process state a registration writes. *)
Record agent := mkAgent { opts : Options; disk : OS; agent_keys : Keys }.

Definition assertString (j : json) : outcome string :=
  match j with
  | JStr s => Returns s
  | _ => Panics "interface conversion: interface {} is not string"
  end.

(** Its last part: both keys are present and not nil, then recorded. *)
Definition recordKeys (home : string) (flip : bool) (a : agent) (v : list (string * json))
    : outcome (agent * option string) :=
  match jget "ak" v with
  | JNull => Returns (a, Some "accessKey or secretKey is empty")
  | ak =>
      match jget "sk" v with
      | JNull => Returns (a, Some "accessKey or secretKey is empty")
      | sk =>
          ak ← assertString ak;
          sk ← assertString sk;
          let '(os', k', err) := RecordSecretKeyToFile home flip a.(disk) a.(agent_keys) ak sk in
          Returns (mkAgent a.(opts) os' k', err)
      end
  end.

(** [handleDirectHttpConnectResponse]: the state afterwards and the error. *)
Definition handleDirectHttpConnectResponse (home : string) (flip : bool) (a : agent) (response : Response)
    : outcome (agent * option string) :=
  if negb response.(Success)
  then Returns (a, Some ("connect server failed, " +:+ response.(Error)))
  else match response.(Result) with
       | JObj v =>
           cid ← assertString (jget "cid" v);
           let a := mkAgent (SetCid a.(opts) cid) a.(disk) a.(agent_keys) in
           a ← match jget "uid" v with
               | JNull => Returns a
               | j => uid ← assertString j; Returns (mkAgent (SetUid a.(opts) uid) a.(disk) a.(agent_keys))
               end;
           recordKeys home flip a v
       | _ => Returns (a, Some "response is error")
       end.

Section client.
Context {C : Type} `{TransportChannel C} (client : C) (e : Env).

(** [ClientConnectHandler.Start]; the request is not signed. *)
Definition connect (home : string) (flip : bool) (uris : gmap string Uri) (m : machine) (a : agent)
    : outcome (agent * option string) :=
  let uri := default zeroUri (uris !! API_REGISTRY) in
  match Invoke client e uri (connectRequest a.(opts) m) false with
  | (_, _, Some err) => Returns (a, Some err)
  | (_, None, None) => Panics "invalid memory address or nil pointer dereference"
  | (_, Some response, None) => handleDirectHttpConnectResponse home flip a response
  end.

(** callback.go and closer.go: what was sent, if anything. *)
Definition Callback (o : Options) (uris : gmap string Uri) (status : Z)
    (oldVersion newVersion currVersion message programType : string)
    : option (Request * option Response * option string) :=
  match uris !! API_UPGRADE_CALLBACK with
  | None => None
  | Some uri =>
      let r := NewRequest o in
      let r := AddParam r "oldVersion" oldVersion in
      let r := AddParam r "newVersion" newVersion in
      let r := AddParam r "currVersion" currVersion in
      let r := AddParam r "status" (FormatInt status) in
      let r := AddParam r "message" message in
      let r := AddParam r "type" programType in
      Some (Invoke client e uri r true)
  end.

Definition Shutdown (o : Options) (uris : gmap string Uri) : Request * option Response * option string :=
  Invoke client e (default zeroUri (uris !! API_CLOSE)) (NewRequest o) true.
End client.

(** ** Failed handlers *)

Inductive reachable (s0 : procs) : procs -> Prop :=
| reach_refl : reachable s0 s0
| reach_step s s' : reachable s0 s -> step s s' -> reachable s0 s'.

(** [Start] declares its error channel without making it: whatever fails,
    the process never exits because of it, the goroutine of a handler that
    failed stays at its send, and no error is ever handed over. *)
Theorem failed_start_is_silent c s : reachable (Start c) s ->
  exited s = false /\
  forall name err s', starters s !! name = Some (Sending err) -> step s s' ->
    starters s' !! name = Some (Sending err).
Proof.
  intros H. assert (Hinv : errCh s = None /\ exited s = false).
  { induction H as [|s s' _ [IH1 IH2] Hs]; [unfold Start; by case_decide|].
    by destruct Hs. }
  destruct Hinv as [Hc He]. split; [done|]. intros name err s' Hn Hs.
  destruct Hs as [n ch gs rd Hg|n er ch gs rd Hg|n er gs Hg]; cbn [starters errCh] in *; [| |done].
  - rewrite lookup_insert_ne; [done|]. intros ->. congruence.
  - rewrite lookup_insert_ne; [done|]. intros ->. congruence.
Qed.

Lemma failed_start_is_silent_witness :
  exited (mkProcs None (<["connect" := Sending "refused"]> ∅) true false) = false.
Proof.
  apply (failed_start_is_silent (Register NewConn "connect" (Some "refused"))).
  eapply reach_step; [apply reach_refl|].
  exact (step_err "connect" "refused" None (<["connect" := Starting (Some "refused")]> ∅) true eq_refl).
Defined.

(** ** Registration *)

(** The answer of a server that accepts the agent. *)
Definition grants (response : Response) (cid ak sk : string) : Prop :=
  response.(Success) = true /\
  exists v, response.(Result) = JObj v /\ jget "cid" v = JStr cid /\
    jget "ak" v = JStr ak /\ jget "sk" v = JStr sk.

Lemma RecordSecretKey_keys home flip os k ak sk os' k' err :
  RecordSecretKeyToFile home flip os k ak sk = (os', k', err) ->
  match err with
  | None => k' = mkKeys ak sk /\ ak <> "" /\ sk <> ""
  | Some _ => k' = k
  end.
Proof.
  unfold RecordSecretKeyToFile. destruct (eqb_spec_s ak ""), (eqb_spec_s sk ""); cbn [orb];
    try (by intros [= <- <- <-]).
  destruct (RecordMapToFile os _ _ true) as [os1 [e|]]; intros [= <- <- <-]; done.
Qed.

(** What an agent with keys sends. *)
Lemma keys_sign ak sk now uuid r : ak <> "" -> sk <> "" -> let e := mkEnv (mkKeys ak sk) now uuid in
  InvokeChain BuildInterceptor e r = (signedRequest e r, None) /\
  get (signedRequest e r).(Headers) AccessKey = ak /\
  get (signedRequest e r).(Headers) SignKey = Sign (mkKeys ak sk) (signedText (signedRequest e r)) /\
  (int64_ok now -> accepted (mkKeys ak sk) (signedRequest e r)).
Proof.
  intros Ha Hs e. split; [by apply InvokeChain_signed|].
  assert (E : get (signedRequest e r).(Headers) AccessKey = ak /\
    get (signedRequest e r).(Headers) SignKey = Sign (mkKeys ak sk) (signedText (signedRequest e r))).
  { unfold signedRequest. rewrite !signedText_AddHeader by done. rewrite !AddHeader_ne by done. cbn [Headers].
    rewrite get_insert_ne, !get_insert by done. done. }
  destruct E as [E1 E2]. split_and!; [done..|]. intros Hn. unfold accepted. split; [|split; [by right|done]].
  rewrite signedRequest_Params, get_insert, ParseInt_FormatInt by (by apply micros_int64). eauto.
Qed.

Lemma handleConnect_keys home flip a response a' err :
  handleDirectHttpConnectResponse home flip a response = Returns (a', err) ->
  match err with
  | Some _ => a'.(agent_keys) = a.(agent_keys)
  | None => exists cid ak sk, grants response cid ak sk /\
      a'.(opts).(Options.Cid) = cid /\ a'.(agent_keys) = mkKeys ak sk /\ ak <> "" /\ sk <> "" /\
      forall now uuid r, let e := mkEnv a'.(agent_keys) now uuid in
        InvokeChain BuildInterceptor e r = (signedRequest e r, None) /\
        get (signedRequest e r).(Headers) AccessKey = ak /\
        get (signedRequest e r).(Headers) SignKey = Sign (mkKeys ak sk) (signedText (signedRequest e r)) /\
        (int64_ok now -> accepted (mkKeys ak sk) (signedRequest e r))
  end.
Proof.
  unfold handleDirectHttpConnectResponse. destruct (Success response) eqn:Es; cbn [negb]; [|by intros [= <- <-]].
  destruct (Result response) as [| | | | |v] eqn:Er; try (by intros [= <- <-]).
  intros H. apply outcome_bind_returns in H as (cid & Hcid & H).
  apply outcome_bind_returns in H as (a1 & Ha1 & H).
  assert (Hk1 : agent_keys a1 = agent_keys a /\ (opts a1).(Options.Cid) = cid).
  { destruct (jget "uid" v); try (by simplify_eq/=). }
  destruct Hk1 as [Hk1 Hc1].
  destruct (jget "cid" v) as [| | |c| |] eqn:Ec; try done. injection Hcid as <-.
  unfold recordKeys in H.
  destruct (jget "ak" v) as [| | |ak| |] eqn:Ea, (jget "sk" v) as [| | |sk| |] eqn:Esk;
    try done; try (by injection H as <- <-).
  cbn [assertString mbind outcome_bind] in H.
  destruct (RecordSecretKeyToFile home flip (disk a1) (agent_keys a1) ak sk) as [[os' k'] e'] eqn:ER.
  injection H as <- <-. apply RecordSecretKey_keys in ER. cbn [agent_keys opts]. destruct e' as [e'|].
  - congruence.
  - destruct ER as (-> & Hak & Hsk). exists c, ak, sk. split; [by split; [done|exists v]|].
    do 4 (split; [done|]). intros now uuid r. by apply keys_sign.
Qed.

(** C33. Registration: when it ends without error the server's answer granted
    a cid and two non-empty keys, the agent holds exactly these, and from then
    on its requests go out with the access key and the signature that these
    keys make of them, which a peer with the same keys accepts; when it ends
    with an error the keys are what they were. *)
Theorem registration_installs_keys home flip a response a' err :
  handleDirectHttpConnectResponse home flip a response = Returns (a', err) ->
  match err with
  | Some _ => a'.(agent_keys) = a.(agent_keys)
  | None => exists cid ak sk, grants response cid ak sk /\
      a'.(opts).(Options.Cid) = cid /\ a'.(agent_keys) = mkKeys ak sk /\ ak <> "" /\ sk <> "" /\
      forall now uuid r, let e := mkEnv a'.(agent_keys) now uuid in
        InvokeChain BuildInterceptor e r = (signedRequest e r, None) /\
        get (signedRequest e r).(Headers) AccessKey = ak /\
        get (signedRequest e r).(Headers) SignKey = Sign (mkKeys ak sk) (signedText (signedRequest e r)) /\
        (int64_ok now -> accepted (mkKeys ak sk) (signedRequest e r))
  end.
Proof. apply handleConnect_keys. Qed.

Definition demo_grant : Response :=
  mkResponse 200 true "" (JObj [("cid", JStr "c1"); ("ak", JStr "a1"); ("sk", JStr "s1")]).
Definition demo_agent : agent := mkAgent AddFlags demo_os (mkKeys "" "").

Lemma registration_installs_keys_witness :
  exists a' cid ak sk,
    handleDirectHttpConnectResponse "/root" false demo_agent demo_grant = Returns (a', None) /\
    grants demo_grant cid ak sk /\ a'.(agent_keys) = mkKeys ak sk.
Proof.
  destruct (handleDirectHttpConnectResponse "/root" false demo_agent demo_grant) as [[a' [err|]]| |] eqn:E;
    try (vm_compute in E; discriminate E).
  destruct (registration_installs_keys _ _ _ _ _ _ E) as (cid & ak & sk & Hg & _ & Hk & _).
  by exists a', cid, ak, sk.
Defined.

(** A field that is there and is not a string. *)
Definition mistyped (k : string) (v : list (string * json)) : Prop :=
  as_string (jget k v) = None /\ jget k v <> JNull.

Lemma recordKeys_panics home flip a v why : recordKeys home flip a v = Panics why ->
  mistyped "ak" v \/ mistyped "sk" v.
Proof.
  unfold recordKeys, mistyped.
  destruct (jget "ak" v) as [| | |ak| |]; try (by left).
  destruct (jget "sk" v) as [| | |sk| |]; try (by right).
  cbn. by destruct (RecordSecretKeyToFile _ _ _ _ ak sk) as [[? ?] ?].
Qed.

(** Registration never dereferences a nil response.  It panics only on a
    successful answer whose cid is absent or not a string, or whose uid or
    keys have another type. *)
Theorem connect_panics_on_types {C} `{TransportChannel C} (client : C) e home flip uris m a why :
  connect client e home flip uris m a = Panics why ->
  exists resp v, resp.(Success) = true /\ resp.(Result) = JObj v /\
    (as_string (jget "cid" v) = None \/ mistyped "uid" v \/ mistyped "ak" v \/ mistyped "sk" v).
Proof.
  unfold connect.
  destruct (Invoke client e _ _ false) as [[r' [resp|]] [err|]] eqn:E; try done;
    [|by apply Invoke_response in E as [? ?]].
  unfold handleDirectHttpConnectResponse. destruct (Success resp) eqn:Es; cbn [negb]; [|done].
  destruct (Result resp) as [| | | | |v] eqn:Er; try done. intros Hp. exists resp, v.
  do 2 (split; [done|]).
  destruct (jget "cid" v) as [| | |c| |]; try (by left). right.
  cbn [assertString mbind outcome_bind] in Hp. unfold mistyped at 1.
  destruct (jget "uid" v) as [| | |u| |]; try (by left); right; by apply recordKeys_panics in Hp.
Qed.

#[local] Instance function_channel : TransportChannel (Uri -> string -> result string) := fun f => f.

Lemma connect_panics_on_types_witness :
  exists why resp v,
    connect (fun (_ : Uri) (_ : string) => Ok (dq "{'success':true,'result':{}}")) demo_env "/root" false
      ∅ (mkMachine "up" 4 None) demo_agent = Panics why /\
    resp.(Result) = JObj v.
Proof.
  destruct (connect (fun (_ : Uri) (_ : string) => Ok (dq "{'success':true,'result':{}}")) demo_env "/root" false
      ∅ (mkMachine "up" 4 None) demo_agent) as [|why|] eqn:E; try (vm_compute in E; discriminate E).
  destruct (connect_panics_on_types _ _ _ _ _ _ _ _ E) as (resp & v & _ & Hv & _).
  by exists why, resp, v.
Defined.
End Conn.
