(* ===== verification/Metric.v ===== *)
(** * metricreport and conn/metric: the registry of periodic reports

    The registry is a map under a read-write lock; [Start] gives every enabled
    entry a ticker, [CloseEnable] stops one, [Stop] is meant to stop all. *)

From S2P Require Import Prelude.
Local Open Scope Z_scope.

Module Metric.

(** ** sync.RWMutex, seen from one goroutine

    The lock operations of a goroutine that nothing else disturbs: taking the
    lock while it is held in a conflicting way blocks for ever, because the
    holder is the goroutine itself. *)
Record RWMutex := mkRW { readers : nat; writer : bool }.
Definition unlocked : RWMutex := mkRW 0 false.

Definition RLock (l : RWMutex) : outcome RWMutex :=
  if writer l then Blocks else Returns (mkRW (S (readers l)) false).
Definition RUnlock (l : RWMutex) : outcome RWMutex :=
  match readers l with
  | O => Panics "sync: RUnlock of unlocked RWMutex"
  | S n => Returns (mkRW n (writer l))
  end.
Definition Lock (l : RWMutex) : outcome RWMutex :=
  if writer l then Blocks
  else match readers l with O => Returns (mkRW 0 true) | S _ => Blocks end.
Definition Unlock (l : RWMutex) : outcome RWMutex :=
  if writer l then Returns (mkRW (readers l) false)
  else Panics "sync: Unlock of unlocked RWMutex".

(** ** metricreport/metric.go *)

(** A collector is named by a [C]; a ticker is there or not, and runs until it
    is stopped. *)
Record ReportMetricConfig (C : Type) := mkConfig {
  MetricCollector : option C;
  Enable : bool;
  Period : Z;
  Ticker : option bool
}.
Arguments mkConfig {C} _ _ _ _.
Arguments MetricCollector {C} _.
Arguments Enable {C} _.
Arguments Period {C} _.
Arguments Ticker {C} _.

Record ReportMetricConfigMap (C : Type) := mkMap {
  lock : RWMutex;
  configs : gmap string (ReportMetricConfig C)
}.
Arguments mkMap {C} _ _.
Arguments lock {C} _.
Arguments configs {C} _.

Definition New (C : Type) : ReportMetricConfigMap C := mkMap unlocked ∅.

Definition DefaultReportMetricPeriod : Z := 10 * 1000000000.
Definition K8sPod := "k8sPod".

Section registry.
Context {C : Type}.
Implicit Types rmc : ReportMetricConfigMap C.

Definition MetricRegistry rmc (metricName : string) (config : ReportMetricConfig C)
    : outcome (ReportMetricConfigMap C) :=
  l ← Lock (lock rmc);
  let m := match MetricCollector config with
           | None => configs rmc
           | Some _ => <[metricName := config]> (configs rmc)
           end in
  l ← Unlock l;
  Returns (mkMap l m).

(** [InitMetricConfig], given the pod collector it builds. *)
Definition InitMetricConfig rmc (podCollector : C) (PodMetricFlag : bool)
    : outcome (ReportMetricConfigMap C) :=
  MetricRegistry rmc K8sPod (mkConfig (Some podCollector) PodMetricFlag DefaultReportMetricPeriod None).

Definition CloseEnable rmc (metricName : string) : outcome (ReportMetricConfigMap C) :=
  l ← Lock (lock rmc);
  let m := match configs rmc !! metricName with
           | None => configs rmc
           | Some reportConfig =>
               match Ticker reportConfig with
               | None => configs rmc
               | Some _ =>
                   <[metricName := mkConfig (MetricCollector reportConfig) false (Period reportConfig)
                                     (Some false)]> (configs rmc)
               end
           end in
  l ← Unlock l;
  Returns (mkMap l m).

(** ** conn/metric/metric.go *)

(** The loop of [Start] over the entries in the order they are visited.
    [NewTicker] panics on a period that is not positive. *)
Fixpoint startAll (entries : list (string * ReportMetricConfig C))
    (m : gmap string (ReportMetricConfig C)) : outcome (gmap string (ReportMetricConfig C)) :=
  match entries with
  | [] => Returns m
  | (metricName, data) :: entries' =>
      if negb (Enable data) then startAll entries' m
      else if Period data <=? 0 then Panics "non-positive interval for NewTicker"
      else startAll entries'
             (<[metricName := mkConfig (MetricCollector data) true (Period data) (Some true)]> m)
  end.

(** The deferred unlock also runs when the loop panics; the state of a
    panicking call is not followed further. *)
Definition Start rmc (order : list (string * ReportMetricConfig C)) : outcome (ReportMetricConfigMap C) :=
  l ← RLock (lock rmc);
  m ← startAll order (configs rmc);
  l ← RUnlock l;
  Returns (mkMap l m).

(** The loop of [Stop] over the names. *)
Fixpoint closeAll rmc (names : list string) : outcome (ReportMetricConfigMap C) :=
  match names with
  | [] => Returns rmc
  | metricName :: names' => rmc ← CloseEnable rmc metricName; closeAll rmc names'
  end.

Definition Stop rmc (order : list string) : outcome (ReportMetricConfigMap C) :=
  l ← RLock (lock rmc);
  rmc ← closeAll (mkMap l (configs rmc)) order;
  l ← RUnlock (lock rmc);
  Returns (mkMap l (configs rmc)).

(** ** Properties *)

(** The order in which [range] visits a map. *)
Definition visits rmc (order : list (string * ReportMetricConfig C)) : Prop :=
  order ≡ₚ map_to_list (configs rmc).

(** What a started entry looks like. *)
Definition started (data : ReportMetricConfig C) : ReportMetricConfig C :=
  if Enable data then mkConfig (MetricCollector data) true (Period data) (Some true) else data.

Lemma startAll_lookup entries m : NoDup entries.*1 ->
  (forall k data, (k, data) ∈ entries -> m !! k = Some data) ->
  Forall (fun kv => Enable kv.2 = true -> 0 < Period kv.2) entries ->
  exists m', startAll entries m = Returns m' /\
    forall k, m' !! k = if decide (k ∈ entries.*1) then started <$> (m !! k) else m !! k.
Proof.
  revert m. induction entries as [|[k data] entries IH]; intros m Hnd Hm Hp.
  { exists m. split; [done|]. intros k. by rewrite decide_False by (apply not_elem_of_nil). }
  cbn [fmap list_fmap fst] in *. apply NoDup_cons in Hnd as [Hk Hnd].
  apply Forall_cons in Hp as [Hp0 Hp]. cbn [snd] in Hp0.
  assert (Hdata : m !! k = Some data) by (apply Hm; set_solver).
  cbn [startAll]. destruct (Enable data) eqn:Ee; cbn [negb].
  - replace (Period data <=? 0) with false by (symmetry; apply Z.leb_gt; auto).
    destruct (IH (<[k := started data]> m)) as (m' & Em & Hm'); [done| |done|].
    { intros k' data' Hin. rewrite lookup_insert_ne; [apply Hm; set_solver|].
      intros ->. apply Hk, list_elem_of_fmap. by exists (k', data'). }
    unfold started at 1 in Em. rewrite Ee in Em. exists m'. split; [done|]. intros k'. rewrite Hm'.
    destruct (decide (k' = k)) as [->|Hne].
    + rewrite decide_False by done. rewrite decide_True by set_solver.
      by rewrite lookup_insert_eq, Hdata.
    + rewrite !lookup_insert_ne by done. repeat case_decide; set_solver.
  - destruct (IH m) as (m' & Em & Hm'); [done|set_solver|done|]. exists m'. split; [done|].
    intros k'. rewrite Hm'. destruct (decide (k' = k)) as [->|Hne].
    + rewrite decide_False by done. rewrite decide_True by set_solver.
      rewrite Hdata. cbn. unfold started. by rewrite Ee.
    + repeat case_decide; set_solver.
Qed.

Lemma visits_entries rmc order : visits rmc order ->
  NoDup order.*1 /\ forall k data, (k, data) ∈ order <-> configs rmc !! k = Some data.
Proof.
  intros H. split.
  - rewrite H. apply NoDup_fst_map_to_list.
  - intros k data. rewrite H. apply elem_of_map_to_list.
Qed.

(** With positive periods, [Start] gives every enabled entry a running
    ticker, leaves the other entries alone and releases the lock, in whatever
    order the map is visited. *)
Theorem Start_starts_enabled rmc order : visits rmc order -> lock rmc = unlocked ->
  map_Forall (fun _ data => Enable data = true -> 0 < Period data) (configs rmc) ->
  Start rmc order = Returns (mkMap unlocked (started <$> configs rmc)).
Proof.
  intros Hv Hl Hp. apply visits_entries in Hv as [Hnd Hin]. unfold Start. rewrite Hl.
  cbn [RLock unlocked writer readers mbind outcome_bind].
  destruct (startAll_lookup order (configs rmc) Hnd) as (m' & -> & Hm').
  - intros k data. apply Hin.
  - apply Forall_forall. intros [k data] Hkd. by apply Hin, Hp in Hkd.
  - cbn. do 2 f_equal. apply map_eq. intros k. rewrite Hm', lookup_fmap. case_decide as Hk; [done|].
    destruct (configs rmc !! k) as [data|] eqn:E; [|done]. exfalso. apply Hk, list_elem_of_fmap.
    exists (k, data). split; [done|]. by apply Hin.
Qed.

(** C34. [Stop] takes the read lock and then calls [CloseEnable], which takes
    the write lock of the same mutex: it blocks for ever as soon as one metric
    is registered, and only an empty registry can be stopped. *)
Theorem Stop_deadlocks rmc order : order ≡ₚ (map_to_list (configs rmc)).*1 -> lock rmc = unlocked ->
  Stop rmc order = if decide (configs rmc = ∅) then Returns rmc else Blocks.
Proof.
  intros Ho Hl. destruct rmc as [l m]. cbn [lock configs] in *. subst l. unfold Stop.
  case_decide as Hm.
  - subst m. rewrite map_to_list_empty in Ho. apply Permutation_nil_r in Ho as ->. done.
  - destruct order as [|name order]; [|done]. exfalso. apply Hm, map_to_list_empty_iff.
    symmetry in Ho. apply Permutation_nil_r in Ho. by apply fmap_nil_inv in Ho.
Qed.

(** A single metric can be closed while nobody holds the lock: its entry
    is disabled and its ticker stopped; an unknown metric, or one that never
    started, is left alone. *)
Theorem CloseEnable_stops rmc name : lock rmc = unlocked ->
  exists m', CloseEnable rmc name = Returns (mkMap unlocked m') /\
    (forall k, k <> name -> m' !! k = configs rmc !! k) /\
    match configs rmc !! name with
    | None => m' !! name = None
    | Some data =>
        m' !! name = Some match Ticker data with
                          | None => data
                          | Some _ => mkConfig (MetricCollector data) false (Period data) (Some false)
                          end
    end.
Proof.
  intros Hl. unfold CloseEnable. rewrite Hl. cbn.
  destruct (configs rmc !! name) as [data|] eqn:E; [destruct (Ticker data) eqn:Et|];
    eexists; (split; [reflexivity|]); rewrite ?lookup_insert_eq;
    (split; [intros k Hk; by rewrite ?lookup_insert_ne|done]).
Qed.
End registry.

Definition demo_map : ReportMetricConfigMap unit :=
  mkMap unlocked (<[K8sPod := mkConfig (Some tt) true DefaultReportMetricPeriod None]> ∅).

Lemma Start_starts_enabled_witness :
  Start demo_map [(K8sPod, mkConfig (Some tt) true DefaultReportMetricPeriod None)] =
  Returns (mkMap unlocked (started <$> configs demo_map)).
Proof.
  apply Start_starts_enabled.
  - unfold visits. cbn [configs demo_map]. rewrite map_to_list_insert by done.
    by rewrite map_to_list_empty.
  - done.
  - apply map_Forall_insert_2; [by vm_compute|apply map_Forall_empty].
Defined.

Lemma Stop_deadlocks_witness :
  InitMetricConfig (New unit) tt true = Returns demo_map /\ Stop demo_map [K8sPod] = Blocks.
Proof.
  split; [reflexivity|]. rewrite Stop_deadlocks.
  - by rewrite decide_False.
  - cbn [configs demo_map]. rewrite map_to_list_insert by done. by rewrite map_to_list_empty.
  - done.
Defined.

Lemma CloseEnable_stops_witness : exists m', CloseEnable demo_map K8sPod = Returns (mkMap unlocked m').
Proof. destruct (CloseEnable_stops demo_map K8sPod eq_refl) as (m' & H & _). by exists m'. Defined.
End Metric.
