(* ===== verification/Web.v ===== *)
(** * web: from the HTTP request to the handler

    web/api/handler.go decodes, authenticates, dispatches and encodes;
    web/server/http.go and gateway.go register handlers; web/handler holds the
    ping, uninstall and application-update handlers (the chaosblade handler
    has its own file); cmd/chaos_agent.go writes the pid file. *)

From S2P Require Import Prelude GoStrings Hash Json JsonFacts Options Tools Transport Chaosblade.
Local Open Scope Z_scope.

Module Web.
Import Options Tools Transport.

(** ** web/type.go *)

(** [ApiHandler]: what a handler answers and how it changes its state. *)
Class ApiHandler (S : Type) := api_handle : Request -> S -> outcome (Response * S).

(** An interface value: nil, or a pointer of a concrete type, nil or not. *)
Inductive iface (H : Type) := NilInterface | Pointer (p : option H).
Arguments NilInterface {H}.
Arguments Pointer {H} p.

(** ** web/api/handler.go *)

Record ServerRequestHandler (H : Type) := mkSRH { Interceptor : Transport.Interceptor; Handler : iface H }.
Arguments mkSRH {H} _ _.
Arguments Interceptor {H} _.
Arguments Handler {H} _.

Definition NewServerRequestHandler {H} (handler : iface H) : option (ServerRequestHandler H) :=
  match handler with
  | NilInterface => None
  | _ => Some (mkSRH BuildInterceptor handler)
  end.

(** [Handle] of a handler whose context is the background one, which never
    ends.  The result is the text or the decoding error. *)
Definition serverHandle {S} `{ApiHandler S} (i : Transport.Interceptor) (e : Env) (request : string) (s : S)
    : outcome (result string * S) :=
  match unmarshalRequest request with
  | None => Returns (Err "invalid request", s)
  | Some req =>
      match Handle i e req with
      | Some response => Returns (Ok (marshalResponse response), s)
      | None => '(response, s) ← api_handle req s; Returns (Ok (marshalResponse response), s)
      end
  end.

(** ** web/server *)

(** http.go: the function registered for a name.  [form] is what [ParseForm]
    gave for "body", [None] when it failed; the result is the text written,
    [None] for a reply without a body. *)
Definition httpHandle {S} `{ApiHandler S} (i : Transport.Interceptor) (e : Env) (handlerName : string)
    (form : option (list string)) (s : S) : outcome (option string * S) :=
  match form with
  | None => Returns (None, s)
  | Some [] => Panics "index out of range [0] with length 0"
  | Some (body :: _) =>
      '(res, s) ← serverHandle i e body s;
      match res with
      | Ok text => Returns (Some text, s)
      | Err err => Returns (Some ("handle " +:+ handlerName +:+ " request err, " +:+ err), s)
      end
  end.

(** Registration on the default mux of net/http, which panics when a pattern
    is there already; the error is always nil. *)
Definition httpRegister {H} (mux : gmap string H) (handlerName : string) (handler : H)
    : outcome (gmap string H * option string) :=
  if bool_decide (is_Some (mux !! ("/" +:+ handlerName)))
  then Panics ("http: multiple registrations for /" +:+ handlerName)
  else Returns (<["/" +:+ handlerName := handler]> mux, None).

(** gateway.go: a name is registered once, later calls change nothing.  Only
    a nil interface is refused, a nil pointer inside one is not. *)
Definition gatewayRegister {H} (Handlers : gmap string (iface H)) (handlerName : string) (handler : iface H)
    : gmap string (iface H) * option string :=
  if handlerName ==s "" then (Handlers, Some "handlerName can not be blank")
  else match handler with
       | NilInterface => (Handlers, Some "handler can not be null")
       | Pointer _ =>
           if bool_decide (is_Some (Handlers !! handlerName)) then (Handlers, None)
           else (<[handlerName := handler]> Handlers, None)
       end.

(** ** web/api/api.go *)

(** The names [Register] registers, in order. *)
Definition apiNames : list string :=
  ["chaosblade"; "ping"; "uninstall"; "updateApplication"; "litmuschaos"; "installLitmus";
   "uninstallLitmus"].

(** The first error ends the registration. *)
Fixpoint registerAll {H} (mux : gmap string H) (handlers : list (string * H))
    : outcome (gmap string H * option string) :=
  match handlers with
  | [] => Returns (mux, None)
  | (name, h) :: handlers' =>
      '(mux, err) ← httpRegister mux name h;
      match err with
      | Some e => Returns (mux, Some e)
      | None => registerAll mux handlers'
      end
  end.
Definition Register {H} (handlers : list H) : outcome (gmap string H * option string) :=
  registerAll ∅ (zip apiNames handlers).

(** ** web/handler *)

Definition PingHandle (request : Request) : Response := ReturnSuccess.

(** uninstallAgent.go: [ctlPath] is what [CtlPathFunc] finds. *)
Definition UninstallHandle (os : OS) (sh : shell) (ctlPath : string) (request : Request) : Response :=
  if (ctlPath ==s "") || negb (IsExist os ctlPath) then ReturnFail CtlFileNotFound [ctlPath]
  else
    let '(_, errMsg, ok) := ExecScript os sh ctlPath "uninstall" in
    if negb ok || negb (errMsg ==s "") then ReturnFail CtlExecFailed [errMsg]
    else ReturnSuccess.

(** updateApplication.go: the names a request gives replace the agent's; then
    the options and the file system after the whole handler. *)
Definition takeNames (request : Request) (o : Options) : Options :=
  let appInstance := get request.(Params) AppInstanceKeyName in
  let appGroup := get request.(Params) AppGroupKeyName in
  let o := if appInstance ==s "" then o else set_ApplicationInstance appInstance o in
  if appGroup ==s "" then o else set_ApplicationGroup appGroup o.
Definition UpdateApplicationHandle (AppFile : string) (flip : bool) (request : Request)
    (o : Options) (os : OS) : Response * Options * OS :=
  let o := takeNames request o in
  match RecordApplicationToFile AppFile flip os o.(ApplicationInstance) o.(ApplicationGroup) true with
  | (os, Some _) => (ReturnFail ServerError ["record application info to local file failed"], o, os)
  | (os, None) => (ReturnSuccess, o, os)
  end.

(** Handlers behind the interface: their state and how they answer. *)
#[export] Instance ping_api : ApiHandler unit := fun r s => Returns (PingHandle r, s).

Record AppState := mkApp { app_opts : Options; app_os : OS; AppFile : string; app_flip : bool }.
#[export] Instance update_api : ApiHandler AppState := fun r s =>
  let '(resp, o, os) := UpdateApplicationHandle s.(AppFile) s.(app_flip) r s.(app_opts) s.(app_os) in
  Returns (resp, mkApp o os s.(AppFile) s.(app_flip)).

(** The chaosblade handler with the world it runs in; every request gets its
    own schedule of ticks. *)
Record BladeState := mkBlade {
  blade : Chaosblade.ChaosbladeHandler;
  blade_world : Chaosblade.World;
  spawned : list Chaosblade.task;
  schedule : list Chaosblade.selected
}.
#[export] Instance blade_api : ApiHandler BladeState := fun r s =>
  '(resp, ch, ts, w) ← Chaosblade.Handle s.(schedule) s.(blade) r s.(blade_world);
  Returns (resp, mkBlade ch w (s.(spawned) ++ ts) s.(schedule)).

(** ** cmd/chaos_agent.go: the pid file *)

Definition pidFile := "/var/run/chaos.pid".

(** Opened for writing without truncation. *)
Definition writePid (os : OS) (pid : Z) : OS * option string :=
  match os.(open_err) pidFile with
  | Some err => (os, Some err)
  | None =>
      match os.(write_err) pidFile 0 with
      | Some err => (os, Some err)
      | None =>
          (with_files os
             (<[pidFile := overwrite (FormatInt pid) (default "" (os.(files) !! pidFile))]> os.(files)), None)
      end
  end.

(** ** Properties *)

Section authentication.
Context {S : Type} `{ApiHandler S}.

(** C1. Nothing behind the server runs for a request that is not properly
    signed: whatever text comes in, if it does not decode to a request that
    the keys accept, the handler's state is untouched and the answer is the
    same whichever handler stands behind. *)
Theorem unauthenticated_is_inert e text (s : S) :
  (forall r, unmarshalRequest text = Some r -> ~ accepted e.(keys) r) ->
  exists answer, serverHandle BuildInterceptor e text s = Returns (answer, s) /\
    forall T (HT : ApiHandler T) (t : T), serverHandle BuildInterceptor e text t = Returns (answer, t).
Proof.
  intros Hno. unfold serverHandle. destruct (unmarshalRequest text) as [r|]; [|eauto].
  destruct (Handle BuildInterceptor e r) as [resp|] eqn:E; [eauto|].
  apply Handle_accepted in E. by apply Hno in E.
Qed.

(** C9. A request that a peer with the same keys signed goes through: it is
    decoded as it was sent, passes the interceptors, and what comes back is
    the answer of the handler. *)
Theorem signed_request_is_served e client r rid (s s' : S) resp :
  client.(keys) = e.(keys) -> has_keys client -> int64_ok client.(now) -> valid_request r ->
  valid_utf8 client.(keys).(localAccessKey) = true -> valid_utf8 rid = true ->
  let sent := AddHeader (InvokeChain BuildInterceptor client r).1 "rid" rid in
  api_handle sent s = Returns (resp, s') ->
  serverHandle BuildInterceptor e (marshalRequest sent) s = Returns (Ok (marshalResponse resp), s').
Proof.
  intros Hk Hh Hn Hv Ha Hr sent Hs. unfold serverHandle, sent in *.
  rewrite InvokeChain_signed in * by done. cbn [fst] in *.
  rewrite request_wire by (apply AddHeader_valid; [done|done|by apply signedRequest_valid]).
  assert (Handle BuildInterceptor e (AddHeader (signedRequest client r) "rid" rid) = None) as ->.
  { apply Handle_accepted. rewrite <-Hk. apply signedRequest_accepted; [done|].
    by apply (bool_decide_unpack _); vm_compute. }
  by rewrite Hs.
Qed.
End authentication.

Definition demo_request : Request := mkRequest ∅ (<["cmd" := "create"]> ∅).
Definition demo_sent : Request := AddHeader (signedRequest demo_env demo_request) "rid" "7".

Lemma unauthenticated_is_inert_witness :
  exists answer, serverHandle BuildInterceptor demo_env (marshalRequest demo_request) tt = Returns (answer, tt).
Proof.
  destruct (unauthenticated_is_inert demo_env (marshalRequest demo_request) tt) as (a & E & _); [|by exists a].
  intros r E (_ & _ & Hs). assert (Some r = Some demo_request) as [= ->] by (rewrite <-E; vm_compute; reflexivity).
  vm_compute in Hs. discriminate Hs.
Defined.

Lemma signed_request_is_served_witness :
  serverHandle BuildInterceptor demo_env (marshalRequest demo_sent) tt =
  Returns (Ok (marshalResponse ReturnSuccess), tt).
Proof.
  apply (signed_request_is_served demo_env demo_env demo_request "7" tt tt ReturnSuccess); try done.
  - split; (by apply (bool_decide_unpack _); vm_compute).
Defined.

(** ** The record of the application *)

Lemma takeNames_names request o :
  let new k old := if get request.(Params) k ==s "" then old else get request.(Params) k in
  (takeNames request o).(ApplicationInstance) = new AppInstanceKeyName o.(ApplicationInstance) /\
  (takeNames request o).(ApplicationGroup) = new AppGroupKeyName o.(ApplicationGroup).
Proof. unfold takeNames. by repeat destruct (get _ _ ==s ""). Qed.

(** Updating the application: the names given in the request, or the ones
    the agent had where the request gives none, become the agent's names; on
    success they are also what a later read of the file gives, and a request
    only fails when the file could not be written. *)
Theorem update_application AppFile flip request o os resp o' os' :
  let new k old := if get request.(Params) k ==s "" then old else get request.(Params) k in
  let i := new AppInstanceKeyName o.(ApplicationInstance) in
  let g := new AppGroupKeyName o.(ApplicationGroup) in
  ~ In_s (chr 10) i -> ~ In_s (chr 10) g -> ends_tidy i -> ends_tidy g ->
  UpdateApplicationHandle AppFile flip request o os = (resp, o', os') ->
  o'.(ApplicationInstance) = i /\ o'.(ApplicationGroup) = g /\
  if resp.(Success) then ReadAppInfoFromFile AppFile os' = Ok (i, g)
  else exists err, (RecordApplicationToFile AppFile flip os i g true).2 = Some err.
Proof.
  intros new i g Hi Hg Ti Tg. unfold UpdateApplicationHandle.
  destruct (takeNames_names request o) as [Ei Eg].
  change (ApplicationInstance (takeNames request o) = i) in Ei.
  change (ApplicationGroup (takeNames request o) = g) in Eg. rewrite Ei, Eg.
  destruct (RecordApplicationToFile AppFile flip os i g true) as [os1 [err|]] eqn:E; intros [= <- <- <-];
    (split; [done|]); (split; [done|]); cbn.
  - eauto.
  - eapply read_record; eauto using Record_content.
Qed.

Lemma update_application_witness :
  ReadAppInfoFromFile "f"
    (UpdateApplicationHandle "f" false (mkRequest ∅ (<[AppGroupKeyName := "eu"]> ∅)) AddFlags Tools.demo_os).2
  = Ok (DefaultApplicationInstance, "eu").
Proof.
  set (r := mkRequest ∅ (<[AppGroupKeyName := "eu"]> ∅)).
  destruct (update_application "f" false r AddFlags Tools.demo_os ReturnSuccess (takeNames r AddFlags)
              (UpdateApplicationHandle "f" false r AddFlags Tools.demo_os).2) as (_ & _ & H).
  - vm_compute. intuition congruence.
  - vm_compute. intuition congruence.
  - vm_compute. reflexivity.
  - vm_compute. reflexivity.
  - reflexivity.
  - exact H.
Defined.

(** ** Registration and the pid file *)

Lemma httpRegister_fresh {H} (mux : gmap string H) name h :
  mux !! ("/" +:+ name) = None -> httpRegister mux name h = Returns (<["/" +:+ name := h]> mux, None).
Proof. intros E. unfold httpRegister. rewrite E. by rewrite bool_decide_false by (by intros [? ?]). Qed.

Lemma registerAll_ok {H} (hs : list (string * H)) mux : NoDup hs.*1 ->
  (forall k, k ∈ hs.*1 -> mux !! ("/" +:+ k) = None) ->
  exists mux', registerAll mux hs = Returns (mux', None) /\
    (forall k h, (k, h) ∈ hs -> mux' !! ("/" +:+ k) = Some h) /\
    (forall k h, mux !! k = Some h -> mux' !! k = Some h).
Proof.
  revert mux. induction hs as [|[k h] hs IH]; intros mux Hnd Hm.
  { exists mux. split; [done|]. split; [intros ? ? Hin; by apply elem_of_nil in Hin|done]. }
  cbn [fmap list_fmap fst] in *. apply NoDup_cons in Hnd as [Hk Hnd]. cbn [registerAll].
  rewrite httpRegister_fresh by (apply Hm; set_solver). cbn [mbind outcome_bind].
  destruct (IH (<["/" +:+ k := h]> mux) Hnd) as (mux' & E & H1 & H2).
  { intros k' Hin. rewrite lookup_insert_ne; [apply Hm; set_solver|].
    intros Eq. apply app_inv_s in Eq as <-. done. }
  exists mux'. split; [done|]. split.
  - intros k' h' Hin. apply elem_of_cons in Hin as [[= -> ->]|Hin]; [|by apply H1].
    apply H2. by rewrite lookup_insert_eq.
  - intros k' h' Hl. apply H2. rewrite lookup_insert_ne; [done|].
    intros <-. rewrite Hm in Hl by set_solver. done.
Qed.

Lemma zip_fst_sublist {A B} (l : list A) (k : list B) : (zip l k).*1 `sublist_of` l.
Proof.
  revert k. induction l as [|x l IH]; intros [|y k]; cbn; [done|apply sublist_nil_l..|].
  apply sublist_skip, IH.
Qed.

(** Registering the API never clashes: the seven names are distinct, so no
    registration panics and each path leads to the handler given for it. *)
Theorem Register_routes {H} (handlers : list H) :
  exists mux, Register handlers = Returns (mux, None) /\
    forall i name h, apiNames !! i = Some name -> handlers !! i = Some h -> mux !! ("/" +:+ name) = Some h.
Proof.
  unfold Register. destruct (registerAll_ok (zip apiNames handlers) ∅) as (mux & E & Hr & _).
  - eapply sublist_NoDup; [|apply zip_fst_sublist]. by apply (bool_decide_unpack _); vm_compute.
  - done.
  - exists mux. split; [done|]. intros i name h Hn Hh. apply Hr.
    apply (list_elem_of_lookup_2 _ i). by rewrite lookup_zip_with, Hn, Hh.
Qed.

Lemma drop_empty_iff n s : drop_s n s = "" <-> (String.length s <= n)%nat.
Proof.
  revert n. induction s as [|c s IH]; intros [|n]; cbn; try (split; (done || lia)).
  rewrite IH. lia.
Qed.

(** The pid file is not truncated: after a successful write it starts with
    the new pid, and holds exactly the pid only when the old content was not
    longer; otherwise the end of the old content stays behind. *)
Theorem writePid_leaves_tail os pid os' :
  writePid os pid = (os', None) ->
  os'.(files) !! pidFile =
    Some (FormatInt pid +:+ drop_s (String.length (FormatInt pid)) (default "" (os.(files) !! pidFile))) /\
  (os'.(files) !! pidFile = Some (FormatInt pid) <->
   (String.length (default "" (os.(files) !! pidFile)) <= String.length (FormatInt pid))%nat).
Proof.
  unfold writePid, overwrite. destruct (open_err os pidFile); [done|].
  destruct (write_err os pidFile 0); [done|]. intros [= <-]. cbn [files with_files].
  rewrite lookup_insert_eq. split; [done|].
  rewrite <-drop_empty_iff. split.
  - intros [= E]. rewrite <-(app_nil_r_s (FormatInt pid)) in E at 3. by apply app_inv_s in E.
  - intros ->. by rewrite app_nil_r_s.
Qed.

Lemma writePid_leaves_tail_witness :
  (writePid (mkOS (<[pidFile := "12345"]> ∅) (fun _ => None) (fun _ _ => None)) 99).1.(files) !! pidFile
  = Some "99345".
Proof.
  destruct (writePid_leaves_tail (mkOS (<[pidFile := "12345"]> ∅) (fun _ => None) (fun _ _ => None)) 99
              (writePid (mkOS (<[pidFile := "12345"]> ∅) (fun _ => None) (fun _ _ => None)) 99).1 eq_refl)
    as [H _]. exact H.
Defined.
End Web.
