(* ===== verification/Agent.v ===== *)
(** * The agent as a whole

    The parts put together: the server in front of the chaosblade handler
    (web, transport), the goroutines of the handler ([Concurrent]), and the
    registration that installs the keys (conn/connect), from the start of the
    process on.  The theorems say what a stranger on the network can and cannot
    make the agent do. *)

From S2P Require Import Prelude GoStrings Json JsonFacts Options Tools Transport KeyRace Chaosblade Concurrent Conn Web.
Local Open Scope Z_scope.

Module Agent.
Import Options Tools Transport Chaosblade Concurrent.

(** ** What happens to a text that comes in *)

(** It is answered on the spot, or its command goes to a goroutine at [exec]. *)
Inductive reception := Refused (answer : result string) | Passed (r : Request) (cmd : string).

Definition receive (e : Env) (text : string) : reception :=
  match unmarshalRequest text with
  | None => Refused (Err "invalid request")
  | Some r =>
      match Transport.Handle BuildInterceptor e r with
      | Some response => Refused (Ok (marshalResponse response))
      | None =>
          let cmd := get r.(Params) "cmd" in
          if cmd ==s "" then Refused (Ok (marshalResponse (ReturnFail ParameterEmpty ["cmd"])))
          else Passed r cmd
      end
  end.

(** The chaosblade handler as the server sees it. *)
Definition chaosblade_api (sched : list selected) : Web.ApiHandler (ChaosbladeHandler * list task * World) :=
  fun request '(ch, ts, w) =>
    '(response, ch, new, w) ← Chaosblade.Handle sched ch request w;
    Returns (response, (ch, ts ++ new, w)).

(** [receive] is the server up to the handler's [exec]. *)
Lemma receive_serves sched e text ch ts w :
  Web.serverHandle (H := chaosblade_api sched) BuildInterceptor e text (ch, ts, w) =
  match receive e text with
  | Refused answer => Returns (answer, (ch, ts ++ [], w))
  | Passed _ cmd =>
      '(response, ch, new, w) ← exec sched ch cmd w;
      Returns (Ok (marshalResponse response), (ch, ts ++ new, w))
  end.
Proof.
  unfold Web.serverHandle, receive. rewrite app_nil_r. destruct (unmarshalRequest text) as [r|]; [|done].
  destruct (Transport.Handle BuildInterceptor e r); [done|].
  unfold Web.api_handle, chaosblade_api, Chaosblade.Handle. destruct (get (Params r) "cmd" ==s "").
  - cbn. by rewrite app_nil_r.
  - by destruct (exec sched ch (get (Params r) "cmd") w) as [[[[? ?] ?] ?]| |].
Qed.

Lemma receive_passes e text r cmd : receive e text = Passed r cmd ->
  unmarshalRequest text = Some r /\ accepted e.(keys) r /\ cmd = get r.(Params) "cmd" /\ cmd <> "".
Proof.
  unfold receive. destruct (unmarshalRequest text) as [r'|]; [|done].
  destruct (Transport.Handle BuildInterceptor e r') eqn:Eh; [done|]. apply Handle_accepted in Eh.
  destruct (eqb_spec_s (get (Params r') "cmd") ""); [done|]. intros [= <- <-]. done.
Qed.

(** ** The life of an agent *)

Definition noKeys : Keys := mkKeys "" "".
Definition set_process (os' : OS) (e' : Env) (o' : Options) (s : shared) : shared :=
  mkShared (mkWorld os' s.(world).(answers) s.(world).(calls)) s.(handler) s.(mutex) e' o' s.(sent).
Definition set_keys (k : Keys) (s : shared) : shared :=
  set_process s.(world).(os) (mkEnv k s.(env).(now) s.(env).(uuid)) s.(opts) s.

(** What stands before the handler: the requests whose check is under way or
    over, the registrations that still have keys to assign, the keys that
    registrations gave, and the requests that were let through, oldest first. *)
Record gate := mkGate {
  checks : list KeyRace.reader;
  assigning : list KeyRace.writer;
  granted : list Keys;
  admitted : list Request
}.
Definition openGate : gate := mkGate [] [] [] [].

(** The command of a request that was let through, if it has one. *)
Definition commandOf (r : Request) : list string :=
  let cmd := get r.(Params) "cmd" in if cmd ==s "" then [] else [cmd].
Definition passed (p : KeyRace.reader) : list Request :=
  match p with KeyRace.Allowed r => [r] | _ => [] end.
Definition register (k : Keys) (g : gate) : gate :=
  mkGate g.(checks) (g.(assigning) ++ [KeyRace.BothKeys k.(localAccessKey) k.(localSecureKey)])
    (g.(granted) ++ [k]) g.(admitted).

Section life.
Context {C : Type} `{TransportChannel C} (client : C) (uris : gmap string Uri).

(** An agent that started without keys, and the events of its handler.  A step
    is one of a goroutine, a request that comes in, a read of its check (after
    the last one its command goes to a goroutine), an attempt to register, one
    of the two assignments a registration ends with, a fatal error of the
    runtime, or the passing of time, in which files and options may change. *)
Inductive life : sys -> list event -> gate -> Prop :=
| life_init os answers o now uuid :
    life (mkSys [] (mkShared (mkWorld os answers []) NewChaosbladeHandler None (mkEnv noKeys now uuid) o [])) [] openGate
| life_run i c ths s p p' new s' log g :
    life (mkSys ths s) log g -> up (mkSys ths s) -> ths !! i = Some p ->
    tstep client uris i c p s = Some (p', new, s') ->
    life (mkSys (<[i := p']> ths ++ map spawn new) s') (log ++ eventsOf p) g
| life_receive text r ths s log g :
    life (mkSys ths s) log g -> up (mkSys ths s) ->
    unmarshalRequest text = Some r -> timestamp_doHandler r = None ->
    life (mkSys ths s) log (mkGate (g.(checks) ++ [KeyRace.Arrived r]) g.(assigning) g.(granted) g.(admitted))
| life_check i p p' ths s log g :
    life (mkSys ths s) log g -> up (mkSys ths s) ->
    g.(checks) !! i = Some p -> KeyRace.readStep s.(env).(keys) p = Some p' ->
    life (mkSys (ths ++ map AtExec (passed p' ≫= commandOf)) s) (log ++ map Arrived (passed p' ≫= commandOf))
         (mkGate (<[i := p']> g.(checks)) g.(assigning) g.(granted) (g.(admitted) ++ passed p'))
| life_register home flip m a err ths s log g :
    life (mkSys ths s) log g -> up (mkSys ths s) ->
    Conn.connect client s.(env) home flip uris m (Conn.mkAgent s.(opts) s.(world).(os) s.(env).(keys)) =
      Returns (a, err) ->
    life (mkSys ths (set_process a.(Conn.disk) s.(env) a.(Conn.opts) s)) log
         (if err then g else register a.(Conn.agent_keys) g)
| life_assign i w w' k' ths s log g :
    life (mkSys ths s) log g -> up (mkSys ths s) ->
    g.(assigning) !! i = Some w -> KeyRace.writeStep s.(env).(keys) w = Some (w', k') ->
    life (mkSys ths (set_keys k' s)) log
         (mkGate g.(checks) (<[i := w']> g.(assigning)) g.(granted) g.(admitted))
| life_throw i j p q ths s log g :
    life (mkSys ths s) log g -> up (mkSys ths s) -> i <> j -> ths !! i = Some p -> ths !! j = Some q ->
    writesMap p s.(handler).(running) = true -> readsMap q || writesMap q s.(handler).(running) = true ->
    life (mkSys (ths ++ [Crashed "fatal error: concurrent map access"]) s) log g
| life_elapse os' now' uuid' o' ths s log g :
    life (mkSys ths s) log g -> up (mkSys ths s) ->
    life (mkSys ths (set_process os' (mkEnv s.(env).(keys) now' uuid') o' s)) log g.

Lemma commandOf_arrives r ths s log : history client uris (mkSys ths s) log -> up (mkSys ths s) ->
  history client uris (mkSys (ths ++ map AtExec (commandOf r)) s) (log ++ map Arrived (commandOf r)).
Proof.
  intros Hh Hu. unfold commandOf. destruct (eqb_spec_s (get (Params r) "cmd") ""); cbn [map].
  - by rewrite !app_nil_r.
  - by apply hist_arrive.
Qed.

Lemma arrived_app log log' : arrived (log ++ log') = arrived log ++ arrived log'.
Proof. apply bind_app. Qed.
Lemma arrived_commands cmds : arrived (map Arrived cmds) = cmds.
Proof. induction cmds as [|cmd cmds IH]; [done|]. cbn. unfold arrived in IH. by rewrite IH. Qed.

(** The life of an agent is a history of its handler. *)
Lemma life_history s log g : life s log g ->
  history client uris s log /\ arrived log = g.(admitted) ≫= commandOf.
Proof.
  induction 1 as [os0 an o nw uu|i c ths s p p' new s' log g _ [IH1 IH2] Hu Hi E|text r ths s log g _ IH Hu _ _
    |i p p' ths s log g _ [IH1 IH2] Hu Hi E|home flip m a err ths s log g _ [IH1 IH2] Hu E|i w w' k' ths s log g _ [IH1 IH2] Hu Hi E
    |i j p q ths s log g _ [IH1 IH2] Hu Hne Hi Hj Hp Hq|os' nw' uu' o' ths s log g _ [IH1 IH2] Hu].
  - split; [by apply hist_init|done].
  - split; [by eapply hist_run|]. by rewrite (history_arrived _ _ _ _ _ _ _ _ _ log E).
  - done.
  - cbn [admitted]. rewrite arrived_app, arrived_commands, bind_app, IH2. split; [|done].
    destruct p'; cbn [passed mbind list_bind map]; rewrite ?app_nil_r; try done. by apply commandOf_arrives.
  - split; [by apply hist_elapse|]. by destruct err.
  - split; [by apply hist_elapse|done].
  - split; [by apply (hist_throw _ _ i j p q)|done].
  - split; [by apply hist_elapse|done].
Qed.

Definition full (k : Keys) : Prop := k.(localAccessKey) <> "" /\ k.(localSecureKey) <> "".

Lemma connect_keys e home flip m a a' err :
  Conn.connect client e home flip uris m a = Returns (a', err) ->
  match err with Some _ => a'.(Conn.agent_keys) = a.(Conn.agent_keys) | None => full a'.(Conn.agent_keys) end.
Proof.
  unfold Conn.connect. destruct (Invoke client e _ _ false) as [[r' [resp|]] [er|]]; intros E; simplify_eq; try done.
  apply Conn.handleConnect_keys in E. destruct err as [er|]; [done|].
  destruct E as (cid & ak & sk & _ & _ & -> & Ha & Hs & _). done.
Qed.

(** Before the handler the agent is the race of [KeyRace]. *)
Lemma life_gate s log g : life s log g ->
  KeyRace.reachable (KeyRace.mkSys s.(sh).(env).(keys) g.(checks) g.(assigning) g.(granted)) /\ Forall full g.(granted).
Proof.
  assert (Hgo : forall s s', KeyRace.reachable s -> KeyRace.step s s' -> KeyRace.reachable s').
  { intros t t' Ht Hs. unfold KeyRace.reachable. etrans; [exact Ht|by apply rtc_once]. }
  induction 1 as [os0 an o nw uu|i c ths s p p' new s' log g _ [IH IHf] Hu Hi E|text r ths s log g _ [IH IHf] Hu _ _
    |i p p' ths s log g _ [IH IHf] Hu Hi E|home flip m a err ths s log g _ [IH IHf] Hu E|i w w' k' ths s log g _ [IH IHf] Hu Hi E
    |i j p q ths s log g _ IH _ _ _ _ _ _|os' nw' uu' o' ths s log g _ IH Hu];
    cbn [sh env set_process set_keys keys checks assigning granted] in *; try done.
  - split; [apply rtc_refl|constructor].
  - by rewrite (tstep_env _ _ _ _ _ _ _ _ _ E).
  - split; [|done]. by eapply Hgo; [exact IH|apply KeyRace.step_request].
  - split; [|done]. by eapply Hgo; [exact IH|eapply KeyRace.step_read].
  - apply connect_keys in E. destruct err as [er|]; [done|]. cbn [register checks assigning granted].
    split; [|apply Forall_app; split; [done|by apply Forall_singleton]]. destruct E as [Ha Hs].
    eapply Hgo; [exact IH|]. destruct (Conn.agent_keys a) as [ak sk]. by apply KeyRace.step_register.
  - split; [|done]. by eapply Hgo; [exact IH|eapply KeyRace.step_write].
Qed.

(** What was let through has passed its check. *)
Lemma life_admitted s log g : life s log g -> Forall (fun r => KeyRace.Allowed r ∈ g.(checks)) g.(admitted).
Proof.
  induction 1 as [|i c ths s p p' new s' log g _ IH _ _ _|text r ths s log g _ IH _ _ _
    |i p p' ths s log g _ IH _ Hi E|home flip m a err ths s log g _ IH _ _| | |]; cbn [admitted checks] in *; try done.
  - eapply Forall_impl; [exact IH|]. intros r' Hr. apply elem_of_app. by left.
  - apply Forall_app. split.
    + eapply Forall_impl; [exact IH|]. intros r (j & Hj)%list_elem_of_lookup. apply list_elem_of_lookup. exists j.
      rewrite list_lookup_insert_ne; [done|]. intros ->. by simplify_eq.
    + destruct p'; try constructor; [|constructor]. apply list_elem_of_lookup. exists i.
      apply list_lookup_insert_eq. by eapply lookup_lt_Some.
  - by destruct err.
Qed.

(** An agent without a registration has no keys. *)
Lemma life_keyless s log g : life s log g -> g.(granted) = [] -> s.(sh).(env).(keys) = noKeys.
Proof.
  intros [Hr _]%life_gate Hg. destruct (KeyRace.reachable_ok _ Hr) as [[Ha Hs] _ _]. cbn in Ha, Hs. rewrite Hg in Ha, Hs.
  destruct (keys (env (sh s))) as [ak sk]. cbn in Ha, Hs.
  destruct Ha as [-> |Ha]; [|by apply elem_of_nil in Ha]. by destruct Hs as [-> |Hs]; [|by apply elem_of_nil in Hs].
Qed.

(** C4. What blade is told comes from signed requests: in every life of an agent,
    with its goroutines, its checks and its registrations interleaved read by
    read and assignment by assignment, the runs of blade are commands of
    requests that were let through, each at most once for every such request,
    and queries about uids that such a command revokes or that blade printed
    for one; every experiment on record was started by such a command; and every
    request let through carries the signature of the secret of some registration,
    or of the empty secret, and names the access key of some registration or
    none. *)
Theorem commands_need_a_signature s log g : life s log g ->
  let cmds := g.(admitted) ≫= commandOf in
  (exists ex po, s.(sh).(world).(calls) ≡ₚ ex ++ po /\ ex ⊆+ cmds /\
     Forall (follows s.(sh).(world).(answers) cmds) po) /\
  map_Forall (fun _ cmd => cmd ∈ cmds) s.(sh).(handler).(running) /\
  Forall (fun r => KeyRace.matched g.(granted) r /\ KeyRace.signed g.(granted) r) g.(admitted) /\
  Forall full g.(granted).
Proof.
  intros Hl cmds. destruct (life_history _ _ _ Hl) as [Hh Ha], (life_gate _ _ _ Hl) as [Hr Hf].
  destruct (history_accounts _ _ _ _ Hh) as [(ex & po & Hc & Hp & Hx) Hb]. rewrite Ha in Hx, Hb, Hp. split_and!.
  - exists ex, po. split_and!; [done| |done]. etrans; [|exact Hx]. apply submseteq_inserts_r. reflexivity.
  - rewrite (history_record _ _ _ _ Hh). apply replay_booked; [apply map_Forall_empty|].
    apply Forall_forall. intros cmd Hin. eapply elem_of_submseteq; [|exact Hb]. by apply elem_of_app; left.
  - eapply Forall_impl; [exact (life_admitted _ _ _ Hl)|]. intros r Hin.
    destruct (KeyRace.reachable_ok _ Hr) as [_ Hrs _]. cbn in Hrs. rewrite Forall_forall in Hrs. exact (Hrs _ Hin).
  - done.
Qed.

(** ** Who can command an agent *)

(** The request for a command that whoever has the keys can write down. *)
Definition commandRequest (k : Keys) (cmd : string) (t : Z) : Request :=
  let params := <["cmd" := cmd]> (<[TimestampKey := FormatInt t]> ∅) in
  mkRequest {[SignKey := Sign k (marshalParams (mkRequest ∅ params))]} params.

Lemma command_accepted k cmd t : int64_ok t -> accepted k (commandRequest k cmd t).
Proof.
  intros Ht. unfold accepted, commandRequest. cbn [Params Headers].
  rewrite get_insert_ne, get_insert, ParseInt_FormatInt by done. split; [eauto|].
  split; [left; by unfold get; rewrite lookup_singleton_ne|].
  unfold signedText, get. cbn [Params Headers]. rewrite lookup_singleton_eq, lookup_singleton_ne by done. done.
Qed.

Lemma command_received e cmd t : int64_ok t -> valid_utf8 cmd = true -> cmd <> "" ->
  receive e (marshalRequest (commandRequest e.(keys) cmd t)) = Passed (commandRequest e.(keys) cmd t) cmd.
Proof.
  intros Ht Hv Hne. unfold receive. rewrite request_wire.
  - rewrite (proj2 (Handle_accepted e (commandRequest e.(keys) cmd t))) by (by apply command_accepted).
    unfold commandRequest. cbn [Params]. rewrite get_insert. by apply eqb_false_s in Hne as ->.
  - unfold commandRequest. split; cbn [Headers Params].
    + rewrite <-insert_empty. apply valid_smap_insert; [done|apply Sign_valid|done].
    + apply valid_smap_insert; [done|done|]. apply valid_smap_insert; [done|apply FormatInt_valid|done].
Qed.

(** A text that is checked with nothing in between. *)
Lemma receive_lives text r cmd ths s log g : life (mkSys ths s) log g -> up (mkSys ths s) ->
  receive s.(env) text = Passed r cmd ->
  exists g', life (mkSys (ths ++ [AtExec cmd]) s) (log ++ [Arrived cmd]) g' /\
    g'.(admitted) = g.(admitted) ++ [r] /\ g'.(granted) = g.(granted).
Proof.
  intros Hl Hu E. unfold receive in E. destruct (unmarshalRequest text) as [r'|] eqn:Er; [|done].
  destruct (Transport.Handle BuildInterceptor (env s) r') eqn:Eh; [done|]. apply Handle_chain in Eh as [Ht Ha].
  destruct (get (Params r') "cmd" ==s "") eqn:Ec; [done|]. simplify_eq.
  destruct (KeyRace.reader_alone s.(env).(keys) r) as (p & E1 & Hp). rewrite Ha in Hp. destruct Hp as [-> E2].
  pose proof (life_receive _ _ _ _ _ _ Hl Hu Er Ht) as H1.
  set (i := length g.(checks)).
  assert (Hi : forall x, (g.(checks) ++ [x]) !! i = Some x) by (intros; by rewrite lookup_app_r, Nat.sub_diag by lia).
  pose proof (life_check i _ _ _ _ _ _ H1 Hu (Hi _) E1) as H2. cbn in H2. rewrite !app_nil_r in H2.
  assert (Hins : forall x y, <[i := y]> (g.(checks) ++ [x]) = g.(checks) ++ [y]).
  { intros x y. unfold i. by rewrite insert_app_r_alt, Nat.sub_diag by lia. }
  rewrite Hins in H2.
  pose proof (life_check i _ _ _ _ _ _ H2 Hu (Hi _) E2) as H3. cbn [checks assigning granted admitted] in H3.
  assert (Hcmd : passed (KeyRace.Allowed r) ≫= commandOf = [get (Params r) "cmd"]).
  { cbn. unfold commandOf. by rewrite Ec. }
  rewrite Hcmd in H3. eexists. split; [exact H3|]. done.
Qed.

(** Whoever has the keys of an agent has its blade run any command, in every
    state of a process that is up. *)
Lemma keys_command s log g cmd t (k := s.(sh).(env).(keys)) :
  life s log g -> up s ->
  IsExist s.(sh).(world).(os) BladeBinPath = true ->
  int64_ok t -> valid_utf8 cmd = true -> Fields cmd <> [] ->
  exists s' g', life s' (log ++ [Arrived cmd]) g' /\ g'.(granted) = g.(granted) /\
    g'.(admitted) = g.(admitted) ++ [commandRequest k cmd t] /\
    s'.(sh).(world).(calls) = s.(sh).(world).(calls) ++ [cmd].
Proof.
  intros Hl Hu Hb Ht Hv Hf. destruct s as [ths s]. subst k. cbn [sh] in *.
  assert (Hne : cmd <> "") by (by intros ->).
  destruct (receive_lives _ _ _ _ _ _ _ Hl Hu (command_received (env s) cmd t Ht Hv Hne)) as (g' & Hl1 & Hadm & Hgr).
  destruct (Fields cmd) as [|command rest] eqn:Ef; [done|].
  eexists _, g'. split.
  - rewrite <-(app_nil_r (log ++ [Arrived cmd])). eapply (life_run (length ths) Ticked _ _ (AtExec cmd)).
    + exact Hl1.
    + apply Forall_app. split; [done|]. by apply Forall_singleton.
    + by rewrite lookup_app_r, Nat.sub_diag.
    + cbn [tstep]. rewrite Ef, Hb. cbn [negb]. unfold execBlade. reflexivity.
  - done.
Qed.

(** Without a registration no report goes out: the calls end at the keys that
    are missing. *)
Lemma life_mute s log g : life s log g -> g.(granted) = [] ->
  Forall (fun x => x.1.2 = Some (ReturnFail TokenNotFound [])) s.(sh).(sent).
Proof.
  induction 1 as [os0 an o nw uu|i c ths s p p' new s' log g Hl IH Hu Hi E|text r ths s log g _ IH Hu _ _
    |i p p' ths s log g _ IH Hu Hi E|home flip m a err ths s log g _ IH Hu E|i w w' k' ths s log g _ IH Hu Hi E
    |i j p q ths s log g _ IH _ _ _ _ _ _|os' nw' uu' o' ths s log g _ IH Hu]; intros Hg;
    cbn [sh sent set_process set_keys granted] in *; try (by apply IH).
  - constructor.
  - destruct (tstep_sent _ _ _ _ _ _ _ _ _ E) as (x & -> & Hx). apply Forall_app. split; [by apply IH|].
    destruct x as [y|]; [|constructor]. destruct (Hx y eq_refl) as (uri & r & ->). apply Forall_singleton.
    pose proof (life_keyless _ _ _ Hl Hg) as Hk. cbn [sh] in Hk.
    rewrite keyless_client_is_silent; [done|]. unfold has_keys. rewrite Hk. by intros [? _].
  - destruct err; [by apply IH|]. cbn in Hg. by apply app_eq_nil in Hg as [_ ?].
Qed.

(** C32. An agent whose registrations have all failed obeys anyone and tells
    nobody: for every command there is a text, made from the command and a
    number alone, that such an agent takes for authentic and whose command it
    runs, and every report it makes ends at its missing keys. *)
Theorem unregistered_agent_obeys s log g cmd t :
  life s log g -> g.(granted) = [] -> up s ->
  IsExist s.(sh).(world).(os) BladeBinPath = true ->
  int64_ok t -> valid_utf8 cmd = true -> Fields cmd <> [] ->
  exists s' g', life s' (log ++ [Arrived cmd]) g' /\ g'.(granted) = [] /\
    g'.(admitted) = g.(admitted) ++ [commandRequest noKeys cmd t] /\
    s'.(sh).(world).(calls) = s.(sh).(world).(calls) ++ [cmd] /\
    Forall (fun x => x.1.2 = Some (ReturnFail TokenNotFound [])) s'.(sh).(sent).
Proof.
  intros Hl Hg Hu Hb Ht Hv Hf. pose proof (life_keyless _ _ _ Hl Hg) as Hk.
  destruct (keys_command s log g cmd t Hl Hu Hb Ht Hv Hf) as (s' & g' & Hl' & Hg' & Ha & Hc). rewrite Hk in Ha.
  exists s', g'. split_and!; [done|congruence|done..|]. eapply life_mute; [done|congruence].
Qed.
End life.

(** ** Examples *)

#[local] Instance function_channel : TransportChannel (Uri -> string -> result string) := fun f => f.
(** No server answers. *)
Notation nobody := (fun (_ : Uri) (_ : string) => Err "connection refused" : result string).
Definition started : shared :=
  mkShared (demo_world "{}") NewChaosbladeHandler None (mkEnv noKeys 0 "") AddFlags [].

Lemma started_lives : life nobody (InitTransprotUri AddFlags) (mkSys [] started) [] openGate.
Proof. apply life_init. Qed.

Lemma received_lives : exists g,
  life nobody (InitTransprotUri AddFlags) (mkSys [AtExec "status u1"] started) [Arrived "status u1"] g /\
  g.(admitted) = [commandRequest noKeys "status u1" 1] /\ g.(granted) = [].
Proof.
  refine (receive_lives _ _ _ _ _ _ _ _ _ started_lives _ (command_received (env started) "status u1" 1 _ _ _)).
  - constructor.
  - unfold int64_ok, int64_min, int64_max. lia.
  - reflexivity.
  - done.
Qed.

Lemma commands_need_a_signature_witness :
  KeyRace.signed [] (commandRequest noKeys "status u1" 1).
Proof.
  destruct received_lives as (g & Hl & Ha & Hg).
  destruct (commands_need_a_signature nobody (InitTransprotUri AddFlags) _ _ _ Hl) as (_ & _ & Hs & _).
  rewrite Ha, Hg in Hs. apply Forall_singleton in Hs as [_ Hs]. exact Hs.
Defined.

Lemma unregistered_agent_obeys_witness : exists s' g',
  life nobody (InitTransprotUri AddFlags) s' ([] ++ [Arrived "create cpu load"]) g' /\ g'.(granted) = [] /\
  g'.(admitted) = [commandRequest noKeys "create cpu load" 1] /\
  s'.(sh).(world).(calls) = ["create cpu load"] /\
  Forall (fun x => x.1.2 = Some (ReturnFail TokenNotFound [])) s'.(sh).(sent).
Proof.
  refine (unregistered_agent_obeys nobody (InitTransprotUri AddFlags) (mkSys [] started) [] openGate "create cpu load" 1
    started_lives eq_refl _ _ _ _ _).
  - constructor.
  - reflexivity.
  - unfold int64_ok, int64_min, int64_max. lia.
  - reflexivity.
  - done.
Defined.
End Agent.
