(* ===== verification/Collector.v ===== *)
(** * collector/kubernetes: what every collector does

    kubernetes.go keeps, per resource uid, a digest of what was last reported
    and the cid the server gave it.  A collector first turns its resources
    into infos, cutting an unchanged one down to its identifiers
    ([handle...Increment], one copy of the same code per resource type),
    reports them, and then reports the ones that have gone
    ([reportNotExistResource], again one copy per type).  The copies are one
    definition here, over the class [Resource]. *)

From S2P Require Import Prelude GoStrings Hash Json Options Tools Transport.

Module Collector.
Import Options Tools Transport.

(** ** kubernetes.go: data *)

Record ResourceIdentifier := mkId {
  id_Uid : string;
  id_Cid : string;
  Md5 : string;
  Curr : bool;
  id_name : string
}.

Record CommonInfo := mkCommon {
  info_Uid : string;
  Name : string;
  CreatedTime : string;
  Labels : gmap string string;
  Exist : bool;
  info_Cid : string
}.

(** [omitempty]. *)
Definition ostr (k v : string) : list (string * json) := if v ==s "" then [] else [(k, JStr v)].
Definition oint (k : string) (v : Z) : list (string * json) :=
  if (v =? 0)%Z then [] else [(k, JNum (FormatInt v))].
Definition omap_json (k : string) (m : gmap string string) : list (string * json) :=
  if decide (m = ∅) then [] else [(k, of_smap m)].

Definition commonFields (c : CommonInfo) : list (string * json) :=
  [("uid", JStr c.(info_Uid)); ("name", JStr c.(Name)); ("createdTime", JStr c.(CreatedTime))]
  ++ omap_json "labels" c.(Labels) ++ [("exist", JBool c.(Exist))] ++ ostr "cid" c.(info_Cid).

(** What [json.Marshal] makes of a value. *)
Class Marshal (R : Type) := to_json : R -> json.

(** A type of infos: its JSON, its common part, and an info of which only the
    common part is set. *)
Class Resource (R : Type) := {
  marshal :: Marshal R;
  common : R -> CommonInfo;
  only : CommonInfo -> R;
  common_only c : common (only c) = c
}.

(** What may still be added to an info after its digest was taken: an info is
    [linked] to what is sent of it.  Only pods get links, to their services. *)
Class Links (R : Type) `{Resource R} := {
  linked : R -> R -> Prop;
  linked_refl r : linked r r;
  linked_common r r' : linked r r' -> common r' = common r
}.
#[export, program] Instance no_links R `{Resource R} : Links R | 100 := { linked := eq }.
Next Obligation. done. Qed.
Next Obligation. by intros R HR r r' ->. Qed.

(** The part of a collector that changes.  [secondIdentifiers] is only filled
    by the collector of virtual nodes. *)
Record K8sBaseCollector := mkCollector {
  resourceName : string;
  identifiers : gmap string ResourceIdentifier;
  secondIdentifiers : gmap string ResourceIdentifier;
  col_uri : Uri
}.
Definition set_ids (c : K8sBaseCollector) (ids : gmap string ResourceIdentifier) : K8sBaseCollector :=
  mkCollector c.(resourceName) ids c.(secondIdentifiers) c.(col_uri).

Definition createK8sBaseCollector (name : string) (uri : Uri) : K8sBaseCollector :=
  mkCollector name ∅ ∅ uri.
Definition ReportHandler (c : K8sBaseCollector) : string := c.(col_uri).(HandlerName).

Definition resetIdentifierCache (c : K8sBaseCollector) : K8sBaseCollector :=
  mkCollector c.(resourceName) ∅ ∅ c.(col_uri).

(** [getServiceUidByName]: some entry with that name, the first one met by the
    iteration, whose order is [order]. *)
Fixpoint getServiceUidByName (order : list (string * ResourceIdentifier)) (serviceName : string) : string :=
  match order with
  | [] => ""
  | (k, v) :: order' => if v.(id_name) ==s serviceName then k else getServiceUidByName order' serviceName
  end.

(** ** The increment *)

Section resource.
Context {R : Type} `{Resource R}.

Definition uid (r : R) : string := (common r).(info_Uid).
Definition digest (r : R) : string := Md5sumData (to_json r).

Definition handleIncrement (info : R) (ids : gmap string ResourceIdentifier)
    : R * gmap string ResourceIdentifier :=
  let sumData := digest info in
  match ids !! uid info with
  | Some v =>
      let '(info', md5) :=
        if (v.(Md5) ==s sumData) && negb (v.(id_Cid) ==s "")
        then (only (mkCommon v.(id_Uid) "" "" ∅ true v.(id_Cid)), v.(Md5))
        else (info, sumData) in
      (info', <[uid info := mkId v.(id_Uid) v.(id_Cid) md5 true v.(id_name)]> ids)
  | None =>
      (info, <[uid info := mkId (uid info) "" sumData true (common info).(Name)]> ids)
  end.

(** The loop over the resources of the indexer. *)
Fixpoint collect (infos : list R) (ids : gmap string ResourceIdentifier)
    : list R * gmap string ResourceIdentifier :=
  match infos with
  | [] => ([], ids)
  | info :: infos' =>
      let '(sent, ids) := handleIncrement info ids in
      let '(sents, ids) := collect infos' ids in
      (sent :: sents, ids)
  end.

(** The loop of [reportNotExistResource] over the identifiers in the order
    they are visited: the infos to report and the identifiers left. *)
Definition sweep (order : list (string * ResourceIdentifier))
    (ids : gmap string ResourceIdentifier) : list R * gmap string ResourceIdentifier :=
  foldl (fun acc kv =>
    let '(gone, ids) := acc in
    let '(k, v) := kv in
    if v.(Curr) then (gone, <[k := mkId v.(id_Uid) v.(id_Cid) v.(Md5) false v.(id_name)]> ids)
    else
      ((if v.(id_Cid) ==s "" then gone
        else gone ++ [only (mkCommon v.(id_Uid) "" "" ∅ false v.(id_Cid))]), delete k ids))
    ([], ids) order.

(** ** Reporting *)

(** The loop that stores cids: a value that is not a string panics when its
    key is known. *)
Fixpoint storeCids (entries : list (string * json)) (ids : gmap string ResourceIdentifier)
    : outcome (gmap string ResourceIdentifier) :=
  match entries with
  | [] => Returns ids
  | (key, value) :: entries' =>
      match ids !! key with
      | None => storeCids entries' ids
      | Some vi =>
          match value with
          | JStr cid =>
              storeCids entries' (<[key := mkId vi.(id_Uid) cid vi.(Md5) vi.(Curr) vi.(id_name)]> ids)
          | _ => Panics "interface conversion: interface {} is not string"
          end
      end
  end.

Definition K8sVirtualNode := "k8sVirtualNode".
Definition VirtualNodeResource := "virtualNodes".
Definition PodResource := "pods".

(** The part of [reportK8sMetric] after the call; [v] are the entries of the
    decoded result, each key once. *)
Definition handleAnswer (c : K8sBaseCollector) (isExists : bool)
    (answer : option Response * option string) : outcome K8sBaseCollector :=
  match answer with
  | (_, Some err) => Returns (resetIdentifierCache c)
  | (None, None) => Panics "invalid memory address or nil pointer dereference"
  | (Some response, None) =>
      if negb response.(Success) then Returns (resetIdentifierCache c)
      else if negb isExists then Returns c
      else match response.(Result) with
           | JObj v =>
               if ReportHandler c ==s K8sVirtualNode then
                 match jget VirtualNodeResource v with
                 | JNull | JObj _ =>
                     ids ← match jget VirtualNodeResource v with
                           | JObj vnCids => storeCids vnCids c.(identifiers)
                           | _ => Returns c.(identifiers)
                           end;
                     ids2 ← match jget PodResource v with
                            | JNull => Returns c.(secondIdentifiers)
                            | JObj pCids => storeCids pCids c.(secondIdentifiers)
                            | _ => Panics "interface conversion: interface {} is not map[string]interface {}"
                            end;
                     Returns (mkCollector c.(resourceName) ids ids2 c.(col_uri))
                 | _ => Returns (resetIdentifierCache c)
                 end
               else
                 ids ← storeCids v c.(identifiers);
                 Returns (set_ids c ids)
           | _ => Returns (resetIdentifierCache c)
           end
  end.

End resource.

Section reporting.
Context {R : Type} `{Marshal R} {C : Type} `{TransportChannel C} (client : C) (e : Env) (o : Options).

Definition reportRequest (c : K8sBaseCollector) (resources : list R) : Request :=
  AddParam (NewRequest o) c.(resourceName) (encode (JArr (map to_json resources))).

(** The answer of the server, when something is sent. *)
Definition reportAnswer (c : K8sBaseCollector) (resources : list R) : option Response * option string :=
  let uri := c.(col_uri) in
  let uri := mkUri uri.(ServerName) uri.(HandlerName) uri.(uri_VpcId) uri.(uri_Ip) uri.(uri_Pid)
               uri.(Tag) uri.(RequestId) (FormatInt AllCompress) in
  let '(_, response, err) := Invoke client e uri (reportRequest c resources) true in
  (response, err).

Definition reportK8sMetric (c : K8sBaseCollector) (isExists : bool) (resources : list R)
    : outcome K8sBaseCollector :=
  match resources with
  | [] => Returns c
  | _ => handleAnswer c isExists (reportAnswer c resources)
  end.

End reporting.

Section rounds.
Context {R : Type} `{Resource R} {C : Type} `{TransportChannel C} (client : C) (e : Env) (o : Options).

(** [reportNotExistResource], and the tail of [Report] once the infos are
    there. *)
Definition reportNotExistResource (order : list (string * ResourceIdentifier)) (c : K8sBaseCollector)
    : outcome K8sBaseCollector :=
  let '(gone, ids) := sweep order c.(identifiers) in
  reportK8sMetric client e o (set_ids c ids) false gone.

(** [link] is what a collector adds to each info before it is sent. *)
Definition reportInfos (link : R -> R) (infos : list R) (c : K8sBaseCollector) : outcome K8sBaseCollector :=
  let '(sent, ids) := collect infos c.(identifiers) in
  reportK8sMetric client e o (set_ids c ids) true (map link sent).
End rounds.

(** ** What was said *)

Section sync.
Context {R : Type} `{Links R}.

(** The infos of the messages that got through, in order, are all there is to
    know of the agent.  An info with a cid that exists says nothing new: it
    stands for what was said of the resource before. *)
Definition speaks (r : R) : Prop := (common r).(Exist) = false \/ (common r).(info_Cid) = "".
#[global] Instance speaks_dec r : Decision (speaks r).
Proof. unfold speaks. apply _. Defined.

(** The last thing said of a resource, and whether it exists by that. *)
Definition lastWord (u : string) (h : list R) : option R := last (filter (fun r => uid r = u /\ speaks r) h).
Definition shows (h : list R) (u : string) : bool :=
  match lastWord u h with Some r => (common r).(Exist) | None => false end.
(** The data of a resource with that digest was said last, links apart. *)
Definition knows (h : list R) (u d : string) : Prop :=
  exists r0 r, lastWord u h = Some r /\ (common r).(Exist) = true /\ linked r0 r /\ digest r0 = d.

(** Every identifier is stored under its uid and its digest is that of what was
    said last. *)
Definition synced (ids : gmap string ResourceIdentifier) (h : list R) : Prop :=
  map_Forall (fun u v => v.(id_Uid) = u /\ knows h u v.(Md5)) ids.

(** An info as the collectors build it. *)
Definition full (r : R) : Prop := (common r).(Exist) = true /\ (common r).(info_Cid) = "".

Lemma lastWord_app u h h' :
  lastWord u (h ++ h') = match lastWord u h' with Some r => Some r | None => lastWord u h end.
Proof. unfold lastWord. by rewrite filter_app, last_app. Qed.
Lemma lastWord_one u r : lastWord u [r] = if decide (uid r = u /\ speaks r) then Some r else None.
Proof. unfold lastWord. rewrite filter_cons, filter_nil. by case_decide. Qed.

Lemma lastWord_spoken h r : speaks r -> lastWord (uid r) (h ++ [r]) = Some r.
Proof. intros Hr. by rewrite lastWord_app, lastWord_one, decide_True. Qed.
Lemma lastWord_silent u h r : uid r <> u \/ ~ speaks r -> lastWord u (h ++ [r]) = lastWord u h.
Proof. intros Hr. rewrite lastWord_app, lastWord_one, decide_False; [done|naive_solver]. Qed.

Lemma linked_uid r0 r : linked r0 r -> uid r = uid r0.
Proof. intros Hl. unfold uid. by rewrite (linked_common _ _ Hl). Qed.
Lemma full_speaks r0 r : full r0 -> linked r0 r -> speaks r /\ (common r).(Exist) = true.
Proof. intros [He Hc] Hl. unfold speaks. rewrite (linked_common _ _ Hl). auto. Qed.
Lemma brief_silent c r : c.(Exist) = true -> c.(info_Cid) <> "" -> linked (only c) r -> ~ speaks r.
Proof. intros He Hc Hl. unfold speaks. rewrite (linked_common _ _ Hl), common_only. rewrite He. naive_solver. Qed.

Lemma knows_spoken h r0 r : full r0 -> linked r0 r -> knows (h ++ [r]) (uid r0) (digest r0).
Proof.
  intros Hf Hl. destruct (full_speaks _ _ Hf Hl) as [Hs He]. exists r0, r.
  by rewrite <-(linked_uid _ _ Hl), lastWord_spoken.
Qed.
Lemma knows_silent h r u d : uid r <> u \/ ~ speaks r -> knows h u d -> knows (h ++ [r]) u d.
Proof. intros Hr (r0 & r' & ? & ?). exists r0, r'. by rewrite lastWord_silent. Qed.

Lemma synced_spoken ids h r0 r v : synced ids h -> full r0 -> linked r0 r -> v.(id_Uid) = uid r0 ->
  v.(Md5) = digest r0 -> synced (<[uid r0 := v]> ids) (h ++ [r]).
Proof.
  intros Hs Hf Hl Hu Hd u v' Hlk. destruct (decide (u = uid r0)) as [->|Hne].
  - rewrite lookup_insert_eq in Hlk. simplify_eq. split; [done|]. rewrite Hd. by apply knows_spoken.
  - rewrite lookup_insert_ne in Hlk by done. apply Hs in Hlk as [? ?].
    split; [done|]. apply knows_silent; [left; by rewrite (linked_uid _ _ Hl)|done].
Qed.
Lemma synced_silent ids h r : synced ids h -> ~ speaks r -> synced ids (h ++ [r]).
Proof. intros Hs Hr u v Hv. destruct (Hs u v Hv). split; [done|]. apply knows_silent; auto. Qed.

Lemma handleIncrement_synced info ids h r : synced ids h -> full info -> linked (handleIncrement info ids).1 r ->
  synced (handleIncrement info ids).2 (h ++ [r]) /\ knows (h ++ [r]) (uid info) (digest info) /\
  forall u d, u <> uid info -> knows h u d -> knows (h ++ [r]) u d.
Proof.
  intros Hs Hf. unfold handleIncrement.
  assert (Hfull : forall v, v.(id_Uid) = uid info -> v.(Md5) = digest info -> linked info r ->
    synced (<[uid info := v]> ids) (h ++ [r]) /\ knows (h ++ [r]) (uid info) (digest info) /\
    forall u d, u <> uid info -> knows h u d -> knows (h ++ [r]) u d).
  { intros v Hu Hd Hl. split_and!; [by apply synced_spoken|by apply knows_spoken|].
    intros u d Hne. apply knows_silent. left. rewrite (linked_uid _ _ Hl). by apply not_eq_sym. }
  destruct (ids !! uid info) as [v|] eqn:Ev; [|by apply Hfull].
  destruct (Hs _ _ Ev) as [Hu Hk].
  destruct ((Md5 v ==s digest info) && negb (id_Cid v ==s "")) eqn:Eb; [|by apply Hfull].
  apply andb_true_iff in Eb as [E1 E2]. apply eqb_true_s in E1. apply negb_true_iff, eqb_false_s in E2.
  intros Hl%brief_silent; [|done..]. cbn [snd].
  split; [|split; [apply knows_silent; [by right|by rewrite <-E1]|intros; by apply knows_silent; [right|]]].
  apply map_Forall_insert_2; [|by apply synced_silent]. split; [done|]. apply knows_silent; [by right|done].
Qed.

Section linking.
Context (link : R -> R) (link_ok : forall r, linked r (link r)).

Lemma collect_synced infos : forall ids h, synced ids h -> Forall full infos -> NoDup (map uid infos) ->
  let '(sent, ids') := collect infos ids in
  synced ids' (h ++ map link sent) /\
  (forall r, r ∈ infos -> knows (h ++ map link sent) (uid r) (digest r)) /\
  forall u d, u ∉ map uid infos -> knows h u d -> knows (h ++ map link sent) u d.
Proof.
  induction infos as [|info infos IH]; intros ids h Hs Hf Hnd; cbn [collect map].
  { rewrite app_nil_r. split; [done|]. split; [intros r Hr; by apply elem_of_nil in Hr|done]. }
  apply Forall_cons in Hf as [Hf0 Hf]. apply NoDup_cons in Hnd as [Hn Hnd].
  pose proof (handleIncrement_synced info ids h _ Hs Hf0 (link_ok _)) as H1.
  destruct (handleIncrement info ids) as [sent ids1]. destruct H1 as (Hs1 & Hk1 & Ho1). cbn [fst snd] in *.
  specialize (IH ids1 (h ++ [link sent]) Hs1 Hf Hnd).
  destruct (collect infos ids1) as [sents ids2]. destruct IH as (Hs2 & Hk2 & Ho2).
  rewrite <-app_assoc in *. cbn [map app] in *. split; [done|]. split.
  - intros r Hr. apply elem_of_cons in Hr as [->|Hr]; [by apply Ho2|by apply Hk2].
  - intros u d Hu Hk. apply not_elem_of_cons in Hu as [Hu Hu']. apply Ho2; [done|]. by apply Ho1.
Qed.
End linking.

Lemma storeCids_synced entries : forall ids ids' h, synced ids h ->
  storeCids entries ids = Returns ids' -> synced ids' h.
Proof.
  induction entries as [|[k x] entries IH]; intros ids ids' h Hs; cbn [storeCids]; [by intros [= <-]|].
  destruct (ids !! k) as [vi|] eqn:Ek; [|by apply IH].
  destruct x; try done. apply IH. apply map_Forall_insert_2; [|done]. by apply Hs in Ek.
Qed.

(** A report arrived: it was not empty, the call gave no error, and the
    answer is a success with an object. *)
Definition delivered (answer : option Response * option string) : Prop :=
  exists resp v, answer = (Some resp, None) /\ resp.(Success) = true /\ resp.(Result) = JObj v.

Lemma handleAnswer_exists c answer c' : ReportHandler c <> K8sVirtualNode ->
  handleAnswer c true answer = Returns c' ->
  (delivered answer /\ exists v, storeCids v c.(identifiers) = Returns c'.(identifiers)) \/
  (~ delivered answer /\ c'.(identifiers) = ∅).
Proof.
  intros Hv. unfold handleAnswer. apply eqb_false_s in Hv. rewrite Hv. cbn [negb].
  destruct answer as [[resp|] [err|]]; try done.
  - intros [= <-]. right. split; [|done]. by intros (? & ? & ? & _).
  - destruct (Success resp) eqn:Es; cbn [negb];
      [|intros [= <-]; right; split; [|done]; intros (? & ? & [= <-] & ? & _); congruence].
    destruct (Result resp) as [| | | | |v] eqn:Er;
      try (intros [= <-]; right; split; [|done]; intros (? & ? & [= <-] & _ & ?); congruence).
    intros E. apply outcome_bind_returns in E as (ids & E & [= <-]).
    left. split; [by exists resp, v|]. by exists v.
  - intros [= <-]. right. split; [|done]. by intros (? & ? & ? & _).
Qed.
End sync.

(** ** Sweeping *)

Section sweep.
Context {R : Type} `{Resource R}.

Definition goneInfo (v : ResourceIdentifier) : R := only (mkCommon v.(id_Uid) "" "" ∅ false v.(id_Cid)).
Definition uncurrent (v : ResourceIdentifier) : ResourceIdentifier :=
  mkId v.(id_Uid) v.(id_Cid) v.(Md5) false v.(id_name).

(** The loop with any accumulator. *)
Definition sweepStep (acc : list R * gmap string ResourceIdentifier) (kv : string * ResourceIdentifier)
    : list R * gmap string ResourceIdentifier :=
  let '(gone, ids) := acc in
  let '(k, v) := kv in
  if v.(Curr) then (gone, <[k := uncurrent v]> ids)
  else ((if v.(id_Cid) ==s "" then gone else gone ++ [goneInfo v]), delete k ids).

Lemma sweep_foldl order ids : sweep order ids = foldl sweepStep ([], ids) order.
Proof. done. Qed.

Lemma sweep_gone order : forall gone0 ids x,
  x ∈ (foldl sweepStep (gone0, ids) order).1 <->
  x ∈ gone0 \/ exists k v, (k, v) ∈ order /\ v.(Curr) = false /\ v.(id_Cid) <> "" /\ x = goneInfo v.
Proof.
  induction order as [|[k v] order IH]; intros gone0 ids x; cbn [foldl].
  { split; [by left|]. intros [|(k & v & Hin & _)]; [done|by apply elem_of_nil in Hin]. }
  unfold sweepStep at 2. destruct (Curr v) eqn:Ec; rewrite IH.
  - split; intros [Hx|(k' & v' & Hin & ? & ? & ?)]; auto; right; exists k', v'.
    + split; [by apply elem_of_cons; right|done].
    + apply elem_of_cons in Hin as [[= -> ->]|]; [congruence|done].
  - destruct (eqb_spec_s (id_Cid v) "") as [E|E].
    + split; intros [Hx|(k' & v' & Hin & ? & ? & ?)]; auto; right; exists k', v'.
      * split; [by apply elem_of_cons; right|done].
      * apply elem_of_cons in Hin as [[= -> ->]|]; [congruence|done].
    + rewrite elem_of_app, list_elem_of_singleton.
      split.
      * intros [[Hx|Hx]|(k' & v' & Hin & ? & ? & ?)]; [by left| |];
          right; [exists k, v|exists k', v']; (split; [apply elem_of_cons; auto|done]).
      * intros [Hx|(k' & v' & Hin & ? & ? & ->)]; [auto|].
        apply elem_of_cons in Hin as [[= -> ->]|]; [auto|]. right. by exists k', v'.
Qed.

Lemma sweep_ids order : forall gone0 ids, NoDup order.*1 ->
  (forall k v, (k, v) ∈ order -> ids !! k = Some v) ->
  forall k, (foldl sweepStep (gone0, ids) order).2 !! k =
    if decide (k ∈ order.*1) then v ← ids !! k; (if v.(Curr) then Some (uncurrent v) else None) else ids !! k.
Proof.
  induction order as [|[k0 v0] order IH]; intros gone0 ids Hnd Hin k; cbn [foldl fmap list_fmap fst].
  { by rewrite decide_False by apply not_elem_of_nil. }
  cbn [fmap list_fmap fst] in Hnd. apply NoDup_cons in Hnd as [Hk0 Hnd].
  assert (H0 : ids !! k0 = Some v0) by (apply Hin; by apply elem_of_cons; left).
  assert (Hrest : forall ids' : gmap string ResourceIdentifier, (forall k, k <> k0 -> ids' !! k = ids !! k) ->
            forall k v, (k, v) ∈ order -> ids' !! k = Some v).
  { intros ids' Hids' k' v' Hkv. rewrite Hids'; [apply Hin; by apply elem_of_cons; right|].
    intros ->. apply Hk0, list_elem_of_fmap. by exists (k0, v'). }
  unfold sweepStep at 2. destruct (Curr v0) eqn:Ec.
  - rewrite IH; [|done|apply Hrest; intros; by apply lookup_insert_ne].
    destruct (decide (k = k0)) as [->|Hne].
    + rewrite (decide_False (P := k0 ∈ order.*1)) by done. rewrite decide_True by (by apply elem_of_cons; left).
      rewrite lookup_insert_eq, H0. cbn. by rewrite Ec.
    + rewrite lookup_insert_ne by done.
      repeat case_decide; try done; exfalso; set_solver.
  - rewrite IH; [|done|apply Hrest; intros; by apply lookup_delete_ne].
    destruct (decide (k = k0)) as [->|Hne].
    + rewrite (decide_False (P := k0 ∈ order.*1)) by done. rewrite decide_True by (by apply elem_of_cons; left).
      rewrite lookup_delete_eq, H0. cbn. by rewrite Ec.
    + rewrite lookup_delete_ne by done.
      repeat case_decide; try done; exfalso; set_solver.
Qed.

(** The sweep of a whole map, in any order. *)
Lemma sweep_spec order ids : order ≡ₚ map_to_list ids ->
  (forall x, x ∈ (sweep order ids).1 <->
     exists k v, ids !! k = Some v /\ v.(Curr) = false /\ v.(id_Cid) <> "" /\ x = goneInfo v) /\
  (sweep order ids).2 = uncurrent <$> filter (fun kv => kv.2.(Curr) = true) ids.
Proof.
  intros Ho. assert (Hnd : NoDup order.*1) by (rewrite Ho; apply NoDup_fst_map_to_list).
  assert (Hin : forall k v, (k, v) ∈ order <-> ids !! k = Some v)
    by (intros; rewrite Ho; apply elem_of_map_to_list).
  rewrite sweep_foldl. split.
  - intros x. rewrite sweep_gone. setoid_rewrite Hin. split; [|by right].
    intros [Hx|Hx]; [by apply elem_of_nil in Hx|done].
  - apply map_eq. intros k. rewrite sweep_ids by naive_solver.
    rewrite lookup_fmap, map_lookup_filter.
    destruct (ids !! k) as [v|] eqn:E; cbn.
    + rewrite decide_True by (apply list_elem_of_fmap; exists (k, v); split; [done|by apply Hin]).
      destruct (Curr v) eqn:Ec; [by rewrite option_guard_True|by rewrite option_guard_False by (cbn; congruence)].
    + by case_decide.
Qed.
End sweep.

(** ** Namespaces *)

Record NamespaceInfo := mkNamespaceInfo { ns_common : CommonInfo }.
#[export, program] Instance namespace_resource : Resource NamespaceInfo := {
  marshal n := JObj (commonFields (ns_common n));
  common := ns_common;
  only := mkNamespaceInfo
}.
Next Obligation. done. Qed.

Definition handleNamespaceIncrement := @handleIncrement NamespaceInfo _.
Definition namespaceNotExist {C} `{TransportChannel C} := @reportNotExistResource NamespaceInfo _ C _.

(** ** Properties *)

(** Without a cache every info is sent as it is. *)
Lemma collect_unknown {R} `{Resource R} infos : forall ids, NoDup (map uid infos) ->
  (forall u, u ∈ map uid infos -> ids !! u = None) -> (collect infos ids).1 = infos.
Proof.
  induction infos as [|info infos IH]; intros ids Hnd Hids; [done|]. cbn [collect map] in *.
  apply NoDup_cons in Hnd as [Hn Hnd]. unfold handleIncrement. rewrite (Hids (uid info)) by set_solver.
  specialize (IH (<[uid info := mkId (uid info) "" (digest info) true (common info).(Name)]> ids) Hnd).
  destruct (collect infos _) as [sents ids2]. cbn in *. f_equal. apply IH. intros u Hu.
  rewrite lookup_insert_ne by (by intros <-). apply Hids. set_solver.
Qed.
Lemma collect_fresh {R} `{Resource R} infos : NoDup (map uid infos) -> (collect infos ∅).1 = infos.
Proof. intros Hnd. apply collect_unknown; [done|]. intros. apply lookup_empty. Qed.

Section properties.
Context {R : Type} `{Links R} {C : Type} `{TransportChannel C} (client : C) (e : Env) (o : Options).

(** C12. Incremental reports lose nothing: as long as the cache agrees with
    what was said, a report that is answered with success leaves data of the
    current digest as the last thing said of every resource, although unchanged
    resources were sent as identifiers only, and the cache agrees again; a
    report without such an answer empties the cache, so that the next one is
    complete. *)
Theorem report_syncs link infos c c' h : (forall r, linked r (link r)) -> ReportHandler c <> K8sVirtualNode ->
  synced c.(identifiers) h -> Forall full infos -> NoDup (map uid infos) -> infos <> [] ->
  reportInfos client e o link infos c = Returns c' ->
  let sent := map link (collect infos c.(identifiers)).1 in
  let ids := (collect infos c.(identifiers)).2 in
  let answer := reportAnswer client e o (set_ids c ids) sent in
  (delivered answer -> synced c'.(identifiers) (h ++ sent) /\
     forall r, r ∈ infos -> knows (h ++ sent) (uid r) (digest r)) /\
  (~ delivered answer -> c'.(identifiers) = ∅ /\
     forall next, NoDup (map uid next) -> (collect next c'.(identifiers)).1 = next).
Proof.
  intros Hlink Hv Hs Hf Hnd Hne Hr. unfold reportInfos in Hr.
  pose proof (collect_synced link Hlink infos c.(identifiers) h Hs Hf Hnd) as Hc.
  destruct (collect infos (identifiers c)) as [sent ids] eqn:Ec. destruct Hc as (Hs' & Hk & _).
  cbn [fst snd].
  assert (Hsent : exists x l, map link sent = x :: l).
  { destruct infos as [|info infos]; [done|]. cbn [collect] in Ec.
    destruct (handleIncrement info (identifiers c)), (collect infos _). simplify_eq. cbn. eauto. }
  destruct Hsent as (x & l & Esent). rewrite Esent in *. cbn [reportK8sMetric] in Hr.
  destruct (handleAnswer_exists (set_ids c ids) _ _ Hv Hr) as [[Hd (v & Hst)]|[Hd He]].
  - split; [|done]. intros _. split; [|done]. eapply storeCids_synced; [|done]. done.
  - split; [done|]. intros _. split; [done|]. rewrite He. intros next. apply collect_fresh.
Qed.

(** What is in the cache after the infos of a round. *)
Lemma collect_lookup infos : forall ids u,
  u ∉ map uid infos -> (collect infos ids).2 !! u = ids !! u.
Proof.
  induction infos as [|info infos IH]; intros ids u Hu; cbn [collect map] in *; [done|].
  apply not_elem_of_cons in Hu as [Hu Hu'].
  assert (Hone : (handleIncrement info ids).2 !! u = ids !! u).
  { unfold handleIncrement. destruct (ids !! uid info) as [v|]; [case_match|];
      cbn; by rewrite lookup_insert_ne by (by apply not_eq_sym). }
  destruct (handleIncrement info ids) as [sent ids1]. specialize (IH ids1 u Hu').
  destruct (collect infos ids1). cbn in *. congruence.
Qed.

Lemma collect_curr infos : forall ids u v,
  u ∈ map uid infos -> (collect infos ids).2 !! u = Some v -> v.(Curr) = true.
Proof.
  induction infos as [|info infos IH]; intros ids u v Hu; cbn [collect map] in *; [by apply elem_of_nil in Hu|].
  assert (Hone : exists v1, (handleIncrement info ids).2 !! uid info = Some v1 /\ v1.(Curr) = true).
  { unfold handleIncrement. destruct (ids !! uid info) as [w|]; [case_match|];
      cbn; rewrite lookup_insert_eq; eauto. }
  destruct (handleIncrement info ids) as [sent ids1].
  pose proof (IH ids1 u) as IHu. pose proof (collect_lookup infos ids1 u) as Hl.
  destruct (collect infos ids1) as [sents ids2]. cbn in *.
  destruct (decide (u ∈ map uid infos)) as [Hin|Hnin]; [by apply IHu|].
  apply elem_of_cons in Hu as [->|Hu]; [|done]. rewrite Hl by done.
  destruct Hone as (v1 & -> & Hc). by intros [= <-].
Qed.

(** After the infos of a round, the sweep reports as gone exactly the
    known resources with a cid that the round did not contain, drops every
    entry the round did not contain, and keeps the others for the next
    round. *)
Theorem sweep_finds_gone infos ids order :
  map_Forall (fun u v => v.(id_Uid) = u /\ v.(Curr) = false) ids ->
  order ≡ₚ map_to_list (collect infos ids).2 ->
  (forall x, x ∈ (sweep order (collect infos ids).2).1 <->
     exists u v, ids !! u = Some v /\ u ∉ map uid infos /\ v.(id_Cid) <> "" /\ x = goneInfo v) /\
  (forall u, is_Some ((sweep order (collect infos ids).2).2 !! u) <->
     u ∈ map uid infos /\ is_Some ((collect infos ids).2 !! u)) /\
  map_Forall (fun _ v => v.(Curr) = false) (sweep order (collect infos ids).2).2.
Proof.
  intros Hids Ho. destruct (sweep_spec order _ Ho) as [Hg Hi].
  split; [|rewrite Hi; split].
  - intros x. rewrite Hg. split.
    + intros (k & v & Hl & Hc & Hcid & ->). exists k, v.
      assert (Hk : k ∉ map uid infos).
      { intros Hin. apply (collect_curr infos ids k v Hin) in Hl. congruence. }
      rewrite collect_lookup in Hl by done. done.
    + intros (u & v & Hl & Hu & Hcid & ->). exists u, v. rewrite collect_lookup by done.
      split; [done|]. split; [by apply Hids in Hl as [_ ?]|done].
  - intros u. rewrite lookup_fmap, map_lookup_filter.
    destruct ((collect infos ids).2 !! u) as [v|] eqn:E; cbn; [|split; [by intros [? ?]|by intros [_ [? ?]]]].
    destruct (decide (u ∈ map uid infos)) as [Hin|Hnin].
    + rewrite option_guard_True by (cbn; by apply (collect_curr infos ids u)).
      split; [intros _; split; [done|by eexists]|intros _; cbn; by eexists].
    + rewrite collect_lookup in E by done. rewrite option_guard_False; [|cbn; apply Hids in E as [_ E]; congruence].
      split; [by intros [? ?]|by intros [? _]].
  - intros u v. rewrite lookup_fmap. destruct (filter _ _ !! u); cbn; by intros [= <-].
Qed.

(** A deletion is announced once: when that report is not delivered the
    whole cache is dropped, and from then on no round without the resource
    announces it again. *)
Theorem failed_deletion_is_lost order c c' infos u order' :
  (sweep (R := R) order c.(identifiers)).1 <> [] ->
  (exists err, (reportAnswer client e o (set_ids c (sweep (R := R) order c.(identifiers)).2)
                  (sweep (R := R) order c.(identifiers)).1).2 = Some err) ->
  reportNotExistResource (R := R) client e o order c = Returns c' ->
  u ∉ map uid infos -> order' ≡ₚ map_to_list (collect (R := R) infos c'.(identifiers)).2 ->
  c'.(identifiers) = ∅ /\
  forall x, x ∈ (sweep (R := R) order' (collect (R := R) infos c'.(identifiers)).2).1 -> uid x <> u.
Proof.
  intros Hne [err Herr] Hr Hu Ho'.
  assert (Hc' : c'.(identifiers) = ∅).
  { unfold reportNotExistResource in Hr. destruct (sweep order (identifiers c)) as [gone ids].
    cbn [fst snd] in *. destruct gone as [|g gone]; [done|]. cbn [reportK8sMetric] in Hr.
    destruct (reportAnswer client e o (set_ids c ids) (g :: gone)) as [resp er]. cbn in Herr. subst er.
    destruct resp; cbn in Hr; by simplify_eq. }
  split; [done|]. rewrite Hc' in *. intros x Hx.
  apply (proj1 (sweep_spec order' _ Ho')) in Hx as (k & v & Hl & Hcur & Hcid & ->).
  destruct (decide (k ∈ map uid infos)) as [Hin|Hnin].
  - apply (collect_curr infos ∅ k v Hin) in Hl. congruence.
  - by rewrite collect_lookup in Hl.
Qed.
End properties.

#[local] Instance function_channel : TransportChannel (Uri -> string -> result string) := fun f => f.

Definition demo_ns : NamespaceInfo := mkNamespaceInfo (mkCommon "u1" "default" "" ∅ true "").
Definition demo_collector : K8sBaseCollector := createK8sBaseCollector "namespaces" zeroUri.
Definition demo_answer : string := dq "{'success':true,'result':{'u1':'c1'}}".
Definition demo_client : Uri -> string -> result string := fun _ _ => Ok demo_answer.

Lemma report_syncs_witness :
  exists c', reportInfos demo_client demo_env AddFlags id [demo_ns] demo_collector = Returns c' /\
    synced c'.(identifiers) (map id (collect [demo_ns] ∅).1).
Proof.
  destruct (reportInfos demo_client demo_env AddFlags id [demo_ns] demo_collector) as [c'| |] eqn:E;
    try (vm_compute in E; discriminate E).
  exists c'. split; [reflexivity|].
  assert (Hd : delivered (reportAnswer demo_client demo_env AddFlags
            (set_ids demo_collector (collect [demo_ns] ∅).2) (map id (collect [demo_ns] ∅).1))).
  { exists (mkResponse 0 true "" (JObj [("u1", JStr "c1")])), [("u1", JStr "c1")].
    split; [vm_compute; reflexivity|]. split; reflexivity. }
  refine (proj1 (proj1 (report_syncs demo_client demo_env AddFlags id [demo_ns] demo_collector c' []
            (fun _ => eq_refl) _ (map_Forall_empty _) _ _ _ E) Hd)).
  - by intros [=].
  - apply Forall_singleton. split; reflexivity.
  - apply NoDup_singleton.
  - by intros [=].
Defined.

Definition demo_known : gmap string ResourceIdentifier :=
  <["u2" := mkId "u2" "c2" "x" false "old"]> ∅.

Lemma sweep_finds_gone_witness :
  exists x, x ∈ (sweep (map_to_list (collect [demo_ns] demo_known).2) (collect [demo_ns] demo_known).2).1.
Proof.
  exists (goneInfo (mkId "u2" "c2" "x" false "old")).
  apply (sweep_finds_gone [demo_ns] demo_known (map_to_list (collect [demo_ns] demo_known).2)).
  - apply map_Forall_insert_2; [done|apply map_Forall_empty].
  - done.
  - exists "u2", (mkId "u2" "c2" "x" false "old"). split; [done|]. split; [|done].
    by apply (bool_decide_unpack _); vm_compute.
Defined.

Definition demo_stale : K8sBaseCollector := mkCollector "namespaces" demo_known ∅ zeroUri.
Definition demo_down : Uri -> string -> result string := fun _ _ => Err "connection refused".

Lemma failed_deletion_is_lost_witness :
  (resetIdentifierCache demo_stale).(identifiers) = ∅ /\
  forall x, x ∈ (sweep (R := NamespaceInfo) [] ∅).1 -> uid x <> "u2".
Proof.
  apply (failed_deletion_is_lost demo_down demo_env AddFlags
           [("u2", mkId "u2" "c2" "x" false "old")] demo_stale (resetIdentifierCache demo_stale) [] "u2" []).
  - by intros [=].
  - eexists. vm_compute. reflexivity.
  - vm_compute. reflexivity.
  - apply not_elem_of_nil.
  - cbn. by rewrite map_to_list_empty.
Defined.
End Collector.
