(* ===== verification/Watch.v ===== *)
(** * collector/kubernetes: listing and watching

    types.go and the second half of kubernetes.go: the list-watchers of the
    collectors, the composite list-watcher over several namespaces, and the
    goroutines, channels and stop calls of its watch as a transition system. *)

From stdpp Require Import relations.
From S2P Require Import Prelude GoStrings.
Local Open Scope Z_scope.

Module Watch.

(** ** types.go *)

Definition NamespaceAll := "".
Definition AllListNs : list string := [NamespaceAll].

(** [NamespaceList.String] and [NamespaceList.Set]. *)
Definition namespacesString (n : list string) : string := Join n ",".
Definition setNamespaces (n : list string) (value : string) : list string :=
  n ++ List.filter (fun ns => negb (ns ==s "")) (map TrimSpace (Split value ",")).

(** ** The list-watchers *)

(** [metav1.ListOptions], the fields the code sets. *)
Record ListOptions := mkListOptions { FieldSelector : string; ResourceVersion : string }.

(** A request to the API server: resource, namespace ("" for a resource that
    has none, or for all), the options, and whether it is a watch. *)
Record apiCall := mkCall { resource : string; call_ns : string; call_opts : ListOptions; is_watch : bool }.

(** [cache.ListWatch]: the requests its two functions make. *)
Record ListWatch := mkListWatch { ListFunc : ListOptions -> apiCall; WatchFunc : ListOptions -> apiCall }.

(** The functions take the options of the caller and pass on the ones the
    list-watcher was made with. *)
Definition createListWatch (res : string) (namespaced : bool) (ns : string) (options : ListOptions) : ListWatch :=
  let at_ns := if namespaced then ns else "" in
  mkListWatch (fun opts => mkCall res at_ns options false) (fun opts => mkCall res at_ns options true).
Definition createPodListWatch := createListWatch "pods" true.
Definition createServiceListWatch := createListWatch "services" true.
Definition createDeploymentListWatch := createListWatch "deployments" true.
Definition createDaemonSetListWatch := createListWatch "daemonsets" true.
Definition createReplicaSetListWatch := createListWatch "replicasets" true.
Definition createIngressListWatch := createListWatch "ingresses" true.
Definition createNamespaceListWatch := createListWatch "namespaces" false.
Definition createNodeListWatch := createListWatch "nodes" false.
Definition createVirtualnodeListWatch := createListWatch "nodes" false.
Definition createVirtualnodepodListWatch := createListWatch "pods" true.

(** ** The composite list-watcher *)

(** A lister and watcher: what [List] gives (items and version) and what
    [Watch] gives for a version. *)
Record ListerWatcher (Obj : Type) := mkLW {
  lw_List : result (list Obj * string);
  lw_Watch : string -> result unit
}.
Arguments mkLW {Obj} _ _.
Arguments lw_List {Obj} _.
Arguments lw_Watch {Obj} _ _.

(** [IsAllNamespaces] and [MultiNamespaceListerWatcher]: a single watcher is
    used as it is, [None] stands for indexing an empty list. *)
Inductive lister (L : Type) := Single (l : L) | Multi (ls : list L).
Arguments Single {L} l.
Arguments Multi {L} ls.
Definition IsAllNamespaces (namespaces : list string) : bool :=
  match namespaces with [n] => n ==s NamespaceAll | _ => false end.
Definition MultiNamespaceListerWatcher {L} (allowedNamespaces : list string) (f : string -> L)
    : outcome (lister L) :=
  if IsAllNamespaces allowedNamespaces || (length allowedNamespaces =? 1)%nat then
    match allowedNamespaces with
    | n :: _ => Returns (Single (f n))
    | [] => Panics "index out of range [0] with length 0"
    end
  else Returns (Multi (map f allowedNamespaces)).

(** [reflectorPreNamespace]: the lister that the reflector of the returned
    indexer runs on. *)
Definition reflectorPreNamespace (ns : list string) (options : ListOptions)
    (listWatchFunc : string -> ListOptions -> ListWatch) : outcome (lister ListWatch) :=
  MultiNamespaceListerWatcher ns (fun n => listWatchFunc n options).

(** [multiListerWatcher.List]: the items of all in order, the versions joined;
    the first error ends it. *)
Fixpoint listAll {Obj} (mlw : list (ListerWatcher Obj)) : result (list Obj * list string) :=
  match mlw with
  | [] => Ok ([], [])
  | lw :: mlw' =>
      '(items, version) ← lw_List lw;
      '(rest, versions) ← listAll mlw';
      Ok (items ++ rest, version :: versions)
  end.
Definition multiList {Obj} (mlw : list (ListerWatcher Obj)) : result (list Obj * string) :=
  '(items, versions) ← listAll mlw; Ok (items, Join versions "/").

(** [newMultiWatch], its loop: how many goroutines were started, and the
    error that ended it.  Every watcher gets its part of the version. *)
Fixpoint newMultiWatch {Obj} (lws : list (ListerWatcher Obj)) (resourceVersions : list string) (started : nat)
    : outcome (nat * option string) :=
  match lws, resourceVersions with
  | [], _ => Returns (started, None)
  | lw :: lws', v :: versions' =>
      match lw_Watch lw v with
      | Err err => Returns (started, Some err)
      | Ok _ => newMultiWatch lws' versions' (S started)
      end
  | _ :: _, [] => Panics "index out of range"
  end.

(** [multiListerWatcher.Watch]. *)
Definition multiWatch {Obj} (mlw : list (ListerWatcher Obj)) (version : string)
    : outcome (nat * option string) :=
  if version ==s "" then newMultiWatch mlw (replicate (length mlw) "") 0
  else
    let rvs := Split version "/" in
    if negb (length rvs =? length mlw)%nat
    then Returns (0%nat, Some ("expected resource version to have " +:+ FormatInt (Z.of_nat (length mlw))
                               +:+ " parts to match the number of ListerWatchers"))
    else newMultiWatch mlw rvs 0.

(** ** The goroutines of a watch *)

Lemma rtc_preserve {A} (R : relation A) (P : A -> Prop) :
  (forall x y, R x y -> P x -> P y) -> forall x y, rtc R x y -> P x -> P y.
Proof. intros HR x y. induction 1; eauto. Qed.

Section system.
Context {E : Type}.

(** Where a forwarding goroutine is: in the receive from its watch, in the
    select with an event in hand, or gone. *)
Inductive goroutine := Receiving | Holding (e : E) | Exited.

(** A watch and its goroutine: the events in its channel, whether the channel
    is closed, the goroutine, and all events the watch has produced. *)
Record proc := mkProc { queue : list E; srcClosed : bool; gor : goroutine; hist : list E }.

(** A call of [Stop]: not made yet, past the test of [stopped] with [k]
    stoppers called, or returned. *)
Inductive stopCall := Idle | Stopping (k : nat) | Stopped.

Record mw := mkMw {
  procs : list proc;
  stopped : bool;          (** the channel [stopped] is closed *)
  resultClosed : bool;     (** the channel [result] is closed *)
  calls : list stopCall;
  received : list (nat * E);  (** what the reader of [result] got, and from which watch *)
  panicked : bool
}.

Definition fresh : proc := mkProc [] false Receiving [].
(** After [newMultiWatch] over [n] watches, with [k] future calls of [Stop]. *)
Definition initial (n k : nat) : mw := mkMw (replicate n fresh) false false (replicate k Idle) [] false.

Definition set_proc (s : mw) (i : nat) (p : proc) : mw :=
  mkMw (<[i := p]> s.(procs)) s.(stopped) s.(resultClosed) s.(calls) s.(received) s.(panicked).
Definition set_call (s : mw) (t : nat) (c : stopCall) : mw :=
  mkMw s.(procs) s.(stopped) s.(resultClosed) (<[t := c]> s.(calls)) s.(received) s.(panicked).
Definition panic (s : mw) : mw :=
  mkMw s.(procs) s.(stopped) s.(resultClosed) s.(calls) s.(received) true.

(** The steps of the forwarding goroutines that need no other party. *)
Inductive forward : mw -> mw -> Prop :=
| recv s i p e q : s.(procs) !! i = Some p -> p.(gor) = Receiving -> p.(queue) = e :: q ->
    forward s (set_proc s i (mkProc q p.(srcClosed) (Holding e) p.(hist)))
| drained s i p : s.(procs) !! i = Some p -> p.(gor) = Receiving -> p.(queue) = [] ->
    p.(srcClosed) = true -> forward s (set_proc s i (mkProc [] true Exited p.(hist)))
| quit s i p e : s.(procs) !! i = Some p -> p.(gor) = Holding e -> s.(stopped) = true ->
    forward s (set_proc s i (mkProc p.(queue) p.(srcClosed) Exited p.(hist))).

(** And of the goroutine that waits for them and closes [result]. *)
Inductive internal : mw -> mw -> Prop :=
| goes_on s s' : forward s s' -> internal s s'
| finish s : Forall (fun p => p.(gor) = Exited) s.(procs) -> s.(resultClosed) = false ->
    internal s (mkMw s.(procs) s.(stopped) true s.(calls) s.(received) s.(panicked)).

(** A watch produces an event or closes its channel. *)
Inductive produce : mw -> mw -> Prop :=
| emit s i p e : s.(procs) !! i = Some p -> p.(srcClosed) = false ->
    produce s (set_proc s i (mkProc (p.(queue) ++ [e]) false p.(gor) (p.(hist) ++ [e])))
| close_src s i p : s.(procs) !! i = Some p ->
    produce s (set_proc s i (mkProc p.(queue) true p.(gor) p.(hist))).

(** A send to the reader; on a closed channel it panics. *)
Inductive send : mw -> mw -> Prop :=
| send_ok s i p e : s.(procs) !! i = Some p -> p.(gor) = Holding e -> s.(resultClosed) = false ->
    send s (mkMw (<[i := mkProc p.(queue) p.(srcClosed) Receiving p.(hist)]> s.(procs))
              s.(stopped) false s.(calls) (s.(received) ++ [(i, e)]) s.(panicked))
| send_closed s i p e : s.(procs) !! i = Some p -> p.(gor) = Holding e -> s.(resultClosed) = true ->
    send s (panic s).

(** [Stop]: the test, the loop over the stoppers, the close. *)
Inductive stop : mw -> mw -> Prop :=
| stop_noop s t : s.(calls) !! t = Some Idle -> s.(stopped) = true -> stop s (set_call s t Stopped)
| stop_begin s t : s.(calls) !! t = Some Idle -> s.(stopped) = false -> stop s (set_call s t (Stopping 0))
| stop_one s t k : s.(calls) !! t = Some (Stopping k) -> (k < length s.(procs))%nat ->
    stop s (set_call s t (Stopping (S k)))
| stop_close s t : s.(calls) !! t = Some (Stopping (length s.(procs))) -> s.(stopped) = false ->
    stop s (set_call (mkMw s.(procs) true s.(resultClosed) s.(calls) s.(received) s.(panicked)) t Stopped)
| stop_twice s t : s.(calls) !! t = Some (Stopping (length s.(procs))) -> s.(stopped) = true ->
    stop s (panic s).

(** A panic ends the program. *)
Inductive step : mw -> mw -> Prop :=
| step_internal s s' : s.(panicked) = false -> internal s s' -> step s s'
| step_produce s s' : s.(panicked) = false -> produce s s' -> step s s'
| step_send s s' : s.(panicked) = false -> send s s' -> step s s'
| step_stop s s' : s.(panicked) = false -> stop s s' -> step s s'.

(** After an error of [newMultiWatch]: the goroutines it started run, there is
    no reader, no stopper and nobody who waits. *)
Inductive orphan : mw -> mw -> Prop :=
| orphan_forward s s' : forward s s' -> orphan s s'
| orphan_produce s s' : produce s s' -> orphan s s'.

(** The steps of a run in which calls of [Stop] do not overlap. *)
Definition one_stop (s : mw) : Prop :=
  forall t t' k k', s.(calls) !! t = Some (Stopping k) -> s.(calls) !! t' = Some (Stopping k') -> t = t'.
Definition orderly (s s' : mw) : Prop := step s s' /\ one_stop s'.

(** The steps that empty a watch: of its goroutines, and to its reader. *)
Definition advance (s s' : mw) : Prop := (internal s s' \/ send s s') /\ s'.(panicked) = false.

(** What the reader got from watch [i]. *)
Definition from (i : nat) (l : list (nat * E)) : list E := (filter (fun x => x.1 = i) l).*2.
#[local] Arguments from : simpl never.
Definition held (p : proc) : list E := match p.(gor) with Holding e => [e] | _ => [] end.

(** ** Events arrive in order, and none is lost before a stop *)

(** What has become of the events that watch [i] produced. *)
Definition accounted (s : mw) (i : nat) (p : proc) : Prop :=
  match p.(gor) with
  | Exited =>
      from i s.(received) `prefix_of` p.(hist) /\
      (s.(stopped) = false -> p.(srcClosed) = true /\ from i s.(received) = p.(hist))
  | _ => p.(hist) = from i s.(received) ++ held p ++ p.(queue)
  end.
Definition all_accounted (s : mw) : Prop := forall i p, s.(procs) !! i = Some p -> accounted s i p.

Lemma from_snoc i j e l : from i (l ++ [(j, e)]) = from i l ++ (if decide (j = i) then [e] else []).
Proof.
  unfold from. rewrite filter_app, fmap_app. f_equal. rewrite filter_cons.
  cbn. by case_decide.
Qed.

Lemma set_proc_accounted s i q :
  all_accounted s -> accounted s i q -> all_accounted (set_proc s i q).
Proof.
  intros Hs Hq j p. cbn. intros [(-> & -> & _)|[_ El]]%list_lookup_insert_Some; [exact Hq|].
  exact (Hs _ _ El).
Qed.

Lemma forward_accounted s s' : forward s s' -> all_accounted s -> all_accounted s'.
Proof.
  destruct 1 as [s i p e q Ei Eg Eq|s i p Ei Eg Eq Ec|s i p e Ei Eg Est]; intros Hs;
    apply set_proc_accounted; try done; specialize (Hs _ _ Ei); unfold accounted, held in *;
    rewrite Eg in Hs; cbn.
  - by rewrite Hs, Eq.
  - rewrite Eq in Hs. cbn in Hs. rewrite app_nil_r in Hs. rewrite Hs. done.
  - rewrite Hs. split; [by apply prefix_app_r|congruence].
Qed.

Lemma produce_accounted s s' : produce s s' -> all_accounted s -> all_accounted s'.
Proof.
  destruct 1 as [s i p e Ei Ec|s i p Ei]; intros Hs;
    apply set_proc_accounted; try done; specialize (Hs _ _ Ei); unfold accounted, held in *; cbn.
  - destruct (gor p); cbn in *; [by rewrite Hs, <-?app_assoc..|].
    split; [apply prefix_app_r, Hs|]. intros El. apply Hs in El as [El _]. congruence.
  - destruct (gor p); cbn in *; try done. split; [apply Hs|]. intros El. split; [done|by apply Hs].
Qed.

Lemma send_accounted s s' : send s s' -> all_accounted s -> all_accounted s'.
Proof.
  destruct 1 as [s i p e Ei Eg Ec|]; intros Hs; [|done].
  intros j q. cbn. rewrite list_lookup_insert_Some. unfold accounted, held.
  intros [(-> & <- & _)|[Hne El]]; cbn; rewrite from_snoc.
  - specialize (Hs _ _ Ei). unfold accounted, held in Hs. rewrite Eg in Hs.
    rewrite decide_True by done. by rewrite Hs, <-app_assoc.
  - rewrite decide_False by done. rewrite app_nil_r. exact (Hs _ _ El).
Qed.

Lemma stop_accounted s s' : stop s s' -> all_accounted s -> all_accounted s'.
Proof.
  destruct 1; intros Hs; try exact Hs. intros i p El. specialize (Hs i p El).
  unfold accounted in *. cbn. destruct (gor p); [done..|]. by destruct Hs.
Qed.

Lemma step_accounted s s' : step s s' -> all_accounted s -> all_accounted s'.
Proof.
  destruct 1 as [s s' _ H|s s' _ H|s s' _ H|s s' _ H]; [|eauto using produce_accounted,
    send_accounted, stop_accounted..].
  destruct H; [eauto using forward_accounted|done].
Qed.

Lemma initial_accounted n k : all_accounted (initial n k).
Proof. intros i p [-> _]%lookup_replicate. done. Qed.

Lemma reachable_accounted n k s : rtc step (initial n k) s -> all_accounted s.
Proof.
  intros H. apply (rtc_preserve _ _ step_accounted _ _ H), initial_accounted.
Qed.

(** C17. In every run of a composite watch the reader gets the events of each
    part in the order in which the part produced them, with no gap and no
    repetition: what it got is a prefix of what was produced, and while the
    part's goroutine lives the rest is the event in its hand and the queue of
    the part's channel.  A goroutine that ends before the watch is stopped has
    delivered everything. *)
Theorem events_in_order n k s i p :
  rtc step (initial n k) s -> s.(procs) !! i = Some p ->
  from i s.(received) `prefix_of` p.(hist) /\
  (p.(gor) <> Exited -> p.(hist) = from i s.(received) ++ held p ++ p.(queue)) /\
  (p.(gor) = Exited -> s.(stopped) = false -> p.(srcClosed) = true /\ from i s.(received) = p.(hist)).
Proof.
  intros H Hp. apply reachable_accounted in H. specialize (H i p Hp). unfold accounted in H.
  destruct (gor p) eqn:Eg; [| |by split_and!; [apply H|..|intros _; apply H]];
    (split_and!; [rewrite H; by apply prefix_app_r|done|done]).
Qed.

(** ** Closing the result, and stopping *)

(** [result] is closed only when every goroutine has ended. *)
Definition closed_last (s : mw) : Prop :=
  s.(resultClosed) = true -> Forall (fun p => p.(gor) = Exited) s.(procs).
(** In an orderly run a call past its test finds [stopped] open. *)
Definition calm (s : mw) : Prop :=
  s.(panicked) = false /\ closed_last s /\ one_stop s /\
  forall t k, s.(calls) !! t = Some (Stopping k) -> s.(stopped) = false.

Lemma closed_last_set s i p q : s.(procs) !! i = Some p -> (p.(gor) = Exited -> q.(gor) = Exited) ->
  closed_last s -> closed_last (set_proc s i q).
Proof.
  intros Hi Hq Hs Hc. apply Forall_insert; [by apply Hs|]. specialize (Hs Hc).
  rewrite Forall_lookup in Hs. eauto.
Qed.

Lemma closed_not_holding s i p e :
  closed_last s -> s.(procs) !! i = Some p -> p.(gor) = Holding e -> s.(resultClosed) = false.
Proof.
  intros Hs Hi Hg. destruct (resultClosed s) eqn:Ec; [|done]. specialize (Hs Ec).
  rewrite Forall_lookup in Hs. rewrite (Hs _ _ Hi) in Hg. done.
Qed.

Lemma internal_calm s s' : internal s s' -> calm s -> calm s'.
Proof.
  destruct 1 as [s s' H|s Hf Hc]; intros (Hp & Hl & Ho & Ht); [|by split_and!; try (intros _)].
  destruct H; (split_and!; [done| |done|done]); (eapply closed_last_set; [eassumption|cbn; congruence|done]).
Qed.

Lemma produce_calm s s' : produce s s' -> calm s -> calm s'.
Proof.
  destruct 1; intros (Hp & Hl & Ho & Ht); (split_and!; [done| |done|done]);
    (eapply closed_last_set; [eassumption|done|done]).
Qed.

Lemma send_calm s s' : send s s' -> calm s -> calm s'.
Proof.
  destruct 1 as [s i p e Hi Hg Hc|s i p e Hi Hg Hc]; intros (Hp & Hl & Ho & Ht).
  - by split_and!; [|intros [=]|..].
  - pose proof (closed_not_holding _ _ _ _ Hl Hi Hg). congruence.
Qed.

Lemma stop_calm s s' : stop s s' -> one_stop s' -> calm s -> calm s'.
Proof.
  destruct 1 as [s t Hi Hs|s t Hi Hs|s t k Hi Hk|s t Hi Hs|s t Hi Hs];
    intros Hos (Hp & Hl & Ho & Ht); [split_and!; try done..|exfalso; specialize (Ht _ _ Hi); congruence]; cbn.
  - intros t' k [(_ & ? & _)|[_ Hk]]%list_lookup_insert_Some; [done|]. by eapply Ht.
  - intros t' k' [(_ & ? & _)|[_ Hk']]%list_lookup_insert_Some; [by eapply Ht|]. by eapply Ht.
  - intros t' k' [(_ & ? & _)|[Hne Hk']]%list_lookup_insert_Some; [done|].
    destruct Hne. by eapply Ho.
Qed.

Lemma orderly_calm s s' : orderly s s' -> calm s -> calm s'.
Proof.
  intros [H Ho]. destruct H; eauto using internal_calm, produce_calm, send_calm, stop_calm.
Qed.

Lemma initial_calm n k : calm (initial n k).
Proof.
  split_and!; [done| |intros t t' j j' [? _]%lookup_replicate; done|intros t j [? _]%lookup_replicate; done].
  done.
Qed.

(** C18. As long as calls of [Stop] do not overlap, no run of a composite
    watch panics, however often it is stopped: the channels are closed once,
    and nothing is sent on [result] after its close, since it is closed only
    when every forwarding goroutine has ended. *)
Theorem orderly_stops_safe n k s :
  rtc orderly (initial n k) s ->
  s.(panicked) = false /\
  (s.(resultClosed) = true -> Forall (fun p => p.(gor) = Exited) s.(procs)).
Proof.
  intros H. apply (rtc_preserve _ _ orderly_calm) in H; [|apply initial_calm]. by destruct H as (? & ? & _).
Qed.

(** ** Two overlapping stops *)

Lemma set_call_twice s t c c' : set_call (set_call s t c) t c' = set_call s t c'.
Proof. unfold set_call. cbn. by rewrite list_insert_insert_eq. Qed.

Lemma stoppers_run s t k j : s.(panicked) = false -> (t < length s.(calls))%nat ->
  (k + j = length s.(procs))%nat ->
  rtc step (set_call s t (Stopping k)) (set_call s t (Stopping (length s.(procs)))).
Proof.
  intros Hp Ht. revert k. induction j as [|j IH]; intros k Hk.
  { replace k with (length (procs s)) by lia. done. }
  eapply rtc_l; [|apply (IH (S k)); lia].
  rewrite <-(set_call_twice s t (Stopping k) (Stopping (S k))). apply step_stop; [done|].
  apply stop_one; cbn; [by apply list_lookup_insert_eq|lia].
Qed.

(** The comment on [Stop] says that it can safely be called more than once.
    Two calls that overlap can both find the channel open and both close it. *)
Theorem concurrent_stops_panic n :
  exists s, rtc step (initial n 2) s /\ s.(panicked) = true.
Proof.
  set (s0 := initial n 2). set (m := length (procs s0)).
  set (s1 := set_call s0 0 (Stopping 0)). set (s2 := set_call s1 1 (Stopping 0)).
  set (s3 := set_call s1 1 (Stopping m)).
  set (s5 := set_call s3 0 (Stopping m)).
  eexists (panic _). split; [|done].
  assert (H1 : step s0 s1) by (apply step_stop, stop_begin; done).
  assert (H2 : step s1 s2) by (apply step_stop, stop_begin; done).
  assert (H3 : rtc step s2 s3) by (apply (stoppers_run s1 1 0 m); [done|cbn; lia|done]).
  assert (H4 : rtc step s3 s5).
  { assert (E3 : s3 = set_call s3 0 (Stopping 0)) by done.
    rewrite E3 at 1. apply (stoppers_run s3 0 0 m); [done|cbn; lia|done]. }
  eapply rtc_l; [exact H1|]. eapply rtc_l; [exact H2|]. etrans; [exact H3|]. etrans; [exact H4|].
  eapply rtc_l; [apply step_stop; [done|]; apply (stop_close s5 0); done|].
  apply rtc_once, step_stop; [done|]. eapply (stop_twice _ 1); done.
Qed.

(** ** A stopped watch drains *)

Definition weight (p : proc) : nat :=
  2 * length p.(queue) + match p.(gor) with Exited => 0 | Receiving => 1 | Holding _ => 2 end.
Definition size (s : mw) : nat :=
  sum_list (map weight s.(procs)) + (if s.(resultClosed) then 0 else 1).
Definition stopping (s : mw) : Prop :=
  s.(panicked) = false /\ s.(stopped) = true /\ Forall (fun p => p.(srcClosed) = true) s.(procs).

Lemma size_set s i p q : s.(procs) !! i = Some p -> (weight q < weight p)%nat ->
  (sum_list (map weight (<[i := q]> s.(procs))) < sum_list (map weight s.(procs)))%nat.
Proof.
  generalize (procs s) as l. intros l. revert i. induction l as [|r l IH]; intros [|i]; [done..| |]; cbn.
  - intros [= ->] Hw. by apply Nat.add_lt_mono_r.
  - intros Hi Hw. by apply Nat.add_lt_mono_l, IH.
Qed.

Lemma advance_size s s' : advance s s' -> (size s' < size s)%nat.
Proof.
  intros [[[s1 s1' H|s1 _ Hc]|H] Hp].
  - destruct H as [s1 i p e q Hi Hg Hq|s1 i p Hi Hg Hq Hc|s1 i p e Hi Hg _]; unfold size; cbn;
      apply Nat.add_lt_mono_r; (eapply size_set; [exact Hi|]); unfold weight; rewrite Hg; cbn;
      rewrite ?Hq; cbn; lia.
  - unfold size. cbn. rewrite Hc. lia.
  - destruct H as [s1 i p e Hi Hg Hc|]; [|done]. unfold size. cbn. rewrite Hc. apply Nat.add_lt_mono_r.
    eapply size_set; [exact Hi|]. unfold weight. rewrite Hg. cbn. lia.
Qed.

Lemma closed_set s i p q : s.(procs) !! i = Some p -> q.(srcClosed) = true \/ q.(srcClosed) = p.(srcClosed) ->
  Forall (fun p => p.(srcClosed) = true) s.(procs) ->
  Forall (fun p => p.(srcClosed) = true) (<[i := q]> s.(procs)).
Proof.
  intros Hi Hq Hf. apply Forall_insert; [done|]. rewrite Forall_lookup in Hf.
  destruct Hq as [Hq|Hq]; [done|]. rewrite Hq. eauto.
Qed.

Lemma advance_stopping s s' : advance s s' -> stopping s -> stopping s'.
Proof.
  intros [H Hp] (_ & Hs & Hf). split; [done|]. revert Hs Hf.
  destruct H as [[? ? []|]|[]]; intros Hs Hf; (split; [exact Hs|]); try exact Hf;
    eapply closed_set; eauto.
Qed.

#[local] Instance exited_dec (g : goroutine) : Decision (g = Exited).
Proof. destruct g; [by right|by right|by left]. Defined.

Lemma stopping_done s : stopping s -> nf advance s -> s.(resultClosed) = true.
Proof.
  intros (Hp & Hs & Hf) Hn. destruct (resultClosed s) eqn:Ec; [done|]. destruct Hn. red.
  destruct (decide (Forall (fun p => gor p = Exited) (procs s))) as [He|He].
  { eexists. split; [left; by apply finish|done]. }
  apply not_Forall_Exists in He; [|intros p; apply _].
  apply Exists_exists in He as (p & Hin & Hg). apply list_elem_of_lookup in Hin as [i Hi].
  rewrite Forall_lookup in Hf. pose proof (Hf _ _ Hi) as Hc.
  destruct (gor p) as [|e|] eqn:Eg; [|eexists; split; [left; apply goes_on; by eapply quit|done]|done].
  destruct (queue p) eqn:Eq; eexists; (split; [left; apply goes_on|]);
    [by eapply drained|done|by eapply recv|done].
Qed.

(** C19. A stopped composite watch whose parts have closed their channels (as
    [Stop] makes them) ends: whatever the reader does, its goroutines and the
    reader can take only finitely many steps, and when none is left the result
    channel is closed, so a reader that ranges over it returns. *)
Theorem stopped_watch_drains s :
  stopping s ->
  sn advance s /\ forall s', rtc advance s s' -> nf advance s' -> s'.(resultClosed) = true.
Proof.
  intros Hs. split.
  - clear Hs. induction s as [s IH] using (induction_ltof1 _ size). constructor.
    intros s' H. apply IH. by apply advance_size.
  - intros s' H. apply stopping_done. by apply (rtc_preserve _ _ advance_stopping _ _ H).
Qed.

(** ** A failed watch *)

Definition stuck (i : nat) (e : E) (s : mw) : Prop :=
  s.(stopped) = false /\ exists p, s.(procs) !! i = Some p /\ p.(gor) = Holding e.

Lemma stuck_set i e s j p q : s.(procs) !! j = Some p -> p.(gor) = q.(gor) \/ p.(gor) = Receiving ->
  stuck i e s -> stuck i e (set_proc s j q).
Proof.
  intros Hj Hq (Hs & p' & Hi & Hg). split; [done|]. cbn. destruct (decide (j = i)) as [->|Hne].
  - rewrite list_lookup_insert_eq by (by eapply lookup_lt_Some). exists q. split; [done|].
    assert (p' = p) as -> by congruence. destruct Hq as [Hq|Hq]; congruence.
  - rewrite list_lookup_insert_ne by done. eauto.
Qed.

Lemma orphan_stuck i e s s' : orphan s s' -> stuck i e s -> stuck i e s'.
Proof.
  destruct 1 as [s s' H|s s' H]; destruct H; intros Hst; try (eapply stuck_set; eauto; fail).
  destruct Hst as [? _]. congruence.
Qed.

(** An event for a goroutine that no reader and no [Stop] can reach holds it
    for ever. *)
Lemma orphan_leaks n i e : (i < n)%nat ->
  exists s, rtc orphan (initial n 0) s /\ forall s', rtc orphan s s' -> stuck i e s'.
Proof.
  intros Hi. set (s0 := initial n 0).
  assert (H0 : procs s0 !! i = Some fresh) by (by apply lookup_replicate).
  set (p1 := mkProc [e] false Receiving [e]).
  assert (H1 : orphan s0 (set_proc s0 i p1)) by (apply orphan_produce; by apply (emit s0 i fresh e)).
  assert (E1 : procs (set_proc s0 i p1) !! i = Some p1)
    by (cbn; apply list_lookup_insert_eq; by rewrite length_replicate).
  eexists. split; [eapply rtc_l; [exact H1|]; apply rtc_once, orphan_forward; by eapply recv|].
  intros s' H. eapply (rtc_preserve orphan _ (orphan_stuck i e)); [exact H|]. split; [done|]. cbn.
  eexists. split; [apply list_lookup_insert_eq; by rewrite length_insert, length_replicate|done].
Qed.
End system.
Arguments mw E : clear implicits.
Arguments proc E : clear implicits.

(** ** Versions, and errors of the parts *)

Lemma listAll_length {Obj} (mlw : list (ListerWatcher Obj)) items versions :
  listAll mlw = Ok (items, versions) -> length versions = length mlw.
Proof.
  revert items versions. induction mlw as [|lw mlw IH]; intros items versions; cbn [listAll].
  { by intros [= <- <-]. }
  intros E. apply result_bind_ok in E as ([its v] & _ & E).
  apply result_bind_ok in E as ([rest vs] & Er & [= <- <-]). cbn. by rewrite (IH _ _ Er).
Qed.

Lemma Join_empty versions : Forall (fun v => ~ In_s "/"%char v) versions -> versions <> [] ->
  Join versions "/" = "" -> versions = [""].
Proof.
  destruct versions as [|v [|w vs]]; intros Hf Hne E; [done|by cbn in E; subst|].
  rewrite join_cons in E by done. apply (f_equal String.length) in E.
  rewrite !length_app_s in E. cbn in E. lia.
Qed.

Lemma newMultiWatch_all {Obj} (lws : list (ListerWatcher Obj)) versions k :
  Forall2 (fun lw v => exists u, lw_Watch lw v = Ok u) lws versions ->
  newMultiWatch lws versions k = Returns ((k + length lws)%nat, None).
Proof.
  intros H. revert k. induction H as [|lw v lws vs [u Eu] _ IH]; intros k; cbn.
  - by rewrite Nat.add_0_r.
  - rewrite Eu, IH. do 2 f_equal. lia.
Qed.

(** The version that the composite lister makes of the versions of its
    parts is taken apart again by its [Watch]: every part is watched from the
    version it listed, provided versions hold no slash, and when every part
    can be watched from there a goroutine runs for each. *)
Theorem multi_versions_roundtrip {Obj} (mlw : list (ListerWatcher Obj)) items versions :
  mlw <> [] -> listAll mlw = Ok (items, versions) ->
  Forall (fun v => ~ In_s "/"%char v) versions ->
  multiList mlw = Ok (items, Join versions "/") /\
  multiWatch mlw (Join versions "/") = newMultiWatch mlw versions 0 /\
  (Forall2 (fun lw v => exists u, lw_Watch lw v = Ok u) mlw versions ->
   multiWatch mlw (Join versions "/") = Returns (length mlw, None)).
Proof.
  intros Hne El Hf. pose proof (listAll_length _ _ _ El) as Hlen.
  assert (Hw : multiWatch mlw (Join versions "/") = newMultiWatch mlw versions 0).
  { assert (Hvs : versions <> []) by (intros ->; by destruct mlw).
    unfold multiWatch. destruct (eqb_spec_s (Join versions "/") "") as [E|_].
    - apply Join_empty in E as ->; [|done..]. cbn in Hlen. by rewrite <-Hlen.
    - change "/" with (String "/"%char ""). rewrite split_join by done.
      rewrite Hlen, Nat.eqb_refl. done. }
  split_and!; [unfold multiList; by rewrite El|done|].
  intros H. rewrite Hw. by apply (newMultiWatch_all mlw versions 0).
Qed.

Lemma newMultiWatch_error {Obj} (lws : list (ListerWatcher Obj)) versions k n err :
  newMultiWatch lws versions k = Returns (n, Some err) ->
  (k <= n)%nat /\ exists lw v, lws !! (n - k)%nat = Some lw /\ versions !! (n - k)%nat = Some v /\
                               lw_Watch lw v = Err err.
Proof.
  revert versions k. induction lws as [|lw lws IH]; intros [|v vs] k; cbn; [done..|].
  destruct (lw_Watch lw v) as [u|e] eqn:E.
  - intros [Hk (lw' & v' & H)]%IH. split; [lia|]. exists lw', v'.
    by replace (n - k)%nat with (S (n - S k)) by lia.
  - intros [= <- <-]. split; [lia|]. rewrite Nat.sub_diag. by exists lw, v.
Qed.

(** When the [Watch] of a part fails, the goroutines of the parts before it
    have been started and nothing stops them: an event for one of them holds
    it for ever. *)
Theorem failed_watch_leaks {Obj E} (lws : list (ListerWatcher Obj)) versions n err i (e : E) :
  newMultiWatch lws versions 0 = Returns (n, Some err) -> (i < n)%nat ->
  (exists lw v, lws !! n = Some lw /\ versions !! n = Some v /\ lw_Watch lw v = Err err) /\
  exists s, rtc orphan (initial n 0) s /\ forall s', rtc orphan s s' -> stuck i e s'.
Proof.
  intros H Hi. apply newMultiWatch_error in H as [_ H]. rewrite Nat.sub_0_r in H.
  split; [done|by apply orphan_leaks].
Qed.

(** ** Examples *)

Definition demo_lw (v : string) : ListerWatcher nat :=
  mkLW (Ok ([1%nat], v)) (fun w => if w ==s v then Ok tt else Err "too old").

Lemma multi_versions_roundtrip_witness :
  multiWatch [demo_lw "12"; demo_lw "7"] "12/7" = Returns (2%nat, None).
Proof.
  destruct (multi_versions_roundtrip [demo_lw "12"; demo_lw "7"] [1%nat; 1%nat] ["12"; "7"]) as (_ & _ & H).
  - done.
  - reflexivity.
  - apply Forall_cons; split; [vm_compute; intuition congruence|].
    apply Forall_singleton. vm_compute. intuition congruence.
  - apply H. repeat constructor; exists tt; reflexivity.
Defined.

(** One watch, one event, read and then stopped. *)
Definition demo_end : mw nat := mkMw [mkProc [] true Receiving [5%nat]] true false [Stopped] [(0%nat, 5%nat)] false.

Lemma one_stop_single (s : mw nat) : length s.(calls) = 1%nat -> one_stop s.
Proof.
  intros Hl t t' k k' H H'. apply lookup_lt_Some in H, H'. lia.
Qed.

Ltac orderly_step c := eapply rtc_l; [split; [c|by apply one_stop_single]|].
Lemma demo_orderly : rtc orderly (initial 1 1) demo_end.
Proof.
  orderly_step ltac:(apply step_produce; [done|]; by apply (emit _ 0 fresh 5%nat)).
  orderly_step ltac:(apply step_internal; [done|]; apply goes_on; by eapply (recv _ 0)).
  orderly_step ltac:(apply step_send; [done|]; by eapply (send_ok _ 0)).
  orderly_step ltac:(apply step_stop; [done|]; by eapply (stop_begin _ 0)).
  orderly_step ltac:(apply step_stop; [done|]; eapply (stop_one _ 0 0); [done|cbn; lia]).
  orderly_step ltac:(apply step_produce; [done|]; by eapply (close_src _ 0)).
  orderly_step ltac:(apply step_stop; [done|]; by eapply (stop_close _ 0)).
  done.
Qed.

Lemma demo_stopping : stopping demo_end.
Proof. split_and!; [done..|]. by repeat constructor. Qed.

Lemma events_in_order_witness : from 0 demo_end.(received) `prefix_of` [5%nat].
Proof.
  apply (events_in_order 1 1 demo_end 0 (mkProc [] true Receiving [5%nat])); [|reflexivity].
  apply (rtc_subrel orderly step); [by intros ? ? [? _]|exact demo_orderly].
Defined.

Lemma orderly_stops_safe_witness : demo_end.(panicked) = false.
Proof. apply (orderly_stops_safe 1 1 demo_end). exact demo_orderly. Defined.

Lemma stopped_watch_drains_witness : sn advance demo_end.
Proof. apply (stopped_watch_drains demo_end). exact demo_stopping. Defined.

Lemma failed_watch_leaks_witness :
  exists s, rtc orphan (initial 1 0) s /\ forall s', rtc orphan s s' -> stuck 0 9%nat s'.
Proof.
  apply (failed_watch_leaks [demo_lw "12"; demo_lw "7"] ["12"; "8"] 1 "too old" 0 9%nat);
    [reflexivity|lia].
Defined.
End Watch.
