(* ===== verification/Resources.v ===== *)
(** * collector/kubernetes: the resources

    What each collector reads from the objects of the API server and how it
    turns them into infos: pod.go, service.go, deployment.go, daemonset.go,
    replicaset.go, node.go, namespace.go, common.go.
    The records of the first section hold the fields of the Kubernetes types
    that the collectors read. *)

From S2P Require Import Prelude GoStrings Json Options Tools Transport Collector.
Local Open Scope Z_scope.

Module Resources.
Import Options Tools Transport Collector.

(** ** Objects *)

Record ObjectMeta := mkMeta {
  UID : string;
  objName : string;
  objNamespace : string;
  creation : string;
  objLabels : gmap string string;
  Annotations : gmap string string;
  OwnerReferences : list (string * string);
  deleting : bool
}.

Record Terminated := mkTerminated { ExitCode : Z; Signal : Z; t_Reason : string }.
Record ContainerStatus := mkStatus {
  Waiting : option string;
  st_Terminated : option Terminated;
  Running : bool;
  Ready : bool;
  RestartCount : Z
}.
Record Pod := mkPod {
  pod_meta : ObjectMeta;
  PodIP : string;
  Phase : string;
  pod_Reason : string;
  InitContainerStatuses : list ContainerStatus;
  ContainerStatuses : list ContainerStatus;
  InitContainers : nat
}.

(** The common part of an info, from the metadata. *)
Definition commonOf (m : ObjectMeta) : CommonInfo :=
  mkCommon m.(UID) m.(objName) m.(creation) m.(objLabels) true "".

(** ** pod.go *)

Definition signalOrCode (pre : string) (t : Terminated) : string :=
  if negb (t.(Signal) =? 0) then pre +:+ "Signal:" +:+ FormatInt t.(Signal)
  else pre +:+ "ExitCode:" +:+ FormatInt t.(ExitCode).

(** The loop over the init containers: the reason that stops it, if any. *)
Fixpoint initReason (l : list ContainerStatus) (i total : nat) : option string :=
  match l with
  | [] => None
  | c :: l' =>
      match c.(st_Terminated) with
      | Some t =>
          if t.(ExitCode) =? 0 then initReason l' (S i) total
          else if t.(t_Reason) ==s "" then Some (signalOrCode "Init:" t)
          else Some ("Init:" +:+ t.(t_Reason))
      | None =>
          match c.(Waiting) with
          | Some r => if negb (r ==s "") && negb (r ==s "PodInitializing") then Some ("Init:" +:+ r)
                      else Some ("Init:" +:+ FormatInt (Z.of_nat i) +:+ "/" +:+ FormatInt (Z.of_nat total))
          | None => Some ("Init:" +:+ FormatInt (Z.of_nat i) +:+ "/" +:+ FormatInt (Z.of_nat total))
          end
      end
  end.

(** One container in the loop over the statuses, which runs from the last to
    the first: the reason, and whether one is running. *)
Definition visitContainer (c : ContainerStatus) (acc : string * bool) : string * bool :=
  let '(reason, hasRunning) := acc in
  match c.(Waiting), c.(st_Terminated) with
  | Some (String x r), _ => (String x r, hasRunning)
  | _, Some t => ((if t.(t_Reason) ==s "" then signalOrCode "" t else t.(t_Reason)), hasRunning)
  | _, None => if c.(Ready) && c.(Running) then (reason, true) else (reason, hasRunning)
  end.

Definition NodeUnreachablePodReason := "NodeLost".

Definition getPodState (pod : Pod) : string :=
  let reason := if pod.(pod_Reason) ==s "" then pod.(Phase) else pod.(pod_Reason) in
  let reason :=
    match initReason pod.(InitContainerStatuses) 0 pod.(InitContainers) with
    | Some r => r
    | None =>
        let '(reason, hasRunning) := fold_right visitContainer (reason, false) pod.(ContainerStatuses) in
        if (reason ==s "Completed") && hasRunning then "Running" else reason
    end in
  if pod.(pod_meta).(deleting) && (pod.(pod_Reason) ==s NodeUnreachablePodReason) then "Unknown"
  else if pod.(pod_meta).(deleting) then "Terminating"
  else reason.

(** kubernetes.go: [int32] addition wraps. *)
Definition wrap32 (z : Z) : Z := (z + 2 ^ 31) mod 2 ^ 32 - 2 ^ 31.
Definition getPodRestartCount (pod : Pod) : Z :=
  foldl (fun count c => wrap32 (count + c.(RestartCount))) 0 pod.(ContainerStatuses).

Record PodInfo := mkPodInfo {
  pod_common : CommonInfo;
  Namespace : string;
  Ip : string;
  pi_RestartCount : Z;
  State : string;
  DaemonsetUid : string;
  DaemonsetCid : string;
  ServiceUid : string;
  ServiceCid : string;
  DeploymentUid : string;
  DeploymentCid : string;
  ReplicaSetUid : string;
  ReplicaSetCid : string
}.

#[export, program] Instance pod_resource : Resource PodInfo := {
  common := pod_common;
  marshal p := JObj (commonFields p.(pod_common) ++ ostr "namespace" p.(Namespace) ++ ostr "ip" p.(Ip)
    ++ oint "restartCount" p.(pi_RestartCount) ++ ostr "state" p.(State)
    ++ ostr "daemonsetUid" p.(DaemonsetUid) ++ ostr "daemonsetCid" p.(DaemonsetCid)
    ++ ostr "serviceUid" p.(ServiceUid) ++ ostr "serviceCid" p.(ServiceCid)
    ++ ostr "deploymentUid" p.(DeploymentUid) ++ ostr "deploymentCid" p.(DeploymentCid)
    ++ ostr "replicasetUid" p.(ReplicaSetUid) ++ ostr "replicasetCid" p.(ReplicaSetCid));
  only c := mkPodInfo c "" "" 0 "" "" "" "" "" "" "" "" ""
}.
Next Obligation. done. Qed.

Definition ServiceResource := "services".
Definition DeploymentResource := "deployments".
Definition ReplicaSetResource := "replicasets".
Definition DaemonsetResource := "daemonsets".

Definition addLink (pi : PodInfo) (resource uid : string) : PodInfo :=
  let '(mkPodInfo c ns ip rc st du dc su sc pu pc ru rcid) := pi in
  if resource ==s ServiceResource then mkPodInfo c ns ip rc st du dc uid sc pu pc ru rcid
  else if resource ==s DeploymentResource then mkPodInfo c ns ip rc st du dc su sc uid pc ru rcid
  else if resource ==s ReplicaSetResource then mkPodInfo c ns ip rc st du dc su sc pu pc uid rcid
  else if resource ==s DaemonsetResource then mkPodInfo c ns ip rc st uid dc su sc pu pc ru rcid
  else pi.

(** [handleOwnerReferences]: the last reference of each kind counts. *)
Definition handleOwnerReferences (info : PodInfo) (references : list (string * string)) : PodInfo :=
  foldl (fun info ref =>
    let '(kind, uid) := ref in
    if kind ==s "ReplicaSet" then addLink info ReplicaSetResource uid
    else if kind ==s "DaemonSet" then addLink info DaemonsetResource uid
    else info) info references.

Definition podInfoOf (pod : Pod) : PodInfo :=
  let m := pod.(pod_meta) in
  let podUid := default m.(UID) (m.(Annotations) !! "kubernetes.io/config.hash") in
  let info := mkPodInfo (mkCommon podUid m.(objName) m.(creation) m.(objLabels) true "")
                m.(objNamespace) pod.(PodIP) (getPodRestartCount pod) (getPodState pod)
                "" "" "" "" "" "" "" "" in
  handleOwnerReferences info m.(OwnerReferences).

Definition handlePodIncrement := @handleIncrement PodInfo _.
Definition podNotExist {C} `{TransportChannel C} := @reportNotExistResource PodInfo _ C _.

(** common.go [selectorMatch]: a namespace, a label selector and the service
    it leads to.  [Matches] is the selector semantics of the Kubernetes
    library. *)
Record selector := mkSelector {
  sel_namespace : string;
  sel_set : gmap string string;
  sel_resource : string;
  sel_uid : string
}.
Section links.
Variable Matches : gmap string string -> gmap string string -> bool.

Definition selectorMatch (s : selector) (c : PodInfo) : PodInfo :=
  if (s.(sel_namespace) ==s c.(Namespace)) && Matches s.(sel_set) c.(pod_common).(Labels)
  then addLink c s.(sel_resource) s.(sel_uid) else c.

(** [getPodInfo]: links are added after the increment, to what is sent. *)
Fixpoint getPodInfo (selectors : list selector) (pods : list Pod) (ids : gmap string ResourceIdentifier)
    : list PodInfo * gmap string ResourceIdentifier :=
  match pods with
  | [] => ([], ids)
  | pod :: pods' =>
      let '(info, ids) := handlePodIncrement (podInfoOf pod) ids in
      let info := foldl (fun c s => selectorMatch s c) info selectors in
      let '(infos, ids) := getPodInfo selectors pods' ids in
      (info :: infos, ids)
  end.
End links.

(** Links change the uids of the linked resources only. *)
#[export, program] Instance pod_links : Links PodInfo := {
  linked p q := exists du su pu ru,
    q = mkPodInfo p.(pod_common) p.(Namespace) p.(Ip) p.(pi_RestartCount) p.(State) du p.(DaemonsetCid) su p.(ServiceCid)
          pu p.(DeploymentCid) ru p.(ReplicaSetCid)
}.
Next Obligation. intros []. by repeat eexists. Qed.
Next Obligation. by intros p q (du & su & pu & ru & ->). Qed.

Lemma addLink_linked p q resource uid : linked p q -> linked p (addLink q resource uid).
Proof.
  intros (du & su & pu & ru & ->). unfold addLink. repeat case_match; by repeat eexists.
Qed.

(** What the selectors of a round add. *)
Definition linkAll (Matches : gmap string string -> gmap string string -> bool) (sels : list selector) (info : PodInfo)
    : PodInfo := foldl (fun c s => selectorMatch Matches s c) info sels.

Lemma linkAll_linked Matches sels info : linked info (linkAll Matches sels info).
Proof.
  assert (Hgo : forall sels q, linked info q -> linked info (linkAll Matches sels q)).
  { unfold linkAll. clear sels. induction sels as [|s sels IH]; intros q Hq; [done|]. cbn [foldl]. apply IH.
    unfold selectorMatch. destruct (_ && _); [by apply addLink_linked|done]. }
  apply Hgo, linked_refl.
Qed.

Lemma handleOwnerReferences_common info refs : (handleOwnerReferences info refs).(pod_common) = info.(pod_common).
Proof.
  unfold handleOwnerReferences. revert info. induction refs as [|[kind u] refs IH]; intros info; [done|]. cbn [foldl].
  rewrite IH. repeat case_match; [destruct info; done..|done].
Qed.

Lemma podInfoOf_full pod : full (podInfoOf pod).
Proof. unfold full, podInfoOf. cbn [common pod_resource]. by rewrite handleOwnerReferences_common. Qed.

Lemma getPodInfo_collect Matches sels pods : forall ids, getPodInfo Matches sels pods ids =
  (map (linkAll Matches sels) (collect (map podInfoOf pods) ids).1, (collect (map podInfoOf pods) ids).2).
Proof.
  induction pods as [|pod pods IH]; intros ids; cbn [getPodInfo map collect]; [done|].
  unfold handlePodIncrement. destruct (handleIncrement (podInfoOf pod) ids) as [info ids1]. rewrite IH.
  by destruct (collect (map podInfoOf pods) ids1).
Qed.

(** ** common.go and service.go *)

Record ServicePort := mkPort { NodePort : Z; port_Port : Z; Protocol : string; port_Name : string }.
Record Service := mkService {
  svc_meta : ObjectMeta;
  svc_Type : string;
  ClusterIP : string;
  ExternalIPs : list string;
  ExternalName : string;
  Ports : list ServicePort;
  Selector : option (gmap string string);
  svc_LoadBalancer : list (string * string)
}.

Definition servicePortsToString (ports : list ServicePort) : list string :=
  map (fun p => FormatInt p.(NodePort) +:+ "->" +:+ FormatInt p.(port_Port) +:+ "/" +:+ p.(Protocol)
                +:+ "/" +:+ p.(port_Name)) ports.

Definition loadBalancerWidth : nat := 16.

(** The addresses of a load balancer: an IP, or else a host name. *)
Definition ingressAddresses (ingress : list (string * string)) : gset string :=
  foldl (fun result ip_host =>
    let '(ip, host) := ip_host in
    if negb (ip ==s "") then {[ip]} ∪ result
    else if negb (host ==s "") then {[host]} ∪ result
    else result) ∅ ingress.

Definition oarr (k : string) (l : list string) : list (string * json) :=
  match l with [] => [] | _ => [(k, JArr (map JStr l))] end.

Record ServiceInfo := mkServiceInfo {
  svc_common : CommonInfo;
  svc_Namespace : string;
  ClusterIp : string;
  ExternalIp : string;
  svc_Ports : list string;
  Type_ : string;
  svc_Selector : gmap string string
}.

#[export, program] Instance service_resource : Resource ServiceInfo := {
  common := svc_common;
  marshal s := JObj (commonFields s.(svc_common) ++ ostr "namespace" s.(svc_Namespace)
    ++ ostr "clusterIp" s.(ClusterIp) ++ ostr "externalIp" s.(ExternalIp)
    ++ oarr "ports" s.(svc_Ports)
    ++ ostr "type" s.(Type_) ++ omap_json "selector" s.(svc_Selector));
  only c := mkServiceInfo c "" "" "" [] "" ∅
}.
Next Obligation. done. Qed.

Section addresses.
(** [sets.String.List]. *)
Variable List : gset string -> list string.

Definition loadBalancerStatusStringer (ingress : list (string * string)) (wide : bool) : string :=
  let r := Join (List (ingressAddresses ingress)) "," in
  if negb wide && (loadBalancerWidth <? String.length r)%nat
  then take_s (loadBalancerWidth - 3) r +:+ "..." else r.

Definition getServiceExternalIP (svc : Service) (wide : bool) : string :=
  let external := svc.(ExternalIPs) in
  if (svc.(svc_Type) ==s "ClusterIP") || (svc.(svc_Type) ==s "NodePort") then
    match external with [] => "<none>" | _ => Join external "," end
  else if svc.(svc_Type) ==s "LoadBalancer" then
    let lbIps := loadBalancerStatusStringer svc.(svc_LoadBalancer) wide in
    match external with
    | [] => if negb (lbIps ==s "") then lbIps else "<pending>"
    | _ => Join ((if negb (lbIps ==s "") then Split lbIps "," else []) ++ external) ","
    end
  else if svc.(svc_Type) ==s "ExternalName" then svc.(ExternalName)
  else "<unknown>".

Definition serviceInfoOf (s : Service) : ServiceInfo :=
  mkServiceInfo (commonOf s.(svc_meta)) s.(svc_meta).(objNamespace) s.(ClusterIP)
    (getServiceExternalIP s true) (servicePortsToString s.(Ports)) s.(svc_Type)
    (default ∅ s.(Selector)).

Definition handleServiceIncrement := @handleIncrement ServiceInfo _.

(** [getServiceInfo]: the infos, the selectors, and the identifiers after. *)
Fixpoint getServiceInfo (services : list Service) (ids : gmap string ResourceIdentifier)
    : list ServiceInfo * list selector * gmap string ResourceIdentifier :=
  match services with
  | [] => ([], [], ids)
  | s :: services' =>
      let '(info, ids) := handleServiceIncrement (serviceInfoOf s) ids in
      let sel := match s.(Selector) with
                 | None => []
                 | Some set => [mkSelector s.(svc_meta).(objNamespace) set ServiceResource s.(svc_meta).(UID)]
                 end in
      let '(infos, sels, ids) := getServiceInfo services' ids in
      (info :: infos, sel ++ sels, ids)
  end.

(** pod.go [setAgentExternalIp]: the loop over the service infos. *)
Definition DefaultAgentServiceName := "chaos-agent".
Definition invalidIPs : list string := ["<none>"; "<pending>"; "<unknown>"].

Fixpoint findExternalIp (infos : list ServiceInfo) (o : Options) : Options :=
  match infos with
  | [] => o
  | info :: infos' =>
      if negb (info.(svc_common).(Name) ==s DefaultAgentServiceName) then findExternalIp infos' o
      else
        let externalIp := info.(ExternalIp) in
        if externalIp ==s "" then findExternalIp infos' o
        else if bool_decide (externalIp ∈ invalidIPs) then o
        else
          match Split externalIp "," with
          | [] => findExternalIp infos' o
          | ip :: _ =>
              let validIP := TrimSpace ip in
              if negb (validIP ==s "") && negb (bool_decide (validIP ∈ invalidIPs))
              then set_Ip validIP o
              else findExternalIp infos' o
          end
  end.

Definition setAgentExternalIp (services : list Service) (ids : gmap string ResourceIdentifier) (o : Options)
    : Options * gmap string ResourceIdentifier :=
  if negb (o.(LocalIp) ==s "") then (o, ids)
  else
    let '(infos, _, ids) := getServiceInfo services ids in
    (findExternalIp infos o, ids).
End addresses.

(** ** deployment.go *)

Record Deployment := mkDeployment {
  dep_meta : ObjectMeta;
  dep_SpecReplicas : option Z;
  dep_Available : Z;
  dep_Observed : Z;
  dep_ReadyReplicas : Z;
  dep_Updated : Z;
  dep_Unavailable : Z;
  dep_Strategy : string
}.
Record DeploymentInfo := mkDeploymentInfo {
  dep_common : CommonInfo;
  dep_Namespace : string;
  AvailableReplicas : Z;
  Replicas : Z;
  ObservedGeneration : Z;
  ReadyReplicas : Z;
  UpdatedReplicas : Z;
  Strategy : string;
  UnavailableReplicas : Z
}.
#[export, program] Instance deployment_resource : Resource DeploymentInfo := {
  common := dep_common;
  marshal d := JObj (commonFields d.(dep_common) ++ ostr "namespace" d.(dep_Namespace)
    ++ oint "availableReplicas" d.(AvailableReplicas) ++ oint "replicas" d.(Replicas)
    ++ oint "observedGeneration" d.(ObservedGeneration) ++ oint "readyReplicas" d.(ReadyReplicas)
    ++ oint "updatedReplicas" d.(UpdatedReplicas) ++ ostr "strategy" d.(Strategy)
    ++ oint "unavailableReplicas" d.(UnavailableReplicas));
  only c := mkDeploymentInfo c "" 0 0 0 0 0 "" 0
}.
Next Obligation. done. Qed.

(** [*d.Spec.Replicas] dereferences a pointer. *)
Definition deploymentInfoOf (d : Deployment) : outcome DeploymentInfo :=
  match d.(dep_SpecReplicas) with
  | None => Panics "invalid memory address or nil pointer dereference"
  | Some n => Returns (mkDeploymentInfo (commonOf d.(dep_meta)) d.(dep_meta).(objNamespace)
      d.(dep_Available) n d.(dep_Observed) d.(dep_ReadyReplicas) d.(dep_Updated) d.(dep_Strategy)
      d.(dep_Unavailable))
  end.
Definition handleDeploymentIncrement := @handleIncrement DeploymentInfo _.
Definition deploymentNotExist {C} `{TransportChannel C} := @reportNotExistResource DeploymentInfo _ C _.

(** The loop of [getDeploymentInfo]. *)
Fixpoint getDeploymentInfo (list : list Deployment) (ids : gmap string ResourceIdentifier)
    : outcome (Datatypes.list DeploymentInfo * gmap string ResourceIdentifier) :=
  match list with
  | [] => Returns ([], ids)
  | d :: list' =>
      info ← deploymentInfoOf d;
      let '(info, ids) := handleDeploymentIncrement info ids in
      '(infos, ids) ← getDeploymentInfo list' ids;
      Returns (info :: infos, ids)
  end.

(** ** daemonset.go *)

Record DaemonSet := mkDaemonSet {
  ds_meta : ObjectMeta;
  ds_Current : Z;
  ds_Desired : Z;
  ds_Available : Z;
  ds_Misscheduled : Z;
  ds_Ready : Z;
  ds_Observed : Z;
  ds_Updated : Z;
  ds_Strategy : string
}.
Record DaemonsetInfo := mkDaemonsetInfo {
  ds_common : CommonInfo;
  ds_Namespace : string;
  CurrentNumberScheduled : Z;
  DesiredNumberScheduled : Z;
  NumberAvailable : Z;
  NumberMisscheduled : Z;
  NumberReady : Z;
  ds_ObservedGeneration : Z;
  UpdatedNumberScheduled : Z;
  UpdateStrategy : string
}.
#[export, program] Instance daemonset_resource : Resource DaemonsetInfo := {
  common := ds_common;
  marshal d := JObj (commonFields d.(ds_common) ++ ostr "namespace" d.(ds_Namespace)
    ++ oint "currentNumberScheduled" d.(CurrentNumberScheduled)
    ++ oint "desiredNumberScheduled" d.(DesiredNumberScheduled)
    ++ oint "numberAvailable" d.(NumberAvailable) ++ oint "numberMisscheduled" d.(NumberMisscheduled)
    ++ oint "int32" d.(NumberReady) ++ oint "observedGeneration" d.(ds_ObservedGeneration)
    ++ oint "updatedNumberScheduled" d.(UpdatedNumberScheduled)
    ++ ostr "updateStrategy" d.(UpdateStrategy));
  only c := mkDaemonsetInfo c "" 0 0 0 0 0 0 0 ""
}.
Next Obligation. done. Qed.

(** The observed generation is not copied. *)
Definition daemonsetInfoOf (d : DaemonSet) : DaemonsetInfo :=
  mkDaemonsetInfo (commonOf d.(ds_meta)) d.(ds_meta).(objNamespace) d.(ds_Current) d.(ds_Desired)
    d.(ds_Available) d.(ds_Misscheduled) d.(ds_Ready) 0 d.(ds_Updated) d.(ds_Strategy).
Definition handleDaemonsetIncrement := @handleIncrement DaemonsetInfo _.
Definition daemonsetNotExist {C} `{TransportChannel C} := @reportNotExistResource DaemonsetInfo _ C _.
Definition getDaemonsetInfo (list : list DaemonSet) := collect (map daemonsetInfoOf list).

(** ** replicaset.go *)

Record ReplicaSet := mkReplicaSet {
  rs_meta : ObjectMeta;
  rs_Available : Z;
  rs_Replicas : Z;
  rs_Observed : Z;
  rs_Ready : Z
}.
Record ReplicaSetInfo := mkReplicaSetInfo {
  rs_common : CommonInfo;
  rs_Namespace : string;
  rs_AvailableReplicas : Z;
  rsi_Replicas : Z;
  rs_ObservedGeneration : Z;
  rs_ReadyReplicas : Z;
  rs_DeploymentUid : string
}.
#[export, program] Instance replicaset_resource : Resource ReplicaSetInfo := {
  common := rs_common;
  marshal r := JObj (commonFields r.(rs_common) ++ ostr "namespace" r.(rs_Namespace)
    ++ oint "availableReplicas" r.(rs_AvailableReplicas) ++ oint "replicas" r.(rsi_Replicas)
    ++ oint "observedGeneration" r.(rs_ObservedGeneration) ++ oint "readyReplicas" r.(rs_ReadyReplicas)
    ++ ostr "deploymentUid" r.(rs_DeploymentUid));
  only c := mkReplicaSetInfo c "" 0 0 0 0 ""
}.
Next Obligation. done. Qed.

(** The last owner that is a deployment counts. *)
Definition deploymentOwner (references : list (string * string)) : string :=
  foldl (fun u ref => if ref.1 ==s "Deployment" then ref.2 else u) "" references.
Definition replicaSetInfoOf (r : ReplicaSet) : ReplicaSetInfo :=
  mkReplicaSetInfo (commonOf r.(rs_meta)) r.(rs_meta).(objNamespace) r.(rs_Available) r.(rs_Replicas)
    r.(rs_Observed) r.(rs_Ready) (deploymentOwner r.(rs_meta).(OwnerReferences)).
Definition handleReplicaSetIncrement := @handleIncrement ReplicaSetInfo _.
Definition replicaSetNotExist {C} `{TransportChannel C} := @reportNotExistResource ReplicaSetInfo _ C _.
Definition getReplicaSetInfo (list : list ReplicaSet) := collect (map replicaSetInfoOf list).

(** ** namespace.go *)

Definition getNamespaces (index : option (list ObjectMeta)) : result (list string) :=
  match index with
  | None => Err "namespace index is nil"
  | Some list => Ok (map (fun m => TrimSpace m.(objName)) list)
  end.
Definition getNamespaceInfo (list : list ObjectMeta) :=
  collect (map (fun m => mkNamespaceInfo (commonOf m)) list).

(** ** node.go *)

Record NodeInfo := mkNodeInfo {
  node_Uid : string;
  node_Name : string;
  Role : string;
  node_ClusterId : string
}.

Definition labelNodeRolePrefix := "node-role.kubernetes.io/".
Definition nodeLabelRole := "kubernetes.io/role".

Definition nodeRole (kv : string * string) : option string :=
  let '(k, v) := kv in
  if HasPrefix k labelNodeRolePrefix then
    let role := TrimPrefix k labelNodeRolePrefix in
    if role ==s "" then None else Some role
  else if (k ==s nodeLabelRole) && negb (v ==s "") then Some v
  else None.

Section nodes.
Variable List : gset string -> list string.

Definition findNodeRoles (node : ObjectMeta) : list string :=
  List (list_to_set (omap nodeRole (map_to_list node.(objLabels)))).

Definition roleText (node : ObjectMeta) : string :=
  match findNodeRoles node with [] => "<none>" | roles => Join roles "," end.

(** The loop ends after its first turn. *)
Definition getNodeInfo (list : list ObjectMeta) (o : Options) : Datatypes.list NodeInfo :=
  match list with
  | [] => []
  | node :: _ => [mkNodeInfo node.(UID) node.(objName) (roleText node) o.(ClusterId)]
  end.
End nodes.

(** ** The constructors *)

(** [New...Collector]: nil without an address, except for services, whose
    address then is the zero value. *)
Definition newCollector (api name : string) (uris : gmap string Uri) : option K8sBaseCollector :=
  uri ← uris !! api; Some (createK8sBaseCollector name uri).
Definition NewPodCollector := newCollector API_K8S_POD "pods".
Definition NewDeploymentCollector := newCollector API_K8S_DEPLOYMNT "deployments".
Definition NewDaemonsetCollector := newCollector API_K8S_DAEMONSET "daemonsets".
Definition NewReplicasetCollector := newCollector API_K8S_REPLICASET "nodes".
Definition NewNamespaceCollector := newCollector API_K8S_NAMESPACE "nodes".
Definition NewNodeCollector := newCollector API_K8S_NODE "nodes".
Definition NewIngressCollector := newCollector API_K8S_INGRESS "ingresses".
Definition NewServiceCollector (uris : gmap string Uri) : K8sBaseCollector :=
  createK8sBaseCollector "nodes" (default zeroUri (uris !! API_K8S_SERVICE)).

(** ** Pod states *)

(** What a container has to say besides running. *)
Definition containerReason (c : ContainerStatus) : option string :=
  match c.(Waiting), c.(st_Terminated) with
  | Some (String x r), _ => Some (String x r)
  | _, Some t => Some (if t.(t_Reason) ==s "" then signalOrCode "" t else t.(t_Reason))
  | _, None => None
  end.
Definition isRunning (c : ContainerStatus) : bool :=
  match containerReason c with None => c.(Ready) && c.(Running) | Some _ => false end.

Lemma visit_containers b l :
  fold_right visitContainer (b, false) l = (default b (head (omap containerReason l)), existsb isRunning l).
Proof.
  induction l as [|c l IH]; [done|]. cbn [fold_right existsb omap list_omap]. rewrite IH.
  unfold visitContainer, isRunning, containerReason.
  destruct (Waiting c) as [[|x r]|], (st_Terminated c) as [t|]; cbn; try done;
    by destruct (Ready c && Running c).
Qed.

(** The state of a pod that is past its init containers and not being
    deleted: the walk from the last container to the first leaves the reason
    of the first container that waits or has ended, or else the pod's own; and
    "Completed" becomes "Running" when some container still runs. *)
Theorem getPodState_first pod :
  initReason pod.(InitContainerStatuses) 0 pod.(InitContainers) = None ->
  pod.(pod_meta).(deleting) = false ->
  getPodState pod =
    let own := if pod.(pod_Reason) ==s "" then pod.(Phase) else pod.(pod_Reason) in
    let reason := default own (head (omap containerReason pod.(ContainerStatuses))) in
    if (reason ==s "Completed") && existsb isRunning pod.(ContainerStatuses) then "Running" else reason.
Proof. intros Hi Hd. unfold getPodState. by rewrite Hi, Hd, visit_containers. Qed.

Definition demo_meta : ObjectMeta := mkMeta "u" "web-0" "default" "" ∅ ∅ [] false.
Definition demo_pod : Pod :=
  mkPod demo_meta "10.0.0.1" "Running" "" []
    [mkStatus None (Some (mkTerminated 0 0 "Completed")) false false 0; mkStatus None None true true 3] 0.

Lemma getPodState_first_witness : getPodState demo_pod = "Running".
Proof. rewrite getPodState_first; reflexivity. Defined.

(** ** Restart counts *)

Lemma wrap32_range z : - 2 ^ 31 <= wrap32 z < 2 ^ 31.
Proof. unfold wrap32. pose proof (Z.mod_pos_bound (z + 2 ^ 31) (2 ^ 32) eq_refl). lia. Qed.
Lemma wrap32_id z : - 2 ^ 31 <= z < 2 ^ 31 -> wrap32 z = z.
Proof. intros Hz. unfold wrap32. rewrite Z.mod_small by lia. lia. Qed.
Lemma wrap32_mod z : wrap32 z mod 2 ^ 32 = z mod 2 ^ 32.
Proof.
  unfold wrap32. rewrite <-Zminus_mod_idemp_l, Z.mod_mod, Zminus_mod_idemp_l by done. f_equal. lia.
Qed.

Lemma wrap32_cong a b : a mod 2 ^ 32 = b mod 2 ^ 32 -> wrap32 a = wrap32 b.
Proof. intros E. unfold wrap32. by rewrite <-Zplus_mod_idemp_l, E, Zplus_mod_idemp_l. Qed.

Definition totalRestarts (l : list ContainerStatus) : Z := foldr (fun c n => c.(RestartCount) + n) 0 l.

Lemma restarts_mod l : forall count, - 2 ^ 31 <= count < 2 ^ 31 ->
  let n := foldl (fun count c => wrap32 (count + c.(RestartCount))) count l in
  - 2 ^ 31 <= n < 2 ^ 31 /\ n mod 2 ^ 32 = (count + totalRestarts l) mod 2 ^ 32.
Proof.
  induction l as [|c l IH]; intros count Hc; cbn [foldl totalRestarts foldr].
  - by rewrite Z.add_0_r.
  - destruct (IH (wrap32 (count + RestartCount c)) (wrap32_range _)) as [H1 H2]. split; [done|].
    cbv zeta in H2. rewrite H2, <-Zplus_mod_idemp_l, wrap32_mod, Zplus_mod_idemp_l. f_equal. unfold totalRestarts. lia.
Qed.

(** C38. The restart count of a pod is an int32 for any number of containers
    and any counts: the sum modulo 2^32, hence the sum itself exactly as long
    as it fits, also when a partial sum does not. *)
Theorem getPodRestartCount_int32 pod :
  let total := totalRestarts pod.(ContainerStatuses) in
  - 2 ^ 31 <= getPodRestartCount pod < 2 ^ 31 /\
  getPodRestartCount pod mod 2 ^ 32 = total mod 2 ^ 32 /\
  (getPodRestartCount pod = total <-> - 2 ^ 31 <= total < 2 ^ 31).
Proof.
  unfold getPodRestartCount. destruct (restarts_mod pod.(ContainerStatuses) 0 ltac:(lia)) as [H1 H2].
  cbv zeta in *. rewrite Z.add_0_l in H2. split_and!; [lia..|done|].
  split; [intros <-; lia|]. intros Ht.
  apply wrap32_cong in H2. by rewrite !wrap32_id in H2.
Qed.

(** ** The agent's address *)

Section address.
Variable List : gset string -> list string.

(** An info with a name is a full one. *)
Lemma serviceIncrement_name info ids :
  (handleServiceIncrement info ids).1 = info \/
  (handleServiceIncrement info ids).1.(svc_common).(Name) = "".
Proof.
  unfold handleServiceIncrement, handleIncrement.
  destruct (ids !! uid info) as [v|]; [|by left].
  destruct (_ && _); [by right|by left].
Qed.

Lemma getServiceInfo_named services : forall ids info,
  info ∈ (getServiceInfo List services ids).1.1 -> info.(svc_common).(Name) <> "" ->
  exists s, s ∈ services /\ info = serviceInfoOf List s.
Proof.
  induction services as [|s services IH]; intros ids info; cbn [getServiceInfo].
  { intros Hin. by apply elem_of_nil in Hin. }
  pose proof (serviceIncrement_name (serviceInfoOf List s) ids) as Hs.
  destruct (handleServiceIncrement (serviceInfoOf List s) ids) as [i ids1]. cbn in Hs.
  specialize (IH ids1 info). destruct (getServiceInfo List services ids1) as [[infos sels] ids2]. cbn in *.
  intros Hin Hn. apply elem_of_cons in Hin as [->|Hin].
  - destruct Hs as [->|Hs]; [|done]. exists s. split; [by apply elem_of_cons; left|done].
  - destruct (IH Hin Hn) as (s' & Hs' & ->). exists s'. split; [by apply elem_of_cons; right|done].
Qed.

Lemma findExternalIp_spec infos o : findExternalIp infos o = o \/
  exists info ip, info ∈ infos /\ info.(svc_common).(Name) = DefaultAgentServiceName /\
    head (Split info.(ExternalIp) ",") = Some ip /\ TrimSpace ip <> "" /\ TrimSpace ip ∉ invalidIPs /\
    findExternalIp infos o = set_Ip (TrimSpace ip) o.
Proof.
  induction infos as [|info infos IH]; cbn [findExternalIp]; [by left|].
  assert (Hrest : findExternalIp infos o = o \/
    exists i ip, i ∈ info :: infos /\ i.(svc_common).(Name) = DefaultAgentServiceName /\
      head (Split i.(ExternalIp) ",") = Some ip /\ TrimSpace ip <> "" /\ TrimSpace ip ∉ invalidIPs /\
      findExternalIp infos o = set_Ip (TrimSpace ip) o).
  { destruct IH as [|(i & ip & Hi & ?)]; [by left|]. right. exists i, ip.
    split; [by apply elem_of_cons; right|done]. }
  destruct (eqb_spec_s (Name (svc_common info)) DefaultAgentServiceName) as [En|]; cbn [negb]; [|done].
  destruct (eqb_spec_s (ExternalIp info) ""); [done|].
  destruct (bool_decide (ExternalIp info ∈ invalidIPs)); [by left|].
  destruct (Split (ExternalIp info) ",") as [|ip ips] eqn:Es; [done|].
  destruct (eqb_spec_s (TrimSpace ip) ""); cbn [negb andb]; [done|].
  case_bool_decide; cbn [negb]; [done|]. right. exists info, ip.
  rewrite Es. split; [by apply elem_of_cons; left|done].
Qed.

(** The agent's address is only ever changed to a usable one: never when
    the user gave an address, and otherwise to the first address of a service
    named chaos-agent, which is neither empty nor a placeholder. *)
Theorem setAgentExternalIp_valid services ids o o' ids' :
  setAgentExternalIp List services ids o = (o', ids') ->
  o' = o \/
  o.(LocalIp) = "" /\ exists s ip,
    s ∈ services /\ s.(svc_meta).(objName) = DefaultAgentServiceName /\
    head (Split (getServiceExternalIP List s true) ",") = Some ip /\
    TrimSpace ip <> "" /\ TrimSpace ip ∉ invalidIPs /\ o' = set_Ip (TrimSpace ip) o.
Proof.
  unfold setAgentExternalIp. destruct (eqb_spec_s (LocalIp o) "") as [El|]; cbn [negb]; [|intros [= <- <-]; by left].
  destruct (getServiceInfo List services ids) as [[infos sels] ids1] eqn:Eg. intros [= <- <-].
  destruct (findExternalIp_spec infos o) as [|(info & ip & Hi & Hn & Hh & H1 & H2 & H3)]; [by left|]. right.
  split; [done|].
  destruct (getServiceInfo_named services ids info) as (s & Hs & ->).
  - by rewrite Eg.
  - by rewrite Hn.
  - by exists s, ip.
Qed.
End address.

Definition demo_service : Service :=
  mkService (mkMeta "s1" "chaos-agent" "chaos" "" ∅ ∅ [] false) "ClusterIP" "10.1.0.1"
    ["1.2.3.4"; "1.2.3.5"] "" [] None [].

Lemma setAgentExternalIp_valid_witness :
  (setAgentExternalIp elements [demo_service] ∅ AddFlags).1.(Options.Ip) = "1.2.3.4" /\
  (AddFlags.(LocalIp) = "" \/ (setAgentExternalIp elements [demo_service] ∅ AddFlags).1 = AddFlags).
Proof.
  split; [vm_compute; reflexivity|].
  destruct (setAgentExternalIp_valid elements [demo_service] ∅ AddFlags
              (setAgentExternalIp elements [demo_service] ∅ AddFlags).1
              (setAgentExternalIp elements [demo_service] ∅ AddFlags).2) as [H|[H _]].
  - apply surjective_pairing.
  - by right.
  - by left.
Defined.

End Resources.
