(* ===== verification/Ingress.v ===== *)
(** * collector/kubernetes: ingresses

    ingress.go and [getServicePort] of kubernetes.go.  An ingress is read with
    its load balancer addresses and its rules, whose backends name services.
    Two loops walk Go maps: the search for the uid of a service and the listing
    of the addresses; the order of each is a parameter. *)

From S2P Require Import Prelude GoStrings Json Options GoSet Tools Transport Collector Resources.
Local Open Scope Z_scope.

Module Ingress.
Import Options Tools Transport Collector Resources.

(** ** Objects *)

(** [intstr.IntOrString]; the type is a number of which two values are
    named. *)
Inductive intstrType := Int | String_ | OtherType.
Record IntOrString := mkIntOrString { port_type : intstrType; IntVal : Z; StrVal : string }.

Record Path := mkPath { p_Path : string; p_ServiceName : string; p_ServicePort : IntOrString }.
(** A rule with its [HTTP] part, if there is one. *)
Record Rule := mkRule { r_Host : string; r_HTTP : option (list Path) }.
(** [tls] holds the encoded [IngressTLS] values, [ing_LoadBalancer] the address
    and the host name of each load balancer. *)
Record IngressObj := mkIngress {
  ing_meta : ObjectMeta;
  ing_tls : list json;
  ing_LoadBalancer : list (string * string);
  ing_rules : list Rule
}.

(** ** Infos *)

Record IngressBackend := mkBackend { ServiceName : string; ServicePort_ : string; be_ServiceUid : string }.
Record HTTPIngressPath := mkHTTPPath { path_Path : string; Backend : IngressBackend }.
(** [HTTPIngressRuleValue]: always made by the collector. *)
Record IngressRule := mkIngressRule { Host : string; HTTP : option (list HTTPIngressPath) }.
Record IngressInfo := mkIngressInfo {
  ing_common : CommonInfo;
  ing_Namespace : string;
  Address : string;
  ing_Annotations : gmap string string;
  Tls : list json;
  Rules : list IngressRule
}.

Definition backendJson (b : IngressBackend) : json :=
  JObj [("serviceName", JStr b.(ServiceName)); ("servicePort", JStr b.(ServicePort_));
        ("serviceUid", JStr b.(be_ServiceUid))].
Definition pathJson (p : HTTPIngressPath) : json :=
  JObj (ostr "path" p.(path_Path) ++ [("backend", backendJson p.(Backend))]).
(** The rule value is embedded, so its field is one of the rule. *)
Definition ruleJson (r : IngressRule) : json :=
  JObj (ostr "host" r.(Host) ++
        match r.(HTTP) with
        | None => []
        | Some paths => [("http", JObj [("paths", JArr (map pathJson paths))])]
        end).
Definition ojson (k : string) (l : list json) : list (string * json) :=
  match l with [] => [] | _ => [(k, JArr l)] end.

#[export, program] Instance ingress_resource : Resource IngressInfo := {
  marshal i := JObj (commonFields i.(ing_common) ++ ostr "Namespace" i.(ing_Namespace)
    ++ ostr "Address" i.(Address) ++ omap_json "Annotations" i.(ing_Annotations)
    ++ ojson "Tls" i.(Tls) ++ ojson "Rules" (map ruleJson i.(Rules)));
  common := ing_common;
  only c := mkIngressInfo c "" "" ∅ [] []
}.
Next Obligation. done. Qed.

(** ** Reading an ingress *)

(** kubernetes.go; [strconv.Itoa] of an int32. *)
Definition getServicePort (servicePort : IntOrString) : string :=
  match servicePort.(port_type) with
  | String_ => servicePort.(StrVal)
  | Int => FormatInt servicePort.(IntVal)
  | OtherType => ""
  end.

Section read.
Variable rangeIds : gmap string ResourceIdentifier -> list (string * ResourceIdentifier).
Variable rangeSet : gmap string bool -> list (string * bool).

(** The search runs over the identifiers of the collector itself. *)
Definition backendOf (ids : gmap string ResourceIdentifier) (p : Path) : HTTPIngressPath :=
  mkHTTPPath p.(p_Path)
    (mkBackend p.(p_ServiceName) (getServicePort p.(p_ServicePort))
       (getServiceUidByName (rangeIds ids) p.(p_ServiceName))).
Definition generateIngressRules (ids : gmap string ResourceIdentifier) (ingress : IngressObj)
    : list IngressRule :=
  map (fun r => mkIngressRule r.(r_Host)
                  (Some (map (backendOf ids) (default [] r.(r_HTTP))))) ingress.(ing_rules).

(** The set of addresses, and its keys as the walk gives them. *)
Definition addAddress (ipSet : GoSet.Set_ string) (b : string * string) : GoSet.Set_ string :=
  let '(IP, Hostname) := b in
  if negb (IP ==s "") then GoSet.Add ipSet IP
  else if negb (Hostname ==s "") then GoSet.Add ipSet Hostname
  else ipSet.
Definition addressSet (balancers : list (string * string)) : GoSet.Set_ string :=
  foldl addAddress GoSet.NewSet balancers.
Definition generateAddress (balancers : list (string * string)) : outcome string :=
  match balancers with
  | [] => Returns ""
  | _ => keys ← GoSet.StringKeys Some rangeSet (addressSet balancers); Returns (Join keys ",")
  end.

Definition ingressInfoOf (ids : gmap string ResourceIdentifier) (ing : IngressObj) : outcome IngressInfo :=
  address ← generateAddress ing.(ing_LoadBalancer);
  Returns (mkIngressInfo (commonOf ing.(ing_meta)) ing.(ing_meta).(objNamespace) address
             ing.(ing_meta).(Annotations) ing.(ing_tls) (generateIngressRules ids ing)).

Definition handleIngressIncrement := @handleIncrement IngressInfo _.
Definition ingressNotExist {C} `{TransportChannel C} := @reportNotExistResource IngressInfo _ C _.

(** The loop of [getIngressInfo]: every ingress sees the identifiers that the
    ones before it left. *)
Fixpoint getIngressInfo (list : list IngressObj) (ids : gmap string ResourceIdentifier)
    : outcome (Datatypes.list IngressInfo * gmap string ResourceIdentifier) :=
  match list with
  | [] => Returns ([], ids)
  | ing :: list' =>
      info ← ingressInfoOf ids ing;
      let '(info, ids) := handleIngressIncrement info ids in
      '(infos, ids) ← getIngressInfo list' ids;
      Returns (info :: infos, ids)
  end.
End read.

(** ** Properties *)

(** Every key of a set of strings is a string. *)
Lemma assertAll_strings l : GoSet.assertAll Some l = Returns l.
Proof. apply GoSet.assertAll_fmap. done. Qed.

Lemma generateAddress_returns rangeSet balancers : exists a, generateAddress rangeSet balancers = Returns a.
Proof.
  destruct balancers as [|b balancers]; [by eexists|]. cbn [generateAddress]. unfold GoSet.StringKeys.
  rewrite assertAll_strings. by eexists.
Qed.

(** The loop is that of the other collectors, on infos that have the uids of
    the ingresses. *)
Lemma getIngressInfo_collect rangeIds rangeSet list : forall ids, exists infos,
  getIngressInfo rangeIds rangeSet list ids = Returns (collect infos ids) /\
  map uid infos = map (fun i => i.(ing_meta).(UID)) list /\ Forall full infos.
Proof.
  induction list as [|ing list IH]; intros ids; cbn [getIngressInfo].
  { by exists []. }
  unfold ingressInfoOf. destruct (generateAddress_returns rangeSet (ing_LoadBalancer ing)) as [a ->].
  cbn [mbind outcome_bind]. set (info := mkIngressInfo _ _ _ _ _ _).
  destruct (handleIngressIncrement info ids) as [sent ids1] eqn:Eh.
  destruct (IH ids1) as (infos & E & Hu & Hf). exists (info :: infos). cbn [collect].
  unfold handleIngressIncrement in Eh. rewrite Eh, E. destruct (collect infos ids1).
  split; [done|]. split; [cbn; by rewrite Hu|by constructor].
Qed.

(** The search returns a key whose entry has that name, or nothing when there
    is none. *)
Lemma getServiceUidByName_spec order name :
  (exists v, (getServiceUidByName order name, v) ∈ order /\ v.(id_name) = name) \/
  (getServiceUidByName order name = "" /\ forall k v, (k, v) ∈ order -> v.(id_name) <> name).
Proof.
  induction order as [|[k v] order IH]; cbn [getServiceUidByName].
  { right. split; [done|]. intros k v Hin. by apply elem_of_nil in Hin. }
  destruct (eqb_spec_s (id_name v) name) as [E|E].
  - left. exists v. split; [by apply elem_of_cons; left|done].
  - destruct IH as [(w & Hw & Hn)|[-> Hn]]; [left|right].
    + exists w. split; [by apply elem_of_cons; right|done].
    + split; [done|]. intros k' v' [[= -> ->]|Hin]%elem_of_cons; eauto.
Qed.

(** ** The uid of a backend's service *)

(** The cached names are those of ingresses in [seen]. *)
Definition caches (ids : gmap string ResourceIdentifier) (seen : list IngressObj) : Prop :=
  forall u v, ids !! u = Some v -> exists ing, ing ∈ seen /\ ing.(ing_meta).(UID) = u /\ ing.(ing_meta).(objName) = v.(id_name).
(** A backend names no uid, or that of an ingress in [seen] that is called like
    the service. *)
Definition names_ingress (seen : list IngressObj) (b : IngressBackend) : Prop :=
  b.(be_ServiceUid) = "" \/
  exists ing, ing ∈ seen /\ ing.(ing_meta).(UID) = b.(be_ServiceUid) /\ ing.(ing_meta).(objName) = b.(ServiceName).
Definition backends (i : IngressInfo) : list IngressBackend :=
  r ← i.(Rules); map Backend (default [] r.(HTTP)).

Section uids.
Variable rangeIds : gmap string ResourceIdentifier -> list (string * ResourceIdentifier).
Variable rangeSet : gmap string bool -> list (string * bool).
Hypothesis rangeIds_ok : forall m, rangeIds m ≡ₚ map_to_list m.

Lemma generated_backends ids seen ing : caches ids seen ->
  Forall (fun r => Forall (fun p => names_ingress seen p.(Backend)) (default [] r.(HTTP)))
    (generateIngressRules rangeIds ids ing).
Proof.
  intros Hc. apply Forall_map, Forall_true. intros r. cbn. apply Forall_map, Forall_true. intros p.
  unfold names_ingress. cbn.
  destruct (getServiceUidByName_spec (rangeIds ids) (p_ServiceName p)) as [(v & Hin & Hn)|[-> _]]; [|by left].
  right. revert Hin. generalize (getServiceUidByName (rangeIds ids) (p_ServiceName p)). intros u Hin.
  rewrite (rangeIds_ok ids), elem_of_map_to_list in Hin.
  destruct (Hc _ _ Hin) as (i & Hi & Hu & Hna). exists i. split_and!; [done|done|congruence].
Qed.

Lemma backends_forall P rules i : i.(Rules) = rules ->
  Forall (fun r => Forall (fun p => P p.(Backend)) (default [] r.(HTTP))) rules -> Forall P (backends i).
Proof.
  intros <- H. apply Forall_forall. intros b Hb. unfold backends in Hb.
  apply list_elem_of_bind in Hb as (r & Hb & Hr). apply list_elem_of_fmap in Hb as (p & -> & Hp).
  rewrite Forall_forall in H. specialize (H r Hr). rewrite Forall_forall in H. by apply H.
Qed.

Lemma handleIncrement_caches ids seen ing info :
  caches ids seen -> uid info = ing.(ing_meta).(UID) -> (common info).(Name) = ing.(ing_meta).(objName) ->
  ing ∈ seen -> caches (handleIngressIncrement info ids).2 seen.
Proof.
  intros Hc Hu Hn Hin u v. unfold handleIngressIncrement, handleIncrement.
  destruct (ids !! uid info) as [w|] eqn:E; [case_match|]; cbn; rewrite lookup_insert_Some;
    (intros [[<- <-]|[_ Hl]]; [|by apply Hc]); cbn.
  - by apply Hc in E.
  - by exists ing.
Qed.

Lemma sent_backends P info ids : Forall P (backends info) -> Forall P (backends (handleIngressIncrement info ids).1).
Proof.
  intros H. unfold handleIngressIncrement, handleIncrement.
  destruct (ids !! uid info); [|done]. destruct (_ && _); [by constructor|done].
Qed.

Lemma getIngressInfo_backends list : forall ids seen infos ids',
  caches ids seen -> list ⊆ seen -> getIngressInfo rangeIds rangeSet list ids = Returns (infos, ids') ->
  Forall (fun i => Forall (names_ingress seen) (backends i)) infos /\ caches ids' seen.
Proof.
  induction list as [|ing list IH]; intros ids seen infos ids' Hc Hsub; cbn [getIngressInfo].
  { intros [= <- <-]. by split. }
  intros H. apply outcome_bind_returns in H as (info & Ei & H).
  apply outcome_bind_returns in Ei as (a & _ & [= <-]).
  destruct (handleIngressIncrement _ ids) as [sent ids1] eqn:Eh.
  apply outcome_bind_returns in H as ([rest ids2] & Er & [= <- <-]).
  set (info := mkIngressInfo _ _ _ _ _ _) in Eh.
  assert (Hc1 : caches ids1 seen).
  { replace ids1 with (handleIngressIncrement info ids).2 by (by rewrite Eh).
    apply (handleIncrement_caches _ _ ing); [done..|]. apply Hsub. by left. }
  destruct (IH ids1 seen rest ids2 Hc1) as [Hr Hc2]; [intros x Hx; apply Hsub; by right|done|].
  split; [|done]. constructor; [|done].
  replace sent with (handleIngressIncrement info ids).1 by (by rewrite Eh).
  apply sent_backends. eapply backends_forall; [reflexivity|]. by apply generated_backends.
Qed.

(** The uid that a reported rule gives for the service of a backend is
    never looked up among services: from an empty cache on, whatever
    ingresses the collector has seen, it is empty or the uid of an ingress
    that happens to have the service's name. *)
Theorem backend_uid_is_an_ingress list1 list2 infos1 infos2 ids1 ids2 :
  getIngressInfo rangeIds rangeSet list1 ∅ = Returns (infos1, ids1) ->
  getIngressInfo rangeIds rangeSet list2 ids1 = Returns (infos2, ids2) ->
  Forall (fun i => Forall (names_ingress (list1 ++ list2)) (backends i)) infos2.
Proof.
  intros H1 H2.
  apply (getIngressInfo_backends _ _ (list1 ++ list2)) in H1 as [_ H1];
    [|by intros u v Hl; rewrite lookup_empty in Hl|set_solver].
  by apply (getIngressInfo_backends _ _ (list1 ++ list2)) in H2 as [H2 _]; [|done|set_solver].
Qed.
End uids.

(** ** The address *)

(** The set holds the addresses, or host names where there is none. *)
Definition balancerAddress (b : string * string) : option string :=
  if negb (b.1 ==s "") then Some b.1 else if negb (b.2 ==s "") then Some b.2 else None.

Lemma addAddress_elements balancers : forall set x,
  x ∈ GoSet.elements_of (foldl addAddress set balancers) <->
  x ∈ GoSet.elements_of set \/ x ∈ omap balancerAddress balancers.
Proof.
  induction balancers as [|[ip host] bs IH]; intros set x; cbn [foldl]; [set_solver|].
  rewrite IH. unfold balancerAddress, addAddress. cbn.
  destruct (ip ==s ""), (host ==s ""); cbn; unfold GoSet.elements_of; cbn; rewrite ?dom_insert_L; set_solver.
Qed.

Lemma addAddress_wf balancers : forall set, GoSet.wf set -> GoSet.wf (foldl addAddress set balancers).
Proof.
  induction balancers as [|[ip host] bs IH]; intros set Hset; [done|]. cbn [foldl]. apply IH.
  unfold addAddress. destruct (ip ==s ""), (host ==s ""); cbn; try done; by apply GoSet.Add_wf.
Qed.

Lemma addressSet_range balancers (l : list string) :
  NoDup l -> (forall x, x ∈ l <-> x ∈ omap balancerAddress balancers) ->
  (fun k => (k, true)) <$> l ≡ₚ map_to_list (GoSet.m (addressSet balancers)).
Proof.
  intros Hnd Hl. pose proof (addAddress_wf balancers _ GoSet.NewSet_wf) as Hw.
  assert (Hd : forall x, x ∈ dom (GoSet.m (addressSet balancers)) <-> x ∈ l).
  { intros x. rewrite Hl. pose proof (addAddress_elements balancers GoSet.NewSet x) as H.
    unfold GoSet.elements_of in H at 2. cbn in H. rewrite dom_empty_L in H. set_solver. }
  apply NoDup_Permutation; [|apply NoDup_map_to_list|].
  - apply NoDup_fmap_2; [intros ? ? [= ->]; done|done].
  - intros [k b]. rewrite elem_of_map_to_list, list_elem_of_fmap. split.
    + intros (x & [= -> ->] & Hx). apply Hd, elem_of_dom in Hx as [b' Hb'].
      by rewrite (Hw _ _ Hb') in Hb'.
    + intros Hb. pose proof (Hw _ _ Hb) as E. cbn in E. rewrite E. exists k. split; [done|].
      apply Hd, elem_of_dom. eauto.
Qed.

(** The address of an ingress is the list of the distinct addresses of its
    load balancers in the order of a walk over a Go map, which is not fixed:
    every order of them is the outcome of some walk, so that an unchanged
    ingress with two addresses can have two different infos. *)
Theorem address_any_order balancers l :
  balancers <> [] -> NoDup l -> (forall x, x ∈ l <-> x ∈ omap balancerAddress balancers) ->
  (exists rangeSet, (forall m, rangeSet m ≡ₚ map_to_list m) /\
     generateAddress rangeSet balancers = Returns (Join l ",")) /\
  forall rangeSet, (forall m, rangeSet m ≡ₚ map_to_list m) ->
    exists l', l' ≡ₚ l /\ generateAddress rangeSet balancers = Returns (Join l' ",").
Proof.
  intros Hne Hnd Hl. pose proof (addressSet_range balancers l Hnd Hl) as Hm.
  assert (Hgen : forall rangeSet, generateAddress rangeSet balancers =
            Returns (Join (rangeSet (GoSet.m (addressSet balancers))).*1 ",")).
  { intros rangeSet. destruct balancers; [done|]. cbn [generateAddress]. unfold GoSet.StringKeys.
    by rewrite assertAll_strings. }
  split.
  - exists (fun m => if decide (m = GoSet.m (addressSet balancers)) then (fun k => (k, true)) <$> l
                     else map_to_list m). split.
    + intros m. by case_decide; subst.
    + rewrite Hgen, decide_True by done. f_equal. f_equal. rewrite <-list_fmap_compose.
      apply list_fmap_id.
  - intros rangeSet Hr. exists (rangeSet (GoSet.m (addressSet balancers))).*1.
    split; [|apply Hgen]. rewrite (Hr _), <-Hm, <-list_fmap_compose. by rewrite list_fmap_id.
Qed.
(** ** Examples *)

Definition demo_ingress : IngressObj :=
  mkIngress (mkMeta "i1" "web" "default" "" ∅ ∅ [] false) [] [("10.0.0.1", ""); ("", "lb.local")]
    [mkRule "example.org" (Some [mkPath "/" "web" (mkIntOrString Int 80 "")])].

(** An ingress called like its service: in the second round its own uid is
    given for the service. *)
Lemma backend_uid_is_an_ingress_witness :
  exists infos2, Forall (fun i => Forall (names_ingress [demo_ingress; demo_ingress]) (backends i)) infos2 /\
    length infos2 = 1%nat.
Proof.
  destruct (getIngressInfo_collect map_to_list map_to_list [demo_ingress] ∅) as (i1 & E1 & H1 & _).
  rewrite (surjective_pairing (collect i1 ∅)) in E1.
  destruct (getIngressInfo_collect map_to_list map_to_list [demo_ingress] (collect i1 ∅).2) as (i2 & E2 & H2 & _).
  rewrite (surjective_pairing (collect i2 _)) in E2.
  eexists. split; [exact (backend_uid_is_an_ingress map_to_list map_to_list (fun _ => reflexivity _)
                            [demo_ingress] [demo_ingress] _ _ _ _ E1 E2)|].
  destruct i2 as [|x [|y i2]]; [discriminate H2| |discriminate H2]. cbn [collect].
  destruct (handleIncrement x _). reflexivity.
Defined.

Example demo_backend_uid :
  backends (mkIngressInfo (commonOf demo_meta) "" "" ∅ []
    (generateIngressRules map_to_list {["i1" := mkId "i1" "" "" true "web"]} demo_ingress))
  = [mkBackend "web" "80" "i1"].
Proof. reflexivity. Qed.

Lemma address_any_order_witness :
  exists r1 r2, generateAddress r1 demo_ingress.(ing_LoadBalancer) = Returns "10.0.0.1,lb.local" /\
    generateAddress r2 demo_ingress.(ing_LoadBalancer) = Returns "lb.local,10.0.0.1".
Proof.
  destruct (address_any_order demo_ingress.(ing_LoadBalancer) ["10.0.0.1"; "lb.local"]) as [(r1 & _ & E1) _].
  - by intros [=].
  - by apply (bool_decide_unpack _); vm_compute.
  - intros x. reflexivity.
  - destruct (address_any_order demo_ingress.(ing_LoadBalancer) ["lb.local"; "10.0.0.1"]) as [(r2 & _ & E2) _].
    + by intros [=].
    + by apply (bool_decide_unpack _); vm_compute.
    + intros x. cbn. set_solver.
    + exists r1, r2. split; [exact E1|exact E2].
Defined.
End Ingress.
