(* ===== verification/VirtualNode.v ===== *)
(** * collector/kubernetes: virtual nodes

    virtualnode.go.  A virtual node is reported with its pods; the identifiers
    of the nodes are in the first cache of the collector, those of the pods in
    the second. *)

From S2P Require Import Prelude GoStrings Json Options Tools Transport Watch Collector Resources Ingress.
Local Open Scope Z_scope.

Module VirtualNode.
Import Options Tools Transport Watch Collector Resources.

(** What the Kubernetes library makes of zero values: the encoding of an empty
    [NodeSystemInfo] and the text of a zero quantity. *)
Class KubeTypes := { zeroSystemInfo : json; zeroQuantity : string }.

(** A node: [systemInfo] and [addresses] as they are encoded, quantities as
    their texts. *)
Record Node := mkNode {
  node_meta : ObjectMeta;
  systemInfo : json;
  Allocatable : gmap string string;
  addresses : list json
}.

Record NodeCapacity := mkCapacity { Cpu : string; Memory : string }.
Record VirtualNodeInfo := mkVirtualNodeInfo {
  vn_common : CommonInfo;
  vn_Role : string;
  vn_ClusterId : string;
  vn_ClusterName : string;
  vn_NodeInfo : json;
  vn_NodeCapacity : NodeCapacity;
  NodeAddresses : list json;
  vn_Pods : list PodInfo
}.

Section virtual.
Context `{KubeTypes}.

(** A struct is never left out by [omitempty]. *)
#[global, program] Instance virtualnode_resource : Resource VirtualNodeInfo := {
  marshal n := JObj (commonFields n.(vn_common) ++ ostr "role" n.(vn_Role)
    ++ ostr "clusterId" n.(vn_ClusterId) ++ ostr "clusterName" n.(vn_ClusterName)
    ++ [("nodeInfo", n.(vn_NodeInfo));
        ("capacity", JObj (ostr "cpu" n.(vn_NodeCapacity).(Cpu) ++ ostr "memory" n.(vn_NodeCapacity).(Memory)))]
    ++ Ingress.ojson "addresses" n.(NodeAddresses) ++ Ingress.ojson "pods" (map to_json n.(vn_Pods)));
  common := vn_common;
  only c := mkVirtualNodeInfo c "" "" "" zeroSystemInfo (mkCapacity "" "") [] []
}.
Next Obligation. done. Qed.

Definition getNodeCapacity (lists : gmap string string) : NodeCapacity :=
  mkCapacity (default zeroQuantity (lists !! "cpu")) (default zeroQuantity (lists !! "memory")).

Definition set_Pods (n : VirtualNodeInfo) (pods : list PodInfo) : VirtualNodeInfo :=
  mkVirtualNodeInfo n.(vn_common) n.(vn_Role) n.(vn_ClusterId) n.(vn_ClusterName) n.(vn_NodeInfo)
    n.(vn_NodeCapacity) n.(NodeAddresses) pods.

(** The collector.  [nodeIndex] is set by no code; [indexer] says whether it
    exists, [podIndex] what the indexer of each node is fed from. *)
Record VirtualNodeCollector := mkVirtual {
  vn_base : K8sBaseCollector;
  indexer : bool;
  nodeIndex : option (list Node);
  podIndex : gmap string (lister ListWatch)
}.
Definition NewVirtualNodeCollector (uris : gmap string Uri) : option VirtualNodeCollector :=
  uri ← uris !! API_K8S_VIRTUAL_NODE;
  Some (mkVirtual (createK8sBaseCollector "nodes" uri) false None ∅).

Definition handleVirtualNodeIncrement := @handleIncrement VirtualNodeInfo _.
Definition handlePodInfoIncrement := @handleIncrement PodInfo _.

(** The info of a pod has no links here. *)
Definition virtualPodInfoOf (pod : Pod) : PodInfo :=
  let m := pod.(pod_meta) in
  let podUid := default m.(UID) (m.(Annotations) !! "kubernetes.io/config.hash") in
  mkPodInfo (mkCommon podUid m.(objName) m.(creation) m.(objLabels) true "")
    m.(objNamespace) pod.(PodIP) (getPodRestartCount pod) (getPodState pod) "" "" "" "" "" "" "" "".

Section read.
Variable List : gset string -> list string.
(** The pods that the indexer of a node holds. *)
Variable podsOn : string -> list Pod.

(** [getPods]: an indexer for the node, if there is none, and the loop. *)
Fixpoint podLoop (list : list Pod) (ids2 : gmap string ResourceIdentifier)
    : Datatypes.list PodInfo * gmap string ResourceIdentifier :=
  match list with
  | [] => ([], ids2)
  | pod :: list' =>
      let '(info, ids2) := handlePodInfoIncrement (virtualPodInfoOf pod) ids2 in
      let '(infos, ids2) := podLoop list' ids2 in
      (info :: infos, ids2)
  end.
(** What [reflectorPreNamespace] makes of all namespaces: one list-watcher. *)
Definition podLister (name : string) : lister ListWatch :=
  Single (createVirtualnodepodListWatch NamespaceAll (mkListOptions ("spec.nodeName=" +:+ name) "")).
Definition getPods (node : Node) (podIndex : gmap string (lister ListWatch)) (ids2 : gmap string ResourceIdentifier)
    : list PodInfo * gmap string (lister ListWatch) * gmap string ResourceIdentifier :=
  let name := node.(node_meta).(objName) in
  let podIndex := match podIndex !! name with
                  | Some _ => podIndex
                  | None => <[name := podLister name]> podIndex
                  end in
  let '(pods, ids2) := podLoop (podsOn name) ids2 in
  (pods, podIndex, ids2).

Definition virtualNodeInfoOf (node : Node) : VirtualNodeInfo :=
  mkVirtualNodeInfo (commonOf node.(node_meta)) (roleText List node.(node_meta)) "" ""
    node.(systemInfo) (getNodeCapacity node.(Allocatable)) node.(addresses) [].

(** The loop of [getVirtualNodeInfo]: the pods are put into what is sent,
    after the increment. *)
Fixpoint nodeLoop (list : list Node) (podIndex : gmap string (lister ListWatch))
    (ids ids2 : gmap string ResourceIdentifier)
    : Datatypes.list VirtualNodeInfo * gmap string (lister ListWatch) * gmap string ResourceIdentifier
      * gmap string ResourceIdentifier :=
  match list with
  | [] => ([], podIndex, ids, ids2)
  | node :: list' =>
      let '(info, ids) := handleVirtualNodeIncrement (virtualNodeInfoOf node) ids in
      let '(pods, podIndex, ids2) := getPods node podIndex ids2 in
      let '(infos, podIndex, ids, ids2) := nodeLoop list' podIndex ids ids2 in
      (set_Pods info pods :: infos, podIndex, ids, ids2)
  end.
Definition getVirtualNodeInfo (c : VirtualNodeCollector)
    : outcome (list VirtualNodeInfo * VirtualNodeCollector) :=
  match c.(nodeIndex) with
  | None => Panics "invalid memory address or nil pointer dereference"
  | Some list =>
      let b := c.(vn_base) in
      let '(infos, podIndex, ids, ids2) := nodeLoop list c.(podIndex) b.(identifiers) b.(secondIdentifiers) in
      Returns (infos, mkVirtual (mkCollector b.(resourceName) ids ids2 b.(col_uri)) c.(indexer)
                        c.(nodeIndex) podIndex)
  end.

(** ** Reporting *)

Context {C : Type} `{TransportChannel C} (client : C) (e : Env) (o : Options).
Variable order : gmap string ResourceIdentifier -> list (string * ResourceIdentifier).

(** [reportNotExistResource]: both caches are swept; every node that has gone
    carries all pods that have gone. *)
Definition virtualNotExist (c : K8sBaseCollector) : outcome K8sBaseCollector :=
  let '(pods, ids2) := sweep (R := PodInfo) (order c.(secondIdentifiers)) c.(secondIdentifiers) in
  let '(nodes, ids) := sweep (R := VirtualNodeInfo) (order c.(identifiers)) c.(identifiers) in
  reportK8sMetric client e o (mkCollector c.(resourceName) ids ids2 c.(col_uri)) true
    (map (fun n => set_Pods n pods) nodes).

(** [Report]; [clientSet] says whether there is a client of the cluster. *)
Definition virtualReport (clientSet : bool) (c : VirtualNodeCollector) : outcome VirtualNodeCollector :=
  if negb c.(indexer) && negb clientSet then Returns c
  else
    let c := mkVirtual c.(vn_base) true c.(nodeIndex) c.(podIndex) in
    '(nodes, c) ← getVirtualNodeInfo c;
    base ← reportK8sMetric client e o c.(vn_base) true nodes;
    base ← virtualNotExist base;
    Returns (mkVirtual base c.(indexer) c.(nodeIndex) c.(podIndex)).
End read.

(** ** Properties *)

Section facts.
Variable List : gset string -> list string.
Variable podsOn : string -> list Pod.

Lemma podLoop_collect list ids2 : podLoop list ids2 = collect (map virtualPodInfoOf list) ids2.
Proof.
  revert ids2. induction list as [|pod list IH]; intros ids2; [done|]. cbn [podLoop collect map].
  unfold handlePodInfoIncrement. destruct (handleIncrement _ ids2) as [i ids]. by rewrite IH.
Qed.

Lemma collect_app {R} `{Resource R} (l1 l2 : list R) ids :
  collect (l1 ++ l2) ids =
    let '(s1, ids1) := collect l1 ids in let '(s2, ids2) := collect l2 ids1 in (s1 ++ s2, ids2).
Proof.
  revert ids. induction l1 as [|r l1 IH]; intros ids; cbn [collect app]; [by destruct (collect l2 ids)|].
  destruct (handleIncrement r ids) as [i ids1]. rewrite IH.
  destruct (collect l1 ids1) as [s1 ids2]. by destruct (collect l2 ids2).
Qed.

Lemma set_Pods_undo n pods : n.(vn_Pods) = [] -> set_Pods (set_Pods n pods) [] = n.
Proof. destruct n. cbn. by intros ->. Qed.

Definition nodePods (node : Node) : list PodInfo := map virtualPodInfoOf (podsOn node.(node_meta).(objName)).

Lemma podLister_reflects name :
  reflectorPreNamespace AllListNs (mkListOptions ("spec.nodeName=" +:+ name) "") createVirtualnodepodListWatch
  = Returns (podLister name).
Proof. done. Qed.

(** A round over the virtual nodes is two independent rounds in one: the
    nodes are reported as the increments of the node cache say and the pods of
    all nodes, in order, as the increments of the pod cache say; each node
    carries its own pods, also when the node itself is unchanged, and has an
    indexer of its own. *)
Theorem virtual_round_is_two_rounds list index ids ids2 infos index' ids' ids2' :
  nodeLoop List podsOn list index ids ids2 = (infos, index', ids', ids2') ->
  (map (fun n => set_Pods n []) infos, ids') = collect (map (virtualNodeInfoOf List) list) ids /\
  (n ← infos; n.(vn_Pods), ids2') = collect (n ← list; nodePods n) ids2 /\
  Forall2 (fun n i => length i.(vn_Pods) = length (podsOn n.(node_meta).(objName))) list infos /\
  forall name, index' !! name =
    if decide (name ∈ map (fun n => n.(node_meta).(objName)) list)
    then Some (default (podLister name) (index !! name)) else index !! name.
Proof.
  revert index ids ids2 infos index' ids' ids2'.
  induction list as [|node list IH]; intros index ids ids2 infos index' ids' ids2'; cbn [nodeLoop].
  { intros [= <- <- <- <-]. split_and!; [done..|]. intros name. by rewrite decide_False by apply not_elem_of_nil. }
  unfold handleVirtualNodeIncrement, getPods. cbn [map collect].
  destruct (handleIncrement (virtualNodeInfoOf List node) ids) as [info ids1] eqn:Eh.
  destruct (podLoop (podsOn _) ids2) as [pods idsp] eqn:Ep. rewrite podLoop_collect in Ep.
  destruct (nodeLoop List podsOn list _ ids1 idsp) as [[[rest ri] rids] rids2] eqn:El.
  intros [= <- <- <- <-]. apply IH in El as (E1 & E2 & H3 & H4). split_and!.
  - cbn [map]. rewrite <-E1. f_equal. f_equal. apply set_Pods_undo.
    unfold handleIncrement in Eh. destruct (ids !! _) as [v|]; [destruct (_ && _)|]; by simplify_eq.
  - cbn [mbind list_bind]. rewrite collect_app. fold (nodePods node) in Ep. rewrite Ep, <-E2. done.
  - constructor; [|done]. cbn. rewrite <-(length_map virtualPodInfoOf).
    clear -Ep. revert ids2 idsp pods Ep. generalize (map virtualPodInfoOf (podsOn (objName (node_meta node)))).
    induction l as [|x l IH]; intros ids2 idsp pods; cbn [collect]; [by intros [= <- _]|].
    destruct (handleIncrement x ids2) as [i ids]. destruct (collect l ids) as [s ids'] eqn:E.
    intros [= <- <-]. cbn. f_equal. by eapply IH.
  - intros name. rewrite H4. cbn [map].
    destruct (decide (name = objName (node_meta node))) as [->|Hne].
    + rewrite (decide_True (P := _ ∈ _ :: _)) by (by left).
      destruct (index !! _) as [l|] eqn:Ei; [rewrite Ei|rewrite lookup_insert_eq]; by case_decide.
    + replace (_ !! name) with (index !! name) by
        (destruct (index !! objName _); [done|by rewrite lookup_insert_ne]).
      repeat case_decide; try done; exfalso; set_solver.
Qed.
End facts.

(** A pod that has gone is forgotten unannounced when no node has gone: its
    entry leaves the cache, and the outcome is the same whatever the server
    is, since nothing is sent. *)
Theorem gone_pods_forgotten {C} `{TransportChannel C} (client : C) e o order c u v :
  (forall m, order m ≡ₚ map_to_list m) ->
  map_Forall (fun _ w => w.(Curr) = true) c.(identifiers) ->
  c.(secondIdentifiers) !! u = Some v -> v.(Curr) = false ->
  exists c', (forall client', virtualNotExist (C := C) client' e o order c = Returns c') /\
    virtualNotExist client e o order c = Returns c' /\ c'.(secondIdentifiers) !! u = None.
Proof.
  intros Ho Hall Hu Hv. unfold virtualNotExist.
  destruct (sweep_spec (R := PodInfo) _ _ (Ho c.(secondIdentifiers))) as [_ E2].
  destruct (sweep_spec (R := VirtualNodeInfo) _ _ (Ho c.(identifiers))) as [Hg _].
  destruct (sweep (R := PodInfo) _ _) as [pods ids2]. destruct (sweep _ _) as [nodes ids]. cbn in *.
  destruct nodes as [|n nodes].
  - cbn [map reportK8sMetric]. eexists. split_and!; [done..|]. cbn. rewrite E2, lookup_fmap, map_lookup_filter, Hu.
    cbn. by rewrite option_guard_False by (cbn; congruence).
  - destruct (Hg n) as [Hn _]. destruct Hn as (k & w & Hk & Hc & _); [by left|].
    apply Hall in Hk. congruence.
Qed.
End virtual.

(** ** Examples *)

Module Demo.
#[export] Instance demo_types : KubeTypes := { zeroSystemInfo := JObj []; zeroQuantity := "0" }.
End Demo.
Import Demo.

Definition demo_node : Node := mkNode (mkMeta "n1" "vk-1" "" "" ∅ ∅ [] false) (JObj []) {["cpu" := "4"]} [].

Lemma virtual_round_is_two_rounds_witness :
  exists infos index' ids' ids2',
    nodeLoop elements (fun _ => [demo_pod]) [demo_node] ∅ ∅ ∅ = (infos, index', ids', ids2') /\
    index' !! "vk-1" = Some (podLister "vk-1") /\
    (n ← infos; n.(vn_Pods), ids2') = collect [virtualPodInfoOf demo_pod] ∅.
Proof.
  destruct (nodeLoop elements (fun _ => [demo_pod]) [demo_node] ∅ ∅ ∅) as [[[infos index'] ids'] ids2'] eqn:E.
  destruct (virtual_round_is_two_rounds elements (fun _ => [demo_pod]) [demo_node] ∅ ∅ ∅ _ _ _ _ E)
    as (_ & H2 & _ & H4).
  exists infos, index', ids', ids2'. split; [reflexivity|]. split; [exact (H4 "vk-1")|exact H2].
Defined.

#[local] Instance function_channel : TransportChannel (Uri -> string -> result string) := fun f => f.

Lemma gone_pods_forgotten_witness :
  exists c', virtualNotExist demo_client demo_env AddFlags map_to_list
    (mkCollector "nodes" ∅ demo_known zeroUri) = Returns c' /\ c'.(secondIdentifiers) !! "u2" = None.
Proof.
  destruct (gone_pods_forgotten demo_client demo_env AddFlags map_to_list
    (mkCollector "nodes" ∅ demo_known zeroUri) "u2" (mkId "u2" "c2" "x" false "old")) as (c' & _ & H1 & H2).
  - intros m. reflexivity.
  - apply map_Forall_empty.
  - reflexivity.
  - reflexivity.
  - exists c'. split; [exact H1|exact H2].
Defined.
End VirtualNode.
