(* ===== verification/Reports.v ===== *)
(** * collector/kubernetes: whole rounds

    The [Report] function of every collector: the indexer, the infos, the
    report, the sweep.  After every round that gets through, the last thing said
    of a resource is what the cluster holds of it. *)

From S2P Require Import Prelude GoStrings Json JsonFacts Options Tools Transport Watch Collector Resources Ingress VirtualNode.
Local Open Scope Z_scope.

Module Reports.
Import Options Tools Transport Watch Collector Resources Ingress.

(** ** Report *)

(** A collector with the options of its list-watcher and what its indexer is
    fed from, once there is one. *)
Record watched := mkWatched {
  base : K8sBaseCollector;
  opts : ListOptions;
  w_indexer : option (lister ListWatch)
}.

(** The head of every [Report]: [None] when there is no client to build the
    indexer with. *)
Definition withIndexer (create : string -> ListOptions -> ListWatch) (clientSet : bool) (c : watched)
    : outcome (option watched) :=
  match c.(w_indexer) with
  | Some _ => Returns (Some c)
  | None =>
      if negb clientSet then Returns None
      else lw ← reflectorPreNamespace AllListNs c.(opts) create;
           Returns (Some (mkWatched c.(base) c.(opts) (Some lw)))
  end.

Section report.
Context {C : Type} `{TransportChannel C} (client : C) (e : Env) (o : Options).
(** How the sweep walks the identifiers, and [sets.String.List]. *)
Variable order : gmap string ResourceIdentifier -> list (string * ResourceIdentifier).
Variable List : gset string -> list string.

Definition ids_of (c : watched) : gmap string ResourceIdentifier := c.(base).(identifiers).
Definition set_base (c : watched) (b : K8sBaseCollector) : watched := mkWatched b c.(opts) c.(w_indexer).

(** The body of the [Report] functions that sweep: [get] makes the infos of
    the objects in the indexer. *)
Definition reportWith {R Obj} `{Resource R} (create : string -> ListOptions -> ListWatch)
    (get : list Obj -> gmap string ResourceIdentifier -> outcome (list R * gmap string ResourceIdentifier))
    (clientSet : bool) (objs : list Obj) (c : watched) : outcome watched :=
  oc ← withIndexer create clientSet c;
  match oc with
  | None => Returns c
  | Some c =>
      '(infos, ids) ← get objs (ids_of c);
      b ← reportK8sMetric client e o (set_ids c.(base) ids) true infos;
      b ← reportNotExistResource (R := R) client e o (order b.(identifiers)) b;
      Returns (set_base c b)
  end.

Definition pure_get {R Obj} (get : list Obj -> gmap string ResourceIdentifier -> list R * gmap string ResourceIdentifier)
    (objs : list Obj) (ids : gmap string ResourceIdentifier) := Returns (get objs ids).

Definition deploymentReport := reportWith createDeploymentListWatch getDeploymentInfo.
Definition daemonsetReport := reportWith createDaemonSetListWatch (pure_get getDaemonsetInfo).
Definition replicaSetReport := reportWith createReplicaSetListWatch (pure_get getReplicaSetInfo).
Definition namespaceReport := reportWith createNamespaceListWatch (pure_get getNamespaceInfo).
Definition serviceReport :=
  reportWith createServiceListWatch
    (pure_get (fun services ids => let '(infos, _, ids) := getServiceInfo List services ids in (infos, ids))).
Definition ingressReport (rangeSet : gmap string bool -> list (string * bool)) :=
  reportWith createIngressListWatch (getIngressInfo order rangeSet).

(** Nodes are sent in full each time and never swept. *)
#[export] Instance nodeInfo_marshal : Marshal NodeInfo := fun n =>
  JObj [("uid", JStr n.(node_Uid)); ("name", JStr n.(node_Name)); ("role", JStr n.(Role));
        ("clusterId", JStr n.(node_ClusterId)); ("clusterName", JStr "")].
Definition nodeReport (clientSet : bool) (objs : list ObjectMeta) (c : watched) : outcome watched :=
  oc ← withIndexer createNodeListWatch clientSet c;
  match oc with
  | None => Returns c
  | Some c =>
      b ← reportK8sMetric client e o c.(base) true (getNodeInfo List objs o);
      Returns (set_base c b)
  end.

(** ** Pods and their services *)

(** [SetSelector]: the collector of services, its selectors. *)
Record ServiceCollector := mkServiceCollector { svc_watched : watched; selectors : list selector }.
Definition SetSelector (clientSet : bool) (services : list Service) (c : ServiceCollector)
    : outcome ServiceCollector :=
  oc ← withIndexer createServiceListWatch clientSet c.(svc_watched);
  match oc with
  | None => Returns c
  | Some w =>
      let '(_, sels, ids) := getServiceInfo List services (ids_of w) in
      Returns (mkServiceCollector (set_base w (set_ids w.(base) ids)) sels)
  end.
Definition getSelectors (c : ServiceCollector) : list selector := c.(selectors).

(** [PodCollector.Report] from the state of both collectors.  Without an
    indexer of services [setAgentExternalIp] panics. *)
Definition podReport (Matches : gmap string string -> gmap string string -> bool) (clientSet : bool)
    (pods : list Pod) (services : list Service) (pc : watched) (sc : ServiceCollector)
    : outcome (watched * ServiceCollector * Options) :=
  oc ← withIndexer createPodListWatch clientSet pc;
  match oc with
  | None => Returns (pc, sc, o)
  | Some pc =>
      sc ← SetSelector clientSet services sc;
      match sc.(svc_watched).(w_indexer), o.(LocalIp) ==s "" with
      | None, true => Panics "invalid memory address or nil pointer dereference"
      | _, _ =>
          let w := sc.(svc_watched) in
          let '(o', sids) := setAgentExternalIp List services (ids_of w) o in
          let sc := mkServiceCollector (set_base w (set_ids w.(base) sids)) sc.(selectors) in
          let '(infos, ids) := getPodInfo Matches (getSelectors sc) pods (ids_of pc) in
          b ← reportK8sMetric client e o' (set_ids pc.(base) ids) true infos;
          b ← podNotExist client e o' (order b.(identifiers)) b;
          Returns (set_base pc b, sc, o')
      end
  end.
End report.

(** ** Mirroring *)

Section mirror.
Context {R : Type} `{Links R}.

(** The resources that exist by what was said. *)
Definition shown (h : list R) : gset string := filter (fun u => shows h u = true) (list_to_set (map uid h)).

Lemma elem_of_shown h u : u ∈ shown h <-> shows h u = true.
Proof.
  unfold shown. rewrite elem_of_filter, elem_of_list_to_set. split; [by intros []|]. intros Hs. split; [done|].
  unfold shows, lastWord in Hs. destruct (last _) as [r|] eqn:E; [|done].
  apply last_Some_elem_of, list_elem_of_filter in E as [[<- _] Hr]. apply list_elem_of_fmap. eauto.
Qed.

Lemma knows_shown h u d : knows h u d -> u ∈ shown h.
Proof. intros (r0 & r & Hl & He & _). rewrite elem_of_shown. unfold shows. by rewrite Hl. Qed.

Lemma shown_spoken h r0 r : full r0 -> linked r0 r -> shown (h ++ [r]) = {[uid r0]} ∪ shown h.
Proof.
  intros Hf Hl. destruct (full_speaks _ _ Hf Hl) as [Hs He]. pose proof (linked_uid _ _ Hl) as Hu. apply set_eq. intros u.
  rewrite elem_of_union, elem_of_singleton, !elem_of_shown. unfold shows. destruct (decide (u = uid r0)) as [->|Hne].
  - rewrite <-Hu, lastWord_spoken by done. naive_solver.
  - rewrite lastWord_silent by (left; congruence). naive_solver.
Qed.
Lemma shown_silent h r : ~ speaks r -> shown (h ++ [r]) = shown h.
Proof. intros Hr. apply set_eq. intros u. rewrite !elem_of_shown. unfold shows. by rewrite lastWord_silent by auto. Qed.

(** What was said shows exactly the resources in the cache, with their digests,
    and each has a cid; no round is under way. *)
Definition mirrors (ids : gmap string ResourceIdentifier) (h : list R) : Prop :=
  synced ids h /\ shown h = dom ids /\
  map_Forall (fun _ v => v.(id_Cid) <> "" /\ v.(Curr) = false) ids.

(** The same while rounds are under way: the resources [us] are marked as seen
    since the last sweep. *)
Definition marked (us : gset string) (ids : gmap string ResourceIdentifier) (h : list R) : Prop :=
  synced ids h /\ shown h = dom ids /\ us ⊆ dom ids /\
  map_Forall (fun u v => v.(id_Cid) <> "" /\ (v.(Curr) = true <-> u ∈ us)) ids.

Lemma mirrors_marked ids h : mirrors ids h <-> marked ∅ ids h.
Proof.
  unfold mirrors, marked, map_Forall. assert (Hc : forall b, b = false <-> (b = true <-> False)) by (intros []; naive_solver).
  setoid_rewrite Hc. set_solver.
Qed.

Definition uids (infos : list R) : gset string := list_to_set (map uid infos).

Lemma handleIncrement_dom info ids h r : synced ids h -> full info -> linked (handleIncrement info ids).1 r ->
  dom (handleIncrement info ids).2 = {[uid info]} ∪ dom ids /\
  shown (h ++ [r]) = {[uid info]} ∪ shown h.
Proof.
  intros Hs Hf Hl.
  assert (Hdom : dom (handleIncrement info ids).2 = {[uid info]} ∪ dom ids).
  { unfold handleIncrement. destruct (ids !! uid info); [destruct (_ && _)|]; cbn; by rewrite dom_insert_L. }
  split; [done|]. destruct (handleIncrement_synced info ids h r Hs Hf Hl) as (_ & Hk & _).
  revert Hl. unfold handleIncrement. destruct (ids !! uid info) as [v|] eqn:E; [|by apply shown_spoken].
  destruct (_ && _) eqn:Eb; [|by apply shown_spoken].
  apply andb_true_iff in Eb as [_ Eb]. apply negb_true_iff, eqb_false_s in Eb.
  intros Hl%brief_silent; [|done..]. apply knows_shown in Hk. rewrite (shown_silent _ _ Hl) in Hk |- *. set_solver.
Qed.

Section linking.
Context (link : R -> R) (link_ok : forall r, linked r (link r)).

Lemma collect_dom infos : forall ids h, synced ids h -> Forall full infos -> NoDup (map uid infos) ->
  dom (collect infos ids).2 = uids infos ∪ dom ids /\
  shown (h ++ map link (collect infos ids).1) = uids infos ∪ shown h.
Proof.
  unfold uids. induction infos as [|info infos IH]; intros ids h Hs Hf Hnd; cbn [collect map list_to_set].
  { cbn. rewrite app_nil_r. set_solver. }
  apply Forall_cons in Hf as [Hf0 Hf]. apply NoDup_cons in Hnd as [Hn Hnd].
  destruct (handleIncrement_synced info ids h _ Hs Hf0 (link_ok _)) as (Hs1 & _ & _).
  destruct (handleIncrement_dom info ids h _ Hs Hf0 (link_ok _)) as [D1 D2].
  destruct (handleIncrement info ids) as [sent ids1]. cbn [fst snd] in *.
  specialize (IH ids1 (h ++ [link sent]) Hs1 Hf Hnd). destruct (collect infos ids1) as [sents ids2].
  cbn in *. rewrite <-app_assoc in IH. destruct IH as [I1 I2]. cbn [app] in I2. rewrite I1, I2, D1, D2.
  clear. set_solver.
Qed.
End linking.

(** An answer whose cids are all there. *)
Definition grants (v : list (string * json)) (us : gset string) : Prop :=
  Forall (fun kv => exists cid, kv.2 = JStr cid /\ cid <> "") v /\ forall u, u ∈ us -> u ∈ v.*1.

Definition same_but_cid (v v' : ResourceIdentifier) : Prop :=
  v'.(id_Uid) = v.(id_Uid) /\ v'.(Md5) = v.(Md5) /\ v'.(Curr) = v.(Curr) /\
  (v.(id_Cid) <> "" -> v'.(id_Cid) <> "").

Lemma storeCids_grants entries : forall ids,
  Forall (fun kv => exists cid, kv.2 = JStr cid /\ cid <> "") entries ->
  exists ids', storeCids entries ids = Returns ids' /\
    forall u, match ids !! u with
              | None => ids' !! u = None
              | Some v => exists v', ids' !! u = Some v' /\ same_but_cid v v' /\
                                     (u ∈ entries.*1 -> v'.(id_Cid) <> "")
              end.
Proof.
  induction entries as [|[k x] entries IH]; intros ids Hf; cbn [storeCids].
  { exists ids. split; [done|]. intros u. destruct (ids !! u) as [v|]; [|done].
    exists v. split_and!; [done..|]. intros Hin. by apply elem_of_nil in Hin. }
  apply Forall_cons in Hf as [(cid & Hx & Hcid) Hf]. cbn in Hx. subst x.
  destruct (ids !! k) as [vi|] eqn:Ek.
  - set (vk := mkId _ _ _ _ _). destruct (IH (<[k := vk]> ids) Hf) as (ids' & E & Hids').
    exists ids'. split; [done|]. intros u. specialize (Hids' u). destruct (decide (u = k)) as [->|Hne].
    + rewrite lookup_insert_eq in Hids'. rewrite Ek. destruct Hids' as (v' & Hv' & (Hu & Hm & Hc & Hk) & _).
      exists v'. cbn in *. by repeat split; auto.
    + rewrite lookup_insert_ne in Hids' by done. destruct (ids !! u); [|done].
      destruct Hids' as (v' & Hv' & Hs & Hc). exists v'. split_and!; [done..|].
      intros Hin. apply elem_of_cons in Hin as [->|Hin]; [done|auto].
  - destruct (IH ids Hf) as (ids' & E & Hids'). exists ids'. split; [done|]. intros u. specialize (Hids' u).
    destruct (ids !! u) eqn:Eu; [|done]. destruct Hids' as (v' & Hv' & Hs & Hc). exists v'. split_and!; [done..|].
    intros Hin. apply elem_of_cons in Hin as [->|Hin]; [cbn in Eu; congruence|auto].
Qed.

(** Announcing what has gone. *)
Lemma lastWord_gone gone : forall (h : list R) u,
  Forall (fun r => (common r).(Exist) = false) gone ->
  if decide (u ∈ map uid gone) then exists r, lastWord u (h ++ gone) = Some r /\ (common r).(Exist) = false
  else lastWord u (h ++ gone) = lastWord u h.
Proof.
  induction gone as [|g gone IH] using rev_ind; intros h u Hf.
  { rewrite app_nil_r. by rewrite decide_False by apply not_elem_of_nil. }
  apply Forall_app in Hf as [Hf Hg]. rewrite Forall_singleton in Hg. rewrite app_assoc, map_app. specialize (IH h u Hf).
  assert (Hs : speaks g) by (left; exact Hg). destruct (decide (uid g = u)) as [<-|Hne].
  - rewrite decide_True by (cbn; set_solver). exists g. by rewrite lastWord_spoken.
  - rewrite lastWord_silent by auto. repeat case_decide; try done; exfalso; cbn in *; set_solver.
Qed.

Lemma shown_gone gone (h : list R) : Forall (fun r => (common r).(Exist) = false) gone ->
  shown (h ++ gone) = shown h ∖ uids gone.
Proof.
  intros Hf. apply set_eq. intros u. rewrite elem_of_difference, !elem_of_shown. unfold uids. rewrite elem_of_list_to_set.
  pose proof (lastWord_gone gone h u Hf) as Hl. unfold shows. case_decide as Hu.
  - destruct Hl as (r & -> & ->). naive_solver.
  - rewrite Hl. naive_solver.
Qed.
Lemma knows_gone gone (h : list R) u d : Forall (fun r => (common r).(Exist) = false) gone -> u ∉ map uid gone ->
  knows h u d -> knows (h ++ gone) u d.
Proof.
  intros Hf Hu (r0 & r & Hl & Hrest). exists r0, r. pose proof (lastWord_gone gone h u Hf) as Hg.
  rewrite decide_False in Hg by done. by rewrite Hg.
Qed.

(** The sweep of a cache in which everything has a cid: what is announced and
    what is left. *)
Lemma sweep_all order ids (h : list R) us :
  order ≡ₚ map_to_list ids -> marked us ids h ->
  mirrors (sweep (R := R) order ids).2 (h ++ (sweep (R := R) order ids).1) /\
  shown (h ++ (sweep (R := R) order ids).1) = us /\
  forall u d, u ∈ us -> knows h u d -> knows (h ++ (sweep (R := R) order ids).1) u d.
Proof.
  intros Ho (Hs & Hd & Hus & Hall). destruct (sweep_spec (R := R) order ids Ho) as [Hg Hi].
  set (gone := (sweep order ids).1) in *.
  assert (Hex : Forall (fun r => (common r).(Exist) = false) gone).
  { apply Forall_forall. intros x Hx. apply Hg in Hx as (k & v & _ & _ & _ & ->).
    unfold goneInfo. by rewrite common_only. }
  assert (Hgu : forall u, u ∈ map uid gone <-> u ∈ dom ids /\ u ∉ us).
  { intros u. rewrite list_elem_of_fmap. setoid_rewrite Hg. setoid_rewrite elem_of_dom. split.
    - intros (x & -> & k & v & Hk & Hc & _ & ->). unfold uid, goneInfo. rewrite common_only. cbn.
      destruct (Hs _ _ Hk) as [-> _]. destruct (Hall _ _ Hk) as [_ Hcu]. split; [by eexists|]. rewrite <-Hcu. congruence.
    - intros [[v Hv] Hu]. exists (goneInfo v). destruct (Hs _ _ Hv) as [Hid _]. destruct (Hall _ _ Hv) as [Hcid Hcu].
      unfold uid, goneInfo. rewrite common_only. split; [done|]. exists u, v. split_and!; [done| |done|done].
      destruct (Curr v); [|done]. by destruct Hu; apply Hcu. }
  assert (Hkn : forall u d, u ∈ us -> knows h u d -> knows (h ++ gone) u d).
  { intros u d Hu. apply knows_gone; [done|]. rewrite Hgu. naive_solver. }
  assert (Hsh : shown (h ++ gone) = us).
  { rewrite shown_gone by done. apply set_eq. intros u. rewrite elem_of_difference, Hd. unfold uids.
    rewrite elem_of_list_to_set, Hgu. destruct (decide (u ∈ us)); naive_solver. }
  assert (Hlk : forall u v', (sweep order ids).2 !! u = Some v' <->
            exists v, ids !! u = Some v /\ u ∈ us /\ v' = uncurrent v).
  { intros u v'. rewrite Hi, lookup_fmap, map_lookup_filter. destruct (ids !! u) as [v|] eqn:E; cbn; [|naive_solver].
    destruct (Hall _ _ E) as [_ Hcu]. case_guard as Hc; cbn in *; [|naive_solver].
    split; [intros [= <-]; exists v; naive_solver|naive_solver]. }
  split_and!; [|exact Hsh|exact Hkn]. split_and!.
  - intros u v' (v & Hv & Hu & ->)%Hlk. cbn. destruct (Hs _ _ Hv) as [Hid Hk]. split; [done|by apply Hkn].
  - rewrite Hsh. apply set_eq. intros u. rewrite elem_of_dom. unfold is_Some. setoid_rewrite Hlk. split.
    + intros Hu. destruct (proj1 (elem_of_dom ids u) (Hus u Hu)) as [v Hv]. exists (uncurrent v), v. done.
    + intros (v' & v & _ & Hu & _). done.
  - intros u v' (v & Hv & _ & ->)%Hlk. cbn. split; [|done]. by destruct (Hall _ _ Hv).
Qed.

(** The cache with the cids of an answer: the resources [us] have one now. *)
Definition regranted (us : gset string) (ids ids' : gmap string ResourceIdentifier) : Prop :=
  forall u, match ids !! u with
            | None => ids' !! u = None
            | Some v => exists v', ids' !! u = Some v' /\ same_but_cid v v' /\ (u ∈ us -> v'.(id_Cid) <> "")
            end.

Lemma regranted_dom us ids ids' : regranted us ids ids' -> dom ids' = dom ids.
Proof.
  intros Hr. apply set_eq. intros u. rewrite !elem_of_dom. specialize (Hr u).
  destruct (ids !! u) as [v|]; [|by rewrite Hr; split; intros [? [=]]]. destruct Hr as (v' & -> & _). split; eauto.
Qed.
Lemma regranted_back us ids ids' u v' : regranted us ids ids' -> ids' !! u = Some v' ->
  exists v, ids !! u = Some v /\ same_but_cid v v' /\ (u ∈ us -> v'.(id_Cid) <> "").
Proof.
  intros Hr E. specialize (Hr u). destruct (ids !! u) as [v|]; [|congruence].
  destruct Hr as (w & Hw & ? & ?). exists v. by simplify_eq.
Qed.
Lemma regranted_refl ids : regranted ∅ ids ids.
Proof. intros u. destruct (ids !! u) as [w|]; [|done]. exists w. split_and!; [done..|set_solver]. Qed.

(** The infos of a round, once their cids are there: the old and the new
    resources are in the cache, and those of the round are marked. *)
Lemma collect_marks link us infos ids ids' h : (forall r, linked r (link r)) ->
  marked us ids h -> Forall full infos -> NoDup (map uid infos) -> regranted (uids infos) (collect infos ids).2 ids' ->
  let h1 := h ++ map link (collect infos ids).1 in
  marked (us ∪ uids infos) ids' h1 /\ shown h1 = uids infos ∪ shown h /\
  forall r, r ∈ infos -> knows h1 (uid r) (digest r).
Proof.
  intros Hlink (Hs & Hd & Hsub & Hall) Hf Hnd Hg.
  pose proof (collect_synced link Hlink infos ids h Hs Hf Hnd) as Hc.
  destruct (collect_dom link Hlink infos ids h Hs Hf Hnd) as [D1 D2].
  pose proof (collect_curr infos ids) as Hcur. pose proof (collect_lookup infos ids) as Hold.
  destruct (collect infos ids) as [sent ids1]. cbn [fst snd] in *. destruct Hc as (Hs1 & Hk & _).
  pose proof (regranted_dom _ _ _ Hg) as Hdom. pose proof (fun u v' => regranted_back _ _ _ u v' Hg) as Hback.
  split_and!; [split_and!| |done]; [| | | |done].
  - intros u v' (v & Hl & (Hu & Hm & _) & _)%Hback. rewrite Hu, Hm. by apply Hs1.
  - rewrite D2, Hdom, D1, Hd. done.
  - rewrite Hdom, D1. set_solver.
  - intros u v' (v & Hl & (_ & _ & Hcu & Hcid) & Hnew)%Hback. unfold uids in *. rewrite elem_of_union, elem_of_list_to_set in *.
    rewrite Hcu. destruct (decide (u ∈ map uid infos)) as [Hin|Hnin].
    + split; [by apply Hnew|]. split; [by right|]. intros _. by apply Hcur with u.
    + rewrite Hold in Hl by done. destruct (Hall _ _ Hl) as [Hc0 Hf0]. split; [auto|].
      rewrite Hf0. split; [by left|by intros [|]].
Qed.

(** An answer with a cid for each. *)
Definition grantedBy (answer : option Response * option string) (us : gset string) : Prop :=
  exists resp v, answer = (Some resp, None) /\ resp.(Success) = true /\ resp.(Result) = JObj v /\ grants v us.

Lemma handleAnswer_grants c answer us : ReportHandler c <> K8sVirtualNode -> grantedBy answer us ->
  exists ids', handleAnswer c true answer = Returns (set_ids c ids') /\ regranted us c.(identifiers) ids'.
Proof.
  intros Hv (resp & v & -> & Hs & Hr & Hg & Hin).
  destruct (storeCids_grants v c.(identifiers) Hg) as (ids' & E & Hids'). exists ids'. split.
  - unfold handleAnswer. rewrite Hs, Hr. cbn [negb]. apply eqb_false_s in Hv. by rewrite Hv, E.
  - intros u. specialize (Hids' u). destruct (identifiers c !! u); [|done].
    destruct Hids' as (v' & ? & ? & ?). exists v'. split_and!; auto.
Qed.

Lemma collect_sent_nil infos ids : (collect (R := R) infos ids).1 = [] -> infos = [].
Proof.
  destruct infos as [|info infos]; [done|]. cbn [collect].
  destruct (handleIncrement info ids), (collect infos _). done.
Qed.

(** The report of the infos of a round, when it is answered with cids or there
    is nothing to report. *)
Context {C : Type} `{TransportChannel C} (client : C) (e : Env) (o : Options).

Definition granted (c : K8sBaseCollector) (sent : list R) (us : gset string) : Prop :=
  sent = [] \/ grantedBy (reportAnswer client e o c sent) us.

Lemma reportInfos_marks link us infos c h : (forall r, linked r (link r)) ->
  ReportHandler c <> K8sVirtualNode -> marked us c.(identifiers) h -> Forall full infos -> NoDup (map uid infos) ->
  granted (set_ids c (collect infos c.(identifiers)).2) (map link (collect infos c.(identifiers)).1) (uids infos) ->
  exists c1, reportInfos client e o link infos c = Returns c1 /\
    let h1 := h ++ map link (collect infos c.(identifiers)).1 in
    marked (us ∪ uids infos) c1.(identifiers) h1 /\ forall r, r ∈ infos -> knows h1 (uid r) (digest r).
Proof.
  intros Hlink Hv Hm Hf Hnd Hg.
  assert (Hgo : forall ids', regranted (uids infos) (collect infos (identifiers c)).2 ids' ->
    let h1 := h ++ map link (collect infos c.(identifiers)).1 in
    marked (us ∪ uids infos) ids' h1 /\ forall r, r ∈ infos -> knows h1 (uid r) (digest r)).
  { intros ids' Hr. by destruct (collect_marks link us infos _ ids' h Hlink Hm Hf Hnd Hr) as (? & _ & ?). }
  unfold reportInfos. pose proof (collect_sent_nil infos (identifiers c)) as Hnil.
  destruct (collect infos (identifiers c)) as [sent ids]. cbn [fst snd] in *. destruct sent as [|x sent].
  - exists (set_ids c ids). split; [done|]. apply Hgo. rewrite (Hnil eq_refl). apply regranted_refl.
  - destruct Hg as [Hg|Hg]; [done|]. destruct (handleAnswer_grants (set_ids c ids) _ _ Hv Hg) as (ids' & E & Hr).
    exists (set_ids (set_ids c ids) ids'). split; [exact E|]. by apply Hgo.
Qed.

Lemma reportNotExist_arrives order c : 
  (sweep (R := R) order c.(identifiers)).1 = [] \/
  (exists resp, reportAnswer client e o (set_ids c (sweep (R := R) order c.(identifiers)).2)
                  (sweep (R := R) order c.(identifiers)).1 = (Some resp, None) /\ resp.(Success) = true) ->
  reportNotExistResource (R := R) client e o order c = Returns (set_ids c (sweep (R := R) order c.(identifiers)).2).
Proof.
  unfold reportNotExistResource. destruct (sweep order (identifiers c)) as [gone ids]. cbn [fst snd].
  intros [->|(resp & Ha & Hs)]; [done|]. destruct gone; [done|]. cbn [reportK8sMetric].
  rewrite Ha. unfold handleAnswer. by rewrite Hs.
Qed.
End mirror.

(** ** A round *)

Section round.
Context {R Obj : Type} `{Links R} {C : Type} `{TransportChannel C} (client : C) (e : Env) (o : Options).
Variable order : gmap string ResourceIdentifier -> list (string * ResourceIdentifier).
Hypothesis order_ok : forall m, order m ≡ₚ map_to_list m.

(** The two messages of a round on the infos [infos]. *)
Section messages.
Context (link : R -> R).
Definition sent_infos (infos : list R) (c : K8sBaseCollector) : list R := map link (collect infos c.(identifiers)).1.
Definition sent_gone (c1 : K8sBaseCollector) : list R := (sweep (R := R) (order c1.(identifiers)) c1.(identifiers)).1.
(** Both are answered with success, and the answer to the infos has a cid for
    each of them. *)
Definition arrives (infos : list R) (c : K8sBaseCollector) : Prop :=
  granted client e o (set_ids c (collect infos c.(identifiers)).2) (sent_infos infos c) (uids infos) /\
  forall c1, reportInfos client e o link infos c = Returns c1 ->
    sent_gone c1 = [] \/
    exists resp, reportAnswer client e o (set_ids c1 (sweep (R := R) (order c1.(identifiers)) c1.(identifiers)).2)
                   (sent_gone c1) = (Some resp, None) /\ resp.(Success) = true.
End messages.

(** The two halves of a round from a mirror to a mirror. *)
Lemma round_mirrors link infos c (h : list R) : (forall r, linked r (link r)) ->
  ReportHandler c <> K8sVirtualNode -> mirrors c.(identifiers) h -> Forall full infos -> NoDup (map uid infos) ->
  arrives link infos c ->
  exists c1 c2, reportInfos client e o link infos c = Returns c1 /\
    reportNotExistResource (R := R) client e o (order c1.(identifiers)) c1 = Returns c2 /\
    let h' := h ++ sent_infos link infos c ++ sent_gone c1 in
    mirrors c2.(identifiers) h' /\ shown h' = uids infos /\ forall r, r ∈ infos -> knows h' (uid r) (digest r).
Proof.
  intros Hlink Hv Hm Hf Hnd [Hg Hgone].
  apply mirrors_marked in Hm. destruct (reportInfos_marks client e o link ∅ infos c h Hlink Hv Hm Hf Hnd Hg)
    as (c1 & E1 & Hm1 & Hk).
  specialize (Hgone c1 E1). apply reportNotExist_arrives in Hgone.
  rewrite (left_id_L ∅ _) in Hm1. destruct (sweep_all (order c1.(identifiers)) _ _ _ (order_ok _) Hm1) as (Hm' & Hd' & Hk').
  exists c1. eexists. split; [done|]. split; [exact Hgone|]. rewrite app_assoc.
  split_and!; [done..|]. intros r Hr. apply Hk'; [|by apply Hk].
  apply elem_of_list_to_set, list_elem_of_fmap. eauto.
Qed.

Lemma withIndexer_goes create clientSet (c : watched) : c.(w_indexer) <> None \/ clientSet = true ->
  exists c0, withIndexer create clientSet c = Returns (Some c0) /\ c0.(base) = c.(base) /\ c0.(w_indexer) <> None.
Proof.
  intros Hi. unfold withIndexer. destruct (w_indexer c) eqn:E; [exists c; by rewrite E|].
  destruct Hi as [Hi|Hi]; [done|]. subst clientSet. cbn. eexists. by split.
Qed.

(** C13. A round brings what was said up to the cluster: when what was said
    mirrors the cache at the start of a round of a collector that sweeps and
    both messages of the round are answered with success, the first with a cid
    for each info, [Report] returns, the resources that exist by what was said
    are exactly those of the round, the last thing said of each has its current
    digest, although unchanged ones were only named, and the cache agrees, so
    that the next round can build on it. *)
Theorem report_mirrors create get clientSet objs infos (c : watched) (h : list R) :
  c.(w_indexer) <> None \/ clientSet = true ->
  ReportHandler c.(base) <> K8sVirtualNode -> mirrors (ids_of c) h ->
  get objs (ids_of c) = Returns (collect infos (ids_of c)) -> Forall full infos -> NoDup (map uid infos) ->
  arrives id infos c.(base) ->
  exists c1 c', reportInfos client e o id infos c.(base) = Returns c1 /\
    reportWith client e o order (Obj := Obj) create get clientSet objs c = Returns c' /\
    let h' := h ++ sent_infos id infos c.(base) ++ sent_gone c1 in
    mirrors (ids_of c') h' /\ shown h' = uids infos /\ forall r, r ∈ infos -> knows h' (uid r) (digest r).
Proof.
  intros Hi Hv Hm Hget Hf Hnd Ha.
  destruct (round_mirrors id infos c.(base) h linked_refl Hv Hm Hf Hnd Ha) as (c1 & c2 & E1 & E2 & Hm').
  destruct (withIndexer_goes create clientSet c Hi) as (c0 & Ew & Eb & _).
  exists c1, (set_base c0 c2). split; [done|]. split; [|exact Hm'].
  unfold reportWith. rewrite Ew. cbn. unfold ids_of in *. rewrite Eb, Hget.
  unfold reportInfos in E1. destruct (collect infos _) as [sent ids]. rewrite map_id in E1. cbn in *. rewrite E1. cbn.
  by rewrite E2.
Qed.
End round.

(** ** The round of the pods *)

Section pods.
Context {C : Type} `{TransportChannel C} (client : C) (e : Env) (o : Options).
Variable order : gmap string ResourceIdentifier -> list (string * ResourceIdentifier).
Hypothesis order_ok : forall m, order m ≡ₚ map_to_list m.
Variable List : gset string -> list string.
Variable Matches : gmap string string -> gmap string string -> bool.

(** The selectors of a round and the options it reports with. *)
Definition roundSelectors (services : list Service) (sc : ServiceCollector) : list selector :=
  (getServiceInfo List services (ids_of sc.(svc_watched))).1.2.
Definition roundOptions (services : list Service) (sc : ServiceCollector) : Options :=
  (setAgentExternalIp List services (getServiceInfo List services (ids_of sc.(svc_watched))).2 o).1.

(** C14. The same for the pods, to which links are added after their digests were
    taken: with a client of the cluster, when what was said mirrors the cache
    and both messages of the round are answered with success, the first with a
    cid for each pod, [Report] returns, the pods that exist by what was said are
    exactly those of the round, the last thing said of each has its current
    digest but for the links, and the cache agrees. *)
Theorem pod_report_mirrors pods services (pc : watched) (sc : ServiceCollector) (h : list PodInfo)
    (o' := roundOptions services sc) (link := linkAll Matches (roundSelectors services sc)) :
  let infos := map podInfoOf pods in
  ReportHandler pc.(base) <> K8sVirtualNode -> mirrors (ids_of pc) h -> NoDup (map uid infos) ->
  arrives client e o' order link infos pc.(base) ->
  exists c1 pc' sc', reportInfos client e o' link infos pc.(base) = Returns c1 /\
    podReport client e o order List Matches true pods services pc sc = Returns (pc', sc', o') /\
    let h' := h ++ sent_infos link infos pc.(base) ++ sent_gone order c1 in
    mirrors (ids_of pc') h' /\ shown h' = uids infos /\ forall r, r ∈ infos -> knows h' (uid r) (digest r).
Proof.
  intros infos Hv Hm Hnd Ha.
  assert (Hf : Forall full infos) by (apply Forall_map, Forall_true; apply podInfoOf_full).
  destruct (round_mirrors client e o' order order_ok link infos pc.(base) h (linkAll_linked _ _) Hv Hm Hf Hnd Ha)
    as (c1 & c2 & E1 & E2 & Hm').
  destruct (withIndexer_goes createPodListWatch true pc (or_intror eq_refl)) as (pc0 & Ep & Eb & _).
  destruct (withIndexer_goes createServiceListWatch true sc.(svc_watched) (or_intror eq_refl)) as (w0 & Ew & Ebw & Hw).
  assert (Hids : ids_of w0 = ids_of sc.(svc_watched)) by (unfold ids_of; by rewrite Ebw).
  subst o' link. unfold roundOptions, roundSelectors in *. unfold podReport, SetSelector. rewrite Ep, Ew.
  cbn [mbind outcome_bind]. rewrite Hids.
  destruct (getServiceInfo List services (ids_of (svc_watched sc))) as [[si sels] sids]. cbn [fst snd] in *.
  cbn [mbind outcome_bind svc_watched w_indexer set_base selectors getSelectors].
  unfold ids_of at 1. cbn [base set_base set_ids identifiers].
  destruct (setAgentExternalIp List services sids o) as [o1 sids1]. cbn [fst] in *.
  destruct (w_indexer w0); [|done]. rewrite getPodInfo_collect.
  assert (ids_of pc0 = identifiers (base pc)) as -> by (unfold ids_of; by rewrite Eb). rewrite Eb.
  exists c1, (set_base pc0 c2). eexists. split; [exact E1|]. split; [|exact Hm'].
  unfold reportInfos in E1. fold infos. destruct (collect infos (identifiers (base pc))) as [sent ids]. cbn [fst snd] in *.
  rewrite E1. cbn [mbind outcome_bind]. unfold podNotExist. rewrite E2. reflexivity.
Qed.
End pods.

(** ** What the collectors read *)

Lemma getDeploymentInfo_collect list : forall ids,
  Forall (fun d => d.(dep_SpecReplicas) <> None) list -> exists infos,
  getDeploymentInfo list ids = Returns (collect infos ids) /\
  map uid infos = map (fun d => d.(dep_meta).(UID)) list /\ Forall full infos.
Proof.
  induction list as [|d list IH]; intros ids Hf; cbn [getDeploymentInfo]; [by exists []|].
  apply Forall_cons in Hf as [Hd Hf]. unfold deploymentInfoOf. destruct (dep_SpecReplicas d); [|done].
  cbn [mbind outcome_bind]. set (info := mkDeploymentInfo _ _ _ _ _ _ _ _ _).
  destruct (handleDeploymentIncrement info ids) as [sent ids1] eqn:Eh.
  destruct (IH ids1 Hf) as (infos & E & Hu & Hfull). exists (info :: infos). cbn [collect].
  unfold handleDeploymentIncrement in Eh. rewrite Eh, E. destruct (collect infos ids1).
  split; [done|]. split; [cbn; by rewrite Hu|by constructor].
Qed.

Lemma getServiceInfo_collect List services : forall ids,
  (let '(infos, _, ids') := getServiceInfo List services ids in (infos, ids'))
  = collect (map (serviceInfoOf List) services) ids.
Proof.
  induction services as [|s services IH]; intros ids; cbn [getServiceInfo collect map]; [done|].
  unfold handleServiceIncrement. destruct (handleIncrement _ ids) as [i ids1]. rewrite <-(IH ids1).
  by destruct (getServiceInfo List services ids1) as [[? ?] ?].
Qed.

(** What a collector reads is a round over infos with the uids of the objects. *)
Definition reads {R Obj} `{Resource R}
    (get : list Obj -> gmap string ResourceIdentifier -> outcome (list R * gmap string ResourceIdentifier))
    (key : Obj -> string) (objs : list Obj) : Prop :=
  forall ids, exists infos, get objs ids = Returns (collect infos ids) /\ map uid infos = map key objs /\ Forall full infos.

Lemma pure_reads {R Obj} `{Resource R} (f : Obj -> R) get key objs :
  (forall ids, get objs ids = collect (map f objs) ids) -> (forall x, uid (f x) = key x) -> (forall x, full (f x)) ->
  reads (pure_get get) key objs.
Proof.
  intros Hg Hk Hf ids. exists (map f objs). unfold pure_get. rewrite Hg. split_and!; [done| |].
  - rewrite map_map. apply map_ext. exact Hk.
  - apply Forall_map, Forall_true. exact Hf.
Qed.

(** Every collector that keeps a cache reads its objects the same way: one
    full info per object with the object's uid, in order, each cut down by the
    increment of the cache that the ones before it left.  For deployments this
    needs a replica count in every object; without one the collector
    panics. *)
Theorem collectors_read order rangeSet List :
  (forall l, Forall (fun d => d.(dep_SpecReplicas) <> None) l -> reads getDeploymentInfo (fun d => d.(dep_meta).(UID)) l) /\
  (forall l, reads (pure_get getDaemonsetInfo) (fun d => d.(ds_meta).(UID)) l) /\
  (forall l, reads (pure_get getReplicaSetInfo) (fun r => r.(rs_meta).(UID)) l) /\
  (forall l, reads (pure_get getNamespaceInfo) UID l) /\
  (forall l, reads (pure_get (fun services ids => let '(infos, _, ids) := getServiceInfo List services ids in (infos, ids)))
               (fun s => s.(svc_meta).(UID)) l) /\
  (forall l, reads (getIngressInfo order rangeSet) (fun i => i.(ing_meta).(UID)) l) /\
  (forall d l ids, d.(dep_SpecReplicas) = None -> exists why, getDeploymentInfo (d :: l) ids = Panics why).
Proof.
  split_and!; intros.
  - intros ids. by apply getDeploymentInfo_collect.
  - by apply (pure_reads daemonsetInfoOf).
  - by apply (pure_reads replicaSetInfoOf).
  - by apply (pure_reads (fun m => mkNamespaceInfo (commonOf m))).
  - apply (pure_reads (serviceInfoOf List)); try done. intros ids. apply getServiceInfo_collect.
  - intros ids. apply getIngressInfo_collect.
  - cbn [getDeploymentInfo]. unfold deploymentInfoOf. rewrite H. by eexists.
Qed.

(** ** Links of pods *)

Lemma selectorMatch_elsewhere Matches sels info :
  Forall (fun s => s.(sel_namespace) <> info.(Namespace)) sels ->
  foldl (fun c s => selectorMatch Matches s c) info sels = info.
Proof.
  induction 1 as [|s sels Hs _ IH]; [done|]. cbn [foldl]. unfold selectorMatch at 2.
  apply eqb_false_s in Hs. by rewrite Hs.
Qed.

(** Links do not count as a change: a pod that the server knows and that
    has not changed itself is sent as its identifiers alone, with no service,
    whatever services select it by now. *)
Theorem late_service_unlinked Matches sels pod pods ids v :
  ids !! uid (podInfoOf pod) = Some v -> v.(Md5) = digest (podInfoOf pod) -> v.(id_Cid) <> "" ->
  Forall (fun s => s.(sel_namespace) <> "") sels ->
  exists rest ids', getPodInfo Matches sels (pod :: pods) ids =
    (only (mkCommon v.(id_Uid) "" "" ∅ true v.(id_Cid)) :: rest, ids').
Proof.
  intros Hv Hm Hc Hs. cbn [getPodInfo]. unfold handlePodIncrement, handleIncrement.
  apply eqb_false_s in Hc. rewrite Hv, Hm, eqb_refl_s, Hc. cbn [andb negb].
  rewrite selectorMatch_elsewhere by done. destruct (getPodInfo _ _ _ _). eauto.
Qed.

(** ** Which collectors exist *)

(** With the addresses the agent sets up, only pods can be reported: the
    constructors for deployments, daemonsets, replica sets, namespaces, nodes,
    ingresses and virtual nodes return nil, the collector of services gets an
    empty address, and a collector of virtual nodes made with any address
    panics in its first report with a client, for its node index is never
    set. *)
Theorem only_pods_are_collected `{VirtualNode.KubeTypes} {C} `{TransportChannel C} (client : C) e o' order List podsOn o :
  (exists c, NewPodCollector (InitTransprotUri o) = Some c /\ ReportHandler c = "chaos/k8sPod") /\
  NewDeploymentCollector (InitTransprotUri o) = None /\ NewDaemonsetCollector (InitTransprotUri o) = None /\
  NewReplicasetCollector (InitTransprotUri o) = None /\ NewNamespaceCollector (InitTransprotUri o) = None /\
  NewNodeCollector (InitTransprotUri o) = None /\ NewIngressCollector (InitTransprotUri o) = None /\
  VirtualNode.NewVirtualNodeCollector (InitTransprotUri o) = None /\
  ReportHandler (NewServiceCollector (InitTransprotUri o)) = "" /\
  forall uris c, VirtualNode.NewVirtualNodeCollector uris = Some c ->
    exists why, VirtualNode.virtualReport List podsOn client e o' order true c = Panics why.
Proof.
  repeat split; try done; [by eexists|].
  intros uris c. unfold VirtualNode.NewVirtualNodeCollector.
  destruct (uris !! API_K8S_VIRTUAL_NODE); [|done]. intros [= <-]. by eexists.
Qed.


#[local] Instance function_channel : TransportChannel (Uri -> string -> result string) := fun f => f.

Definition demo_gone : NamespaceInfo := mkNamespaceInfo (mkCommon "u2" "old" "" ∅ true "").
Definition demo_cache : gmap string ResourceIdentifier :=
  {["u2" := mkId "u2" "c2" (digest demo_gone) false "old"]}.
Definition demo_watched : watched := mkWatched (mkCollector "namespaces" demo_cache ∅ zeroUri) (mkListOptions "" "") None.
Definition demo_object : ObjectMeta := mkMeta "u1" "default" "" "" ∅ ∅ [] false.

Lemma demo_answers c (rs : list NamespaceInfo) :
  reportAnswer demo_client demo_env AddFlags c rs = (Some (mkResponse 0 true "" (JObj [("u1", JStr "c1")])), None).
Proof. destruct c as [? ? ? []]. reflexivity. Qed.

Lemma demo_mirrors : mirrors demo_cache [demo_gone].
Proof.
  split_and!.
  - apply map_Forall_singleton. split; [reflexivity|]. exists demo_gone, demo_gone. by split_and!.
  - unfold demo_cache. rewrite dom_singleton_L. reflexivity.
  - by apply map_Forall_singleton.
Qed.

Lemma demo_arrives : arrives demo_client demo_env AddFlags map_to_list id [demo_ns] demo_watched.(base).
Proof.
  split.
  - right. eexists _, _. split; [apply demo_answers|]. split; [reflexivity|]. split; [reflexivity|]. split.
    + apply Forall_singleton. by exists "c1".
    + intros u Hu. apply elem_of_list_to_set in Hu. exact Hu.
  - intros c1 _. right. eexists. split; [apply demo_answers|reflexivity].
Qed.

(** A namespace has come and one has gone. *)
Lemma report_mirrors_witness :
  exists c1 c', reportInfos demo_client demo_env AddFlags id [demo_ns] demo_watched.(base) = Returns c1 /\
    namespaceReport demo_client demo_env AddFlags map_to_list true [demo_object] demo_watched = Returns c' /\
    mirrors (ids_of c') ([demo_gone] ++ sent_infos id [demo_ns] demo_watched.(base)
                           ++ sent_gone (R := NamespaceInfo) map_to_list c1).
Proof.
  destruct (report_mirrors (R := NamespaceInfo) demo_client demo_env AddFlags map_to_list (fun _ => reflexivity _)
              createNamespaceListWatch (pure_get getNamespaceInfo) true [demo_object] [demo_ns] demo_watched
              [demo_gone]) as (c1 & c' & H1 & H2 & H3 & _).
  - right. reflexivity.
  - by intros [=].
  - exact demo_mirrors.
  - reflexivity.
  - apply Forall_singleton. split; reflexivity.
  - apply NoDup_singleton.
  - exact demo_arrives.
  - exists c1, c'. split; [exact H1|]. split; [exact H2|exact H3].
Defined.

(** A pod that a service selects, reported for the first time. *)
Definition demo_pods : watched := mkWatched (mkCollector "pods" ∅ ∅ zeroUri) (mkListOptions "" "") None.
Definition demo_services : ServiceCollector :=
  mkServiceCollector (mkWatched (mkCollector "services" ∅ ∅ zeroUri) (mkListOptions "" "") None) [].
Definition demo_box : Uri -> string -> result string := fun _ _ => Ok (dq "{'success':true,'result':{'u':'c1'}}").

Lemma pod_report_mirrors_witness :
  exists pc' sc' (h' : list PodInfo), podReport demo_box demo_env AddFlags map_to_list elements (fun _ _ => true) true [demo_pod] []
      demo_pods demo_services = Returns (pc', sc', roundOptions AddFlags elements [] demo_services) /\
    mirrors (ids_of pc') h' /\ shown h' = {["u"]}.
Proof.
  assert (Ha : forall c (rs : list PodInfo),
    reportAnswer demo_box demo_env (roundOptions AddFlags elements [] demo_services) c rs =
      (Some (mkResponse 0 true "" (JObj [("u", JStr "c1")])), None))
    by (intros [? ? ? []] rs; reflexivity).
  destruct (pod_report_mirrors demo_box demo_env AddFlags map_to_list (fun _ => reflexivity _) elements (fun _ _ => true)
    [demo_pod] [] demo_pods demo_services []) as (c1 & pc' & sc' & _ & E & Hm & Hs & _).
  - by intros [=].
  - split_and!; [apply map_Forall_empty|reflexivity|apply map_Forall_empty].
  - apply NoDup_singleton.
  - split.
    + right. eexists _, _. split; [apply Ha|]. split; [reflexivity|]. split; [reflexivity|]. split.
      * apply Forall_singleton. by exists "c1".
      * intros u Hu. apply elem_of_list_to_set in Hu. exact Hu.
    + intros c1 _. right. eexists. split; [apply Ha|reflexivity].
  - eexists pc', sc', _. split; [exact E|]. split; [exact Hm|]. rewrite Hs. unfold uids. cbn. set_solver.
Defined.

Definition demo_id : ResourceIdentifier := mkId "u" "c9" (digest (podInfoOf demo_pod)) false "web-0".
Definition demo_selector : selector := mkSelector "default" ∅ ServiceResource "s1".

Lemma late_service_unlinked_witness :
  exists rest ids', getPodInfo (fun _ _ => true) [demo_selector] [demo_pod] {["u" := demo_id]} =
    (only (mkCommon "u" "" "" ∅ true "c9") :: rest, ids').
Proof.
  refine (late_service_unlinked (fun _ _ => true) [demo_selector] demo_pod [] {["u" := demo_id]} demo_id _ _ _ _).
  - apply lookup_singleton_eq.
  - reflexivity.
  - by intros [=].
  - apply Forall_singleton. by intros [=].
Defined.
End Reports.
