(* ===== verification/RoundSteps.v ===== *)
(** * collector/kubernetes: a round step by step

    conn/metric starts a goroutine for [Report] at every tick and does not wait
    for the one before.  Here [Report] goes at the grain of its locks: each
    increment and the sweep hold the lock of the cache for themselves, the calls
    to the server hold none, and what a call answers is handled later.  The
    rounds of a collector interleave at these steps, messages get lost and calls
    fail. *)

From S2P Require Import Prelude GoStrings Json Options Tools Transport Collector Resources Reports.

Module RoundSteps.
Import Options Tools Transport Collector Resources Reports.

Section rounds.
Context {R : Type} `{Links R}.
Variable order : gmap string ResourceIdentifier -> list (string * ResourceIdentifier).
Hypothesis order_ok : forall m, order m ≡ₚ map_to_list m.

(** ** Steps *)

(** The collector, and the infos of the messages that got through, in order. *)
Record view := mkView { col : K8sBaseCollector; said : list R }.

(** Where the goroutine of a round stands: in the loop over the objects, with
    what it adds to each info and the infos made so far, before a call, with the
    answer of a call in hand, before the sweep, at its end; or it has panicked,
    which ends the process. *)
Definition reply : Type := option Response * option string.
Inductive phase :=
| Collecting (link : R -> R) (todo sent : list R)
| Calling (isExists : bool) (infos : list R)
| Awaiting (isExists : bool) (answer : reply)
| Sweeping
| Finished
| Crashed (why : string).

(** What follows a report. *)
Definition after (isExists : bool) : phase := if isExists then Sweeping else Finished.

Definition success (answer : reply) : bool :=
  match answer with (Some response, None) => response.(Success) | _ => false end.

(** What the network may do to a call: the answer, and whether the message got
    through.  A success says that it did; otherwise it may have or not.  A good
    network loses nothing. *)
Definition network := reply -> bool -> Prop.
Definition anyNet : network := fun answer reached => success answer = true -> reached = true.
Definition goodNet : network := fun answer reached => success answer = true /\ reached = true.

(** A step of a round. *)
Inductive pstep (net : network) : phase -> view -> phase -> view -> Prop :=
| ps_increment link info todo sent x ids c h :
    handleIncrement info c.(identifiers) = (x, ids) ->
    pstep net (Collecting link (info :: todo) sent) (mkView c h)
              (Collecting link todo (sent ++ [link x])) (mkView (set_ids c ids) h)
| ps_collected link sent v : pstep net (Collecting link [] sent) v (Calling true sent) v
| ps_nothing isExists v : pstep net (Calling isExists []) v (after isExists) v
| ps_call isExists infos answer (reached : bool) c h :
    infos <> [] -> net answer reached ->
    pstep net (Calling isExists infos) (mkView c h)
              (Awaiting isExists answer) (mkView c (if reached then h ++ infos else h))
| ps_answer isExists answer c c' h :
    handleAnswer c isExists answer = Returns c' ->
    pstep net (Awaiting isExists answer) (mkView c h) (after isExists) (mkView c' h)
| ps_panic isExists answer c h why :
    handleAnswer c isExists answer = Panics why ->
    pstep net (Awaiting isExists answer) (mkView c h) (Crashed why) (mkView c h)
| ps_sweep c h gone ids :
    sweep (R := R) (order c.(identifiers)) c.(identifiers) = (gone, ids) ->
    pstep net Sweeping (mkView c h) (Calling false gone) (mkView (set_ids c ids) h).

(** The rounds of a collector. *)
Record sys := mkSys { now : view; rounds : list phase }.
Definition isCrash (p : phase) : bool := match p with Crashed _ => true | _ => false end.
Definition ended (p : phase) : Prop := p = Finished.
Definition up (rs : list phase) : Prop := Forall (fun p => isCrash p = false) rs.

(** A round takes a step; or a tick starts one over the objects there are,
    whatever the others do. *)
Inductive step (net : network) : sys -> sys -> Prop :=
| step_round i v rs p p' v' :
    up rs -> rs !! i = Some p -> pstep net p v p' v' -> step net (mkSys v rs) (mkSys v' (<[i := p']> rs))
| step_tick link infos v rs :
    up rs -> (forall r, linked r (link r)) -> Forall full infos ->
    step net (mkSys v rs) (mkSys v (rs ++ [Collecting link infos []])).

(** ** Rounds that do not overlap *)

(** At most one round is under way; a step to such a state. *)
Definition alone (s : sys) : Prop :=
  forall i j p q, s.(rounds) !! i = Some p -> s.(rounds) !! j = Some q -> ~ ended p -> ~ ended q -> i = j.
Definition stepAlone (s s' : sys) : Prop := step anyNet s s' /\ alone s'.

(** What holds of a round under way: as soon as what the round is about to send
    has got through, the cache agrees with it. *)
Definition agrees (p : phase) (v : view) : Prop :=
  let ids := v.(col).(identifiers) in
  match p with
  | Collecting link todo sent =>
      (forall r, linked r (link r)) /\ Forall full todo /\ synced ids (v.(said) ++ sent)
  | Calling true infos => synced ids (v.(said) ++ infos)
  | Calling false gone =>
      synced ids v.(said) /\ Forall (fun x => (common x).(Exist) = false /\ uid x ∉ dom ids) gone
  | Awaiting true answer => success answer = true -> synced ids v.(said)
  | Awaiting false _ | Sweeping | Finished => synced ids v.(said)
  | Crashed _ => True
  end.

Lemma synced_gone ids h gone : synced ids h ->
  Forall (fun x : R => (common x).(Exist) = false /\ uid x ∉ dom ids) gone -> synced ids (h ++ gone).
Proof.
  intros Hs Hg u v Hl. destruct (Hs u v Hl) as [Hu Hk]. split; [done|]. apply knows_gone; [|  |done].
  - by eapply Forall_impl; [exact Hg|intros ? []].
  - intros (x & -> & Hx)%list_elem_of_fmap. rewrite Forall_forall in Hg. apply (Hg x Hx). apply elem_of_dom. eauto.
Qed.

Lemma synced_empty (h : list R) : synced ∅ h.
Proof. apply map_Forall_empty. Qed.

Lemma handleAnswer_agrees c isExists answer c' h : ReportHandler c <> K8sVirtualNode ->
  handleAnswer c isExists answer = Returns c' ->
  (isExists = true -> success answer = true -> synced c.(identifiers) h) ->
  (isExists = false -> synced c.(identifiers) h) ->
  c'.(col_uri) = c.(col_uri) /\ synced c'.(identifiers) h.
Proof.
  intros Hv E Ht Hf. unfold handleAnswer in E. apply eqb_false_s in Hv. rewrite Hv in E.
  destruct answer as [[resp|] [err|]]; simplify_eq; try (split; [done|apply synced_empty]); cbn in Ht.
  destruct (Success resp); cbn [negb] in E; [|simplify_eq; split; [done|apply synced_empty]].
  destruct isExists; cbn [negb] in E; [|simplify_eq; auto].
  destruct (Result resp); simplify_eq; try (split; [done|apply synced_empty]).
  apply outcome_bind_returns in E as (ids & E & [= <-]). split; [done|].
  eapply storeCids_synced; [|exact E]. auto.
Qed.

Lemma sweep_agrees ids h : synced ids h ->
  synced (sweep (R := R) (order ids) ids).2 h /\
  Forall (fun x => (common x).(Exist) = false /\ uid x ∉ dom (sweep (R := R) (order ids) ids).2)
    (sweep (R := R) (order ids) ids).1.
Proof.
  intros Ha. destruct (sweep_spec (R := R) _ _ (order_ok ids)) as [Hg Hi]. rewrite Hi. split.
  - intros u v (w & <- & [Hw _]%map_lookup_filter_Some)%lookup_fmap_Some. apply (Ha u w Hw).
  - apply Forall_forall. intros x (k & w & Hk & Hc & _ & ->)%Hg. unfold goneInfo, uid. rewrite common_only.
    split; [done|]. cbn. destruct (Ha k w Hk) as [-> _]. rewrite dom_fmap_L, elem_of_dom.
    intros [w' [Hw' Hc']%map_lookup_filter_Some]. cbn in Hc'. congruence.
Qed.

Lemma pstep_agrees p v p' v' : pstep anyNet p v p' v' -> ReportHandler v.(col) <> K8sVirtualNode -> agrees p v ->
  ReportHandler v'.(col) <> K8sVirtualNode /\ agrees p' v'.
Proof.
  destruct 1 as [link info todo sent x ids c h E|link sent v|isExists v|isExists infos answer reached c h Hne Hr
    |isExists answer c c' h E| |c h gone ids E]; intros Hv Ha; cbn [agrees col said] in *.
  - split; [done|]. destruct Ha as (Hl & [Hf Hfs]%Forall_cons & Hs). split_and!; [done..|]. rewrite app_assoc.
    pose proof (handleIncrement_synced info _ _ _ Hs Hf (Hl _)) as (Hi & _). rewrite E in Hi. exact Hi.
  - split; [done|]. apply Ha.
  - split; [done|]. rewrite app_nil_r in Ha. destruct isExists; [exact Ha|apply Ha].
  - split; [done|]. destruct isExists; cbn.
    + intros Hs. by rewrite (Hr Hs).
    + destruct Ha as [Hs Hg]. destruct reached; [by apply synced_gone|done].
  - destruct (handleAnswer_agrees c isExists answer c' h Hv E) as [Hu Hs].
    + intros ->. done.
    + intros ->. done.
    + unfold ReportHandler in *. rewrite Hu. split; [done|]. by destruct isExists.
  - done.
  - split; [done|]. apply sweep_agrees in Ha. rewrite E in Ha. exact Ha.
Qed.

Definition orderly (s : sys) : Prop :=
  ReportHandler s.(now).(col) <> K8sVirtualNode /\
  ((Forall ended s.(rounds) /\ synced s.(now).(col).(identifiers) s.(now).(said)) \/
   exists i p, s.(rounds) !! i = Some p /\ agrees p s.(now) /\
     forall j q, j <> i -> s.(rounds) !! j = Some q -> ended q).

Lemma ended_stuck p v p' v' : ended p -> ~ pstep anyNet p v p' v'.
Proof. intros -> Hp. inversion Hp. Qed.
#[global] Instance ended_dec p : Decision (ended p).
Proof. unfold ended. destruct p; first [left; done | right; done]. Defined.

Lemma orderly_step s s' : orderly s -> stepAlone s s' -> orderly s'.
Proof.
  intros [Hv Ho] [Hs Hal]. destruct Hs as [i v rs p p' v' _ Hi Hp|link infos v rs _ Hl Hfull]; cbn [now rounds] in *.
  - destruct Ho as [[Ht _]|(k & q & Hk & Ha & Hrest)].
    { rewrite Forall_lookup in Ht. by destruct (ended_stuck _ _ _ _ (Ht _ _ Hi) Hp). }
    destruct (decide (i = k)) as [->|Hne]; [|by destruct (ended_stuck _ _ _ _ (Hrest _ _ Hne Hi) Hp)].
    simplify_eq. destruct (pstep_agrees _ _ _ _ Hp Hv Ha) as [Hv' Ha']. split; [done|]. right. exists k, p'. cbn [now rounds].
    split_and!; [apply list_lookup_insert_eq; by eapply lookup_lt_Some|done|].
    intros j q' Hj. rewrite list_lookup_insert_ne by done. by apply Hrest.
  - assert (Hnew : (rs ++ [Collecting link infos []]) !! length rs = Some (Collecting link infos []))
      by (by rewrite lookup_app_r, Nat.sub_diag by lia).
    assert (Hf : forall j q, rs !! j = Some q -> ended q).
    { intros j q Hq. destruct (decide (ended q)) as [|Hn]; [done|]. exfalso. pose proof (lookup_lt_Some _ _ _ Hq).
      assert (j = length rs); [|lia]. eapply (Hal j (length rs)); [by apply lookup_app_l_Some|exact Hnew|done|done]. }
    assert (Hs : synced v.(col).(identifiers) v.(said)).
    { destruct Ho as [[_ Hs]|(k & q & Hk & Ha & _)]; [done|]. by rewrite (Hf _ _ Hk) in Ha. }
    split; [done|]. right. exists (length rs), (Collecting link infos []). cbn [now rounds agrees].
    rewrite app_nil_r. split_and!; [done..|].
    intros j q Hj [Hq|[Hlt Hq]]%lookup_app_Some; [by eapply Hf|].
    apply list_lookup_singleton_Some in Hq as [? _]. lia.
Qed.

(** C15. Rounds that do not overlap keep the cache in agreement with what was said:
    from an agreement on, in every run in which no two rounds are under way at
    the same time, whatever the cluster shows, whichever messages are lost and
    whatever the calls answer, whenever no round is under way every resource in
    the cache has the digest of the data that was said of it last. *)
Theorem rounds_apart_agree v s : ReportHandler v.(col) <> K8sVirtualNode ->
  synced v.(col).(identifiers) v.(said) ->
  rtc stepAlone (mkSys v []) s -> Forall ended s.(rounds) ->
  synced s.(now).(col).(identifiers) s.(now).(said).
Proof.
  intros Hv Hs Hr Ht.
  assert (Ho : orderly (mkSys v [])) by (split; [done|by left; split; [constructor|]]).
  assert (Ho' : orderly s) by (induction Hr; [done|eauto using orderly_step]).
  destruct Ho' as [_ [[_ ?]|(k & q & Hk & Ha & _)]]; [done|].
  rewrite Forall_lookup in Ht. by rewrite (Ht _ _ Hk) in Ha.
Qed.

(** ** Parts of rounds as runs *)

Definition pmove (net : network) (a b : phase * view) : Prop := pstep net a.1 a.2 b.1 b.2.

Lemma pmove_l net p v p' v' b : pstep net p v p' v' -> rtc (pmove net) (p', v') b -> rtc (pmove net) (p, v) b.
Proof. intros Hp. by apply rtc_l. Qed.

Lemma run_round net p v p' v' i : rtc (pmove net) (p, v) (p', v') -> isCrash p' = false ->
  forall rs, up rs -> rs !! i = Some p -> rtc (step net) (mkSys v rs) (mkSys v' (<[i := p']> rs)).
Proof.
  intros Hr Hc. remember (p, v) as a eqn:Ea. remember (p', v') as b eqn:Eb. revert p v Ea.
  induction Hr as [a|a [p1 v1] b Hm Hr IH]; intros p v -> rs Hu Hi.
  - simplify_eq. rewrite list_insert_id by done. apply rtc_refl.
  - assert (H1 : isCrash p1 = false).
    { destruct p1; try done. apply rtc_inv in Hr as [E|([? ?] & Hm' & _)]; [by simplify_eq|inversion Hm']. }
    apply (rtc_l _ _ (mkSys v1 (<[i := p1]> rs))); [by apply (step_round net i v rs p p1 v1)|].
    rewrite <-(list_insert_insert_eq rs i p' p1). apply (IH Eb p1 v1); [done|by apply Forall_insert|].
    apply list_lookup_insert_eq. by eapply lookup_lt_Some.
Qed.

Lemma collect_run net link infos : forall sent c h,
  rtc (pmove net) (Collecting link infos sent, mkView c h)
    (Collecting link [] (sent ++ map link (collect infos c.(identifiers)).1),
     mkView (set_ids c (collect infos c.(identifiers)).2) h).
Proof.
  induction infos as [|info infos IH]; intros sent c h; cbn [collect].
  - cbn. rewrite app_nil_r. destruct c. apply rtc_refl.
  - destruct (handleIncrement info c.(identifiers)) as [x ids] eqn:E.
    eapply pmove_l; [by apply ps_increment|]. specialize (IH (sent ++ [link x]) (set_ids c ids) h). cbn [identifiers set_ids] in IH.
    destruct (collect infos ids) as [xs ids']. cbn [fst snd map] in *. by rewrite <-app_assoc in IH.
Qed.

(** A success with a cid for everything that was sent. *)
Definition welcome (infos : list R) : reply :=
  (Some (mkResponse 200 true "" (JObj (map (fun u => (u, JStr "cid")) (map uid infos)))), None).
Lemma welcome_grants infos : grantedBy (welcome infos) (uids infos).
Proof.
  do 2 eexists. split; [done|]. split; [done|]. split; [done|]. split.
  - apply Forall_map, Forall_true. intros u. by exists "cid".
  - intros u Hu. apply elem_of_list_to_set in Hu. apply list_elem_of_fmap. exists (u, JStr "cid"). split; [done|].
    apply list_elem_of_fmap. eauto.
Qed.

(** The first half of a round on a good network: the infos of the round are
    reported and marked. *)
Lemma report_run us link infos c h : (forall r, linked r (link r)) -> ReportHandler c <> K8sVirtualNode ->
  marked us c.(identifiers) h -> Forall full infos -> NoDup (map uid infos) ->
  exists c' h', rtc (pmove goodNet) (Collecting link infos [], mkView c h) (Sweeping, mkView c' (h ++ h')) /\
    c'.(col_uri) = c.(col_uri) /\ marked (us ∪ uids infos) c'.(identifiers) (h ++ h') /\
    forall r, r ∈ infos -> knows (h ++ h') (uid r) (digest r).
Proof.
  intros Hl Hv Hm Hf Hnd. pose proof (collect_run goodNet link infos [] c h) as Hc. cbn [app] in Hc.
  pose proof (fun ids' => collect_marks link us infos _ ids' h Hl Hm Hf Hnd) as Hmk.
  pose proof (collect_sent_nil infos c.(identifiers)) as Hnil.
  destruct (collect infos c.(identifiers)) as [sent ids]. cbn [fst snd] in *. destruct sent as [|x sent].
  - exists (set_ids c ids), []. destruct (Hmk ids) as (Hm' & _ & Hk); [rewrite (Hnil eq_refl); apply regranted_refl|].
    split_and!; [|done..]. rewrite app_nil_r. etrans; [exact Hc|].
    eapply pmove_l; [apply ps_collected|]. by eapply pmove_l; [apply ps_nothing|apply rtc_refl].
  - destruct (handleAnswer_grants (set_ids c ids) (welcome infos) (uids infos)) as (ids' & E & Hr);
      [done|apply welcome_grants|].
    destruct (Hmk ids' Hr) as (Hm' & _ & Hk).
    exists (set_ids (set_ids c ids) ids'), (map link (x :: sent)). split_and!; [|done..]. etrans; [exact Hc|].
    eapply pmove_l; [apply ps_collected|]. eapply pmove_l; [by apply (ps_call _ true _ (welcome infos) true)|].
    by eapply pmove_l; [apply ps_answer|apply rtc_refl].
Qed.

(** The second half: what is not marked is announced as gone. *)
Lemma sweep_run us c h : marked us c.(identifiers) h ->
  exists c' h', rtc (pmove goodNet) (Sweeping, mkView c h) (Finished, mkView c' (h ++ h')) /\
    marked ∅ c'.(identifiers) (h ++ h') /\ shown (h ++ h') = us.
Proof.
  intros Hm. destruct (sweep_all (R := R) _ _ _ _ (order_ok _) Hm) as (Hm' & Hs & _).
  destruct (sweep (R := R) (order c.(identifiers)) c.(identifiers)) as [gone ids] eqn:E. cbn [fst snd] in *.
  exists (set_ids c ids), gone. split_and!; [|by apply mirrors_marked|done].
  eapply pmove_l; [by apply ps_sweep|]. destruct gone as [|x gone].
  - rewrite app_nil_r. by eapply pmove_l; [apply ps_nothing|apply rtc_refl].
  - eapply pmove_l; [by apply (ps_call _ false _ (welcome []) true)|].
    by eapply pmove_l; [apply ps_answer|apply rtc_refl].
Qed.

Lemma lastWord_stays u (h h' : list R) : is_Some (lastWord u h) -> is_Some (lastWord u (h ++ h')).
Proof. intros Hs. rewrite lastWord_app. destruct (lastWord u h'); [by eexists|done]. Qed.

(** C16. The ticker of the code does not wait, and rounds that overlap take back
    what was said: from a mirror on, over any objects, there is a run of two
    rounds on a network that loses nothing and answers every call with success,
    after which every resource that the rounds found is announced as gone and
    no resource exists by what was said, and the cache is empty. *)
Theorem overlap_erases link1 link2 infos1 infos2 v :
  (forall r, linked r (link1 r)) -> (forall r, linked r (link2 r)) ->
  ReportHandler v.(col) <> K8sVirtualNode -> mirrors v.(col).(identifiers) v.(said) ->
  Forall full infos1 -> Forall full infos2 -> NoDup (map uid infos1) -> NoDup (map uid infos2) ->
  exists v', rtc (step goodNet) (mkSys v []) (mkSys v' [Finished; Finished]) /\
    (forall r, r ∈ infos1 ++ infos2 ->
       exists x, lastWord (uid r) v'.(said) = Some x /\ (common x).(Exist) = false) /\
    shown v'.(said) = ∅ /\ v'.(col).(identifiers) = ∅.
Proof.
  intros Hl1 Hl2 Hv Hm Hf1 Hf2 Hn1 Hn2. destruct v as [c h]. cbn [col said] in *. apply mirrors_marked in Hm.
  destruct (report_run _ link1 infos1 c h Hl1 Hv Hm Hf1 Hn1) as (c1 & h1 & R1 & Hu1 & M1 & K1).
  assert (Hv1 : ReportHandler c1 <> K8sVirtualNode) by (unfold ReportHandler in *; by rewrite Hu1).
  destruct (report_run _ link2 infos2 c1 (h ++ h1) Hl2 Hv1 M1 Hf2 Hn2) as (c2 & h2 & R2 & _ & M2 & K2).
  destruct (sweep_run _ c2 _ M2) as (c3 & h3 & R3 & M3 & _).
  destruct (sweep_run _ c3 _ M3) as (c4 & h4 & R4 & M4 & Hsh).
  set (h' := (((h ++ h1) ++ h2) ++ h3) ++ h4) in *.
  exists (mkView c4 h'). cbn [col said]. split_and!; [| |done|].
  - eapply rtc_l; [by apply (step_tick _ link1 infos1); [constructor|..]|].
    eapply rtc_l; [by apply (step_tick _ link2 infos2); [repeat constructor|..]|]. cbn [app].
    etrans; [by apply (run_round _ _ _ _ _ 0 R1); [|repeat constructor|]|]. cbn.
    etrans; [by apply (run_round _ _ _ _ _ 1 R2); [|repeat constructor|]|]. cbn.
    etrans; [by apply (run_round _ _ _ _ _ 0 R3); [|repeat constructor|]|]. cbn.
    by apply (run_round _ _ _ _ _ 1 R4 eq_refl [Finished; Sweeping]); [repeat constructor|].
  - intros r Hr. assert (Hw : is_Some (lastWord (uid r) h')).
    { apply lastWord_stays, lastWord_stays. apply elem_of_app in Hr as [Hr|Hr];
        [apply lastWord_stays; destruct (K1 r Hr) as (? & ? & -> & _)|destruct (K2 r Hr) as (? & ? & -> & _)]; by eexists. }
    destruct Hw as [x Hx]. exists x. split; [done|]. destruct (Exist (common x)) eqn:Ex; [|done].
    assert (uid r ∈ shown h') by (apply elem_of_shown; unfold shows; by rewrite Hx). rewrite Hsh in H1. set_solver.
  - destruct M4 as (_ & Hd & _). rewrite Hsh in Hd. by apply dom_empty_inv_L.
Qed.
End rounds.
Arguments phase R : clear implicits.
Arguments view R : clear implicits.
Arguments sys R : clear implicits.

(** ** Examples *)

(** One namespace, found by both rounds, and one that was reported and has
    gone. *)
Definition demo_view : view NamespaceInfo := mkView demo_watched.(base) [demo_gone].

Lemma overlap_erases_witness : exists v',
  rtc (step map_to_list goodNet) (mkSys demo_view []) (mkSys v' [Finished; Finished]) /\
  (exists x, lastWord "u1" v'.(said) = Some x /\ (common x).(Exist) = false) /\ v'.(col).(identifiers) = ∅.
Proof.
  destruct (overlap_erases map_to_list (fun _ => reflexivity _) id id [demo_ns] [demo_ns] demo_view) as (v' & Hr & Hg & _ & Hc).
  - reflexivity.
  - reflexivity.
  - by intros [=].
  - exact demo_mirrors.
  - by repeat constructor.
  - by repeat constructor.
  - apply NoDup_singleton.
  - apply NoDup_singleton.
  - exists v'. split; [exact Hr|]. split; [|exact Hc]. apply (Hg demo_ns). by left.
Defined.

(** A round whose first call fails although the message got through. *)
Definition lostAnswer : reply := (None, Some "timeout").
Definition demo_lost : view NamespaceInfo :=
  mkView (resetIdentifierCache (set_ids demo_view.(col) (collect [demo_ns] demo_view.(col).(identifiers)).2))
    (demo_view.(said) ++ [demo_ns]).

Lemma one_alone v (p : phase NamespaceInfo) : alone (mkSys v [p]).
Proof.
  intros i j q q' Hi Hj _ _. apply list_lookup_singleton_Some in Hi as [-> _].
  apply list_lookup_singleton_Some in Hj as [-> _]. done.
Qed.

Lemma alone_l v p v' p' s : pstep map_to_list anyNet p v p' v' -> isCrash p = false ->
  rtc (stepAlone (R := NamespaceInfo) map_to_list) (mkSys v' [p']) s -> rtc (stepAlone map_to_list) (mkSys v [p]) s.
Proof.
  intros Hp Hc. apply rtc_l. split; [|apply one_alone].
  by apply (step_round map_to_list anyNet 0 v [p] p p' v'); [repeat constructor|..].
Qed.

Lemma demo_lost_run : rtc (stepAlone map_to_list) (mkSys demo_view []) (mkSys demo_lost [Finished]).
Proof.
  eapply rtc_l; [split; [by apply (step_tick _ _ id [demo_ns]); [constructor|done|repeat constructor]|apply one_alone]|].
  cbn [app]. eapply alone_l; [by apply ps_increment|done|]. eapply alone_l; [apply ps_collected|done|].
  eapply alone_l; [by apply (ps_call _ _ true _ lostAnswer true)|done|].
  eapply alone_l; [by apply ps_answer|done|]. eapply alone_l; [by apply ps_sweep|done|].
  eapply alone_l; [apply ps_nothing|done|]. apply rtc_refl.
Qed.

Lemma rounds_apart_agree_witness : synced demo_lost.(col).(identifiers) demo_lost.(said).
Proof.
  refine (rounds_apart_agree map_to_list (fun _ => reflexivity _) demo_view (mkSys demo_lost [Finished])
    _ (proj1 demo_mirrors) demo_lost_run _).
  - by intros [=].
  - by repeat constructor.
Defined.
End RoundSteps.
