(* ===== verification/ReportJson.v ===== *)
(** * collector/kubernetes: the documents that are sent

    Every info is encoded as a tree that [encoding/json] reads back: well
    formed, of small depth, whatever valid UTF-8 the objects of the cluster
    hold.  The class [Typed] states it for one type of infos. *)

From S2P Require Import Prelude GoStrings Hash Json JsonFacts Options Tools Transport Collector Resources Ingress VirtualNode Reports.
Local Open Scope Z_scope.

Module ReportJson.
Import Options Tools Transport Collector Resources Ingress VirtualNode Reports.

(** ** Fields *)

Notation utf8 s := (valid_utf8 s = true).

Definition tree_ok (d : Z) (j : json) : Prop := wf_json j /\ jdepth j <= d.
Definition field_ok (d : Z) (kv : string * json) : Prop := utf8 kv.1 /\ tree_ok d kv.2.

Lemma obj_ok d l : 0 <= d -> Forall (field_ok d) l -> tree_ok (1 + d) (JObj l).
Proof.
  intros Hd H. split.
  - cbn [wf_json]. induction H as [|[k j] l [Hk [Hw _]] _ IH]; cbn [foldr]; [done|]. by split.
  - cbn [jdepth]. induction H as [|[k j] l [_ [_ Hj]] _ IH]; cbn [foldr snd] in *; lia.
Qed.
Lemma arr_ok d l : 0 <= d -> Forall (tree_ok d) l -> tree_ok (1 + d) (JArr l).
Proof.
  intros Hd H. split.
  - cbn [wf_json]. induction H as [|j l [Hw _] _ IH]; cbn [foldr]; [done|]. by split.
  - cbn [jdepth]. induction H as [|j l [_ Hj] _ IH]; cbn [foldr] in *; lia.
Qed.
Lemma tree_ok_le d d' j : d <= d' -> tree_ok d j -> tree_ok d' j.
Proof. intros Hd [? ?]. split; [done|lia]. Qed.

Lemma str_ok d s : 0 <= d -> utf8 s -> tree_ok d (JStr s).
Proof. by intros. Qed.
Lemma smap_ok d m : 1 <= d -> valid_smap m -> tree_ok d (of_smap m).
Proof. intros Hd Hm. split; [by apply wf_of_smap|]. pose proof (depth_of_smap m). lia. Qed.

Lemma int_ok d z : 0 <= d -> tree_ok d (JNum (FormatInt z)).
Proof. intros Hd. split; [apply num_ok_FormatInt|done]. Qed.
Lemma field_cons d k j l : utf8 k -> tree_ok d j -> Forall (field_ok d) l -> Forall (field_ok d) ((k, j) :: l).
Proof. intros. by constructor. Qed.

Lemma ostr_ok d k s : 0 <= d -> utf8 k -> utf8 s -> Forall (field_ok d) (ostr k s).
Proof. intros. unfold ostr. destruct (s ==s ""); [done|]. apply field_cons; [done|by apply str_ok|done]. Qed.
Lemma oint_ok d k z : 0 <= d -> utf8 k -> Forall (field_ok d) (oint k z).
Proof. intros. unfold oint. destruct (z =? 0); [done|]. apply field_cons; [done|by apply int_ok|done]. Qed.
Lemma omap_ok d k m : 1 <= d -> utf8 k -> valid_smap m -> Forall (field_ok d) (omap_json k m).
Proof.
  intros. unfold omap_json. case_decide; [done|]. apply field_cons; [done|by apply smap_ok|done].
Qed.
Lemma oarr_ok d k l : 1 <= d -> utf8 k -> Forall (fun s => utf8 s) l -> Forall (field_ok d) (oarr k l).
Proof.
  intros Hd Hk Hl. unfold oarr. destruct l as [|x l]; [done|]. constructor; [|done]. split; [done|].
  apply (tree_ok_le 1); [done|]. apply (arr_ok 0); [done|]. apply Forall_map.
  eapply Forall_impl; [exact Hl|]. intros s Hs. by apply str_ok.
Qed.
Lemma ojson_ok d k l : 0 <= d -> utf8 k -> Forall (tree_ok d) l -> Forall (field_ok (1 + d)) (ojson k l).
Proof.
  intros Hd Hk Hl. unfold ojson. destruct l as [|x l]; [done|]. constructor; [|done]. split; [done|by apply arr_ok].
Qed.
Lemma fields_app d l1 l2 : Forall (field_ok d) l1 -> Forall (field_ok d) l2 -> Forall (field_ok d) (l1 ++ l2).
Proof. intros. by apply Forall_app. Qed.

Create HintDb fields.
#[export] Hint Resolve ostr_ok oint_ok omap_ok oarr_ok ojson_ok fields_app field_cons str_ok smap_ok Forall_nil_2 : fields.
#[export] Hint Extern 1 (valid_utf8 _ = true) => first [assumption | reflexivity] : fields.
#[export] Hint Extern 1 (_ <= _) => lia : fields.

(** ** Infos *)

Definition common_ok (c : CommonInfo) : Prop :=
  utf8 c.(info_Uid) /\ utf8 c.(Name) /\ utf8 c.(CreatedTime) /\ valid_smap c.(Labels) /\ utf8 c.(info_Cid).

Lemma commonFields_ok d c : 1 <= d -> common_ok c -> Forall (field_ok d) (commonFields c).
Proof.
  intros Hd (Hu & Hn & Hc & Hl & Hi). unfold commonFields.
  repeat apply fields_app; auto 6 with fields.
  apply field_cons; [done| |done]. split; [done|]. cbn. lia.
Qed.
#[export] Hint Resolve commonFields_ok : fields.

(** The strings of an info are valid, then so is its document; an info of
    which only the common part is set is valid with it. *)
Definition maxDepth : Z := 20.
Class Typed (R : Type) `{Resource R} := {
  valid : R -> Prop;
  valid_tree r : valid r -> tree_ok maxDepth (to_json r);
  valid_only c : common_ok c -> valid (only c);
  valid_common r : valid r -> common_ok (common r)
}.

Ltac info_tree :=
  first [apply (obj_ok 9); [done|] | apply (tree_ok_le 10); [done|]; apply (obj_ok 9); [done|]];
  cbv beta in *;
  repeat match goal with |- Forall _ (_ ++ _) => apply fields_app end; eauto 8 with fields.

#[export, program] Instance namespace_typed : Typed NamespaceInfo := { valid n := common_ok n.(ns_common) }.
Next Obligation. intros r Hr. info_tree. Qed.
Next Obligation. done. Qed.
Next Obligation. done. Qed.

Definition pod_ok (p : PodInfo) : Prop :=
  common_ok p.(pod_common) /\
  Forall (fun s => utf8 s)
    [p.(Namespace); p.(Ip); p.(State); p.(DaemonsetUid); p.(DaemonsetCid); p.(ServiceUid); p.(ServiceCid);
     p.(DeploymentUid); p.(DeploymentCid); p.(ReplicaSetUid); p.(ReplicaSetCid)].
Lemma pod_tree p : pod_ok p -> tree_ok 10 (to_json p).
Proof. intros [Hc Hs]. repeat apply Forall_cons in Hs as [? Hs]. info_tree. Qed.
#[export, program] Instance pod_typed : Typed PodInfo := {
  valid := pod_ok
}.
Next Obligation. intros r Hr. apply (tree_ok_le 10); [done|by apply pod_tree]. Qed.
Next Obligation. intros c Hc. split; [done|]. by repeat constructor. Qed.
Next Obligation. by intros r [? _]. Qed.

#[export, program] Instance service_typed : Typed ServiceInfo := {
  valid s := common_ok s.(svc_common) /\ valid_smap s.(svc_Selector) /\ Forall (fun p => utf8 p) s.(svc_Ports) /\
    Forall (fun p => utf8 p) [s.(svc_Namespace); s.(ClusterIp); s.(ExternalIp); s.(Type_)]
}.
Next Obligation. intros r (Hc & Hm & Hp & Hs). repeat apply Forall_cons in Hs as [? Hs]. info_tree. Qed.
Next Obligation. intros c Hc. split_and!; [done| |done|by repeat constructor]. apply map_Forall_empty. Qed.
Next Obligation. by intros r [? _]. Qed.

#[export, program] Instance deployment_typed : Typed DeploymentInfo := {
  valid d := common_ok d.(dep_common) /\ Forall (fun p => utf8 p) [d.(dep_Namespace); d.(Strategy)]
}.
Next Obligation. intros r (Hc & Hs). repeat apply Forall_cons in Hs as [? Hs]. info_tree. Qed.
Next Obligation. intros c Hc. split_and!; [done|by repeat constructor]. Qed.
Next Obligation. by intros r [? _]. Qed.

#[export, program] Instance daemonset_typed : Typed DaemonsetInfo := {
  valid d := common_ok d.(ds_common) /\ Forall (fun p => utf8 p) [d.(ds_Namespace); d.(UpdateStrategy)]
}.
Next Obligation. intros r (Hc & Hs). repeat apply Forall_cons in Hs as [? Hs]. info_tree. Qed.
Next Obligation. intros c Hc. split_and!; [done|by repeat constructor]. Qed.
Next Obligation. by intros r [? _]. Qed.

#[export, program] Instance replicaset_typed : Typed ReplicaSetInfo := {
  valid r := common_ok r.(rs_common) /\ Forall (fun p => utf8 p) [r.(rs_Namespace); r.(rs_DeploymentUid)]
}.
Next Obligation. intros r (Hc & Hs). repeat apply Forall_cons in Hs as [? Hs]. info_tree. Qed.
Next Obligation. intros c Hc. split_and!; [done|by repeat constructor]. Qed.
Next Obligation. by intros r [? _]. Qed.

(** ** Ingresses and virtual nodes *)

Definition backend_ok (b : IngressBackend) : Prop := utf8 b.(ServiceName) /\ utf8 b.(ServicePort_) /\ utf8 b.(be_ServiceUid).
Definition path_ok (p : HTTPIngressPath) : Prop := utf8 p.(path_Path) /\ backend_ok p.(Backend).
Definition rule_ok (r : IngressRule) : Prop := utf8 r.(Host) /\ Forall path_ok (default [] r.(HTTP)).

Lemma path_tree p : path_ok p -> tree_ok 2 (pathJson p).
Proof.
  intros (Hp & Hs & Hport & Hu). apply (obj_ok 1); [done|]. apply fields_app; [auto with fields|].
  apply field_cons; [done| |done]. apply (obj_ok 0); [done|]. auto 8 with fields.
Qed.
Lemma rule_tree r : rule_ok r -> tree_ok 5 (ruleJson r).
Proof.
  intros [Hh Hp]. apply (obj_ok 4); [done|]. apply fields_app; [auto with fields|].
  destruct (HTTP r) as [paths|]; [|done]. apply field_cons; [done| |done]. apply (obj_ok 3); [done|].
  apply field_cons; [done| |done]. apply (arr_ok 2); [done|]. apply Forall_map.
  eapply Forall_impl; [exact Hp|]. apply path_tree.
Qed.

#[export, program] Instance ingress_typed : Typed IngressInfo := {
  valid i := common_ok i.(ing_common) /\ valid_smap i.(ing_Annotations) /\ Forall (tree_ok 8) i.(Tls) /\
    Forall rule_ok i.(Rules) /\ Forall (fun p => utf8 p) [i.(ing_Namespace); i.(Address)]
}.
Next Obligation.
  intros r (Hc & Ha & Ht & Hr & Hs). repeat apply Forall_cons in Hs as [? Hs].
  assert (Forall (tree_ok 8) (map ruleJson (Rules r))).
  { apply Forall_map. eapply Forall_impl; [exact Hr|]. intros x Hx. apply (tree_ok_le 5); [done|]. by apply rule_tree. }
  info_tree; by apply (ojson_ok 8).
Qed.
Next Obligation. intros c Hc. split_and!; [done| |done|done|by repeat constructor]. apply map_Forall_empty. Qed.
Next Obligation. by intros r [? _]. Qed.

Section virtual.
Context `{KubeTypes}.
Hypothesis zeroSystemInfo_ok : tree_ok 8 zeroSystemInfo.

#[export, program] Instance virtualnode_typed : Typed VirtualNodeInfo := {
  valid n := common_ok n.(vn_common) /\ tree_ok 8 n.(vn_NodeInfo) /\ Forall (tree_ok 8) n.(NodeAddresses) /\
    Forall pod_ok n.(vn_Pods) /\
    Forall (fun p => utf8 p) [n.(vn_Role); n.(vn_ClusterId); n.(vn_ClusterName); n.(vn_NodeCapacity).(Cpu);
                              n.(vn_NodeCapacity).(Memory)]
}.
Next Obligation.
  intros r (Hc & Hi & Ha & Hp & Hs). cbv beta in *. repeat apply Forall_cons in Hs as [? Hs].
  assert (Forall (tree_ok 10) (map to_json (vn_Pods r)))
    by (apply Forall_map; eapply Forall_impl; [exact Hp|]; apply pod_tree).
  assert (Forall (tree_ok 10) (NodeAddresses r))
    by (eapply Forall_impl; [exact Ha|]; intros j; by apply tree_ok_le).
  apply (tree_ok_le 12); [done|]. apply (obj_ok 11); [done|].
  repeat match goal with |- Forall _ (_ ++ _) => apply fields_app end;
    [auto 3 with fields..| |by apply (ojson_ok 10)|by apply (ojson_ok 10)].
  apply field_cons; [done|by apply (tree_ok_le 8)|]. apply field_cons; [done| |done].
  apply (tree_ok_le 1); [done|]. apply (obj_ok 0); [done|]. auto with fields.
Qed.
Next Obligation. intros c Hc. split_and!; [done|done|done|done|by repeat constructor]. Qed.
Next Obligation. by intros r [? _]. Qed.
End virtual.

(** ** Messages *)

Section messages.
Context {R : Type} `{Typed R}.










End messages.


End ReportJson.
