(* ===== verification/Reference.v ===== *)
(** * pkg/helm3/registry/reference.go: the names of charts

    Parsing a chart reference into repository and tag, with or without a port;
    the verdict of net/url on the repository is a parameter. *)

From S2P Require Import Prelude GoStrings.
Local Open Scope Z_scope.

Module Reference.

(** ** reference.go *)

Record Reference := mkReference { Tag : string; Repo : string }.

#[global] Instance Reference_eq : EqDecision Reference.
Proof. solve_decision. Defined.

Definition errEmptyRepo := "parsed repo was empty".
Definition errTooManyColons :=
  "ref may only contain a single colon character (:) unless specifying a port number".

(** [validPortRegEx]: its alternatives, each a sequence of digit classes
    [[lo-hi]]; the lengths of [\d{0,3}] are written out. *)
Definition validPortRegEx : list (list (Z * Z)) :=
  [[(1, 9)]; [(1, 9); (0, 9)]; [(1, 9); (0, 9); (0, 9)]; [(1, 9); (0, 9); (0, 9); (0, 9)];
   [(0, 0)];
   [(1, 5); (0, 9); (0, 9); (0, 9); (0, 9)];
   [(6, 6); (0, 4); (0, 9); (0, 9); (0, 9)];
   [(6, 6); (5, 5); (0, 4); (0, 9); (0, 9)];
   [(6, 6); (5, 5); (5, 5); (0, 2); (0, 9)];
   [(6, 6); (5, 5); (5, 5); (3, 3); (0, 5)]].

Fixpoint matches (p : list (Z * Z)) (s : string) : bool :=
  match p, s with
  | [], "" => true
  | (lo, hi) :: p', String c s' => between lo (ord c - 48) hi && matches p' s'
  | _, _ => false
  end.
Definition isValidPort (s : string) : bool := existsb (fun p => matches p s) validPortRegEx.

(** The part before the first slash: [strings.Split(s, "/")[0]]. *)
Definition firstPart (s : string) : string := default "" (head (Split s "/")).

Definition fixSplitComponents (c : list string) : list string :=
  match c with
  | c0 :: c1 :: rest =>
      match ParseInt (firstPart c1) with
      | Some _ => Join [c0; c1] ":" :: rest
      | None => c
      end
  | _ => c
  end.

(** FullName. *)
Definition FullName (ref : Reference) : string :=
  if ref.(Tag) ==s "" then ref.(Repo) else ref.(Repo) +:+ ":" +:+ ref.(Tag).

Definition validateNumColons (ref : Reference) : option string :=
  if GoStrings.Contains ref.(Tag) ":" then Some errTooManyColons
  else
    let parts := Split ref.(Repo) ":" in
    let lastIndex := (length parts - 1)%nat in
    if Nat.ltb 1 lastIndex then Some errTooManyColons
    else if Nat.ltb 0 lastIndex then
      let port := firstPart (default "" (parts !! lastIndex)) in
      if isValidPort port then None else Some errTooManyColons
    else None.

Section parse.
(** The error of net/url's [Parse]. *)
Context (url_err : string -> option string).

Definition validateRepo (ref : Reference) : option string :=
  if ref.(Repo) ==s "" then Some errEmptyRepo else url_err ("//" +:+ ref.(Repo)).

Definition validate (ref : Reference) : option string :=
  match validateRepo ref with
  | Some err => Some err
  | None => validateNumColons ref
  end.

Definition ParseReference (s : string) : result Reference :=
  if s ==s "" then Err errEmptyRepo
  else
    let splitComponents := fixSplitComponents (Split s ":") in
    if Nat.ltb 3 (length splitComponents) then Err errTooManyColons
    else
      let ref :=
        match splitComponents with
        | [a] => mkReference "" a
        | [a; b] => mkReference b a
        | [a; b; c] => mkReference c (Join [a; b] ":")
        | _ => mkReference "" ""
        end in
      match validate ref with
      | Some err => Err err
      | None => Ok ref
      end.
End parse.

(** The cases of reference_test.go, for an URL parser that accepts all. *)
Example parse_reference_test :
  let p s := match ParseReference (fun _ => None) s with Ok r => Some (r.(Repo), r.(Tag)) | Err _ => None end in
  map p [""; "my:bad:ref"; "my:really:bad:ref"; "mychart"; "mychart:1.5.0"; "myrepo/mychart:1.5.0";
         "mychart:5001:1.5.0"; "127.0.0.1:5001/mychart:1.5.0"; "localhost:5000/x/y/z";
         "localhost:5000/x/y/z:123"; "localhost:5000/x/y/z:123:x"; "localhost:5000/x/y/z:123:x:y"]
  = [None; None; None; Some ("mychart", ""); Some ("mychart", "1.5.0"); Some ("myrepo/mychart", "1.5.0");
     Some ("mychart:5001", "1.5.0"); Some ("127.0.0.1:5001/mychart", "1.5.0");
     Some ("localhost:5000/x/y/z", ""); Some ("localhost:5000/x/y/z", "123"); None; None].
Proof. vm_compute. reflexivity. Qed.

(** ** References: properties *)

(** Digits within the classes of a sequence. *)
Definition within (p : list (Z * Z)) (ds : list Z) : Prop := Forall2 (fun r d => r.1 <= d <= r.2) p ds.

Lemma matches_digits p s : matches p s = true -> exists ds, within p ds /\ s = digits_of ds.
Proof.
  revert s. induction p as [|[lo hi] p IH]; intros [|c s] H; try done; simpl in H.
  - exists []. split; [constructor|done].
  - apply andb_true_iff in H as [Hc Hs]. apply andb_true_iff in Hc. rewrite !Z.leb_le in Hc.
    apply IH in Hs as (ds & ? & ->). exists ((ord c - 48) :: ds). split; [by constructor|].
    simpl. unfold digit. by rewrite Zplus_minus, chr_ord.
Qed.

Lemma digits_match p ds : Forall (fun r => 0 <= r.1 /\ r.2 <= 9) p -> within p ds ->
  matches p (digits_of ds) = true.
Proof.
  intros Hp. induction 1 as [|[lo hi] d p ds Hd _ IH]; [done|]. inversion Hp; subst. simpl in *.
  destruct (digit_is d) as [_ ->]; [lia|]. rewrite IH, andb_true_r by done.
  apply andb_true_iff. rewrite !Z.leb_le. lia.
Qed.

Lemma isValidPort_intro p ds : In p validPortRegEx -> within p ds ->
  isValidPort (digits_of ds) = true.
Proof.
  intros Hp Hd. apply existsb_exists. exists p. split; [done|]. apply digits_match; [|done].
  simpl in Hp. repeat (destruct Hp as [<-|Hp]); try done;
    repeat (constructor; [simpl; lia|]); constructor.
Qed.

(** The digits of a number in the range of ports. *)
Ltac pick K p x ds :=
  apply (K p x ds); [simpl; tauto|repeat constructor; simpl; lia|lia|
    repeat constructor; simpl; lia|unfold number; simpl; lia].

Lemma port_digits n : 0 <= n <= 65535 -> isValidPort (FormatInt n) = true.
Proof.
  intros Hn.
  pose (a := n / 10000). pose (b := n / 1000 mod 10). pose (c := n / 100 mod 10).
  pose (d := n / 10 mod 10). pose (e := n mod 10).
  assert (n = 10000 * a + 1000 * b + 100 * c + 10 * d + e /\ 0 <= a <= 6 /\ 0 <= b <= 9 /\
    0 <= c <= 9 /\ 0 <= d <= 9 /\ 0 <= e <= 9) as (E & Ha & Hb & Hc & Hd & He)
    by (unfold a, b, c, d, e; Z.div_mod_to_equations; lia).
  clearbody a b c d e.
  assert (forall p x ds, In p validPortRegEx -> within p (x :: ds) -> 1 <= x <= 9 ->
    Forall (fun d => 0 <= d < 10) ds -> n = number (x :: ds) -> isValidPort (FormatInt n) = true) as K.
  { intros p x ds Hp Hw Hx Hds ->. rewrite (proj1 (FormatInt_digits x ds Hx Hds)).
    by apply isValidPort_intro with p. }
  destruct (decide (n < 10)); [destruct (decide (n = 0)) as [->|]; [reflexivity|pick K [(1, 9)] e (@nil Z)]|].
  destruct (decide (n < 100)); [pick K [(1, 9); (0, 9)] d [e]|].
  destruct (decide (n < 1000)); [pick K [(1, 9); (0, 9); (0, 9)] c [d; e]|].
  destruct (decide (n < 10000)); [pick K [(1, 9); (0, 9); (0, 9); (0, 9)] b [c; d; e]|].
  destruct (decide (n < 60000)); [pick K [(1, 5); (0, 9); (0, 9); (0, 9); (0, 9)] a [b; c; d; e]|].
  destruct (decide (n < 65000)); [pick K [(6, 6); (0, 4); (0, 9); (0, 9); (0, 9)] a [b; c; d; e]|].
  destruct (decide (n < 65500)); [pick K [(6, 6); (5, 5); (0, 4); (0, 9); (0, 9)] a [b; c; d; e]|].
  destruct (decide (n < 65530)); [pick K [(6, 6); (5, 5); (5, 5); (0, 2); (0, 9)] a [b; c; d; e]|].
  pick K [(6, 6); (5, 5); (5, 5); (3, 3); (0, 5)] a [b; c; d; e].
Qed.

Lemma isValidPort_range s : isValidPort s = true -> exists n, 0 <= n <= 65535 /\ s = FormatInt n.
Proof.
  intros H. apply existsb_exists in H as (p & Hp & Hm). apply matches_digits in Hm as (ds & Hw & ->).
  exists (number ds). unfold within in Hw. simpl in Hp.
  repeat (destruct Hp as [<-|Hp]); try done;
    repeat match goal with
    | H : Forall2 _ (_ :: _) _ |- _ => inversion H; clear H; subst
    | H : Forall2 _ [] _ |- _ => inversion H; clear H; subst
    end; simpl in *.
  all: try (match goal with |- context [number (?d :: ?ds)] =>
      destruct (FormatInt_digits d ds) as [-> _]; [lia|repeat constructor; lia|] end;
    split; [unfold number; simpl; lia|done]).
  assert (y = 0) as -> by lia. done.
Qed.

(** The expression for port numbers accepts exactly the decimal numbers
    from 0 to 65535, written without sign and without leading zeros. *)
Theorem isValidPort_exact s :
  isValidPort s = true <-> exists n, 0 <= n <= 65535 /\ s = FormatInt n.
Proof.
  split; [apply isValidPort_range|]. intros (n & Hn & ->). by apply port_digits.
Qed.

Lemma isValidPort_Atoi s : isValidPort s = true -> is_Some (ParseInt s).
Proof.
  intros H. apply isValidPort_range in H as (n & Hn & ->).
  rewrite ParseInt_FormatInt; [eauto|]. unfold int64_min, int64_max. lia.
Qed.

Section parse_facts.
Context (url_err : string -> option string).
Notation colon_free := (Forall (fun p => ~ In_s ":"%char p)).

(** How the pieces between the colons become a reference. *)
Inductive pieces : list string -> Reference -> Prop :=
| bare c0 : pieces [c0] (mkReference "" c0)
| tagged c0 t : ParseInt (firstPart t) = None -> pieces [c0; t] (mkReference t c0)
| ported c0 c1 : is_Some (ParseInt (firstPart c1)) -> pieces [c0; c1] (mkReference "" (c0 +:+ ":" +:+ c1))
| ported_tagged c0 c1 t : is_Some (ParseInt (firstPart c1)) ->
    pieces [c0; c1; t] (mkReference t (c0 +:+ ":" +:+ c1)).

Lemma validate_repo ref : validate url_err ref = None -> ref.(Repo) <> "".
Proof. unfold validate, validateRepo. destruct (eqb_spec_s ref.(Repo) ""); done. Qed.

Lemma validate_colons c0 c1 c2 t : ~ In_s ":"%char c0 -> ~ In_s ":"%char c1 -> ~ In_s ":"%char c2 ->
  validate url_err (mkReference t (Join [c0; c1; c2] ":")) <> None.
Proof.
  intros H0 H1 H2. unfold validate, validateRepo, validateNumColons. cbn [Repo Tag].
  rewrite split_join by (done || by repeat constructor). go_cases.
Qed.

Lemma validate_port c0 c1 t : ~ In_s ":"%char c0 -> ~ In_s ":"%char c1 ->
  ParseInt (firstPart c1) = None -> validate url_err (mkReference t (Join [c0; c1] ":")) <> None.
Proof.
  intros H0 H1 Hp. unfold validate, validateRepo, validateNumColons. cbn [Repo Tag].
  rewrite split_join by (done || by repeat constructor). simpl.
  destruct (isValidPort (firstPart c1)) eqn:E; [|go_cases].
  apply isValidPort_Atoi in E. rewrite Hp in E. by destruct E.
Qed.

Lemma ParseReference_of_pieces s ref :
  s <> "" -> pieces (Split s ":") ref -> validate url_err ref = None -> ParseReference url_err s = Ok ref.
Proof.
  intros Hs Hp Hv. unfold ParseReference. destruct (eqb_spec_s s ""); [done|].
  destruct Hp as [|?? E|?? [m E]|??? [m E]]; simpl; rewrite ?E; simpl; by rewrite Hv.
Qed.

Lemma pieces_of_ParseReference s ref : ParseReference url_err s = Ok ref ->
  pieces (Split s ":") ref /\ validate url_err ref = None.
Proof.
  unfold ParseReference. destruct (eqb_spec_s s "") as [->|Hs]; [done|].
  pose proof (Split_char_free ":"%char s) as Hf.
  pose proof (split_go_nonempty (String.length s) ":" s) as Hne. fold (Split s ":") in Hne.
  destruct (Split s ":") as [|c0 [|c1 rest]]; [done|..].
  { simpl. destruct (validate url_err _) eqn:Hv; [done|]. intros [= <-]. split; [constructor|done]. }
  rewrite !Forall_cons in Hf. destruct Hf as (H0 & H1 & Hr). cbn [fixSplitComponents].
  destruct (ParseInt (firstPart c1)) as [n|] eqn:En.
  - destruct rest as [|t [|u [|v rest]]]; simpl; [..|done];
      destruct (validate url_err _) eqn:Hv; try done; intros [= <-].
    1,2: split; [constructor; by rewrite En|done].
    exfalso. revert Hv. rewrite !Forall_cons in Hr. destruct Hr as [Ht _].
    autorewrite with str. by apply (validate_colons c0 c1 t u).
  - destruct rest as [|t [|u rest]]; simpl; [..|done];
      destruct (validate url_err _) eqn:Hv; try done; intros [= <-].
    + split; [by constructor|done].
    + exfalso. revert Hv. by apply (validate_port c0 c1 t).
Qed.

(** C27. Parsing and printing chart references agree: the full name of a parsed
    reference parses to the same reference, and it is the text that was
    parsed, but for a colon at its end that names no tag. *)
Theorem ParseReference_roundtrip s ref : ParseReference url_err s = Ok ref ->
  ParseReference url_err (FullName ref) = Ok ref /\ (s = FullName ref \/ s = FullName ref +:+ ":").
Proof.
  intros H. destruct (pieces_of_ParseReference s ref H) as [Hp Hv].
  pose proof (validate_repo _ Hv) as Hr. pose proof (join_split s ":") as Hj.
  pose proof (Split_char_free ":"%char s) as Hf. change (String ":"%char "") with ":" in Hf.
  assert (s = FullName ref -> ParseReference url_err (FullName ref) = Ok ref /\
    (s = FullName ref \/ s = FullName ref +:+ ":")) as Same by (intros <-; auto).
  destruct Hp as [c0|c0 t|c0 c1 Hn|c0 c1 t Hn]; unfold FullName in *; cbn [Tag Repo] in *; simpl in Hj;
    try (by apply Same).
  - destruct (eqb_spec_s t "") as [->|]; [|by apply Same]. split; [|by right].
    rewrite !Forall_cons in Hf. apply ParseReference_of_pieces; [done| |done].
    rewrite (Split_char_single ":"%char) by tauto. constructor.
  - destruct (eqb_spec_s t "") as [->|]; [|apply Same; by rewrite <-Hj, !app_assoc_s].
    split; [|right; by rewrite <-Hj, !app_assoc_s].
    rewrite !Forall_cons in Hf. apply ParseReference_of_pieces; [done| |done].
    change (c0 +:+ ":" +:+ c1) with (Join [c0; c1] ":").
    rewrite (split_join ":"%char) by (done || (repeat constructor; tauto)). by constructor.
Qed.
End parse_facts.

Lemma ParseReference_roundtrip_witness :
  ParseReference (fun _ => None) (FullName (mkReference "1.2" "localhost:5000/x")) =
    Ok (mkReference "1.2" "localhost:5000/x").
Proof. apply (ParseReference_roundtrip (fun _ => None) "localhost:5000/x:1.2"). vm_compute. reflexivity. Defined.
End Reference.
