(* ===== verification/Registry.v ===== *)
(** * pkg/helm3/registry: the chart cache and its client

    cache.go keeps charts in an OCI store on disk; client.go moves charts
    between a registry, the cache and the caller; util.go prints sizes.  The
    OCI store of oras, the wire formats of the image specification and the
    chart loader of Helm are parameters. *)

From S2P Require Import Prelude GoStrings Json JsonFacts Files Reference.
Local Open Scope Z_scope.

Module Registry.
Import Reference.

(** ** util.go *)

(** [a / d] rounded to the nearest integer, ties to even. *)
Definition rne (a d : Z) : Z :=
  let q := a / d in
  let r := a mod d in
  if 2 * r <? d then q else if d <? 2 * r then q + 1 else if Z.even q then q else q + 1.

(** The float64 of a non-negative int64: 53 significant bits. *)
Definition float64_of (b : Z) : Z :=
  if b <? 2 ^ 53 then b else let u := 2 ^ (Z.log2 b - 52) in rne b u * u.

(** The loop that finds the unit; a number of 63 bits is divided at most five
    times. *)
Fixpoint scale (fuel : nat) (n div : Z) (exp : nat) : Z * nat :=
  match fuel with
  | O => (div, exp)
  | S f => if 1024 <=? n then scale f (n / 1024) (div * 1024) (S exp) else (div, exp)
  end.

(** [%.1f] prints the quotient, exact for a power of two, to one decimal. *)
Definition byteCountBinary (b : Z) : outcome string :=
  if b <? 1024 then Returns (FormatInt b +:+ " B")
  else
    let '(div, exp) := scale 7 (b / 1024) 1024 0 in
    match String.get exp "KMGTPE" with
    | None => Panics "index out of range"
    | Some unit =>
        let tenths := rne (10 * float64_of b) div in
        Returns (FormatInt (tenths / 10) +:+ "." +:+ FormatInt (tenths mod 10) +:+ " " +:+
                 String unit "iB")
    end.

Definition shortDigest (digest : string) : string :=
  if Nat.eqb (String.length digest) 64 then take_s 7 digest else digest.

Example byteCount_ex : map byteCountBinary [1023; 1536; 1024 * 1024 - 1; 2 ^ 63 - 1]
  = [Returns "1023 B"; Returns "1.5 KiB"; Returns "1024.0 KiB"; Returns "8.0 EiB"].
Proof. vm_compute. reflexivity. Qed.

(** ** constants.go *)

Definition newline : string := String (chr 10) "".
Definition HelmChartConfigMediaType := "application/vnd.cncf.helm.config.v1+json".
Definition HelmChartContentLayerMediaType := "application/tar+gzip".
Definition KnownMediaTypes : list string := [HelmChartConfigMediaType; HelmChartContentLayerMediaType].

(** ** What the package takes from others *)

(** Descriptor and manifest of the image specification. *)
Record Descriptor := mkDescriptor {
  MediaType : string; Digest : string; Size : Z; Annotations : gmap string string }.
#[global] Instance Descriptor_eq : EqDecision Descriptor.
Proof. solve_decision. Defined.
Record Manifest := mkManifest { SchemaVersion : Z; Config : Descriptor; Layers : list Descriptor }.
Definition AnnotationRefName := "org.opencontainers.image.ref.name".
Definition MediaTypeImageManifest := "application/vnd.oci.image.manifest.v1+json".

(** What a blob's [Info] says. *)
Record BlobInfo := mkInfo { iSize : Z; iDigest : string; iCreatedAt : Z }.

(** The OCI store of oras, with the writer of the containerd store under it:
    [Commit] says whether its error is "already exists".  [references],
    [addReference] and [deleteReference] are the store's methods of these
    names, the capitalised ones below are the cache's. *)
Class OCIStore (W : Type) := mkOCIStore {
  references : W -> list Descriptor;
  addReference : string -> Descriptor -> W -> W;
  deleteReference : string -> W -> W;
  SaveIndex : W -> W * option string;
  Info : W -> string -> result BlobInfo;
  ReaderAt : W -> Descriptor -> result string;
  Writer : string -> W -> W * option string;
  Write : string -> W -> W * option string;
  Commit : string -> W -> W * option (bool * string);
  Close : W -> W * option string
}.

(** Helm's chart and its metadata, and the formats of Helm and of the image
    specification. *)
Record Metadata := mkMetadata { mName : string; mVersion : string; mType : string }.
Class Formats (Chart : Type) := mkFormats {
  metadata : Chart -> option Metadata;
  marshalMetadata : Chart -> result string;
  LoadArchive : string -> result Chart;
  marshalManifest : Manifest -> result string;
  unmarshalManifest : string -> result Manifest;
  (** go-digest *)
  FromBytes : string -> string;
  Hex : string -> outcome string;
  (** [Add] of the memory store *)
  memoryAdd : string -> string -> Descriptor
}.

(** Where a component writes its messages: nowhere, or to a writer of the
    caller. *)
Inductive IoWriter := Discard | WriterTo (name : string).

(** ** cache.go *)

Section cache.
Context {W Chart : Type} `{OCIStore W} `{Formats Chart} (NewOCIStore : string -> result W).
(** What [chartutil.Save] makes of a chart and a directory, the path of the
    archive, and what [ReadFile] finds there: an archive carries the time, so
    these are the calls of one operation, not functions of the chart. *)
Context (Save : Chart -> string -> result string) (ReadFile : string -> result string).

(** [Cache]: the store is opened by the first operation that needs it.  The
    memory store only turns bytes into a descriptor ([memoryAdd]). *)
Record Cache := mkCache { debug : bool; cacheOut : IoWriter; rootDir : string; ociStore : option W }.
Definition with_store (w : W) (cache : Cache) : Cache :=
  mkCache cache.(debug) cache.(cacheOut) cache.(rootDir) (Some w).

(** cache_opts.go: an option sets one field. *)
Definition CacheOption : Type := Cache -> Cache.
Definition CacheOptDebug (debug : bool) : CacheOption :=
  fun cache => mkCache debug cache.(cacheOut) cache.(rootDir) cache.(ociStore).
Definition CacheOptWriter (out : IoWriter) : CacheOption :=
  fun cache => mkCache cache.(debug) out cache.(rootDir) cache.(ociStore).
Definition CacheOptRoot (rootDir : string) : CacheOption :=
  fun cache => mkCache cache.(debug) cache.(cacheOut) rootDir cache.(ociStore).

Definition NewCache (opts : list CacheOption) : result Cache :=
  let cache := foldl (fun cache opt => opt cache) (mkCache false Discard "" None) opts in
  if cache.(rootDir) ==s "" then Err "must set cache root dir on initialization"
  else Ok cache.

Record CacheRefSummary := mkSummary {
  sName : string; sRepo : string; sTag : string; Exists : bool;
  sManifest : option Descriptor; sConfig : option Descriptor; ContentLayer : option Descriptor;
  sSize : Z; sDigest : string; CreatedAt : Z; sChart : option Chart
}.
Definition emptySummary (ref : Reference) : CacheRefSummary :=
  mkSummary (FullName ref) ref.(Repo) ref.(Tag) false None None None 0 "" 0 None.

Definition init (cache : Cache) : result (Cache * W) :=
  match cache.(ociStore) with
  | Some w => Ok (cache, w)
  | None => w ← NewOCIStore cache.(rootDir); Ok (with_store w cache, w)
  end.

(** [fetchBlob]: a buffer of the descriptor's size, filled from the blob. *)
Definition fetchBlob (w : W) (desc : Descriptor) : outcome (result string) :=
  match ReaderAt w desc with
  | Err e => Returns (Err e)
  | Ok content =>
      if desc.(Size) <? 0 then Panics "makeslice: len out of range"
      else if Z.of_nat (String.length content) <? desc.(Size) then Returns (Err "EOF")
      else Returns (Ok (take_s (Z.to_nat desc.(Size)) content))
  end.

(** The last layer with the media type of charts. *)
Definition findContentLayer (layers : list Descriptor) : option Descriptor :=
  last (filter (fun l => l.(MediaType) = HelmChartContentLayerMediaType) layers).

(** The body of the loop of [FetchReference] for a reference of the name: the
    summary so far is returned with an error as without. *)
Definition loadSummary (w : W) (r : CacheRefSummary) (desc : Descriptor)
    : outcome (CacheRefSummary * option string) :=
  let r := mkSummary r.(sName) r.(sRepo) r.(sTag) true r.(sManifest) r.(sConfig) r.(ContentLayer)
             r.(sSize) r.(sDigest) r.(CreatedAt) r.(sChart) in
  manifestBytes ← fetchBlob w desc;
  match manifestBytes ≫= unmarshalManifest with
  | Err err => Returns (r, Some err)
  | Ok manifest =>
      let r := mkSummary r.(sName) r.(sRepo) r.(sTag) true (Some desc) (Some manifest.(Config))
                 r.(ContentLayer) r.(sSize) r.(sDigest) r.(CreatedAt) r.(sChart) in
      let numLayers := Z.of_nat (length manifest.(Layers)) in
      if negb (numLayers =? 1) then
        Returns (r, Some ("manifest does not contain exactly 1 layer (total: " +:+ FormatInt numLayers +:+ ")"))
      else
        match findContentLayer manifest.(Layers) with
        | None =>
            Returns (r, Some ("manifest does not contain a layer with mediatype " +:+
                              HelmChartContentLayerMediaType))
        | Some contentLayer =>
            if contentLayer.(Size) =? 0 then
              Returns (r, Some ("manifest layer with mediatype " +:+ HelmChartContentLayerMediaType +:+
                                " is of size 0"))
            else
              let r := mkSummary r.(sName) r.(sRepo) r.(sTag) true r.(sManifest) r.(sConfig)
                         (Some contentLayer) r.(sSize) r.(sDigest) r.(CreatedAt) r.(sChart) in
              match Info w contentLayer.(Digest) with
              | Err err => Returns (r, Some err)
              | Ok info =>
                  let r := mkSummary r.(sName) r.(sRepo) r.(sTag) true r.(sManifest) r.(sConfig)
                             r.(ContentLayer) info.(iSize) info.(iDigest) info.(iCreatedAt) r.(sChart) in
                  contentBytes ← fetchBlob w contentLayer;
                  match contentBytes ≫= LoadArchive with
                  | Err err => Returns (r, Some err)
                  | Ok ch =>
                      Returns (mkSummary r.(sName) r.(sRepo) r.(sTag) true r.(sManifest) r.(sConfig)
                                 r.(ContentLayer) r.(sSize) r.(sDigest) r.(CreatedAt) (Some ch), None)
                  end
              end
        end
  end.

Definition refName (desc : Descriptor) : string := default "" (desc.(Annotations) !! AnnotationRefName).

Fixpoint fetchLoop (w : W) (r : CacheRefSummary) (descs : list Descriptor)
    : outcome (CacheRefSummary * option string) :=
  match descs with
  | [] => Returns (r, None)
  | desc :: descs' =>
      if refName desc ==s r.(sName) then
        '(r, err) ← loadSummary w r desc;
        match err with
        | Some e => Returns (r, Some e)
        | None => fetchLoop w r descs'
        end
      else fetchLoop w r descs'
  end.

(** A nil summary only when the store cannot be opened. *)
Definition FetchReference (cache : Cache) (ref : Reference)
    : outcome (Cache * option CacheRefSummary * option string) :=
  match init cache with
  | Err err => Returns (cache, None, Some err)
  | Ok (cache, w) =>
      '(r, err) ← fetchLoop w (emptySummary ref) (references w);
      Returns (cache, Some r, err)
  end.

(** [storeBlob]: the store, and whether the blob was there already or the
    error. *)
Definition storeBlob (w : W) (blobBytes : string) : outcome (W * result bool) :=
  hex ← Hex (FromBytes blobBytes);
  match Writer hex w with
  | (w, Some err) => Returns (w, Err err)
  | (w, None) =>
      match Write blobBytes w with
      | (w, Some err) => Returns (w, Err err)
      | (w, None) =>
          let close w exists_ :=
            match Close w with
            | (w, Some err) => Returns (w, Err err)
            | (w, None) => Returns (w, Ok exists_)
            end in
          match Commit blobBytes w with
          | (w, Some (false, err)) => Returns (w, Err err)
          | (w, Some (true, _)) => close w true
          | (w, None) => close w false
          end
      end
  end.

(** [saveChartConfig] and [saveChartContentLayer] differ in the bytes and the
    media type. *)
Definition saveBlob (w : W) (bytes : result string) (mediaType : string)
    : outcome (W * result Descriptor) :=
  match bytes with
  | Err err => Returns (w, Err err)
  | Ok b =>
      '(w, stored) ← storeBlob w b;
      match stored with
      | Err err => Returns (w, Err err)
      | Ok _ => Returns (w, Ok (memoryAdd mediaType b))
      end
  end.
Definition saveChartConfig (w : W) (ch : Chart) := saveBlob w (marshalMetadata ch) HelmChartConfigMediaType.
(** The bytes of the archive, which is removed again; an error of [MkdirAll]
    is not looked at and shows as one of [Save]. *)
Definition archiveBytes (rootDir : string) (ch : Chart) : result string :=
  let destDir := Files.pathJoin rootDir ".build" in
  match Save ch destDir with
  | Err err => Err ("failed to save: " +:+ err)
  | Ok tmpFile => ReadFile tmpFile
  end.
Definition saveChartContentLayer (rootDir : string) (w : W) (ch : Chart) :=
  saveBlob w (archiveBytes rootDir ch) HelmChartContentLayerMediaType.

Definition saveChartManifest (w : W) (config contentLayer : Descriptor) : outcome (W * result Descriptor) :=
  match marshalManifest (mkManifest 2 config [contentLayer]) with
  | Err err => Returns (w, Err err)
  | Ok manifestBytes =>
      '(w, stored) ← storeBlob w manifestBytes;
      match stored with
      | Err err => Returns (w, Err err)
      | Ok _ => Returns (w, Ok (mkDescriptor MediaTypeImageManifest (FromBytes manifestBytes)
                                 (Z.of_nat (String.length manifestBytes)) ∅))
      end
  end.

(** [StoreReference]: what the store holds before does not matter but for
    [Exists]. *)
Definition StoreReference (cache : Cache) (ref : Reference) (ch : Chart)
    : outcome (Cache * option CacheRefSummary * option string) :=
  match init cache with
  | Err err => Returns (cache, None, Some err)
  | Ok (cache, w) =>
      let back w := with_store w cache in
      '(existing, _) ← fetchLoop w (emptySummary ref) (references w);
      let r := mkSummary (FullName ref) ref.(Repo) ref.(Tag) existing.(Exists) None None None 0 "" 0 (Some ch) in
      '(w, config) ← saveChartConfig w ch;
      match config with
      | Err err => Returns (back w, Some r, Some err)
      | Ok config =>
          let r := mkSummary r.(sName) r.(sRepo) r.(sTag) r.(Exists) None (Some config) None 0 "" 0 (Some ch) in
          '(w, layer) ← saveChartContentLayer cache.(rootDir) w ch;
          match layer with
          | Err err => Returns (back w, Some r, Some err)
          | Ok contentLayer =>
              let r := mkSummary r.(sName) r.(sRepo) r.(sTag) r.(Exists) None (Some config)
                         (Some contentLayer) 0 "" 0 (Some ch) in
              match Info w contentLayer.(Digest) with
              | Err err => Returns (back w, Some r, Some err)
              | Ok info =>
                  let r := mkSummary r.(sName) r.(sRepo) r.(sTag) r.(Exists) None (Some config)
                             (Some contentLayer) info.(iSize) info.(iDigest) info.(iCreatedAt) (Some ch) in
                  '(w, manifest) ← saveChartManifest w config contentLayer;
                  match manifest with
                  | Err err => Returns (back w, Some r, Some err)
                  | Ok manifest =>
                      Returns (back w,
                        Some (mkSummary r.(sName) r.(sRepo) r.(sTag) r.(Exists) (Some manifest)
                                r.(sConfig) r.(ContentLayer) r.(sSize) r.(sDigest) r.(CreatedAt)
                                r.(sChart)), None)
                  end
              end
          end
      end
  end.

(** A reference that cannot be read is not deleted. *)
Definition DeleteReference (cache : Cache) (ref : Reference)
    : outcome (Cache * option CacheRefSummary * option string) :=
  '(cache, r, err) ← FetchReference cache ref;
  match r, err with
  | Some s, None =>
      if s.(Exists) then
        match cache.(ociStore) with
        | Some w =>
            let '(w, err) := SaveIndex (deleteReference s.(sName) w) in
            Returns (with_store w cache, r, err)
        | None => Panics "invalid memory address or nil pointer dereference"
        end
      else Returns (cache, r, None)
  | _, _ => Returns (cache, r, err)
  end.

Definition AddManifest (cache : Cache) (ref : Reference) (manifest : Descriptor)
    : Cache * option string :=
  match init cache with
  | Err err => (cache, Some err)
  | Ok (cache, w) =>
      let '(w, err) := SaveIndex (addReference (FullName ref) manifest w) in
      (with_store w cache, err)
  end.

(** [ListReferences]: references without a name are passed over, under debug
    with a warning to the writer of the cache, which panics when the digest is
    malformed; the first that cannot be parsed or fetched ends the list.
    [said] is what was written. *)
Section listing.
Context (url_err : string -> option string).
Definition noName (digest : string) : string := "warning: found manifest without name: " +:+ digest.
Fixpoint listLoop (cache : Cache) (said : string) (rr : list CacheRefSummary) (descs : list Descriptor)
    : outcome (Cache * string * list CacheRefSummary * option string) :=
  match descs with
  | [] => Returns (cache, said, rr, None)
  | desc :: descs' =>
      if refName desc ==s "" then
        if cache.(debug) then
          hex ← Hex desc.(Digest);
          listLoop cache (said +:+ noName hex) rr descs'
        else listLoop cache said rr descs'
      else
        match ParseReference url_err (refName desc) with
        | Err err => Returns (cache, said, rr, Some err)
        | Ok ref =>
            '(cache, r, err) ← FetchReference cache ref;
            match err, r with
            | Some e, _ => Returns (cache, said, rr, Some e)
            | None, Some r => listLoop cache said (rr ++ [r]) descs'
            | None, None => Panics "unreachable"
            end
        end
  end.
Definition ListReferences (cache : Cache) : outcome (Cache * string * list CacheRefSummary * option string) :=
  match init cache with
  | Err err => Returns (cache, "", [], Some err)
  | Ok (cache, w) => listLoop cache "" [] (references w)
  end.
End listing.
End cache.
Arguments Cache W : clear implicits.
Arguments CacheRefSummary Chart : clear implicits.

(** ** client.go *)

(** The client the agent builds: its writer is also the cache's.  Resolver
    and authorizer only go to oras. *)
Record Client (W : Type) := mkClient { out : string; cache : Cache W }.
Arguments mkClient {W} _ _.
Arguments out {W} _.
Arguments cache {W} _.

Section client.
Context {W Chart : Type} `{OCIStore W} `{Formats Chart} (NewOCIStore : string -> result W).
Context (Save : Chart -> string -> result string) (ReadFile : string -> result string).
(** oras: [Pull] into the store returns the manifest's descriptor, [Pull]
    into a memory store the layers and what it holds; [Push] its error. *)
Context (orasPull : string -> W -> W * result Descriptor)
  (orasPullMemory : string -> result (list Descriptor * (Descriptor -> option string)))
  (orasPush : string -> W -> list Descriptor -> Descriptor -> option string).

Definition say {A} (text : string) (c : Client A) : Client A := mkClient (c.(out) +:+ text) c.(cache).
Definition with_cache (k : Cache W) (c : Client W) : Client W := mkClient c.(out) k.

(** The lines printed for a reference; a nil pointer in it panics. *)
Definition summaryText (r : CacheRefSummary Chart) : outcome string :=
  match r.(sManifest), r.(sChart) ≫= metadata with
  | Some manifest, Some m =>
      digest ← Hex manifest.(Digest);
      size ← byteCountBinary r.(sSize);
      Returns ("ref:     " +:+ r.(sName) +:+ newline +:+
               "digest:  " +:+ digest +:+ newline +:+
               "size:    " +:+ size +:+ newline +:+
               "name:    " +:+ m.(mName) +:+ newline +:+
               "version: " +:+ m.(mVersion) +:+ newline)
  | _, _ => Panics "invalid memory address or nil pointer dereference"
  end.
Definition printCacheRefSummary (c : Client W) (r : CacheRefSummary Chart) : outcome (Client W) :=
  text ← summaryText r; Returns (say text c).

(** [FetchReference] through the client. *)
Definition fetch (c : Client W) (ref : Reference)
    : outcome (Client W * option (CacheRefSummary Chart) * option string) :=
  '(k, r, err) ← FetchReference NewOCIStore c.(cache) ref; Returns (with_cache k c, r, err).

Definition chartNotFound (name : string) : string := "Chart not found: " +:+ name.

Definition PushChart (c : Client W) (ref : Reference) : outcome (Client W * option string) :=
  '(c, r, err) ← fetch c ref;
  match err, r with
  | Some e, _ => Returns (c, Some e)
  | None, None => Panics "unreachable"
  | None, Some r =>
      if negb r.(Exists) then Returns (c, Some (chartNotFound r.(sName)))
      else
        let c := say ("The push refers to repository [" +:+ r.(sRepo) +:+ "]" +:+ newline) c in
        c ← printCacheRefSummary c r;
        match r.(ContentLayer), r.(sConfig), c.(cache).(ociStore) with
        | Some layer, Some config, Some w =>
            match orasPush r.(sName) w [layer] config with
            | Some e => Returns (c, Some e)
            | None =>
                size ← byteCountBinary r.(sSize);
                Returns (say (r.(sTag) +:+ ": pushed to remote (1 layer, " +:+ size +:+ " total)" +:+ newline) c,
                         None)
            end
        | _, _, _ => Panics "invalid memory address or nil pointer dereference"
        end
  end.

(** The buffer of the content layer; it is empty when there is an error. *)
Definition PullChart (c : Client W) (ref : Reference) : Client W * result string :=
  if ref.(Tag) ==s "" then (c, Err "tag explicitly required")
  else
    let c := say (ref.(Tag) +:+ ": Pulling from " +:+ ref.(Repo) +:+ newline) c in
    (c, '(layers, store) ← orasPullMemory (FullName ref);
        match layers with
        | [] => Err "manifest does not contain at least 1 layer (total: 0)"
        | _ =>
            match findContentLayer layers with
            | None => Err ("manifest does not contain a layer with mediatype " +:+ HelmChartContentLayerMediaType)
            | Some contentLayer =>
                match store contentLayer with
                | None => Err ("Unable to retrieve blob with digest " +:+ contentLayer.(Digest))
                | Some b => Ok b
                end
            end
        end).

Definition PullChartToCache (c : Client W) (ref : Reference) : outcome (Client W * option string) :=
  if ref.(Tag) ==s "" then Returns (c, Some "tag explicitly required")
  else
    '(c, existing, err) ← fetch c ref;
    match err, existing, c.(cache).(ociStore) with
    | Some e, _, _ => Returns (c, Some e)
    | None, Some existing, Some w =>
        let c := say (ref.(Tag) +:+ ": Pulling from " +:+ ref.(Repo) +:+ newline) c in
        let '(w, pulled) := orasPull (FullName ref) w in
        let c := with_cache (with_store w c.(cache)) c in
        match pulled with
        | Err e => Returns (c, Some e)
        | Ok manifest =>
            let '(k, err) := AddManifest NewOCIStore c.(cache) ref manifest in
            let c := with_cache k c in
            match err with
            | Some e => Returns (c, Some e)
            | None =>
                '(c, r, err) ← fetch c ref;
                match err, r with
                | Some e, _ => Returns (c, Some e)
                | None, None => Panics "unreachable"
                | None, Some r =>
                    if negb r.(Exists) then Returns (c, Some (chartNotFound r.(sName)))
                    else
                      c ← printCacheRefSummary c r;
                      let status :=
                        if existing.(Exists) then "Status: Chart is up to date for "
                        else "Status: Downloaded newer chart for " in
                      Returns (say (status +:+ FullName ref +:+ newline) c, None)
                end
            end
        end
    | _, _, _ => Panics "unreachable"
    end.

Definition SaveChart (c : Client W) (ch : Chart) (ref : Reference) : outcome (Client W * option string) :=
  '(k, r, err) ← StoreReference NewOCIStore Save ReadFile c.(cache) ref ch;
  let c := with_cache k c in
  match err, r with
  | Some e, _ => Returns (c, Some e)
  | None, None => Panics "unreachable"
  | None, Some r =>
      c ← printCacheRefSummary c r;
      match r.(sManifest) with
      | None => Panics "invalid memory address or nil pointer dereference"
      | Some manifest =>
          let '(k, err) := AddManifest NewOCIStore c.(cache) ref manifest in
          let c := with_cache k c in
          match err with
          | Some e => Returns (c, Some e)
          | None => Returns (say (r.(sTag) +:+ ": saved" +:+ newline) c, None)
          end
      end
  end.

Definition LoadChart (c : Client W) (ref : Reference) : outcome (Client W * result (option Chart)) :=
  '(c, r, err) ← fetch c ref;
  match err, r with
  | Some e, _ => Returns (c, Err e)
  | None, None => Panics "unreachable"
  | None, Some r =>
      if negb r.(Exists) then Returns (c, Err (chartNotFound (FullName ref)))
      else c ← printCacheRefSummary c r; Returns (c, Ok r.(sChart))
  end.

Definition RemoveChart (c : Client W) (ref : Reference) : outcome (Client W * option string) :=
  '(k, r, err) ← DeleteReference (Chart := Chart) NewOCIStore c.(cache) ref;
  let c := with_cache k c in
  match err, r with
  | Some e, _ => Returns (c, Some e)
  | None, None => Panics "unreachable"
  | None, Some r =>
      if negb r.(Exists) then Returns (c, Some (chartNotFound (FullName ref)))
      else Returns (say (r.(sTag) +:+ ": removed" +:+ newline) c, None)
  end.
End client.

(** ** What the store and the formats promise *)

Definition annotated (n : string) (d : Descriptor) : Descriptor :=
  mkDescriptor d.(MediaType) d.(Digest) d.(Size) (<[AnnotationRefName := n]> d.(Annotations)).

(** Descriptors and manifests whose strings [encoding/json] keeps. *)
Definition desc_ok (d : Descriptor) : Prop :=
  valid_utf8 d.(MediaType) = true /\ valid_utf8 d.(Digest) = true /\ valid_smap d.(Annotations).
Definition manifest_ok (m : Manifest) : Prop := desc_ok m.(Config) /\ Forall desc_ok m.(Layers).

(** The index maps a name to one descriptor; blobs are found by their digest,
    and only a commit changes what is found; a blob that can be read has an
    [Info]; the memory store describes bytes without annotations; a digest is
    text; a manifest of valid strings can be read back. *)
Class StoreLaws (W Chart : Type) `{OCIStore W} `{Formats Chart} := {
  references_add n d w : n <> "" ->
    filter (fun x => refName x = n) (references (addReference n d w)) = [annotated n d];
  references_delete n w : n <> "" ->
    filter (fun x => refName x = n) (references (deleteReference n w)) = [];
  references_index w : references (SaveIndex w).1 = references w;
  reader_add n d w x : ReaderAt (addReference n d w) x = ReaderAt w x;
  reader_index w x : ReaderAt (SaveIndex w).1 x = ReaderAt w x;
  reader_writer h w x : ReaderAt (Writer h w).1 x = ReaderAt w x;
  reader_write b w x : ReaderAt (Write b w).1 x = ReaderAt w x;
  reader_close w x : ReaderAt (Close w).1 x = ReaderAt w x;
  reader_commit b w w' e x : Commit b w = (w', e) -> (forall t, e <> Some (false, t)) ->
    ReaderAt w' x = if decide (x.(Digest) = FromBytes b) then Ok b else ReaderAt w x;
  info_reader w x t : ReaderAt w x = Ok t ->
    exists i, Info w x.(Digest) = Ok i /\ i.(iSize) <= int64_max;
  memoryAdd_fields mt b : let d := memoryAdd mt b in
    d.(MediaType) = mt /\ d.(Digest) = FromBytes b /\ d.(Size) = Z.of_nat (String.length b) /\
    d.(Annotations) = ∅;
  FromBytes_text b : valid_utf8 (FromBytes b) = true;
  manifest_roundtrip m b : manifest_ok m -> marshalManifest m = Ok b -> unmarshalManifest b = Ok m
}.

(** ** Lemmas *)

Lemma scale_unit fuel n div exp : 0 <= n < 1024 ^ Z.of_nat fuel -> (0 < fuel)%nat ->
  ((scale fuel n div exp).2 <= exp + (fuel - 1))%nat.
Proof.
  revert n div exp. induction fuel as [|fuel IH]; intros n div exp Hn Hf; [lia|]. simpl.
  destruct (Z.leb_spec 1024 n) as [Hge|]; [|simpl; lia].
  destruct fuel as [|fuel]; [simpl in Hn; lia|].
  specialize (IH (n / 1024) (div * 1024) (S exp)). rewrite Nat2Z.inj_succ, Z.pow_succ_r in Hn by lia.
  assert (0 <= n / 1024 < 1024 ^ Z.of_nat (S fuel))
    by (split; [apply Z.div_pos|apply Z.div_lt_upper_bound]; lia).
  specialize (IH ltac:(done) ltac:(lia)). lia.
Qed.

Lemma scale_fuel f g n div exp : 0 <= n < 1024 ^ Z.of_nat f -> (f <= g)%nat -> (0 < f)%nat ->
  scale g n div exp = scale f n div exp.
Proof.
  revert g n div exp. induction f as [|f IH]; intros [|g] n div exp Hn Hg Hf; try lia. simpl.
  destruct (Z.leb_spec 1024 n) as [Hge|]; [|done].
  destruct f as [|f]; [simpl in Hn; lia|]. rewrite Nat2Z.inj_succ, Z.pow_succ_r in Hn by lia.
  apply IH; [|lia..]. split; [apply Z.div_pos|apply Z.div_lt_upper_bound]; lia.
Qed.

(** An int64 never runs out of units. *)
Lemma byteCountBinary_returns b : b <= int64_max -> exists t, byteCountBinary b = Returns t.
Proof.
  intros Hb. unfold byteCountBinary. destruct (Z.ltb_spec b 1024); [eauto|].
  assert (0 <= b / 1024 < 1024 ^ Z.of_nat 6)
    by (unfold int64_max in Hb; split; [apply Z.div_pos|apply Z.div_lt_upper_bound]; lia).
  rewrite (scale_fuel 6) by (done || lia).
  pose proof (scale_unit 6 (b / 1024) 1024 0 ltac:(done) ltac:(lia)) as Hu.
  destruct (scale 6 (b / 1024) 1024 0) as [div exp]. simpl in Hu.
  do 6 (destruct exp as [|exp]; [simpl; eauto|]). lia.
Qed.

Lemma take_all_s s : take_s (String.length s) s = s.
Proof. induction s as [|c s IH]; [done|]. simpl. by rewrite IH. Qed.

Section facts.
Context {W Chart : Type} `{OCIStore W} `{Formats Chart} (NewOCIStore : string -> result W).
Implicit Types (r : CacheRefSummary Chart) (w : W).

Lemma fetchBlob_whole w desc t : ReaderAt w desc = Ok t -> desc.(Size) = Z.of_nat (String.length t) ->
  fetchBlob w desc = Returns (Ok t).
Proof.
  intros E S. unfold fetchBlob. rewrite E, S, Z.ltb_irrefl, Nat2Z.id, take_all_s.
  destruct (Z.ltb_spec (Z.of_nat (String.length t)) 0); [lia|done].
Qed.

Lemma loadSummary_name w r desc r' e : loadSummary w r desc = Returns (r', e) -> r'.(sName) = r.(sName).
Proof.
  unfold loadSummary. intros E. apply outcome_bind_returns in E as (mb & _ & E).
  go_cases_in E. apply outcome_bind_returns in E as (cb & _ & E). go_cases_in E.
Qed.

(** A summary without error is complete. *)
Lemma loadSummary_complete w r desc r' : loadSummary w r desc = Returns (r', None) ->
  r'.(Exists) = true /\ r'.(sManifest) = Some desc /\ is_Some r'.(sChart).
Proof.
  unfold loadSummary. intros E. apply outcome_bind_returns in E as (mb & _ & E).
  go_cases_in E. apply outcome_bind_returns in E as (cb & _ & E). go_cases_in E.
Qed.

Lemma fetchLoop_filter w r descs :
  fetchLoop w r descs = fetchLoop w r (filter (fun x => refName x = r.(sName)) descs).
Proof.
  revert r. induction descs as [|d descs IH]; intros r; [done|]. rewrite filter_cons. simpl.
  destruct (eqb_spec_s (refName d) r.(sName)) as [E|E].
  - rewrite decide_True by done. simpl. rewrite E, eqb_refl_s.
    destruct (loadSummary w r d) as [[r' [e|]]| |] eqn:El; simpl; try done.
    rewrite IH. by rewrite (loadSummary_name _ _ _ _ _ El).
  - rewrite decide_False by done. apply IH.
Qed.

Lemma fetchLoop_name w r descs r' e : fetchLoop w r descs = Returns (r', e) -> r'.(sName) = r.(sName).
Proof.
  revert r. induction descs as [|d descs IH]; intros r E; simpl in E; [by simplify_eq|].
  destruct (refName d ==s r.(sName)); [|eauto].
  apply outcome_bind_returns in E as ([r1 [e1|]] & El & E); apply loadSummary_name in El.
  - by simplify_eq.
  - rewrite <-El. eauto.
Qed.

Lemma fetchLoop_complete w r descs r' : fetchLoop w r descs = Returns (r', None) ->
  (r.(Exists) = true -> is_Some r.(sChart)) -> r'.(Exists) = true -> is_Some r'.(sChart).
Proof.
  revert r. induction descs as [|d descs IH]; intros r E Hr Hx; simpl in E.
  - simplify_eq. auto.
  - destruct (refName d ==s r.(sName)); [|eauto].
    apply outcome_bind_returns in E as ([r1 [e|]] & El & E); [done|].
    apply IH in E; [done| |done]. intros _. by apply loadSummary_complete in El as (_ & _ & ?).
Qed.

Lemma init_opens k k' w : init NewOCIStore k = Ok (k', w) -> k'.(ociStore) = Some w.
Proof.
  unfold init. destruct (ociStore k) as [w'|] eqn:E; [by intros [= <- <-]|].
  destruct (NewOCIStore (rootDir k)) as [w'|]; [|done]. by intros [= <- <-].
Qed.

(** With an open store a fetch leaves the client as it is. *)
Lemma fetch_open (c : Client W) ref w : c.(cache).(ociStore) = Some w ->
  fetch (Chart := Chart) NewOCIStore c ref =
    '(r, err) ← fetchLoop w (emptySummary ref) (references w); Returns (c, Some r, err).
Proof.
  intros E. destruct c as [o [d kw rd st]]. simpl in E. subst st. unfold fetch, FetchReference. simpl.
  destruct (fetchLoop w _ _) as [[r err]| |]; done.
Qed.

Lemma fetch_opens (c c' : Client W) ref r e :
  fetch (Chart := Chart) NewOCIStore c ref = Returns (c', Some r, e) ->
  exists w, c'.(cache).(ociStore) = Some w /\
    fetchLoop w (emptySummary ref) (references w) = Returns (r, e).
Proof.
  unfold fetch, FetchReference, init. destruct c as [o [d kw rd st]]. simpl. intros E.
  destruct st as [w|]; simpl in E.
  - destruct (fetchLoop w _ _) as [[r' err]| |] eqn:El; simplify_eq/=. eauto.
  - destruct (NewOCIStore rd) as [w|]; [|done]. simpl in E.
    destruct (fetchLoop w _ _) as [[r' err]| |] eqn:El; simplify_eq/=. eauto.
Qed.
End facts.

(** ** Properties *)

Section properties.
Context {W Chart : Type} `{OCIStore W} `{Formats Chart} (NewOCIStore : string -> result W).
Context (orasPull : string -> W -> W * result Descriptor).

(** Printing changes the output only. *)
Lemma print_cache (c c' : Client W) (r : CacheRefSummary Chart) :
  printCacheRefSummary c r = Returns c' -> c'.(cache) = c.(cache) /\ is_Some (r.(sChart) ≫= metadata).
Proof.
  unfold printCacheRefSummary, summaryText. intros E. apply outcome_bind_returns in E as (t & E & [= <-]).
  split; [done|]. go_cases_in E.
Qed.

Lemma print_again (c1 c1' : Client W) (r : CacheRefSummary Chart) :
  printCacheRefSummary c1 r = Returns c1' ->
  exists t, forall c2 : Client W, printCacheRefSummary c2 r = Returns (say t c2).
Proof.
  unfold printCacheRefSummary. intros E. apply outcome_bind_returns in E as (t & E & _).
  exists t. intros c2. by rewrite E.
Qed.

(** A chart that was pulled into the cache can be loaded from it: after a
    pull without error, loading the same reference finds the chart, whatever
    the registry sent and whatever the cache held. *)
Theorem pulled_chart_loads (c c' : Client W) ref :
  PullChartToCache (Chart := Chart) NewOCIStore orasPull c ref = Returns (c', None) ->
  exists c'' (ch : Chart), LoadChart NewOCIStore c' ref = Returns (c'', Ok (Some ch)).
Proof.
  unfold PullChartToCache. destruct (ref.(Tag) ==s ""); [done|]. intros E.
  apply outcome_bind_returns in E as ([[c1 ex] err] & _ & E).
  destruct err; [done|]. destruct ex as [ex|]; [|done].
  destruct (c1.(cache).(ociStore)) as [w|]; [|done].
  destruct (orasPull _ w) as [w1 [m|]]; [|done].
  destruct (AddManifest _ _ _ _) as [k [e|]]; [done|].
  apply outcome_bind_returns in E as ([[c2 r] err] & Ef & E).
  destruct err; [done|]. destruct r as [r|]; [|done].
  destruct (r.(Exists)) eqn:Ex; [|done]. cbn [negb] in E.
  apply outcome_bind_returns in E as (c3 & Ep & E). simplify_eq.
  destruct (fetch_opens _ _ _ _ _ _ Ef) as (w2 & Hw & El).
  destruct (print_cache _ _ _ Ep) as [Hc _].
  unfold LoadChart. rewrite (fetch_open _ _ _ w2) by (simpl; by rewrite Hc). rewrite El. simpl.
  rewrite Ex. cbn [negb]. destruct (print_again _ _ _ Ep) as [t Ht]. rewrite Ht. simpl.
  destruct (fetchLoop_complete _ _ _ _ El) as [ch ->]; [done..|]. eauto.
Qed.

Context `{!StoreLaws W Chart}.

Lemma storeBlob_reads (w w' : W) b e x : storeBlob (Chart := Chart) w b = Returns (w', Ok e) ->
  ReaderAt w' x = if decide (x.(Digest) = FromBytes b) then Ok b else ReaderAt w x.
Proof.
  unfold storeBlob. intros E. apply outcome_bind_returns in E as (h & _ & E).
  pose proof (reader_writer h w x) as Hw. destruct (Writer h w) as [w1 [|]]; [done|]. simpl in Hw.
  pose proof (reader_write b w1 x) as Hb. destruct (Write b w1) as [w2 [|]]; [done|]. simpl in Hb.
  destruct (Commit b w2) as [w3 ce] eqn:Ec.
  assert (forall t, ce <> Some (false, t)) as Hce by (intros t ->; done).
  pose proof (reader_commit b w2 w3 ce x Ec Hce) as Hr. pose proof (reader_close w3 x) as Hl.
  rewrite Hb, Hw in Hr. rewrite <-Hr.
  destruct ce as [[[] t]|]; [|done|]; destruct (Close w3) as [w4 [|]]; simplify_eq/=; done.
Qed.

Lemma saveBlob_reads (w w' : W) bytes mt d : saveBlob (Chart := Chart) w bytes mt = Returns (w', Ok d) ->
  exists b, bytes = Ok b /\ d = memoryAdd mt b /\
    forall x, ReaderAt w' x = if decide (x.(Digest) = FromBytes b) then Ok b else ReaderAt w x.
Proof.
  unfold saveBlob. destruct bytes as [b|]; [|done]. intros E.
  apply outcome_bind_returns in E as ([w1 [e|]] & Es & E); simplify_eq.
  exists b. repeat split. intros x. by eapply storeBlob_reads.
Qed.

(** What a save makes and where it ends up. *)
Section saving.
Context (Save : Chart -> string -> result string) (ReadFile : string -> result string).

Definition savedManifest (meta archive : string) : Manifest :=
  mkManifest 2 (memoryAdd HelmChartConfigMediaType meta) [memoryAdd HelmChartContentLayerMediaType archive].
Lemma memoryAdd_ok mt b : valid_utf8 mt = true -> desc_ok (memoryAdd mt b).
Proof.
  intros Hm. destruct (memoryAdd_fields mt b) as (E1 & E2 & _ & E3). unfold desc_ok. rewrite E1, E2, E3.
  split_and!; [done|apply FromBytes_text|apply map_Forall_empty].
Qed.
Lemma savedManifest_ok meta archive : manifest_ok (savedManifest meta archive).
Proof. split; [by apply memoryAdd_ok|]. apply Forall_singleton. by apply memoryAdd_ok. Qed.

(** The store after [StoreReference] without error. *)
Lemma StoreReference_reads (k k' : Cache W) ref ch r :
  StoreReference NewOCIStore Save ReadFile k ref ch = Returns (k', Some r, None) ->
  exists w meta cb mb, k'.(ociStore) = Some w /\ archiveBytes Save ReadFile k.(rootDir) ch = Ok cb /\
    marshalManifest (savedManifest meta cb) = Ok mb /\
    r.(sChart) = Some ch /\
    r.(sManifest) = Some (mkDescriptor MediaTypeImageManifest (FromBytes mb) (Z.of_nat (String.length mb)) ∅) /\
    (forall x, x.(Digest) = FromBytes mb -> ReaderAt w x = Ok mb) /\
    (forall x, x.(Digest) = FromBytes cb -> FromBytes cb <> FromBytes mb -> ReaderAt w x = Ok cb).
Proof.
  unfold StoreReference. destruct (init NewOCIStore k) as [[k1 w0]|] eqn:Ei; [|done]. intros E.
  assert (Hroot : k1.(rootDir) = k.(rootDir)).
  { unfold init in Ei. destruct (ociStore k); [by simplify_eq|]. destruct (NewOCIStore _); by simplify_eq/=. }
  apply outcome_bind_returns in E as ([ex err] & _ & E).
  apply outcome_bind_returns in E as ([w1 [config|]] & Ec & E); [|done].
  apply outcome_bind_returns in E as ([w2 [layer|]] & El & E); [|done].
  destruct (Info w2 _); [|done].
  apply outcome_bind_returns in E as ([w3 [m|]] & Em & E); simplify_eq/=.
  apply saveBlob_reads in Ec as (meta & _ & -> & _).
  apply saveBlob_reads in El as (cb & Ha & -> & Hcb). rewrite Hroot in Ha.
  unfold saveChartManifest in Em. destruct (marshalManifest _) as [mb|] eqn:Hm; [|done].
  apply outcome_bind_returns in Em as ([w4 [e|]] & Es & Em); simplify_eq.
  exists w3, meta, cb, mb. repeat split; try done.
  - intros x Hx. rewrite (storeBlob_reads _ _ _ _ x Es). by rewrite decide_True.
  - intros x Hx Hne. rewrite (storeBlob_reads _ _ _ _ x Es), decide_False, Hcb by congruence.
    by rewrite decide_True.
Qed.

(** What a fetch of the stored archive makes of it. *)
Lemma loadSummary_stored (w : W) (r : CacheRefSummary Chart) desc mb cb meta :
  ReaderAt w desc = Ok mb -> desc.(Size) = Z.of_nat (String.length mb) ->
  marshalManifest (savedManifest meta cb) = Ok mb -> cb <> "" ->
  (forall x, x.(Digest) = FromBytes cb -> ReaderAt w x = Ok cb) ->
  exists r', match LoadArchive (Chart := Chart) cb with
    | Err err => loadSummary w r desc = Returns (r', Some err)
    | Ok ch => loadSummary w r desc = Returns (r', None) /\ r'.(sManifest) = Some desc /\
        r'.(sChart) = Some ch /\ r'.(Exists) = true /\ r'.(sSize) <= int64_max
    end.
Proof.
  intros Hm Hs Hmm Hne Hc.
  destruct (memoryAdd_fields HelmChartContentLayerMediaType cb) as (Ft & Fd & Fs & _).
  destruct (info_reader w _ _ (Hc _ Fd)) as (i & Hi & Hb).
  unfold loadSummary. rewrite (fetchBlob_whole _ _ _ Hm Hs). simpl.
  rewrite (manifest_roundtrip _ _ (savedManifest_ok meta cb) Hmm). simpl. unfold findContentLayer.
  rewrite filter_cons, decide_True by done. simpl.
  assert ((memoryAdd HelmChartContentLayerMediaType cb).(Size) =? 0 = false) as ->.
  { rewrite Fs. destruct cb; [done|]. simpl. lia. }
  rewrite Hi. simpl. rewrite (fetchBlob_whole _ _ _ (Hc _ Fd) Fs). simpl.
  destruct (LoadArchive cb); simpl; eauto 10.
Qed.

(** The client a save without error leaves: the index names one manifest, and
    what is fetched for the reference is what the stored manifest says. *)
Lemma SaveChart_stores (c c' : Client W) (ch : Chart) ref :
  FullName ref <> "" -> SaveChart NewOCIStore Save ReadFile c ch ref = Returns (c', None) ->
  exists w meta cb mb, let desc := annotated (FullName ref)
      (mkDescriptor MediaTypeImageManifest (FromBytes mb) (Z.of_nat (String.length mb)) ∅) in
    c'.(cache).(ociStore) = Some w /\ archiveBytes Save ReadFile c.(cache).(rootDir) ch = Ok cb /\
    marshalManifest (savedManifest meta cb) = Ok mb /\ (exists t, Hex (FromBytes mb) = Returns t) /\
    filter (fun x => refName x = FullName ref) (references w) = [desc] /\
    (forall x, x.(Digest) = FromBytes mb -> ReaderAt w x = Ok mb) /\
    (forall x, x.(Digest) = FromBytes cb -> FromBytes cb <> FromBytes mb -> ReaderAt w x = Ok cb).
Proof.
  intros Hn E. unfold SaveChart in E. apply outcome_bind_returns in E as ([[k r] err] & Es & E).
  destruct err; [done|]. destruct r as [r|]; [|done].
  destruct (StoreReference_reads _ _ _ _ _ Es) as (w & meta & cb & mb & Hw & Ha & Hm & Hc & Hr & Rm & Rc).
  apply outcome_bind_returns in E as (c1 & Ep & E). rewrite Hr in E.
  unfold printCacheRefSummary, summaryText in Ep.
  apply outcome_bind_returns in Ep as (t & Et & [= <-]). rewrite Hc, Hr in Et. simpl in Et.
  destruct (metadata ch) as [md|] eqn:Hmd; [|done].
  apply outcome_bind_returns in Et as (dg & Hh & _). cbn [Digest] in Hh.
  unfold AddManifest, init in E. simpl in E. rewrite Hw in E. simpl in E.
  destruct (SaveIndex _) as [w1 [e|]] eqn:Ei in E; [done|]. simplify_eq.
  set (md1 := mkDescriptor _ _ _ _) in *.
  assert (forall x, ReaderAt w1 x = ReaderAt w x) as Rw.
  { intros x. pose proof (reader_index (addReference (FullName ref) md1 w) x) as R.
    rewrite Ei in R. simpl in R. by rewrite R, reader_add. }
  pose proof (references_index (addReference (FullName ref) md1 w)) as RI. rewrite Ei in RI. simpl in RI.
  exists w1, meta, cb, mb. split_and!; [done..|by eexists|by rewrite RI, references_add| |];
    intros; rewrite Rw; auto.
Qed.

(** C26. What was saved is what loads: after a save without error the archive
    that was built is what the reference stands for.  If it is not empty and
    does not share its digest with a manifest, loading the reference gives
    exactly what Helm's loader makes of the bytes of that archive, the chart
    with metadata that it reads from them, or its error. *)
Theorem saved_chart_loads (c c' : Client W) (ch : Chart) ref :
  FullName ref <> "" -> SaveChart NewOCIStore Save ReadFile c ch ref = Returns (c', None) ->
  exists cb, archiveBytes Save ReadFile c.(cache).(rootDir) ch = Ok cb /\
    (cb <> "" -> (forall mb m, marshalManifest m = Ok mb -> FromBytes cb <> FromBytes mb) ->
     match LoadArchive (Chart := Chart) cb with
     | Err err => LoadChart (Chart := Chart) NewOCIStore c' ref = Returns (c', Err err)
     | Ok ch' => is_Some (metadata ch') ->
         exists c'', LoadChart NewOCIStore c' ref = Returns (c'', Ok (Some ch')) /\ c''.(cache) = c'.(cache)
     end).
Proof.
  intros Hn (w & meta & cb & mb & Hw & Ha & Hm & [t Hh] & Hf & Rm & Rc)%SaveChart_stores; [|done].
  exists cb. split; [done|]. intros Hcb Hd. unfold LoadChart. rewrite (fetch_open _ _ _ w) by done.
  rewrite fetchLoop_filter. cbn [sName emptySummary]. rewrite Hf. cbn [fetchLoop].
  set (desc := annotated _ _).
  assert (refName desc = FullName ref) as ->
    by (unfold refName, desc, annotated; cbn [Annotations]; by rewrite lookup_insert_eq).
  cbn [sName emptySummary]. rewrite eqb_refl_s.
  destruct (loadSummary_stored w (emptySummary ref) desc mb cb meta) as (r' & Hl); try done.
  { by apply Rm. }
  { intros x Hx. apply Rc; [done|]. by eapply Hd. }
  destruct (LoadArchive cb) as [ch'|err]; [|by rewrite Hl].
  destruct Hl as (-> & Hr' & Hch & Hex & Hsz). intros [md Hmd].
  simpl. rewrite Hex. simpl. unfold printCacheRefSummary, summaryText. rewrite Hr', Hch. simpl.
  rewrite Hmd, Hh. simpl. destruct (byteCountBinary_returns _ Hsz) as [bt ->]. simpl. eauto.
Qed.
End saving.

(** A chart that was removed is gone: after a removal without error the
    reference cannot be loaded any more. *)
Theorem removed_chart_is_gone (c c' : Client W) ref :
  FullName ref <> "" ->
  RemoveChart (Chart := Chart) NewOCIStore c ref = Returns (c', None) ->
  LoadChart (Chart := Chart) NewOCIStore c' ref =
    Returns (c', Err ("Chart not found: " +:+ FullName ref)).
Proof.
  intros Hn E. unfold RemoveChart, DeleteReference in E.
  apply outcome_bind_returns in E as ([[k r] err] & Ed & E).
  apply outcome_bind_returns in Ed as ([[k1 r1] err1] & Ef & Ed).
  assert (forall s, r1 = Some s -> s.(sName) = FullName ref) as Hname.
  { intros s ->. unfold FetchReference in Ef. destruct (init NewOCIStore c.(cache)) as [[k2 w]|]; [|done].
    apply outcome_bind_returns in Ef as ([r2 e2] & El & Ef). simplify_eq.
    by apply (fetchLoop_name _ _ _ _ _ El). }
  destruct r1 as [s|], err1 as [e1|]; simplify_eq/=.
  destruct (s.(Exists)) eqn:Ex; simplify_eq/=; [|by rewrite Ex in E].
  destruct (ociStore k1) as [w|]; [|done]. destruct (SaveIndex _) as [w1 e] eqn:Ei. simplify_eq/=.
  destruct err; [done|]. rewrite Ex in E. simplify_eq/=.
  unfold LoadChart. rewrite (fetch_open _ _ _ w1), fetchLoop_filter by done. cbn [sName emptySummary].
  pose proof (references_index (deleteReference s.(sName) w)) as RI. rewrite Ei in RI. simpl in RI.
  rewrite RI, (Hname s), references_delete by done. done.
Qed.
End properties.

(** ** A store in memory *)

Module Demo.
Definition MemStore : Type := list Descriptor * gmap string string.
Definition digestOf (b : string) : string := if valid_utf8 b then b else "sha256".

#[export] Instance mem_store : OCIStore MemStore := {
  references w := w.1;
  addReference n d w := (annotated n d :: filter (fun x => refName x <> n) w.1, w.2);
  deleteReference n w := (filter (fun x => refName x <> n) w.1, w.2);
  SaveIndex w := (w, None);
  Info w dg := from_option (fun t => Ok (mkInfo (Z.min int64_max (Z.of_nat (String.length t))) dg 0))
                 (Err "not found") (w.2 !! dg);
  ReaderAt w d := from_option Ok (Err "not found") (w.2 !! d.(Digest));
  Writer _ w := (w, None);
  Write _ w := (w, None);
  Commit b w := ((w.1, <[digestOf b := b]> w.2), None);
  Close w := (w, None)
}.

(** A format that knows one chart. *)
Definition layer : Descriptor := mkDescriptor HelmChartContentLayerMediaType "tgz" 3 ∅.
Definition config : Descriptor := mkDescriptor HelmChartConfigMediaType "meta" 4 ∅.
#[export] Instance one_chart : Formats unit := {
  metadata _ := Some (mkMetadata "litmus" "1.0" "application");
  marshalMetadata _ := Ok "meta";
  LoadArchive t := if t ==s "tgz" then Ok tt else Err "not a chart";
  marshalManifest m :=
    match m with
    | mkManifest 2 _ [_] => if decide (m.(Config) = config /\ m.(Layers) = [layer]) then Ok "manifest"
                            else Err "unknown"
    | _ => Err "unknown"
    end;
  unmarshalManifest t := if t ==s "manifest" then Ok (mkManifest 2 config [layer]) else Err "unknown";
  FromBytes := digestOf;
  Hex d := Returns d;
  memoryAdd mt b := mkDescriptor mt (digestOf b) (Z.of_nat (String.length b)) ∅
}.

Lemma refName_annotated n d : refName (annotated n d) = n.
Proof. unfold refName, annotated. cbn [Annotations]. by rewrite lookup_insert_eq. Qed.

Lemma filter_other n (l : list Descriptor) :
  filter (fun x => refName x = n) (filter (fun x => refName x <> n) l) = [].
Proof.
  induction l as [|x l IH]; [done|]. rewrite (filter_cons (fun x => refName x <> n)).
  destruct (decide (refName x <> n)); [|done]. rewrite filter_cons, decide_False by done. done.
Qed.

#[export] Instance demo_laws : StoreLaws MemStore unit.
Proof.
  split; try done.
  - intros n d w _. simpl. rewrite filter_cons, decide_True by apply refName_annotated.
    by rewrite filter_other.
  - intros n w _. apply filter_other.
  - intros b w w' e x [= <- <-] _. simpl. destruct (decide (x.(Digest) = digestOf b)) as [->|].
    + by rewrite lookup_insert_eq.
    + by rewrite lookup_insert_ne.
  - intros w x t. simpl. destruct (w.2 !! x.(Digest)); [|done]. intros _. eexists. split; [done|]. simpl. lia.
  - intros b. cbn. unfold digestOf. by destruct (valid_utf8 b) eqn:E.
  - intros [sv cf ls] b _. simpl. destruct sv as [|[]|]; try done. destruct p; try done.
    destruct ls as [|l [|]]; try done. case_decide as D; [|done]. destruct D as [-> ->]. by intros [= <-].
Qed.

Definition open_empty (dir : string) : result MemStore := Ok ([], ∅).
Definition demo_ref : Reference := mkReference "1.0" "hub/litmus".
Definition new_client : Client MemStore := mkClient "" (mkCache false Discard "/root" None).
Definition run {A} (d : A) (o : outcome (A * option string)) : A :=
  match o with Returns (a, _) => a | _ => d end.
Definition demo_save (ch : unit) (dir : string) : result string := Ok (Files.pathJoin dir "litmus-1.0.tgz").
Definition demo_read (path : string) : result string :=
  if path ==s "/root/.build/litmus-1.0.tgz" then Ok "tgz" else Err "no such file".
Definition save (c : Client MemStore) (ref : Reference) : outcome (Client MemStore * option string) :=
  SaveChart open_empty demo_save demo_read c tt ref.
Definition saved : Client MemStore := run new_client (save new_client demo_ref).
Definition pull (name : string) (w : MemStore) : MemStore * result Descriptor :=
  ((w.1, <["manifest" := "manifest"]> (<["tgz" := "tgz"]> w.2)),
   Ok (mkDescriptor MediaTypeImageManifest "manifest" 8 ∅)).
End Demo.
Import Demo.

Lemma saved_chart_loads_witness :
  exists c'', LoadChart Demo.open_empty Demo.saved Demo.demo_ref = Returns (c'', Ok (Some tt)).
Proof.
  destruct (saved_chart_loads Demo.open_empty Demo.demo_save Demo.demo_read Demo.new_client Demo.saved tt
    Demo.demo_ref) as (cb & Ha & Hl).
  - by intros [=].
  - vm_compute. reflexivity.
  - vm_compute in Ha. injection Ha as <-. destruct Hl as (c'' & E & _).
    + by intros [=].
    + intros mb m. cbn. destruct m as [sv cf ls]. destruct sv as [|[]|]; try done.
      destruct p; try done. destruct ls as [|? []]; try done. case_decide; [|done]. by intros [= <-].
    + by eexists.
    + exists c''. exact E.
Defined.

Lemma removed_chart_is_gone_witness :
  LoadChart (Chart := unit) Demo.open_empty
    (Demo.run Demo.saved (RemoveChart (Chart := unit) Demo.open_empty Demo.saved Demo.demo_ref)) Demo.demo_ref =
  Returns (Demo.run Demo.saved (RemoveChart (Chart := unit) Demo.open_empty Demo.saved Demo.demo_ref),
           Err ("Chart not found: " +:+ FullName Demo.demo_ref)).
Proof.
  apply (removed_chart_is_gone (Chart := unit) Demo.open_empty Demo.saved); [done|].
  vm_compute. reflexivity.
Defined.

Lemma pulled_chart_loads_witness :
  exists c'' ch, LoadChart Demo.open_empty
    (Demo.run Demo.new_client
       (PullChartToCache (Chart := unit) Demo.open_empty Demo.pull Demo.new_client Demo.demo_ref))
    Demo.demo_ref = Returns (c'', Ok (Some ch)).
Proof.
  apply (pulled_chart_loads (Chart := unit) Demo.open_empty Demo.pull Demo.new_client).
  vm_compute. reflexivity.
Defined.
End Registry.
