(* ===== verification/Litmus.v ===== *)
(** * LitmusChaos: experiments on Kubernetes and the operator that runs them

    web/handler/litmuschaos: creating and destroying experiments
    (litmuschaos.go), installing and removing the operator through
    pkg/helm3/helm.go.  The API server, the YAML decoders, the download site,
    Helm's actions and the retry library are parameters. *)

From S2P Require Import Prelude GoStrings Json Options Tools Transport Chaosblade Reference Registry.
Local Open Scope Z_scope.

Module Litmus.
Import Options Tools Transport.

(** ** litmusdefault.go *)

Definition LitmusHelmNamespace := "chaos".
Definition LitmusHelmName := "litmuschaos".
Definition LITMUS_EXPERIMENT := "experiment".
Definition LITMUS_RBAC := "rbac".
Definition ENGINE_KIND := "ChaosEngine".
Definition K8sKindClusterRole := "ClusterRole".
Definition LITMUS_CRD_VERSION := "litmuschaos.io/v1alpha1".

Definition getLitmusUrlByVersionAndEnv (o : Options) (version : string) : string :=
  o.(LitmusChartUrl) +:+ ":" +:+ version.

(** ** The API server *)

Inductive ApiError := AlreadyExists (m : string) | NotFound (m : string) | ApiFailure (m : string).
Definition errText (e : ApiError) : string :=
  match e with AlreadyExists m | NotFound m | ApiFailure m => m end.

(** The engine object: [v1alpha1.ChaosEngine] with the fields the handler
    sets. *)
Record ApplicationParams := mkAppParams { AppKind : string; Appns : string; Applabel : string }.
Record ChaosEngine := mkEngine {
  eKind : string; eAPIVersion : string; eName : string; eNamespace : string;
  Appinfo : ApplicationParams;
  ChaosServiceAccount : string; JobCleanUpPolicy : string; EngineState : string;
  experimentOf : string; ENV : list (string * string)
}.

Inductive rkind := KServiceAccount | KClusterRole | KClusterRoleBinding | KRole | KRoleBinding | KExperiment.
#[global] Instance rkind_eq : EqDecision rkind.
Proof. solve_decision. Defined.

(** What the handler calls on the cluster: a call may fail and may change the
    cluster; objects are pointers, [None] is nil.  The namespace of a kind
    that has none is the empty string. *)
Class KubeApi (K Obj : Type) := mkKubeApi {
  objName : Obj -> string;
  objKind : Obj -> string;
  apiCreate : rkind -> string -> option Obj -> K -> K * option ApiError;
  apiGet : rkind -> string -> string -> K -> K * option ApiError;
  apiDelete : rkind -> string -> string -> K -> K * option ApiError;
  createChaosEngine : string -> ChaosEngine -> K -> K * option ApiError;
  deleteChaosEngine : string -> string -> K -> K * option ApiError;
  (** the decoders: what was decoded, and the error *)
  decodeYaml : rkind -> string -> option Obj * option string;
  unmarshalExperiment : string -> option Obj * option string
}.

(** [strings.Trim(s, "\n")]. *)
Fixpoint trim_left_nl (s : string) : string :=
  match s with
  | String c s' => if Ascii.eqb c (chr 10) then trim_left_nl s' else s
  | "" => ""
  end.
Definition rev_s (s : string) : string := String.string_of_list_ascii (rev (String.list_ascii_of_string s)).
Definition trim_nl (s : string) : string := rev_s (trim_left_nl (rev_s (trim_left_nl s))).

(** ** DownloadLitmus *)

(** [http.Get]: status and what [ReadAll] makes of the body, or the error. *)
Definition web := string -> result (Z * result string).

Definition litmusFile (version experimentType experimentName objectType : string) : string :=
  version +:+ "/" +:+ experimentType +:+ "/" +:+ experimentName +:+ "/" +:+ objectType +:+ ".yaml".
Definition litmusUrl (version experimentType experimentName objectType : string) : string :=
  "https://hub.litmuschaos.io/api/chaos/" +:+ version +:+ "?file=charts/" +:+ experimentType +:+ "/" +:+
  experimentName +:+ "/" +:+ objectType +:+ ".yaml".

(** The copy loop reads into a buffer of length 0, gets 0 bytes and stops: the
    file is created and stays empty, the body is still there for [ReadAll].
    [os.Create] makes no directories and nothing else in the program makes
    this one, so its error, which is not looked at, is the normal case: then
    [open_err] is set, and nothing is left on the disk. *)
Definition DownloadLitmus (net : web) (version experimentType experimentName objectType : string) (os : OS)
    : OS * result string :=
  let localFilePath := litmusFile version experimentType experimentName objectType in
  match os.(files) !! localFilePath with
  | Some content => (os, Ok content)
  | None =>
      let experimentUrl := litmusUrl version experimentType experimentName objectType in
      match net experimentUrl with
      | Err err => (os, Err err)
      | Ok (code, body) =>
          if negb (code =? 200) then
            (os, Err ("download `" +:+ experimentUrl +:+ "` failed! response code: " +:+ FormatInt code))
          else
            match os.(open_err) localFilePath with
            | Some _ => (os, body)
            | None => (with_files os (<[localFilePath := ""]> os.(files)), body)
            end
      end
  end.

Section handler.
Context {K Obj : Type} `{KubeApi K Obj}.

(** ** Preparing an experiment *)

Definition nilPointer := "invalid memory address or nil pointer dereference".

Definition prepareLitmusExperiment (net : web) (version experimentType experimentName namespace : string)
    (k : K) (os : OS) : K * OS * option string :=
  match DownloadLitmus net version experimentType experimentName LITMUS_EXPERIMENT os with
  | (os, Err err) => (k, os, Some err)
  | (os, Ok litmusExperiment) =>
      match unmarshalExperiment litmusExperiment with
      | (_, Some err) => (k, os, Some ("experiment Unmarshal err: " +:+ err))
      | (experiment, None) =>
          match apiCreate KExperiment namespace experiment k with
          | (k, Some (AlreadyExists _)) => (k, os, None)
          | (k, err) => (k, os, errText <$> err)
          end
      end
  end.

(** [createClusterRoleAndRoleBinding] and [createRoleAndRoleBinding] are the
    same code for two kinds: a role that is there is deleted and created
    anew, a binding that is there stays.  First the part after the deletion. *)
Definition createRole (kr kb : rkind) (ns : string) (role : Obj) (roleBindingStr : string) (k : K)
    : outcome (K * option string) :=
  match apiCreate kr ns (Some role) k with
  | (k, Some err) => Returns (k, Some (errText err))
  | (k, None) =>
      match decodeYaml kb roleBindingStr with
      | (_, Some err) => Returns (k, Some err)
      | (roleBinding, None) =>
          match apiCreate kb ns roleBinding k with
          | (k, None) | (k, Some (AlreadyExists _)) => Returns (k, None)
          | (k, Some err) => Returns (k, Some (errText err))
          end
      end
  end.
Definition replaceRole (kr kb : rkind) (ns : string) (roleStr roleBindingStr : string) (k : K)
    : outcome (K * option string) :=
  match decodeYaml kr roleStr with
  | (_, Some err) => Returns (k, Some err)
  | (None, None) => Panics nilPointer
  | (Some role, None) =>
      match apiGet kr ns (objName role) k with
      | (k, Some (NotFound _)) => createRole kr kb ns role roleBindingStr k
      | (k, Some err) => Returns (k, Some (errText err))
      | (k, None) =>
          match apiDelete kr ns (objName role) k with
          | (k, Some err) => Returns (k, Some (errText err))
          | (k, None) => createRole kr kb ns role roleBindingStr k
          end
      end
  end.
Definition createClusterRoleAndRoleBinding := replaceRole KClusterRole KClusterRoleBinding "".
Definition createRoleAndRoleBinding (roleStr roleBindingStr namespace : string) :=
  replaceRole KRole KRoleBinding namespace roleStr roleBindingStr.

(** Three pieces pass the check on the length; the fourth is indexed all the
    same. *)
Definition prepareLitmusRbac (net : web) (version experimentType experimentName namespace : string)
    (k : K) (os : OS) : outcome (K * OS * option string) :=
  match DownloadLitmus net version experimentType experimentName LITMUS_RBAC os with
  | (os, Err err) => Returns (k, os, Some err)
  | (os, Ok restr) =>
      let resArr := Split restr "---" in
      match resArr with
      | _ :: saText :: roleText :: rest =>
          let '(sa, _) := decodeYaml KServiceAccount (trim_nl saText) in
          match apiCreate KServiceAccount namespace sa k with
          | (k, Some (NotFound m)) | (k, Some (ApiFailure m)) => Returns (k, os, Some m)
          | (k, _) =>
              let roleYamlStr := trim_nl roleText in
              match decodeYaml KRole roleYamlStr with
              | (_, Some err) => Returns (k, os, Some err)
              | (role, None) =>
                  match rest with
                  | [] => Panics "index out of range [3] with length 3"
                  | bindingText :: _ =>
                      let rolebindingYamlStr := trim_nl bindingText in
                      match role with
                      | None => Panics nilPointer
                      | Some role =>
                          '(k, err) ← (if objKind role ==s K8sKindClusterRole
                                       then createClusterRoleAndRoleBinding roleYamlStr rolebindingYamlStr k
                                       else createRoleAndRoleBinding roleYamlStr rolebindingYamlStr namespace k);
                          Returns (k, os, err)
                      end
                  end
              end
          end
      | _ => Returns (k, os, Some "get rbac.yaml failed")
      end
  end.

(** ** The engine *)

(** A [range] over a map goes through its entries in some order. *)
Definition order := gmap string string -> list (string * string).

Definition componentEnv (components : list (string * string)) : list (string * string) :=
  filter (fun kv => kv.2 <> "") components.
Definition setAppParam (p : ApplicationParams) (kv : string * string) : ApplicationParams :=
  let '(key, value) := kv in
  if value ==s "" then p
  else if key ==s "appkind" then mkAppParams value p.(Appns) p.(Applabel)
  else if key ==s "appns" then mkAppParams p.(AppKind) value p.(Applabel)
  else if key ==s "applabel" then mkAppParams p.(AppKind) p.(Appns) value
  else p.
Definition appInfoParam (appInfo : list (string * string)) : ApplicationParams :=
  foldl setAppParam (mkAppParams "" "" "") appInfo.

Definition chaosEnginer (range : order) (name namespace experimentName : string)
    (appInfo components : gmap string string) : ChaosEngine :=
  mkEngine ENGINE_KIND LITMUS_CRD_VERSION name namespace (appInfoParam (range appInfo))
    (experimentName +:+ "-sa") "delete" "active" experimentName (componentEnv (range components)).
Definition createEnginer (range : order) (name namespace experimentName : string)
    (appInfo components : gmap string string) (k : K) : K * option ApiError :=
  createChaosEngine namespace (chaosEnginer range name namespace experimentName appInfo components) k.

(** ** Handle *)

(** What the handler shares with the rest of the agent, and the goroutines it
    started: the names they will watch. *)
Record World := mkWorld { cluster : K; disk : OS; opts : Options }.
Definition watch : Type := string * string * string.

Section run.
Context (net : web) (range : order) (uid : string).

(** The receiver is only used once the checks are passed; a nil one panics
    there ([lh.LitmusClientSet]). *)
Definition createExec (lh : option unit) (experimentType experimentName namespace name : string)
    (appInfo components : gmap string string) (w : World) : outcome (Response * list watch * World) :=
  let version := w.(opts).(LitmusChaosVerison) in
  if version ==s "" then
    Returns (ReturnFail ServerError ["litmus operator not installed, please install first"], [], w)
  else
    match lh with
    | None =>
        match DownloadLitmus net version experimentType experimentName LITMUS_EXPERIMENT w.(disk) with
        | (os, Err err) =>
            Returns (ReturnFail ServerError ["litmus prepare experiment failed, err: " +:+ err], [],
                     mkWorld w.(cluster) os w.(opts))
        | (os, Ok text) =>
            match unmarshalExperiment text with
            | (_, Some err) =>
                Returns (ReturnFail ServerError
                           ["litmus prepare experiment failed, err: experiment Unmarshal err: " +:+ err], [],
                         mkWorld w.(cluster) os w.(opts))
            | (_, None) => Panics nilPointer
            end
        end
    | Some _ =>
        let '(k, os, err) :=
          prepareLitmusExperiment net version experimentType experimentName namespace w.(cluster) w.(disk) in
        match err with
        | Some e =>
            Returns (ReturnFail ServerError ["litmus prepare experiment failed, err: " +:+ e], [],
                     mkWorld k os w.(opts))
        | None =>
            '(k, os, err) ← prepareLitmusRbac net version experimentType experimentName namespace k os;
            match err with
            | Some e =>
                Returns (ReturnFail ServerError ["litmus prepare rbac failed, err: " +:+ e], [],
                         mkWorld k os w.(opts))
            | None =>
                match createEnginer range name namespace experimentName appInfo components k with
                | (k, Some e) =>
                    Returns (ReturnFail ServerError ["litmus create enginer failed, err: " +:+ errText e], [],
                             mkWorld k os w.(opts))
                | (k, None) =>
                    Returns (ReturnSuccess, [(name, namespace, experimentName)], mkWorld k os w.(opts))
                end
            end
        end
    end.

Definition defaultNamespace (request : Request) : string :=
  let ns := get request.(Params) "namespace" in if ns ==s "" then "default" else ns.

(** The tests of the later parameters look at the type again, not at the
    parameter. *)
Definition createParamerAndExec (lh : option unit) (request : Request) (w : World)
    : outcome (Response * list watch * World) :=
  let namespace := defaultNamespace request in
  let experimentType := get request.(Params) "experimentType" in
  if experimentType ==s "" then Returns (ReturnFail ParameterEmpty ["experimentType"], [], w)
  else
    match request.(Params) !! "experimentName", request.(Params) !! "appInfo" with
    | None, _ => Returns (ReturnFail ParameterEmpty ["experimentName"], [], w)
    | Some _, None => Returns (ReturnFail ParameterEmpty ["appInfo"], [], w)
    | Some experimentName, Some appInfoStr =>
        match unmarshal_smap appInfoStr with
        | None => Returns (ReturnFail ParameterTypeError ["appInfo"], [], w)
        | Some appInfo =>
            match request.(Params) !! "components" with
            | None => Returns (ReturnFail ParameterEmpty ["components"], [], w)
            | Some componentsStr =>
                match unmarshal_smap componentsStr with
                | None => Returns (ReturnFail ParameterTypeError ["components"], [], w)
                | Some components =>
                    createExec lh experimentType experimentName namespace uid appInfo components w
                end
            end
        end
    end.

Definition destroyExec (lh : option unit) (name namespace : string) (w : World)
    : outcome (Response * list watch * World) :=
  match lh with
  | None => Panics nilPointer
  | Some _ =>
      let '(k, err) := deleteChaosEngine namespace name w.(cluster) in
      let w := mkWorld k w.(disk) w.(opts) in
      match err with
      | None | Some (NotFound _) => Returns (ReturnSuccess, [], w)
      | Some e => Returns (ReturnFail ServerError ["litmus destroy engine failed, err: " +:+ errText e], [], w)
      end
  end.
Definition destroyParamerAndExec (lh : option unit) (request : Request) (w : World)
    : outcome (Response * list watch * World) :=
  let name := get request.(Params) "name" in
  if name ==s "" then Returns (ReturnFail ParameterEmpty ["name"], [], w)
  else destroyExec lh name (defaultNamespace request) w.

Definition Handle (lh : option unit) (request : Request) (w : World)
    : outcome (Response * list watch * World) :=
  let chaosAction := get request.(Params) "chaosAction" in
  if bool_decide (chaosAction ∈ CreateOperation) then createParamerAndExec lh request w
  else if bool_decide (chaosAction ∈ DestroyOperation) then destroyParamerAndExec lh request w
  else Returns (ReturnFail ServerError ["litmus exec failed, no such action: " +:+ chaosAction], [], w).
End run.
End handler.
Arguments World K : clear implicits.

(** ** The goroutine that reports how the experiment went *)

Section async.
Context {C : Type} `{TransportChannel C} (client : C) (e : Env) (o : Options).
(** [Times(n).Wait(1s).Try(f)] of the retry library. *)
Context (retry : nat -> (nat -> option string) -> option string).
(** What the API server answers for a result at an attempt: the name of the
    engine and the number of failed runs. *)
Context (chaosResults : string -> string -> nat -> result (string * Z)).

Definition handlerResult (name namespace experimentName : string) (attempt : nat) : result (string * Z) :=
  chaosResults namespace (name +:+ "-" +:+ experimentName) attempt.

Definition tryResult (r : result (string * Z)) : option string :=
  match r with
  | Err err => Some err
  | Ok (EngineName, failedRuns) =>
      if negb (EngineName ==s "") && (failedRuns =? 0) then None
      else Some "failed in chaos injection phase"
  end.

Definition AsyncHandlerResultStatus (uris : gmap string Uri) (w : watch)
    : outcome (Request * option Response * option string) :=
  let '(name, namespace, experimentName) := w in
  let '(status, errorStr) :=
    match retry 90 (fun attempt => tryResult (handlerResult name namespace experimentName attempt)) with
    | Some err => ("Error", "inject fault failed, err: " +:+ err)
    | None => ("Success", "")
    end in
  let uri := default zeroUri (uris !! API_CHAOSBLADE_ASYNC) in
  Chaosblade.ReportStatus client e o name status errorStr LitmusHelmName uri.
End async.

(** ** pkg/helm3/helm.go and the handlers for the operator *)

Section helm.
Context {W Chart X : Type} `{Registry.OCIStore W} `{Registry.Formats Chart}.
Context (NewOCIStore : string -> result W) (orasPull : string -> W -> W * result Registry.Descriptor)
  (url_err : string -> option string).
(** Helm's own part: the errors of merging and parsing values, and the
    actions on the releases of the cluster. *)
Context (mergeValues : option string) (parseInto : string -> option string)
  (runInstall : string -> string -> Chart -> X -> X * option string)
  (runUninstall : string -> X -> X * option string).

Record Helm := mkHelm { helmName : string; helmNamespace : string; RegistryClient : Registry.Client W }.
Definition with_client (h : Helm) (c : Registry.Client W) : Helm := mkHelm h.(helmName) h.(helmNamespace) c.

Definition PullChart (h : Helm) (chartUrl : string) : outcome (Helm * option string) :=
  match Reference.ParseReference url_err chartUrl with
  | Err err => Returns (h, Some err)
  | Ok r =>
      '(c, err) ← Registry.PullChartToCache (Chart := Chart) NewOCIStore orasPull h.(RegistryClient) r;
      Returns (with_client h c, err)
  end.

Definition LoadChart (h : Helm) (chartUrl : string) : outcome (Helm * result (option Chart)) :=
  match Reference.ParseReference url_err chartUrl with
  | Err err => Returns (h, Err err)
  | Ok r =>
      '(c, ch) ← Registry.LoadChart NewOCIStore h.(RegistryClient) r;
      Returns (with_client h c, ch)
  end.

(** The error, or [None] for a chart that can be installed. *)
Definition isChartInstallable (ch : option Chart) : outcome (option string) :=
  match ch ≫= Registry.metadata with
  | None => Panics nilPointer
  | Some m =>
      let t := m.(Registry.mType) in
      Returns (if (t ==s "") || (t ==s "application") then None
               else Some (t +:+ " charts are not installable"))
  end.

Definition Install (h : Helm) (charts : option Chart) (args : gmap string string) (x : X)
    : outcome (X * option string) :=
  match mergeValues with
  | Some err => Returns (x, Some err)
  | None =>
      match parseInto (get args "set") with
      | Some err => Returns (x, Some err)
      | None =>
          err ← isChartInstallable charts;
          match err, charts with
          | Some e, _ => Returns (x, Some e)
          | None, Some ch => Returns (runInstall h.(helmNamespace) h.(helmName) ch x)
          | None, None => Panics nilPointer
          end
      end
  end.

Definition Uninstall (h : Helm) (x : X) : X * option string := runUninstall h.(helmName) x.

(** The program has one [Helm]; a handler holds a pointer to it or nil, and a
    handler built without one is a nil pointer itself. *)
Record HelmState := mkHelmState { helm : Helm; releases : X; hopts : Options }.
Record InstallLitmusHandler := mkInstall { hasHelm : bool }.
Definition NewInstallLitmusHandler (helm : option Helm) : option InstallLitmusHandler :=
  match helm with None => None | Some _ => Some (mkInstall true) end.

Definition installLitmus (ilh : option InstallLitmusHandler) (version : string) (vals : gmap string string)
    (s : HelmState) : outcome (Response * HelmState) :=
  match ilh with
  | None => Panics nilPointer
  | Some h =>
      if negb h.(hasHelm) then Returns (ReturnFail Helm3ExecError ["helm instance is nil"], s)
      else
        let chartUrl := getLitmusUrlByVersionAndEnv s.(hopts) version in
        '(hm, err) ← PullChart s.(helm) chartUrl;
        match err with
        | Some e => Returns (ReturnFail Helm3ExecError [e], mkHelmState hm s.(releases) s.(hopts))
        | None =>
            '(hm, charts) ← LoadChart hm chartUrl;
            match charts with
            | Err e => Returns (ReturnFail Helm3ExecError [e], mkHelmState hm s.(releases) s.(hopts))
            | Ok charts =>
                '(x, err) ← Install hm charts vals s.(releases);
                match err with
                | Some e => Returns (ReturnFail Helm3ExecError [e], mkHelmState hm x s.(hopts))
                | None => Returns (ReturnSuccess, mkHelmState hm x (set_LitmusChaosVerison version s.(hopts)))
                end
            end
        end
  end.

Definition installHandle (ilh : option InstallLitmusHandler) (request : Request) (s : HelmState)
    : outcome (Response * HelmState) :=
  match request.(Params) !! "version" with
  | None => Returns (ReturnFail ParameterLess ["version"], s)
  | Some version => installLitmus ilh version {["namespace" := LitmusHelmNamespace]} s
  end.

Definition uninstallHandle (ulh : option InstallLitmusHandler) (request : Request) (s : HelmState)
    : outcome (Response * HelmState) :=
  match ulh with
  | None | Some (mkInstall false) => Panics nilPointer
  | Some _ =>
      match Uninstall s.(helm) s.(releases) with
      | (x, Some e) => Returns (ReturnFail Helm3ExecError [e], mkHelmState s.(helm) x s.(hopts))
      | (x, None) => Returns (ReturnSuccess, mkHelmState s.(helm) x (set_LitmusChaosVerison "" s.(hopts)))
      end
  end.
End helm.
Arguments HelmState W X : clear implicits.

(** ** What the API server promises *)

(** The objects the cluster holds by kind, namespace and name, as an API server
    that is up and lets the agent in serves them: a create adds the object, or
    says "already exists" and changes nothing when there is one of the name; a
    read tells whether there is one; a delete removes it. *)
Definition key : Type := rkind * string * string.
#[global] Instance key_eq : EqDecision key.
Proof. unfold key. apply _. Defined.
Class KubeLaws (K Obj : Type) `{KubeApi K Obj} := {
  stored : K -> key -> option Obj;
  create_new r ns o k : stored k (r, ns, objName o) = None ->
    exists k', apiCreate r ns (Some o) k = (k', None) /\
      forall q, stored k' q = if decide (q = (r, ns, objName o)) then Some o else stored k q;
  create_taken r ns o k : is_Some (stored k (r, ns, objName o)) ->
    exists k' m, apiCreate r ns (Some o) k = (k', Some (AlreadyExists m)) /\ forall q, stored k' q = stored k q;
  get_found r ns n k : is_Some (stored k (r, ns, n)) ->
    exists k', apiGet r ns n k = (k', None) /\ forall q, stored k' q = stored k q;
  get_missing r ns n k : stored k (r, ns, n) = None ->
    exists k' m, apiGet r ns n k = (k', Some (NotFound m)) /\ forall q, stored k' q = stored k q;
  delete_found r ns n k : is_Some (stored k (r, ns, n)) ->
    exists k', apiDelete r ns n k = (k', None) /\
      forall q, stored k' q = if decide (q = (r, ns, n)) then None else stored k q
}.

(** ** Lemmas *)

Section download.

Lemma litmusFile_kinds v t n : litmusFile v t n LITMUS_EXPERIMENT <> litmusFile v t n LITMUS_RBAC.
Proof. unfold litmusFile. intros E. by do 6 apply app_inv_s in E. Qed.

(** A download that leaves other files alone. *)
Lemma DownloadLitmus_other net v t n obj os os' r path :
  DownloadLitmus net v t n obj os = (os', r) -> path <> litmusFile v t n obj ->
  os'.(files) !! path = os.(files) !! path /\ os'.(open_err) = os.(open_err).
Proof.
  unfold DownloadLitmus. intros E Hp. go_cases_in E. split; [|done]. by rewrite lookup_insert_ne.
Qed.

(** What a download leaves behind is an empty file. *)
Lemma DownloadLitmus_leaves net v t n obj os os' text :
  DownloadLitmus net v t n obj os = (os', Ok text) ->
  os.(files) !! litmusFile v t n obj = None -> os.(open_err) (litmusFile v t n obj) = None ->
  os'.(files) !! litmusFile v t n obj = Some "".
Proof.
  unfold DownloadLitmus. intros E Hf Ho. rewrite Hf, Ho in E. go_cases_in E. by rewrite lookup_insert_eq.
Qed.
End download.

Section properties.
Context {K Obj : Type} `{KubeApi K Obj}.

(** An empty file of permissions ends the preparation. *)
Lemma prepareLitmusRbac_empty net v t n ns (k : K) os :
  os.(files) !! litmusFile v t n LITMUS_RBAC = Some "" ->
  prepareLitmusRbac net v t n ns k os = Returns (k, os, Some "get rbac.yaml failed").
Proof. intros E. unfold prepareLitmusRbac, DownloadLitmus. by rewrite E. Qed.

(** The experiment's own file does not touch the file of permissions. *)
Lemma prepareLitmusExperiment_other net v t n ns (k k' : K) os os' e :
  prepareLitmusExperiment net v t n ns k os = (k', os', e) ->
  os'.(files) !! litmusFile v t n LITMUS_RBAC = os.(files) !! litmusFile v t n LITMUS_RBAC /\
  os'.(open_err) = os.(open_err).
Proof.
  unfold prepareLitmusExperiment. destruct (DownloadLitmus _ _ _ _ _ os) as [os1 [text|]] eqn:E;
    apply DownloadLitmus_other with (path := litmusFile v t n LITMUS_RBAC) in E;
    try (intros Heq; by apply eq_sym, litmusFile_kinds in Heq).
  - intros Hp. go_cases_in Hp.
  - intros Hp. by simplify_eq.
Qed.

(** Without the file a download goes to the network, and leaves none when the
    file cannot be created. *)
Lemma DownloadLitmus_uncached net v t n obj os os' r err :
  DownloadLitmus net v t n obj os = (os', r) -> os.(files) !! litmusFile v t n obj = None ->
  os.(open_err) (litmusFile v t n obj) = Some err -> os' = os.
Proof. unfold DownloadLitmus. intros E Hf Ho. rewrite Hf, Ho in E. go_cases_in E. Qed.

(** The disk after the permissions were prepared is the one after their
    download. *)
Lemma prepareLitmusRbac_disk net v t n ns (k k' : K) os os' :
  prepareLitmusRbac net v t n ns k os = Returns (k', os', None) ->
  exists text, DownloadLitmus net v t n LITMUS_RBAC os = (os', Ok text).
Proof.
  unfold prepareLitmusRbac. destruct (DownloadLitmus _ _ _ _ _ os) as [os1 [text|]] eqn:E; [|done].
  intros Hr. exists text. enough (os' = os1) by congruence. clear -Hr.
  destruct (Split text "---") as [|? [|sa [|role rest]]]; try done.
  destruct (decodeYaml KServiceAccount _) as [osa e1].
  destruct (apiCreate KServiceAccount _ _ _) as [k1 [[]|]]; try done;
  (destruct (decodeYaml KRole _) as [orole [|]]; [done|]; destruct rest as [|b rest]; [done|];
   destruct orole as [ro|]; [|done];
   apply outcome_bind_returns in Hr as ([k2 e2] & _ & [= _ ->]); done).
Qed.

(** A create that succeeds prepared the permissions on the disk it leaves. *)
Lemma createExec_disk net range uid t n ns name app comps (w w' : World K) ts :
  let v := w.(opts).(LitmusChaosVerison) in
  createExec net range (Some uid) t n ns name app comps w = Returns (ReturnSuccess, ts, w') ->
  (v ==s "") = false /\ w'.(opts) = w.(opts) /\
  exists os1 text, os1.(files) !! litmusFile v t n LITMUS_RBAC = w.(disk).(files) !! litmusFile v t n LITMUS_RBAC /\
    os1.(open_err) = w.(disk).(open_err) /\ DownloadLitmus net v t n LITMUS_RBAC os1 = (w'.(disk), Ok text).
Proof.
  intros v E. unfold createExec in *. fold v in E. destruct (v ==s "") eqn:Hv; [done|].
  destruct (prepareLitmusExperiment net v t n ns _ _) as [[k1 os1] [e1|]] eqn:E1; [done|].
  apply prepareLitmusExperiment_other in E1 as [Hf1 Ho1].
  apply outcome_bind_returns in E as ([[k2 os2] [e2|]] & E2 & E); [done|].
  apply prepareLitmusRbac_disk in E2 as [text E2].
  assert (w'.(disk) = os2 /\ w'.(opts) = w.(opts)) as [-> ->].
  { destruct (createEnginer _ _ _ _ _ _ _) as [k3 [|]]; by simplify_eq/=. }
  split_and!; [done..|]. by exists os1, text.
Qed.

(** C24. What a create that downloaded the permissions of its experiment leaves
    behind.  If the file for them could be created, it is there and empty, and
    every later create of the experiment is answered with a failure, whatever
    the network, the cluster and the parameters are by then: the experiment
    runs once.  If it could not (its directory is missing, and the program
    never makes it), there is no file, and the permissions are downloaded
    again each time. *)
Theorem experiment_runs_once net range uid t n ns name app comps (w w' : World K) ts :
  let v := w.(opts).(LitmusChaosVerison) in
  let rbac := litmusFile v t n LITMUS_RBAC in
  w.(disk).(files) !! rbac = None ->
  createExec net range (Some uid) t n ns name app comps w = Returns (ReturnSuccess, ts, w') ->
  (w.(disk).(open_err) rbac = None ->
     w'.(disk).(files) !! rbac = Some "" /\
     forall net' range' ns' name' app' comps' k', exists msg w'',
       createExec net' range' (Some uid) t n ns' name' app' comps' (mkWorld k' w'.(disk) w'.(opts)) =
         Returns (ReturnFail ServerError [msg], [], w'')) /\
  (w.(disk).(open_err) rbac <> None ->
     w'.(disk).(files) !! rbac = None /\
     forall net' body, net' (litmusUrl v t n LITMUS_RBAC) = Ok (200, body) ->
       DownloadLitmus net' v t n LITMUS_RBAC w'.(disk) = (w'.(disk), body)).
Proof.
  intros v rbac Hf E. apply createExec_disk in E as (Hv & Ho & os1 & text & Hf1 & Ho1 & Ed).
  fold v in Hv, Hf1, Ed. fold rbac in Hf1.
  split; intros He.
  - apply DownloadLitmus_leaves in Ed; [|by rewrite <-Hf, <-Hf1|by rewrite Ho1]. split; [done|].
    intros net' range' ns' name' app' comps' k'. unfold createExec. cbn [opts disk cluster]. rewrite Ho.
    fold v. rewrite Hv.
    destruct (prepareLitmusExperiment net' v t n ns' _ _) as [[k4 os4] [e4|]] eqn:E4; [eauto|].
    apply prepareLitmusExperiment_other in E4 as [Hf4 _].
    rewrite prepareLitmusRbac_empty by (by rewrite Hf4). simpl. eauto.
  - destruct (w.(disk).(open_err) rbac) as [err|] eqn:Eo; [|done].
    apply DownloadLitmus_uncached with (err := err) in Ed as ->; [|by rewrite <-Hf, <-Hf1|by rewrite Ho1].
    split; [by rewrite Hf1|].
    intros net' body En. unfold DownloadLitmus. fold rbac. rewrite Hf1, Hf, En, Ho1. cbn. by rewrite Eo.
Qed.

Context `{!KubeLaws K Obj}.





End properties.

(** ** The engine *)

(** The value the loop over the entries leaves for a key. *)
Definition pick (k d : string) (l : list (string * string)) : string :=
  foldl (fun d kv => if kv.2 ==s "" then d else if kv.1 ==s k then kv.2 else d) d l.

Lemma appInfoParam_pick p l :
  foldl setAppParam p l =
    mkAppParams (pick "appkind" p.(AppKind) l) (pick "appns" p.(Appns) l) (pick "applabel" p.(Applabel) l).
Proof.
  revert p. induction l as [|[k v] l IH]; intros p; [by destruct p|]. simpl. rewrite IH. clear IH.
  destruct (v ==s ""); [done|].
  destruct (eqb_spec_s k "appkind") as [->|]; [done|]. destruct (eqb_spec_s k "appns") as [->|]; [done|].
  by destruct (eqb_spec_s k "applabel") as [->|].
Qed.

Lemma pick_absent k d l : k ∉ l.*1 -> pick k d l = d.
Proof.
  revert d. induction l as [|[k' v] l IH]; intros d Hk; [done|]. simpl in *. rewrite IH by set_solver.
  destruct (eqb_spec_s k' k) as [->|]; [set_solver|]. by destruct (v ==s "").
Qed.

Lemma pick_entry k l : NoDup l.*1 -> pick k "" l = default "" ((list_to_map l : gmap string string) !! k).
Proof.
  induction l as [|[k' v] l IH]; intros Hd; [done|]. simpl in *. inversion Hd; subst.
  destruct (eqb_spec_s k' k) as [->|Hne].
  - rewrite lookup_insert_eq. simpl. destruct (eqb_spec_s v "") as [->|]; by apply (pick_absent k).
  - rewrite lookup_insert_ne by done. rewrite <-IH by done. by destruct (v ==s "").
Qed.

(** The engine that is created does not depend on the order in which the
    maps of the request are walked: it names the application of the request
    and carries exactly the components that have a value, each once. *)
Theorem engine_any_order range name ns n app comps :
  (forall m, range m ≡ₚ map_to_list m) ->
  let g := chaosEnginer range name ns n app comps in
  g.(Appinfo) = mkAppParams (get app "appkind") (get app "appns") (get app "applabel") /\
  NoDup g.(ENV).*1 /\
  forall k v, (k, v) ∈ g.(ENV) <-> comps !! k = Some v /\ v <> "".
Proof.
  intros Hr g. unfold g, chaosEnginer. cbn [Appinfo ENV]. split; [|split].
  - unfold appInfoParam. rewrite appInfoParam_pick. simpl.
    assert (NoDup (range app).*1) as Hd by (rewrite (Hr app); apply NoDup_fst_map_to_list).
    rewrite !pick_entry by done.
    replace (list_to_map (range app) : gmap string string) with app; [done|].
    rewrite (list_to_map_proper _ _ Hd (Hr app)). by rewrite list_to_map_to_list.
  - unfold componentEnv. eapply sublist_NoDup; [|apply fmap_sublist, sublist_filter].
    rewrite (Hr comps). apply NoDup_fst_map_to_list.
  - intros k v. unfold componentEnv. rewrite list_elem_of_filter, (Hr comps), elem_of_map_to_list. naive_solver.
Qed.

Lemma engine_any_order_witness :
  let g := chaosEnginer map_to_list "e" "default" "pod-delete"
             (<["appns" := "shop"]> ∅) (<["A" := "1"]> (<["B" := ""]> ∅)) in
  g.(Appinfo) = mkAppParams "" "shop" "" /\ NoDup g.(ENV).*1.
Proof.
  destruct (engine_any_order map_to_list "e" "default" "pod-delete" (<["appns" := "shop"]> ∅)
    (<["A" := "1"]> (<["B" := ""]> ∅)) (fun m => Permutation_refl _)) as (E & D & _).
  split; [exact E|exact D].
Defined.

(** ** The operator *)

Section operator.
Context {W Chart X : Type} `{Registry.OCIStore W} `{Registry.Formats Chart}.
Context (NewOCIStore : string -> result W) (orasPull : string -> W -> W * result Registry.Descriptor)
  (url_err : string -> option string).
Context (mergeValues : option string) (parseInto : string -> option string)
  (runInstall : string -> string -> Chart -> X -> X * option string).

(** A reference that ends in a colon has no tag. *)
Lemma no_version_no_tag u ref : Reference.ParseReference url_err (u +:+ ":") = Ok ref ->
  ref.(Reference.Tag) = "".
Proof.
  intros E. apply Reference.pieces_of_ParseReference in E as [Hp _].
  assert (Split (u +:+ ":") ":" = Split u ":" ++ [""]) as Es.
  { rewrite <-(split_join ":"%char (Split u ":" ++ [""])).
    - f_equal. rewrite <-(join_split u ":") at 1.
      generalize (split_go_nonempty (String.length u) ":" u). fold (Split u ":").
      generalize (Split u ":"). induction l as [|x [|y l] IH]; intros Hne; [done|done|].
      change ((x :: y :: l) ++ [""]) with (x :: ((y :: l) ++ [""])).
      rewrite !join_cons, !app_assoc_s by discriminate. by rewrite IH.
    - by destruct (Split u ":").
    - apply Forall_app. split; [apply Split_char_free|]. constructor; [by intros []|constructor]. }
  rewrite Es in Hp. apply (f_equal last) in Es. rewrite last_snoc in Es.
  remember (Split u ":" ++ [""]) as l eqn:El. apply (f_equal last) in El. rewrite last_snoc in El.
  destruct Hp; simpl in *; congruence.
Qed.

Lemma pull_needs_version (c c' : Registry.Client W) ref :
  Registry.PullChartToCache (Chart := Chart) NewOCIStore orasPull c ref = Returns (c', None) ->
  ref.(Reference.Tag) <> "".
Proof. unfold Registry.PullChartToCache. by destruct (eqb_spec_s ref.(Reference.Tag) ""). Qed.

(** Installing the operator either works, and then the version of the
    request, which is not empty, is the version the agent goes by and Helm ran
    the chart, or it is answered with a failure and the agent's version stays
    as it was. *)
Theorem install_sets_version request (s s' : HelmState W X) resp :
  installHandle NewOCIStore orasPull url_err mergeValues parseInto runInstall
    (Some (mkInstall true)) request s = Returns (resp, s') ->
  (exists version ch, request.(Params) !! "version" = Some version /\ version <> "" /\
     resp = ReturnSuccess /\ s'.(hopts) = set_LitmusChaosVerison version s.(hopts) /\
     runInstall s.(helm).(helmNamespace) s.(helm).(helmName) ch s.(releases) = (s'.(releases), None)) \/
  (resp.(Success) = false /\ s'.(hopts) = s.(hopts)).
Proof.
  unfold installHandle. destruct (request.(Params) !! "version") as [version|]; [|intros [= <- <-]; auto].
  unfold installLitmus. cbn [hasHelm negb]. intros E.
  apply outcome_bind_returns in E as ([hm [e|]] & Ep & E); [simplify_eq; auto|].
  apply outcome_bind_returns in E as ([hm2 [charts|e]] & El & E); [|simplify_eq; auto].
  apply outcome_bind_returns in E as ([x [e|]] & Ei & E); [simplify_eq; auto|]. simplify_eq. left.
  unfold PullChart, LoadChart in *. unfold getLitmusUrlByVersionAndEnv in *.
  destruct (Reference.ParseReference _ _) as [ref|] eqn:Er; [|done].
  apply outcome_bind_returns in Ep as ([c1 e1] & Ep & [= <- ->]).
  apply outcome_bind_returns in El as ([c2 e2] & El & [= <- ->]).
  unfold Install in Ei. destruct mergeValues; [done|]. destruct (parseInto _); [done|].
  apply outcome_bind_returns in Ei as ([e|] & _ & Ei); [done|]. destruct charts as [ch|]; [|done].
  exists version, ch. cbn [hopts releases]. repeat split; try done.
  - intros ->. apply pull_needs_version in Ep. by apply no_version_no_tag in Er.
  - simpl in Ei. congruence.
Qed.
End operator.

(** ** The report of an experiment *)

Section report.
Context {C : Type} `{TransportChannel C} (client : C) (e : Env) (o : Options).
Context (retry : nat -> (nat -> option string) -> option string) (tries : nat -> nat).
Context (chaosResults : string -> string -> nat -> result (string * Z)).

(** [Try] calls the function a number of times that depends on [Times] only,
    stops at the first nil and otherwise returns the last error. *)
Context (retry_some : forall n f i, (i < tries n)%nat -> f i = None -> retry n f = None)
  (retry_last : forall n f, (forall i, (i < tries n)%nat -> f i <> None) -> retry n f = f (pred (tries n)))
  (tries_pos : forall n, (0 < tries n)%nat).

(** The server is told about the experiment in one report: success when
    in one of the tries the result named its engine and had no failed run,
    and otherwise an error with the text of the last try. *)
Theorem experiment_is_reported uris name ns n :
  let try i := tryResult (chaosResults ns (name +:+ "-" +:+ n) i) in
  let report status text := Chaosblade.ReportStatus client e o name status text LitmusHelmName
                              (default zeroUri (uris !! API_CHAOSBLADE_ASYNC)) in
  (exists i engine, (i < tries 90)%nat /\ chaosResults ns (name +:+ "-" +:+ n) i = Ok (engine, 0) /\
     engine <> "" /\
     AsyncHandlerResultStatus client e o retry chaosResults uris (name, ns, n) = report "Success" "") \/
  (exists err, try (pred (tries 90)) = Some err /\
     (forall i, (i < tries 90)%nat -> try i <> None) /\
     AsyncHandlerResultStatus client e o retry chaosResults uris (name, ns, n) =
       report "Error" ("inject fault failed, err: " +:+ err)).
Proof.
  intros try report. unfold AsyncHandlerResultStatus, handlerResult. fold try.
  destruct (decide (Exists (fun i => try i = None) (seq 0 (tries 90)))) as [Hx|Hn].
  - left. apply Exists_exists in Hx as (i & Hi & Ht). apply elem_of_seq in Hi.
    rewrite (retry_some 90 try i) by (done || lia).
    unfold try, tryResult in Ht. destruct (chaosResults ns _ i) as [[engine runs]|] eqn:Er; [|done].
    destruct (eqb_spec_s engine "") as [|Hne]; [done|]. destruct (Z.eqb_spec runs 0) as [->|]; [|done].
    exists i, engine. repeat split; done || lia.
  - right. assert (forall i, (i < tries 90)%nat -> try i <> None) as Hall.
    { intros i Hi Ht. apply Hn, Exists_exists. exists i. split; [apply elem_of_seq; lia|done]. }
    rewrite (retry_last 90 try Hall). pose proof (tries_pos 90).
    destruct (try (pred (tries 90))) as [err|] eqn:Et; [eauto|]. by apply Hall in Et; [|lia].
Qed.
End report.

(** ** A cluster in memory *)

Module Demo.
Record Obj := mkObj { oKind : string; oName : string }.
Notation Cluster := (list (key * Obj)).
Definition find (k : Cluster) (q : key) : option Obj :=
  snd <$> head (filter (fun e => e.1 = q) k).

#[export] Instance demo_api : KubeApi Cluster Obj := {
  objName := oName;
  objKind := oKind;
  apiCreate r ns o k :=
    match o with
    | None => (k, Some (ApiFailure "empty body"))
    | Some o =>
        match find k (r, ns, o.(oName)) with
        | Some _ => (k, Some (AlreadyExists o.(oName)))
        | None => (((r, ns, o.(oName)), o) :: k, None)
        end
    end;
  apiGet r ns n k :=
    (k, match find k (r, ns, n) with Some _ => None | None => Some (NotFound n) end);
  apiDelete r ns n k := (filter (fun e => e.1 <> (r, ns, n)) k, None);
  createChaosEngine _ _ k := (k, None);
  deleteChaosEngine _ n k := (k, Some (NotFound n));
  decodeYaml r text := (Some (mkObj "Role" text), None);
  unmarshalExperiment text := (Some (mkObj "ChaosExperiment" "pod-delete"), None)
}.

Lemma find_cons q o k q' : find ((q, o) :: k) q' = if decide (q = q') then Some o else find k q'.
Proof. unfold find. rewrite filter_cons. simpl. by case_decide. Qed.

Lemma find_filter k q q' : find (filter (fun e => e.1 <> q) k) q' = if decide (q' = q) then None else find k q'.
Proof.
  induction k as [|[x o] k IH]; [by case_decide|]. rewrite filter_cons. cbn [fst].
  destruct (decide (x <> q)) as [Hx|Hx].
  - rewrite !find_cons, IH. repeat case_decide; naive_solver.
  - rewrite find_cons, IH. repeat case_decide; naive_solver.
Qed.

#[export] Program Instance demo_kube_laws : KubeLaws Cluster Obj := { stored := find }.
Next Obligation.
  intros r ns o k E. cbn [apiCreate demo_api objName] in *. rewrite E. eexists. split; [done|].
  intros q. rewrite find_cons. repeat case_decide; naive_solver.
Qed.
Next Obligation. intros r ns o k [o' E]. cbn [apiCreate demo_api objName] in *. rewrite E. eauto. Qed.
Next Obligation. intros r ns n k [o' E]. cbn [apiGet demo_api] in *. rewrite E. eauto. Qed.
Next Obligation. intros r ns n k E. cbn [apiGet demo_api] in *. rewrite E. eauto. Qed.
Next Obligation. intros r ns n k _. eexists. split; [done|]. intros q. apply find_filter. Qed.

Definition rbac_yaml := "x---sa---role---binding".
Definition demo_net : web := fun url => Ok (200, Ok rbac_yaml).
Definition demo_disk : OS := mkOS ∅ (fun _ => None) (fun _ _ => None).
Definition demo_opts : Options := set_LitmusChaosVerison "1.13.5" AddFlags.
Definition demo_litmus : World Cluster :=
  mkWorld [((KRole, "default", "role"), mkObj "Role" "old")] demo_disk demo_opts.
Definition created : outcome (Response * list watch * World Cluster) :=
  createExec demo_net map_to_list (Some tt) "generic" "pod-delete" "default" "e1" ∅ ∅ demo_litmus.
Definition created_world : World Cluster := match created with Returns (_, _, w) => w | _ => demo_litmus end.

Fixpoint first_ok (n i : nat) (f : nat -> option string) : option string :=
  match n with
  | O => f i
  | S n' => match f i with
            | None => None
            | Some e => match n' with O => Some e | _ => first_ok n' (S i) f end
            end
  end.
Definition demo_retry (n : nat) (f : nat -> option string) : option string := first_ok (S n) 0 f.

Lemma first_ok_some n i f j : (i <= j < i + n)%nat -> f j = None -> first_ok n i f = None.
Proof.
  revert i. induction n as [|n IH]; intros i Hj Hf; [lia|]. simpl.
  destruct (decide (i = j)) as [->|]; [by rewrite Hf|].
  destruct n as [|n]; [lia|]. destruct (f i); [|done]. apply IH; [lia|done].
Qed.

Lemma first_ok_last n i f : (0 < n)%nat -> (forall j, (i <= j < i + n)%nat -> f j <> None) ->
  first_ok n i f = f (i + pred n)%nat.
Proof.
  revert i. induction n as [|n IH]; intros i Hn Hf; [lia|]. simpl.
  destruct (f i) eqn:Ei; [|by apply Hf in Ei; [|lia]].
  destruct n as [|n]; [simpl; by rewrite Nat.add_0_r|].
  rewrite IH; [f_equal; simpl; lia|lia|]. intros j Hj. apply Hf. lia.
Qed.
End Demo.
Import Demo.

Lemma experiment_runs_once_witness :
  created_world.(disk).(files) !! litmusFile "1.13.5" "generic" "pod-delete" LITMUS_RBAC = Some "" /\
  exists msg w'', createExec demo_net map_to_list (Some tt) "generic" "pod-delete" "default" "e2" ∅ ∅
    (mkWorld [] created_world.(disk) created_world.(opts)) = Returns (ReturnFail ServerError [msg], [], w'').
Proof.
  destruct (experiment_runs_once demo_net map_to_list tt "generic" "pod-delete" "default" "e1" ∅ ∅
    demo_litmus created_world [("e1", "default", "pod-delete")]) as [H _]; [vm_compute; reflexivity..|].
  destruct H as [H1 H2]; [reflexivity|]. split; [exact H1|apply H2].
Defined.


Import Registry.Demo.
Definition demo_helm : HelmState MemStore nat :=
  mkHelmState (mkHelm LitmusHelmName LitmusHelmNamespace new_client) 0%nat (set_LitmusChartUrl "hub/litmus" AddFlags).
Definition install_request : Request := mkRequest ∅ {["version" := "1.0"]}.
Definition installed : outcome (Response * HelmState MemStore nat) :=
  installHandle (Chart := unit) open_empty Registry.Demo.pull (fun _ => None) None (fun _ => None)
    (fun _ _ _ x => (S x, None)) (Some (mkInstall true)) install_request demo_helm.
Definition installed_state : HelmState MemStore nat :=
  match installed with Returns (_, s) => s | _ => demo_helm end.

Lemma install_sets_version_witness :
  installed_state.(hopts) = set_LitmusChaosVerison "1.0" demo_helm.(hopts).
Proof.
  destruct (install_sets_version (Chart := unit) open_empty Registry.Demo.pull (fun _ => None) None
    (fun _ => None) (fun _ _ _ x => (S x, None)) install_request demo_helm installed_state ReturnSuccess)
    as [(version & ch & Hv & _ & _ & E & _)|[E _]].
  - vm_compute. reflexivity.
  - injection Hv as <-. exact E.
  - discriminate E.
Defined.

#[local] Instance function_channel : TransportChannel (Uri -> string -> result string) := fun f => f.

Lemma experiment_is_reported_witness :
  AsyncHandlerResultStatus (fun (_ : Uri) (_ : string) => Ok "") demo_env AddFlags demo_retry
    (fun _ _ i => if Nat.ltb i 3 then Err "not found" else Ok ("e1", 0)) ∅ ("e1", "default", "pod-delete") =
  Chaosblade.ReportStatus (fun (_ : Uri) (_ : string) => Ok "") demo_env AddFlags "e1" "Success" ""
    LitmusHelmName zeroUri.
Proof.
  destruct (experiment_is_reported (fun (_ : Uri) (_ : string) => Ok "") demo_env AddFlags demo_retry S
    (fun _ _ i => if Nat.ltb i 3 then Err "not found" else Ok ("e1", 0))
    (fun n f i Hi Hf => first_ok_some (S n) 0 f i (conj (Nat.le_0_l i) Hi) Hf)
    (fun n f Hf => first_ok_last (S n) 0 f (Nat.lt_0_succ n) (fun j Hj => Hf j (proj2 Hj)))
    Nat.lt_0_succ ∅ "e1" "default" "pod-delete") as [(i & en & _ & _ & _ & E)|(err & _ & Hall & _)].
  - exact E.
  - exfalso. apply (Hall 3%nat); [lia|vm_compute; reflexivity].
Defined.
End Litmus.
