(* ===== verification/ChartClient.v ===== *)
(** * pkg/helm3/registry: building a client, logging in and the chart table

    client_opts.go, the constructor and the remaining operations of client.go,
    [GetHelmInstance] of pkg/helm3, and the handlers of the operator that hold
    the result.  The registry's authorization
    (oras), Helm's paths and settings, the table printer and the printing of
    durations are parameters. *)

From S2P Require Import Prelude GoStrings Json JsonFacts Options Tools Transport Web Reference Registry Litmus.
Local Open Scope Z_scope.

Module ChartClient.
Import Options Transport Reference Registry.

(** ** client.go: the constructor *)

Definition CredentialsFileBasename := "config.json".
Definition CacheRootDir := "cache".

(** auth.Client of oras, with the credentials it keeps.  [Login] and [Logout]
    get the logger of the context, [None] for the silent one. *)
Class AuthClient (A R : Type) := mkAuthClient {
  authNewClient : string -> result A;
  authResolver : A -> result R;
  authLogin : option IoWriter -> string -> string -> string -> bool -> A -> A * option string;
  authLogout : option IoWriter -> string -> A -> A * option string
}.

(** util.go: the context logs to the writer when debugging. *)
Definition ctx (out : IoWriter) (debug : bool) : option IoWriter := if debug then Some out else None.

Section build.
Context {W A R : Type} `{AuthClient A R} (CachePath : list string -> string).

(** The struct [Client] as it is filled: pointers may be nil.  [Registry.Client]
    is what the operations on charts use of it. *)
Record Fields := mkFields {
  fdebug : bool; credentialsFile : string; fout : IoWriter;
  authorizer : option A; resolver : option R; fcache : option (Cache W)
}.

(** client_opts.go *)
Definition ClientOption : Type := Fields -> Fields.
Definition ClientOptDebug (debug : bool) : ClientOption := fun c =>
  mkFields debug c.(credentialsFile) c.(fout) c.(authorizer) c.(resolver) c.(fcache).
Definition ClientOptWriter (out : IoWriter) : ClientOption := fun c =>
  mkFields c.(fdebug) c.(credentialsFile) out c.(authorizer) c.(resolver) c.(fcache).
Definition ClientOptResolver (resolver : option R) : ClientOption := fun c =>
  mkFields c.(fdebug) c.(credentialsFile) c.(fout) c.(authorizer) resolver c.(fcache).
Definition ClientOptAuthorizer (authorizer : option A) : ClientOption := fun c =>
  mkFields c.(fdebug) c.(credentialsFile) c.(fout) authorizer c.(resolver) c.(fcache).
Definition ClientOptCache (cache : option (Cache W)) : ClientOption := fun c =>
  mkFields c.(fdebug) c.(credentialsFile) c.(fout) c.(authorizer) c.(resolver) cache.
Definition ClientOptCredentialsFile (credentialsFile : string) : ClientOption := fun c =>
  mkFields c.(fdebug) credentialsFile c.(fout) c.(authorizer) c.(resolver) c.(fcache).

(** The defaults of the fields that the options left unset, in the order of
    the code: the authorizer reads the credentials file, the resolver asks the
    authorizer. *)
Definition defaultCredentials (c : Fields) : Fields :=
  if c.(credentialsFile) ==s "" then
    ClientOptCredentialsFile (CachePath ["registry"; CredentialsFileBasename]) c
  else c.
Definition defaultAuthorizer (c : Fields) : result (Fields * A) :=
  match c.(authorizer) with
  | Some a => Ok (c, a)
  | None => a ← authNewClient c.(credentialsFile); Ok (ClientOptAuthorizer (Some a) c, a)
  end.
Definition defaultResolver (c : Fields) (a : A) : result Fields :=
  match c.(resolver) with
  | Some _ => Ok c
  | None => r ← authResolver a; Ok (ClientOptResolver (Some r) c)
  end.
Definition defaultCache (c : Fields) : result Fields :=
  match c.(fcache) with
  | Some _ => Ok c
  | None =>
      k ← NewCache [CacheOptDebug c.(fdebug); CacheOptWriter c.(fout);
                    CacheOptRoot (CachePath ["registry"; CacheRootDir])];
      Ok (ClientOptCache (Some k) c)
  end.
Definition NewClient (opts : list ClientOption) : result Fields :=
  let c := foldl (fun c opt => opt c) (mkFields false "" Discard None None None) opts in
  let c := defaultCredentials c in
  '(c, a) ← defaultAuthorizer c;
  c ← defaultResolver c a;
  defaultCache c.

(** ** Login and logout *)

(** The client, the text it printed and the error; a nil authorizer panics. *)
Definition authorize (c : Fields) (step : A -> A * option string) (done : string)
    : outcome (Fields * string * option string) :=
  match c.(authorizer) with
  | None => Panics Litmus.nilPointer
  | Some a =>
      let '(a, err) := step a in
      let c := ClientOptAuthorizer (Some a) c in
      Returns (c, if err then "" else done +:+ newline, err)
  end.
Definition Login (c : Fields) (hostname username password : string) (insecure : bool) :=
  authorize c (authLogin (ctx c.(fout) c.(fdebug)) hostname username password insecure) "Login succeeded".
Definition Logout (c : Fields) (hostname : string) :=
  authorize c (authLogout (ctx c.(fout) c.(fdebug)) hostname) "Logout succeeded".

(** ** pkg/helm3: GetHelmInstance *)

(** Helm's settings, and the error of [Init] for a namespace and a driver. *)
Record EnvSettings := mkSettings { Debug : bool; RegistryConfig : string }.
Context (setting : EnvSettings) (actionInit : string -> string -> option string) (HELM_DRIVER : string).

Definition clientOf (c : Fields) : option (Client W) := k ← c.(fcache); Some (mkClient "" k).

Definition GetHelmInstance (helmName helmNamespace : string) (out : IoWriter) : option (Litmus.Helm (W := W)) :=
  match actionInit helmNamespace HELM_DRIVER with
  | Some _ => None
  | None =>
      match NewClient [ClientOptDebug setting.(Debug); ClientOptWriter out;
                       ClientOptCredentialsFile setting.(RegistryConfig)] with
      | Err _ => None
      | Ok c => client ← clientOf c; Some (Litmus.mkHelm helmName helmNamespace client)
      end
  end.
End build.
Arguments Fields W A R : clear implicits.

(** ** The table of charts *)

Section table.
Context {W Chart : Type} `{OCIStore W} `{Formats Chart} (NewOCIStore : string -> result W).
Context (url_err : string -> option string).
(** go-units prints a duration. *)
Context (HumanDuration : Z -> string) (now : Z).
(** The order of the walk over the map. *)
Context (range : gmap string (gmap string string) -> list string).

(** [Sub] saturates at the bounds of a duration. *)
Definition timeAgo (t : Z) : string :=
  HumanDuration (Z.max (- 2 ^ 63) (Z.min (2 ^ 63 - 1) (now - t))).

(** The map of a reference's columns; a nil pointer in the summary panics. *)
Definition columns (r : CacheRefSummary Chart) : outcome (gmap string string) :=
  match r.(sChart) ≫= metadata, r.(sManifest) with
  | Some m, Some manifest =>
      digest ← Hex manifest.(Digest);
      size ← byteCountBinary r.(sSize);
      Returns (<["name" := m.(mName)]> (<["version" := m.(mVersion)]> (<["digest" := shortDigest digest]>
                (<["size" := size]> {["created" := timeAgo r.(CreatedAt)]}))))
  | _, _ => Panics Litmus.nilPointer
  end.

Fixpoint buildRefs (refsMap : gmap string (gmap string string)) (rr : list (CacheRefSummary Chart))
    : outcome (gmap string (gmap string string)) :=
  match rr with
  | [] => Returns refsMap
  | r :: rr' => cols ← columns r; buildRefs (<[r.(sName) := cols]> refsMap) rr'
  end.

(** A missing key of the outer map is a nil map, whose values are empty. *)
Definition tableRow (refsMap : gmap string (gmap string string)) (key : string) : list string :=
  let ref := default ∅ (refsMap !! key) in
  key :: map (get ref) ["name"; "version"; "digest"; "size"; "created"].

Definition getChartTableRows (c : Client W) : outcome (Client W * result (list (list string))) :=
  '(k, said, rr, err) ← ListReferences (Chart := Chart) NewOCIStore url_err c.(cache);
  let c := say said (with_cache k c) in
  match err with
  | Some e => Returns (c, Err e)
  | None =>
      refsMap ← buildRefs ∅ rr;
      Returns (c, Ok (map (tableRow refsMap) (merge_sort String.le (range refsMap))))
  end.

Definition tableHead : list string := ["REF"; "NAME"; "VERSION"; "DIGEST"; "SIZE"; "CREATED"].
(** uitable prints rows with a column width. *)
Definition PrintChartTable (tableString : Z -> list (list string) -> string) (c : Client W) : outcome (Client W * option string) :=
  '(c, rows) ← getChartTableRows c;
  match rows with
  | Err e => Returns (c, Some e)
  | Ok rows => Returns (say (tableString 60 (tableHead :: rows) +:+ newline) c, None)
  end.

(** *** What the table lists *)

(** The descriptors with a name, each parsed and fetched. *)
Definition fetched (w : W) (d : Descriptor) (r : CacheRefSummary Chart) : Prop :=
  exists ref, ParseReference url_err (refName d) = Ok ref /\
    fetchLoop w (emptySummary ref) (references w) = Returns (r, None).

Lemma listLoop_fetches k w descs said rr k' said' rr' : k.(ociStore) = Some w ->
  listLoop NewOCIStore url_err k said rr descs = Returns (k', said', rr', None) ->
  exists rs, rr' = rr ++ rs /\ Forall2 (fetched w) (filter (fun d => refName d <> "") descs) rs.
Proof.
  intros Hk. revert said rr. induction descs as [|d descs IH]; intros said rr E; simpl in E.
  { simplify_eq. exists []. rewrite app_nil_r. split; [done|constructor]. }
  rewrite filter_cons. destruct (eqb_spec_s (refName d) "") as [Ed|Ed].
  { rewrite decide_False by tauto. destruct (debug k); [|by eapply IH].
    apply outcome_bind_returns in E as (hex & _ & E). by eapply IH. }
  rewrite decide_True by done.
  destruct (ParseReference url_err (refName d)) as [ref|] eqn:Ep; [|done].
  unfold FetchReference, init in E. rewrite Hk in E.
  apply outcome_bind_returns in E as ([[k1 r] err] & Ef & E).
  apply outcome_bind_returns in Ef as ([r1 err1] & Ef & [= <- <- <-]).
  destruct err1; [done|]. apply IH in E as (rs & -> & Hrs).
  exists (r1 :: rs). rewrite <-app_assoc. split; [done|]. constructor; [by exists ref|done].
Qed.

Lemma buildRefs_lookup rr m m' : buildRefs m rr = Returns m' -> forall k,
  match m' !! k with
  | Some cols => m !! k = Some cols \/ exists r, r ∈ rr /\ r.(sName) = k /\ columns r = Returns cols
  | None => m !! k = None /\ Forall (fun r => r.(sName) <> k) rr
  end.
Proof.
  revert m. induction rr as [|r rr IH]; intros m E k; simpl in E.
  - simplify_eq. destruct (m' !! k); [by left|done].
  - apply outcome_bind_returns in E as (cols & Ec & E). specialize (IH _ E k).
    destruct (decide (r.(sName) = k)) as [<-|Hne]; simplify_map_eq; destruct (m' !! _) as [c|].
    + destruct IH as [[= ->]|(r' & Hr & Hn & Hc)]; right; [exists r|exists r']; split_and!; try done; set_solver.
    + by destruct IH.
    + destruct IH as [?|(r' & Hr & Hn & Hc)]; [by left|]. right. exists r'. split_and!; try done. set_solver.
    + destruct IH. auto.
Qed.

(** A row shows the summary [r]. *)
Definition shows (r : CacheRefSummary Chart) (row : list string) : Prop :=
  exists m manifest digest size,
    r.(sChart) ≫= metadata = Some m /\ r.(sManifest) = Some manifest /\
    Hex manifest.(Digest) = Returns digest /\ byteCountBinary r.(sSize) = Returns size /\
    row = [r.(sName); m.(mName); m.(mVersion); shortDigest digest; size; timeAgo r.(CreatedAt)].

Lemma columns_row m r cols : columns r = Returns cols -> m !! r.(sName) = Some cols ->
  shows r (tableRow m r.(sName)).
Proof.
  unfold columns. destruct (sChart r ≫= metadata) as [md|] eqn:Em; [|done].
  destruct (sManifest r) as [mf|] eqn:Ef; [|done]. intros E Hm.
  apply outcome_bind_returns in E as (dg & Ed & E). apply outcome_bind_returns in E as (sz & Es & E).
  injection E as <-. exists md, mf, dg, sz. split_and!; try done.
  unfold tableRow. rewrite Hm. cbn [default map]. unfold get. by simplify_map_eq.
Qed.

Lemma tableRow_names m keys : map (hd "") (map (tableRow m) keys) = keys.
Proof. rewrite map_map. cbn. apply map_id. Qed.

Context (range_keys : forall m, range m ≡ₚ (map_to_list m).*1).

Lemma range_elem m k : k ∈ range m <-> is_Some (m !! k).
Proof.
  rewrite range_keys, list_elem_of_fmap. split.
  - intros ([k' v] & -> & Hin). apply elem_of_map_to_list in Hin. by exists v.
  - intros [v Hv]. exists (k, v). split; [done|]. by apply elem_of_map_to_list.
Qed.

(** C39. The table of charts lists the cache: one row for each name that some
    reference of the index has once it is parsed, in increasing byte order
    whatever the order of the map, and the columns of a row are name, version,
    digest, size and age of a chart fetched under that name. *)
Theorem chart_table_lists (c c' : Client W) k w rows :
  init NewOCIStore c.(cache) = Ok (k, w) ->
  getChartTableRows c = Returns (c', Ok rows) ->
  let names := map (hd "") rows in
  StronglySorted String.le names /\ NoDup names /\
  (forall n, n ∈ names <-> exists d ref, d ∈ references w /\ refName d <> "" /\
     ParseReference url_err (refName d) = Ok ref /\ FullName ref = n) /\
  (forall row, row ∈ rows -> exists d r, d ∈ references w /\ fetched w d r /\ shows r row).
Proof.
  intros Hi E. unfold getChartTableRows, ListReferences in E. rewrite Hi in E.
  apply outcome_bind_returns in E as ([[[k1 said] rr] err] & El & E). destruct err; [done|].
  apply outcome_bind_returns in E as (m & Eb & E). injection E as <- <-.
  apply (listLoop_fetches _ w) in El as (rs & -> & Hrs); [|by apply (init_opens _ _ _ _ Hi)].
  cbn [app] in Eb. pose proof (buildRefs_lookup _ _ _ Eb) as Hm.
  assert (Hin : forall n, n ∈ merge_sort String.le (range m) <-> is_Some (m !! n)).
  { intros n. rewrite merge_sort_Permutation. apply range_elem. }
  assert (Hrow : forall n, is_Some (m !! n) -> exists r, r ∈ rs /\ r.(sName) = n /\ shows r (tableRow m n)).
  { intros n [cols Hc]. specialize (Hm n). rewrite Hc in Hm.
    destruct Hm as [Hm|(r & Hr & <- & Ec)]; [by rewrite lookup_empty in Hm|].
    exists r. split_and!; try done. by eapply columns_row. }
  cbn zeta. rewrite tableRow_names. split_and!.
  - apply StronglySorted_merge_sort; apply _.
  - rewrite merge_sort_Permutation, range_keys. apply NoDup_fst_map_to_list.
  - intros n. rewrite Hin. split.
    + intros (r & Hr & <- & _)%Hrow. apply list_elem_of_lookup in Hr as [i Hr].
      destruct (Forall2_lookup_r _ _ _ _ _ Hrs Hr) as (d & Hd & ref & Hp & Hf).
      apply list_elem_of_lookup_2, list_elem_of_filter in Hd as [Hne Hd].
      exists d, ref. apply fetchLoop_name in Hf. cbn in Hf. done.
    + intros (d & ref & Hd & Hne & Hp & <-).
      assert (Hd' : d ∈ filter (fun d => refName d <> "") (references w)) by by apply list_elem_of_filter.
      apply list_elem_of_lookup in Hd' as [i Hd'].
      destruct (Forall2_lookup_l _ _ _ _ _ Hrs Hd') as (r & Hr & ref' & Hp' & Hf).
      rewrite Hp in Hp'. injection Hp' as <-. apply fetchLoop_name in Hf. cbn in Hf.
      specialize (Hm (FullName ref)). destruct (m !! FullName ref) as [cols|]; [by exists cols|].
      destruct Hm as [_ Hall]. apply list_elem_of_lookup_2 in Hr. rewrite Forall_forall in Hall.
      by apply Hall in Hr.
  - intros row Hr. apply list_elem_of_In, in_map_iff in Hr as (n & <- & Hn).
    apply list_elem_of_In, Hin, Hrow in Hn as (r & Hr & _ & Hs). apply list_elem_of_lookup in Hr as [i Hr].
    destruct (Forall2_lookup_r _ _ _ _ _ Hrs Hr) as (d & Hd & Hf).
    apply list_elem_of_lookup_2, list_elem_of_filter in Hd as [_ Hd]. by exists d, r.
Qed.
End table.

(** ** When there is a Helm, and what happens without *)

Section helm.
Context {W A R : Type} `{AuthClient A R} (CachePath : list string -> string).
Context (setting : EnvSettings) (actionInit : string -> string -> option string) (HELM_DRIVER : string).

(** A client whose options set neither authorizer, resolver nor cache. *)
Lemma NewClient_defaults opts debug cf out (c : Fields W A R) :
  foldl (fun c opt => opt c) (mkFields false "" Discard None None None) opts = mkFields debug cf out None None None ->
  let file := if cf ==s "" then CachePath ["registry"; CredentialsFileBasename] else cf in
  let root := CachePath ["registry"; CacheRootDir] in
  NewClient CachePath opts = Ok c <->
  exists a r, authNewClient file = Ok a /\ authResolver a = Ok (r : R) /\ root <> "" /\
    c = mkFields debug file out (Some a) (Some r) (Some (mkCache debug out root None)).
Proof.
  intros E. unfold NewClient, defaultCredentials. rewrite E. cbn zeta. cbn [credentialsFile].
  transitivity (exists a r, authNewClient (if cf ==s "" then CachePath ["registry"; CredentialsFileBasename] else cf) = Ok a /\
    authResolver a = Ok (r : R) /\ defaultCache CachePath (mkFields debug (if cf ==s "" then
      CachePath ["registry"; CredentialsFileBasename] else cf) out (Some a) (Some r) None) = Ok c).
  - destruct (cf ==s ""); unfold defaultAuthorizer; cbn.
    all: destruct (authNewClient _) as [a|]; cbn; [|by split; [done|intros (? & ? & [=] & _)]].
    all: unfold defaultResolver; cbn; destruct (authResolver a) as [r|] eqn:Er; cbn.
    all: try (split; [intros Hc; by exists a, r|intros (a' & r' & [= <-] & Ha & Hc);
      rewrite Er in Ha; by injection Ha as <-]).
    all: split; [done|]; intros (a' & r & [= <-] & Ha & _); by rewrite Er in Ha.
  - unfold defaultCache, NewCache. cbn.
    destruct (eqb_spec_s (CachePath ["registry"; CacheRootDir]) "") as [Ed|Ed]; cbn; naive_solver.
Qed.

(** There is a Helm exactly when Helm's configuration comes up, the
    credentials (the user's file, or the default one when none is named) can be
    read, their owner gives a resolver, and the cache has a directory; its
    cache is then not opened yet. *)
Theorem GetHelmInstance_exact name ns out (h : Litmus.Helm (W := W)) :
  let file := if setting.(RegistryConfig) ==s "" then CachePath ["registry"; CredentialsFileBasename]
              else setting.(RegistryConfig) in
  let root := CachePath ["registry"; CacheRootDir] in
  GetHelmInstance CachePath setting actionInit HELM_DRIVER name ns out = Some h <->
  actionInit ns HELM_DRIVER = None /\
  (exists a (r : R), authNewClient file = Ok a /\ authResolver a = Ok r) /\ root <> "" /\
  h = Litmus.mkHelm name ns (mkClient "" (mkCache setting.(Debug) out root None)).
Proof.
  cbn zeta. unfold GetHelmInstance. destruct (actionInit ns HELM_DRIVER); [split; [done|by intros [? _]]|].
  pose proof (fun c => NewClient_defaults [ClientOptDebug setting.(Debug); ClientOptWriter out;
    ClientOptCredentialsFile setting.(RegistryConfig)] _ _ _ c eq_refl) as Hc. cbn zeta in Hc.
  destruct (NewClient CachePath _) as [c|]; split.
  - destruct (proj1 (Hc c) eq_refl) as (a & r & Ha & Hr & Hroot & ->). intros [= <-]. eauto 10.
  - destruct (proj1 (Hc c) eq_refl) as (a & r & Ha & Hr & Hroot & ->). by intros (_ & _ & _ & ->).
  - done.
  - intros (_ & (a & r & Ha & Hr) & Hroot & _). by discriminate (proj2 (Hc _) (ex_intro _ a (ex_intro _ r
      (conj Ha (conj Hr (conj Hroot eq_refl)))))).
Qed.

(** uninstalllitmus.go: like [Litmus.NewInstallLitmusHandler]. *)
Definition NewUninstallLitmusHandler (helm : option (Litmus.Helm (W := W))) : option Litmus.InstallLitmusHandler :=
  match helm with None => None | Some _ => Some (Litmus.mkInstall true) end.
End helm.

Section without.
Context {W Chart X : Type} `{OCIStore W} `{Formats Chart}.
Context (NewOCIStore : string -> result W) (orasPull : string -> W -> W * result Descriptor)
  (url_err : string -> option string) (mergeValues : option string) (parseInto : string -> option string)
  (runInstall : string -> string -> Chart -> X -> X * option string)
  (runUninstall : string -> X -> X * option string).

(** The two handlers as the server sees them. *)
Definition install_api (ilh : option Litmus.InstallLitmusHandler) : Web.ApiHandler (Litmus.HelmState W X) :=
  Litmus.installHandle NewOCIStore orasPull url_err mergeValues parseInto runInstall ilh.
Definition uninstall_api (ulh : option Litmus.InstallLitmusHandler) : Web.ApiHandler (Litmus.HelmState W X) :=
  Litmus.uninstallHandle runUninstall ulh.

(** Without a Helm the agent still offers the operator: the nil handlers pass
    the check of the server, and an authentic request to install a version or
    to uninstall panics instead of being refused. *)
Theorem without_helm_requests_panic e text r (s : Litmus.HelmState W X) :
  unmarshalRequest text = Some r -> accepted e.(keys) r -> is_Some (r.(Params) !! "version") ->
  let ilh := Litmus.NewInstallLitmusHandler (None : option (Litmus.Helm (W := W))) in
  let ulh := NewUninstallLitmusHandler (None : option (Litmus.Helm (W := W))) in
  is_Some (Web.NewServerRequestHandler (Web.Pointer ilh)) /\
  is_Some (Web.NewServerRequestHandler (Web.Pointer ulh)) /\
  Web.serverHandle (H := install_api ilh) BuildInterceptor e text s = Panics Litmus.nilPointer /\
  Web.serverHandle (H := uninstall_api ulh) BuildInterceptor e text s = Panics Litmus.nilPointer.
Proof.
  intros Hu Ha [v Hv]. split_and!; try by eexists.
  all: unfold Web.serverHandle; rewrite Hu, (proj2 (Handle_accepted e r) Ha); try done.
  unfold Web.api_handle, install_api, Litmus.installHandle. by rewrite Hv.
Qed.
End without.

(** ** Examples *)

Module Demo.
Import Registry.Demo.

#[export] Instance no_auth : AuthClient unit unit :=
  mkAuthClient unit unit (fun _ => Ok tt) (fun _ => Ok tt) (fun _ _ _ _ _ a => (a, None)) (fun _ _ a => (a, None)).
Definition cache_path (parts : list string) : string := "/root/.cache/helm/" +:+ Join parts "/".
Definition keys_of (m : gmap string (gmap string string)) : list string := (map_to_list m).*1.
Definition other_ref : Reference := mkReference "0.9" "hub/litmus".
Definition saved_twice : Client MemStore := run saved (save saved other_ref).
Definition table_of (c : Client MemStore) : outcome (Client MemStore * result (list (list string))) :=
  getChartTableRows (Chart := unit) open_empty (fun _ => None) FormatInt 7 keys_of c.
Definition two_rows : list (list string) :=
  [["hub/litmus:0.9"; "litmus"; "1.0"; "manifest"; "3 B"; "7"];
   ["hub/litmus:1.0"; "litmus"; "1.0"; "manifest"; "3 B"; "7"]].

Example table_of_two : table_of saved_twice = Returns (saved_twice, Ok two_rows).
Proof. vm_compute. reflexivity. Qed.

(** An index that another tool wrote may hold a name that is not printed the
    way it was written: the fetch then finds nothing, and the table panics on
    the missing chart. *)
Definition foreign : Client MemStore :=
  mkClient "" (with_store ([annotated "hub/litmus:" layer], ∅) (mkCache false Discard "/root" None)).
Example foreign_name_panics : table_of foreign = Panics Litmus.nilPointer.
Proof. vm_compute. reflexivity. Qed.
End Demo.
Import Registry.Demo Demo.

Lemma chart_table_lists_witness :
  StronglySorted String.le (map (hd "") Demo.two_rows) /\ NoDup (map (hd "") Demo.two_rows).
Proof.
  destruct (chart_table_lists (Chart := unit) Registry.Demo.open_empty (fun _ => None) FormatInt 7 Demo.keys_of
    (fun m => reflexivity _) Demo.saved_twice Demo.saved_twice Demo.saved_twice.(cache)
    (default ([], ∅) Demo.saved_twice.(cache).(ociStore)) Demo.two_rows) as (Hs & Hn & _).
  - vm_compute. reflexivity.
  - vm_compute. reflexivity.
  - exact (conj Hs Hn).
Defined.

Definition install_sent : Request := AddHeader (signedRequest demo_env Litmus.install_request) "rid" "7".

Lemma without_helm_requests_panic_witness :
  Web.serverHandle (H := install_api (Chart := unit) Registry.Demo.open_empty Registry.Demo.pull (fun _ => None) None
      (fun _ => None) (fun _ _ _ x => (S x, None))
      (Litmus.NewInstallLitmusHandler (None : option (Litmus.Helm (W := MemStore)))))
    BuildInterceptor demo_env (marshalRequest install_sent) Litmus.demo_helm =
  Panics Litmus.nilPointer.
Proof.
  assert (Hw : unmarshalRequest (marshalRequest install_sent) = Some install_sent) by (vm_compute; reflexivity).
  assert (Ha : accepted demo_env.(keys) install_sent)
    by (apply signedRequest_accepted; by apply (bool_decide_unpack _); vm_compute).
  assert (Hv : is_Some (install_sent.(Params) !! "version")) by by eexists.
  refine (proj1 (proj2 (proj2 (without_helm_requests_panic (Chart := unit) Registry.Demo.open_empty
      Registry.Demo.pull (fun _ => None) None (fun _ => None) (fun _ _ _ x => (S x, None)) (fun _ x => (x, None))
      demo_env (marshalRequest install_sent) install_sent Litmus.demo_helm Hw Ha Hv)))).
Defined.
End ChartClient.
