(* ===== verification/Startup.v ===== *)
(** * Start of the agent

    [SetOthersByFlags] and [NewOptions] of options.go, pkg/log, pkg/kubernetes
    and [main] of cmd/chaos_agent.go, which runs the parts in order.  What the
    operating system, the flag library and the client library answer are
    arguments. *)

From S2P Require Import Prelude GoStrings Options Net Files Tools Transport HttpClient Conn Metric Web Registry Litmus ChartClient.
Local Open Scope Z_scope.

Module Startup.
Import Options Tools Transport.

(** ** Running or ending *)

(** A step of the start goes on, ends the process with a code, or panics; the
    files are there in each case. *)
Inductive life (A : Type) : Type :=
| Goes (a : A)
| Exits (code : Z) (os : OS)
| Crashes (why : string).
Arguments Goes {A} a.
Arguments Exits {A} code os.
Arguments Crashes {A} why.
#[global] Instance life_ret : MRet life := fun A => Goes.
#[global] Instance life_bind : MBind life := fun A B f m =>
  match m with Goes a => f a | Exits code os => Exits code os | Crashes why => Crashes why end.
Definition lift {A} (m : outcome A) : life A :=
  match m with Returns a => Goes a | Panics why => Crashes why | Blocks => Crashes "all goroutines are asleep" end.

Lemma life_bind_goes {A B} (m : life A) (f : A -> life B) b :
  (m ≫= f) = Goes b -> exists a, m = Goes a /\ f a = Goes b.
Proof. destruct m; cbn; intros H; naive_solver. Qed.

(** ** bladeoptions.go *)

(** The control script beside the program, if it is there. *)
Definition CtlPathFunc (absDir : result string) (os : OS) : string :=
  match absDir with
  | Err _ => ""
  | Ok dir => if IsExist os (Files.pathJoin dir CtlForChaos) then Files.pathJoin dir CtlForChaos else ""
  end.

(** The agent answers that it was uninstalled exactly when the control script
    lies beside it and [chaosctl.sh uninstall] ended without an error. *)
Theorem uninstall_runs_script absDir os sh request :
  (Web.UninstallHandle os sh (CtlPathFunc absDir os) request).(Success) = true <->
  exists dir, absDir = Ok dir /\
    let script := Files.pathJoin dir CtlForChaos in
    IsExist os script = true /\ (sh (script +:+ " uninstall")).2 = None.
Proof.
  unfold Web.UninstallHandle, CtlPathFunc. destruct absDir as [dir|]; [|by split; [|intros (? & [=] & _)]].
  destruct (IsExist os (Files.pathJoin dir CtlForChaos)) eqn:Ex; cbn [orb].
  2: { split; [done|]. intros (? & [= <-] & H & _). by rewrite Ex in H. }
  rewrite Ex. destruct (eqb_spec_s (Files.pathJoin dir CtlForChaos) "") as [E|_];
    [by apply Files.pathJoin_nonempty in E|]. cbn [orb negb].
  unfold ExecScript. rewrite Ex. cbn [negb].
  change (Files.pathJoin dir CtlForChaos +:+ " " +:+ "uninstall") with (Files.pathJoin dir CtlForChaos +:+ " uninstall").
  destruct (sh _) as [output [err|]] eqn:Es; cbn; split; try done.
  - intros (? & [= <-] & _ & H). by rewrite Es in H.
  - intros _. exists dir. by rewrite Es.
Qed.

(** ** options.go *)

Record Machine := mkMachine {
  Getpid : Z;
  Interfaces : result (list Net.Interface);
  Hostname : result string
}.
Definition GetPid (m : Machine) : string := FormatInt m.(Getpid).
Definition GetHostName (m : Machine) : string := match m.(Hostname) with Ok name => name | Err _ => "" end.

(** [parsed] are the options after the flags were read. *)
Definition NewOptions (os : OS) (parsed : result Options) : life Options :=
  match parsed with
  | Err _ => Exits 1 os
  | Ok o => if o.(Help) then Exits 0 os else Goes o
  end.

(** The address: the user's if it is valid, or the first one found. *)
Definition chooseIp (m : Machine) (os : OS) (o : Options) : life string :=
  if negb (o.(LocalIp) ==s "") then
    if negb (Net.isValidIP o.(LocalIp)) then Exits 1 os else Goes o.(LocalIp)
  else match Net.GetPrivateIp m.(Interfaces) with
       | None => Exits 1 os
       | Some ip => Goes ip
       end.

Definition SetOthersByFlags (m : Machine) (AppFile : string) (flip : bool) (sh : shell) (os : OS) (o : Options)
    : life (OS * Options) :=
  let cfg := o.(TransportCfg) in
  let o := set_TransportCfg (mkTransportConfig o.(Environment) cfg.(Endpoint) cfg.(Timeout) cfg.(Secure)) o in
  let o := set_Uid "" (set_VpcId o.(License) (set_IsVpc false (set_Pid (GetPid m) o))) in
  ip ← chooseIp m os o;
  let o := set_Version "1.1.0" (set_InstanceId (GetHostName m) (set_HostName (GetHostName m) (set_Ip ip o))) in
  let '(os, o, _) := InitApplicationInfo AppFile flip os o o.(ApplicationInstance) o.(ApplicationGroup) in
  match GetChaosBladeVersion os sh with
  | Err _ => Exits 1 os
  | Ok version => Goes (os, set_ChaosbladeVersion version o)
  end.

(** ** pkg/log *)

Inductive LogTarget := Stderr | Stdout | LogFile (Filename : string) (MaxSize MaxBackups MaxAge : Z).
Record Logger (Lv : Type) := mkLogger { log_level : Lv; log_target : LogTarget }.
Arguments mkLogger {Lv} _ _.
Arguments log_level {Lv} _.
Arguments log_target {Lv} _.

(** [ParseLevel] and [InfoLevel] are the log library's.  [None] ends the
    process. *)
Definition InitLog {Lv} (ParseLevel : string -> option Lv) (InfoLevel : Lv) (absDir : result string)
    (p : Files.Paths) (cfg : LogConfig) (l : Logger Lv) : option (Logger Lv * Files.Paths) :=
  let l := mkLogger (default InfoLevel (ParseLevel cfg.(Level))) l.(log_target) in
  if cfg.(LogOutput) ==s "file" then
    '(fileName, p) ← Files.GetAgentLogFilePath absDir p;
    Some (mkLogger l.(log_level) (LogFile fileName cfg.(MaxFileSize) cfg.(MaxFileCount) 2), p)
  else if cfg.(LogOutput) ==s "stdout" then Some (mkLogger l.(log_level) Stdout, p)
  else Some (l, p).

(** ** pkg/kubernetes *)

Record Channel (CS : Type) := mkChannel { ClientSet : option CS }.
Arguments mkChannel {CS} _.
Arguments ClientSet {CS} _.

Section k8s.
Context {CS : Type}.
(** [rest.InClusterConfig], of which the host is read, and
    [kubernetes.NewForConfig]. *)
Variable InClusterConfig : result string.
Variable NewForConfig : string -> result CS.

Definition NewK8sClient (o : Options) : Options * result CS :=
  match InClusterConfig with
  | Err err => (o, Err err)
  | Ok host =>
      let defaultClusterId := if host ==s "" then "default-cluster" else "API_SERVER_" +:+ host in
      (SetClusterIdIfNotPresent o defaultClusterId, NewForConfig host)
  end.

(** The variables of the package: the channel, and whether [once] has run. *)
Record instance := mkInstance { channel : option (Channel CS); once : bool }.
Definition GetInstance (i : instance) (o : Options) : option (Channel CS) * instance * Options :=
  if i.(once) then (i.(channel), i, o)
  else
    let ch := match i.(channel) with None => mkChannel None | Some ch => ch end in
    let '(o, r) := NewK8sClient o in
    let ch := match r with Err _ => ch | Ok clientset => mkChannel (Some clientset) end in
    (Some ch, mkInstance (Some ch) true, o).

(** The options after the first call. *)
Definition clusterNamed (o : Options) : Options :=
  match InClusterConfig with
  | Ok host => if o.(ClusterId) ==s ""
               then set_ClusterId (if host ==s "" then "default-cluster" else "API_SERVER_" +:+ host) o else o
  | Err _ => o
  end.
Lemma GetInstance_first o i' o' ch :
  GetInstance (mkInstance None false) o = (ch, i', o') ->
  (exists c, ch = Some c /\
     (c.(ClientSet) <> None <-> exists host cs, InClusterConfig = Ok host /\ NewForConfig host = Ok cs)) /\
  o' = clusterNamed o.
Proof.
  unfold GetInstance, NewK8sClient, clusterNamed. cbn. destruct InClusterConfig as [host|err].
  - unfold SetClusterIdIfNotPresent. destruct (NewForConfig host) as [cs|err] eqn:En; intros [= <- <- <-];
      (split; [|by destruct (ClusterId o ==s "")]); eexists; (split; [done|]).
    + split; [intros _; by exists host, cs|done].
    + split; [done|]. intros (h & cs & [= <-] & ?). congruence.
  - intros [= <- <- <-]. split; [|done]. eexists. split; [done|]. split; [done|]. by intros (h & cs & ? & _).
Qed.

(** The cluster client is made once: every later call gives the same
    channel, which is never nil, and leaves the options alone; the channel has
    a client exactly when the configuration and the client could be made, and
    the cluster id is taken from the configuration only when none was given,
    also when making the client fails. *)
Theorem GetInstance_once o i' o' ch :
  GetInstance (mkInstance None false) o = (ch, i', o') ->
  (forall o2, GetInstance i' o2 = (ch, i', o2)) /\
  (exists c, ch = Some c /\
     (c.(ClientSet) <> None <-> exists host cs, InClusterConfig = Ok host /\ NewForConfig host = Ok cs)) /\
  o' = clusterNamed o.
Proof.
  intros E. destruct (GetInstance_first _ _ _ _ E) as [Hc ->]. split_and!; [|done|done].
  unfold GetInstance in E. cbn in E. destruct (NewK8sClient o) as [o2 r]. by injection E as <- <- _.
Qed.
End k8s.
Arguments instance CS : clear implicits.

(** ** cmd/chaos_agent.go *)

Definition handlerErr {A} (os : OS) : life A := let '(os, _) := Web.writePid os (-1) in Exits 1 os.
Definition handlerSuccess (m : Machine) (os : OS) : life OS :=
  match Web.writePid os m.(Getpid) with
  | (os, None) => Goes os
  | (_, Some err) => Crashes ("write pid: " +:+ Web.pidFile +:+ " failed. " +:+ err)
  end.

(** The constructor of litmuschaos.go: outside a cluster, or without a client,
    the handler is a nil pointer. *)
Definition NewLitmusChaosHandler {CS LS} (InClusterConfig : result string) (NewForConfig : string -> result LS)
    (k8sInstance : option (Channel CS)) : option unit :=
  match InClusterConfig ≫= NewForConfig, k8sInstance with
  | Ok _, Some _ => Some tt
  | _, _ => None
  end.

(** The handlers [API.Register] makes, in the order of [Web.apiNames]; the last
    three are pointers that may be nil. *)
Inductive ApiServerHandler :=
| ApiChaosblade
| ApiPing
| ApiUninstall
| ApiUpdate
| ApiLitmus (lh : option unit)
| ApiInstallLitmus (ilh : option Litmus.InstallLitmusHandler)
| ApiUninstallLitmus (ulh : option Litmus.InstallLitmusHandler).
Definition apiHandlers {CS LS W} (InClusterConfig : result string) (LitmusForConfig : string -> result LS)
    (k8sInstance : option (Channel CS)) (helm : option (Litmus.Helm (W := W))) : list ApiServerHandler :=
  [ApiChaosblade; ApiPing; ApiUninstall; ApiUpdate;
   ApiLitmus (NewLitmusChaosHandler InClusterConfig LitmusForConfig k8sInstance);
   ApiInstallLitmus (Litmus.NewInstallLitmusHandler helm);
   ApiUninstallLitmus (ChartClient.NewUninstallLitmusHandler helm)].

(** What [main] has set up when it waits for signals. *)
Record booted (CS C W : Type) := mkBooted {
  b_os : OS;
  b_opts : Options;
  b_client : HttpClient.HttpClient;
  b_uris : gmap string Uri;
  b_channel : option (Channel CS);
  b_metrics : Metric.ReportMetricConfigMap C;
  b_helm : option (Litmus.Helm (W := W));
  b_conn : Conn.procs;
  b_mux : gmap string ApiServerHandler
}.
Arguments mkBooted {CS C W} _ _ _ _ _ _ _ _ _.
Arguments b_os {CS C W} _.
Arguments b_opts {CS C W} _.
Arguments b_client {CS C W} _.
Arguments b_uris {CS C W} _.
Arguments b_channel {CS C W} _.
Arguments b_metrics {CS C W} _.
Arguments b_conn {CS C W} _.
Arguments b_helm {CS C W} _.
Arguments b_mux {CS C W} _.

Section main.
Context {Lv CS LS C W A R : Type} `{ChartClient.AuthClient A R}.
(** Answers of the libraries and of the machine; [starts] is what the [Start]
    of the three clients return. *)
Variables (m : Machine) (AppFile : string) (flip : bool) (sh : shell).
Variables (ParseLevel : string -> option Lv) (InfoLevel : Lv) (absDir : result string).
Variables (InClusterConfig : result string) (NewForConfig : string -> result CS).
Variables (LitmusForConfig : string -> result LS).
Variables (podCollector : option (Channel CS) -> C) (starts : string -> option string).
Variables (CachePath : list string -> string) (setting : ChartClient.EnvSettings)
  (actionInit : string -> string -> option string) (HELM_DRIVER : string).

Definition helmInstance : option (Litmus.Helm (W := W)) :=
  ChartClient.GetHelmInstance CachePath setting actionInit HELM_DRIVER
    Litmus.LitmusHelmName Litmus.LitmusHelmNamespace (Registry.WriterTo "buf").

Definition main (os : OS) (parsed : result Options) : life (booted CS C W) :=
  o ← NewOptions os parsed;
  match InitLog ParseLevel InfoLevel absDir (Files.mkPaths "" "" "" "") o.(LogCfg) (mkLogger InfoLevel Stderr) with
  | None => Exits 1 os
  | Some _ =>
      '(os, o) ← SetOthersByFlags m AppFile flip sh os o;
      match HttpClient.NewHttpClient o o.(TransportCfg) with
      | Err _ => handlerErr os
      | Ok clientInstance =>
          let uris := InitTransprotUri o in
          let '(ch, _, o) := GetInstance InClusterConfig NewForConfig (mkInstance None false) o in
          metrics ← lift (Metric.InitMetricConfig (Metric.New C) (podCollector ch) o.(PodMetricFlag));
          let h := helmInstance in
          let conn := Conn.Register Conn.NewConn API_REGISTRY (starts API_REGISTRY) in
          let conn := Conn.Register conn API_HEARTBEAT (starts API_HEARTBEAT) in
          let conn := Conn.Register conn "metric" (starts "metric") in
          '(mux, err) ← lift (Web.Register (apiHandlers InClusterConfig LitmusForConfig ch h));
          match err with
          | Some _ => handlerErr os
          | None =>
              os ← handlerSuccess m os;
              Goes (mkBooted os o clientInstance uris ch metrics h (Conn.Start conn) mux)
          end
      end
  end.

(** The server that listens in its own goroutine may fail at any time after
    that. *)
Definition listenFails (b : booted CS C W) : life (booted CS C W) := handlerErr b.(b_os).

(** ** What a started agent is *)

Lemma InitApplicationInfo_options os o i g : (InitApplicationInfo AppFile flip os o i g).1.2 = o.
Proof.
  unfold InitApplicationInfo. destruct (_ && _ && _); [by destruct (ReadAppInfoFromFile AppFile os) as [[]|]|].
  by destruct (RecordApplicationToFile _ _ _ _ _ _).
Qed.

(** Addresses of the machine are lists of bytes. *)
Definition interfaces_ok (r : result (list Net.Interface)) : Prop :=
  forall ifs, r = Ok ifs ->
    Forall (fun i => forall addrs, i.(Net.Addrs) = Ok addrs ->
      Forall (fun a => match Net.addrIP a with Some b => Forall Net.octet b | None => True end) addrs) ifs.

Lemma GetPrivateIp_accepted ifs ip :
  interfaces_ok (Ok ifs) -> Net.GetPrivateIp (Ok ifs) = Some ip -> Net.isValidIP ip = true.
Proof.
  intros Hok. specialize (Hok ifs eq_refl). cbn. induction Hok as [|i ifs Hi _ IH]; cbn; [done|].
  destruct (negb (Net.FlagUp i)); [done|]. destruct (Net.FlagLoopback i); [done|].
  destruct (Net.Addrs i) as [addrs|]; [|done]. destruct (Net.firstAddr addrs) as [ip'|] eqn:Ef; [|done].
  intros [= ->]. destruct (Net.firstAddr_valid addrs ip (Hi _ eq_refl) Ef) as (ip4 & H4 & Hf & _ & ->).
  destruct ip4 as [|a [|b [|c [|d [|]]]]]; try done. repeat apply Forall_cons in Hf as [? Hf].
  by apply Net.isValidIP_dotted.
Qed.

Lemma chooseIp_valid os o ip : interfaces_ok m.(Interfaces) -> chooseIp m os o = Goes ip ->
  Net.isValidIP ip = true /\ (o.(LocalIp) <> "" -> ip = o.(LocalIp)).
Proof.
  intros Hok. unfold chooseIp. destruct (eqb_spec_s (LocalIp o) "") as [E|E]; cbn [negb].
  - destruct (Interfaces m) as [ifs|]; [|done]. destruct (Net.GetPrivateIp (Ok ifs)) as [ip'|] eqn:Eg; [|done].
    intros [= ->]. split; [by eapply GetPrivateIp_accepted|done].
  - destruct (Net.isValidIP (LocalIp o)) eqn:Ev; [|done]. by intros [= <-].
Qed.

Lemma SetOthersByFlags_sets os o os' o' : interfaces_ok m.(Interfaces) ->
  SetOthersByFlags m AppFile flip sh os o = Goes (os', o') ->
  Net.isValidIP o'.(Options.Ip) = true /\ (o.(LocalIp) <> "" -> o'.(Options.Ip) = o.(LocalIp)) /\
  o'.(Options.Pid) = FormatInt m.(Getpid) /\ o'.(Options.VpcId) = o.(License) /\
  o'.(TransportCfg).(tc_Environment) = o.(Environment) /\ o'.(TransportCfg).(Endpoint) = o.(TransportCfg).(Endpoint) /\
  GetChaosBladeVersion os' sh = Ok o'.(ChaosbladeVersion).
Proof.
  intros Hok. unfold SetOthersByFlags. intros (ip & Hip & Hx)%life_bind_goes.
  apply chooseIp_valid in Hip as [Hv Hl]; [|done].
  match type of Hx with context [InitApplicationInfo AppFile flip os ?o1 ?i ?g] =>
    pose proof (InitApplicationInfo_options os o1 i g) as Ho;
    destruct (InitApplicationInfo AppFile flip os o1 i g) as [[os1 o2] names] end.
  cbn [fst snd] in Ho. subst o2. destruct (GetChaosBladeVersion os1 sh) as [version|] eqn:Ev; [|done].
  injection Hx as <- <-. cbn. done.
Qed.

Lemma handlerSuccess_pid os os' : handlerSuccess m os = Goes os' ->
  exists tail, os'.(files) !! Web.pidFile = Some (FormatInt m.(Getpid) +:+ tail).
Proof.
  unfold handlerSuccess. destruct (Web.writePid os (Getpid m)) as [os1 [err|]] eqn:E; [done|]. intros [= ->].
  apply Web.writePid_leaves_tail in E as [-> _]. by eexists.
Qed.

(** C22. When [main] waits for signals the agent is complete: its address is a
    valid one and the user's if he gave one, the process id, the environment
    and the version of blade are set, there is an endpoint, the channel to the
    cluster has a client exactly when one could be made, the three clients of
    the server are about to start, every handler, with the Helm there is, is
    reachable under its path, and the pid file starts with the process id. *)
Theorem main_boots os o b : interfaces_ok m.(Interfaces) ->
  main os (Ok o) = Goes b ->
  o.(Help) = false /\ o.(TransportCfg).(Endpoint) <> "" /\
  Net.isValidIP b.(b_opts).(Options.Ip) = true /\ (o.(LocalIp) <> "" -> b.(b_opts).(Options.Ip) = o.(LocalIp)) /\
  b.(b_opts).(Options.Pid) = FormatInt m.(Getpid) /\ b.(b_opts).(Options.VpcId) = o.(License) /\
  (exists c, b.(b_channel) = Some c /\
     (c.(ClientSet) <> None <-> exists host cs, InClusterConfig = Ok host /\ NewForConfig host = Ok cs)) /\
  b.(b_helm) = helmInstance /\
  b.(b_conn).(Conn.starters) = Conn.Starting <$> <["metric" := starts "metric"]>
    (<[API_HEARTBEAT := starts API_HEARTBEAT]> {[API_REGISTRY := starts API_REGISTRY]}) /\
  (forall i name h, Web.apiNames !! i = Some name -> apiHandlers InClusterConfig LitmusForConfig b.(b_channel) b.(b_helm) !! i = Some h ->
     b.(b_mux) !! ("/" +:+ name) = Some h) /\
  exists tail, b.(b_os).(files) !! Web.pidFile = Some (FormatInt m.(Getpid) +:+ tail).
Proof.
  intros Hok. unfold main. intros (o1 & Hn & Hx)%life_bind_goes. cbn in Hn.
  destruct (Help o) eqn:Eh; [done|]. injection Hn as <-.
  destruct (InitLog _ _ _ _ _ _) as [l|]; [|done].
  apply life_bind_goes in Hx as ([os1 o1] & Hs & Hx). apply SetOthersByFlags_sets in Hs as (Hv & Hl & Hp & Hvpc & _ & He & _); [|done].
  destruct (HttpClient.NewHttpClient o1 (TransportCfg o1)) as [ci|] eqn:Ec; [|unfold handlerErr in Hx; by destruct (Web.writePid os1 (-1))].
  destruct (GetInstance InClusterConfig NewForConfig (mkInstance None false) o1) as [[ch i] o2] eqn:Ek.
  apply GetInstance_first in Ek as (Hch & ->).
  apply life_bind_goes in Hx as (metrics & _ & Hx). apply life_bind_goes in Hx as ([mux err] & Hmux & Hx).
  destruct (Web.Register_routes (apiHandlers InClusterConfig LitmusForConfig ch helmInstance)) as (mux' & Er & Hr).
  rewrite Er in Hmux. cbn in Hmux. injection Hmux as <- <-.
  apply life_bind_goes in Hx as (os2 & Hpid & Hx). injection Hx as <-. cbn [b_opts b_channel b_helm b_conn b_mux b_os].
  assert (Ho2 : let o2 := clusterNamed InClusterConfig o1 in o2.(Options.Ip) = o1.(Options.Ip) /\
    o2.(Options.Pid) = o1.(Options.Pid) /\ o2.(Options.VpcId) = o1.(Options.VpcId)).
  { unfold clusterNamed. destruct InClusterConfig; [|done]. by destruct (ClusterId o1 ==s ""). }
  destruct Ho2 as (-> & -> & ->). split_and!; try done.
  - intros E. unfold HttpClient.NewHttpClient in Ec. rewrite He, E in Ec. done.
  - by eapply handlerSuccess_pid.
Qed.

(** A server that cannot listen after the pid was written leaves a pid file
    that is neither the pid nor -1, as soon as the pid has more than two
    digits. *)
Lemma late_listen_failure b pid : b.(b_os).(files) !! Web.pidFile = Some pid -> (2 < String.length pid)%nat ->
  b.(b_os).(open_err) Web.pidFile = None -> b.(b_os).(write_err) Web.pidFile 0 = None ->
  exists os, listenFails b = Exits 1 os /\ os.(files) !! Web.pidFile = Some ("-1" +:+ drop_s 2 pid) /\
    os.(files) !! Web.pidFile <> Some "-1".
Proof.
  intros Hf Hl Ho Hw. unfold listenFails, handlerErr, Web.writePid. rewrite Ho, Hw, Hf.
  eexists. split; [reflexivity|]. cbn [files with_files]. rewrite lookup_insert_eq. split; [done|].
  change (FormatInt (-1)) with "-1". unfold overwrite. cbn [default].
  destruct pid as [|c1 [|c2 [|c3 pid]]]; cbn in Hl; try lia. done.
Qed.
End main.

(** ** Examples *)

Definition demo_machine : Machine := mkMachine 4711 (Ok Net.demo_ifs) (Ok "node-1").
Definition demo_disk : OS := mkOS {[BladeBinPath := "ELF"]} (fun _ => None) (fun _ _ => None).
Definition demo_blade : shell := fun _ => ("Version: 1.7.0", None).
Definition demo_parsed : Options :=
  set_TransportCfg (mkTransportConfig "" "10.0.0.1:7001" (3 * second) true) AddFlags.
Definition demo_settings : ChartClient.EnvSettings := ChartClient.mkSettings false "".
Import ChartClient.Demo.
Notation demo_main :=
  (main (W := Registry.Demo.MemStore) demo_machine "/root/.chaos.app" false demo_blade (fun _ => Some 4%nat) 4%nat (Ok "/opt/chaos")
    (Ok "10.96.0.1") (fun _ => Ok tt) (fun _ => Ok tt) (fun _ => tt) (fun _ => None) ChartClient.Demo.cache_path
    demo_settings (fun _ _ => None) "" demo_disk (Ok demo_parsed)).

Lemma demo_interfaces_ok : interfaces_ok demo_machine.(Interfaces).
Proof.
  intros ifs [= <-].
  repeat (constructor; [intros addrs [= <-];
    repeat (constructor; [repeat (constructor; [unfold Net.octet; lia|]); constructor|]); constructor|]).
  constructor.
Qed.

Lemma main_boots_witness : exists b, demo_main = Goes b /\ Net.isValidIP b.(b_opts).(Options.Ip) = true.
Proof.
  destruct demo_main as [b|code os|why] eqn:E; try (vm_compute in E; discriminate E).
  exists b. split; [reflexivity|].
  destruct (main_boots demo_machine "/root/.chaos.app" false demo_blade (fun _ => Some 4%nat) 4%nat (Ok "/opt/chaos")
    (Ok "10.96.0.1") (fun _ => Ok tt) (fun _ => Ok tt) (fun _ => tt) (fun _ => None) ChartClient.Demo.cache_path
    demo_settings (fun _ _ => None) "" demo_disk demo_parsed b demo_interfaces_ok E) as (_ & _ & Hv & _). exact Hv.
Defined.

Lemma GetInstance_once_witness :
  (GetInstance (Ok "10.96.0.1") (fun _ => Ok tt) (mkInstance None false) AddFlags).2.(ClusterId) = "API_SERVER_10.96.0.1".
Proof.
  destruct (GetInstance_once (Ok "10.96.0.1") (fun _ => Ok tt) AddFlags
    (mkInstance (Some (mkChannel (Some tt))) true) (set_ClusterId "API_SERVER_10.96.0.1" AddFlags)
    (Some (mkChannel (Some tt)))) as (_ & _ & H); reflexivity.
Defined.
End Startup.
